(* ===== verification/_CoqProject ===== *)
-Q . S2P
Prelude.v
Interleave.v
UnicodeTables.v
GoStrings.v
GoStd.v
JsonText.v
GoNumber.v
GoUrl.v
GoNet.v
Crypto.v
Types.v
GoHttp.v
Decision.v
Policy.v
Token.v
Cache.v
Json.v
Utf8Valid.v
Codec.v
Bodies.v
Ip.v
Pipeline.v
Fingerprint.v
Behavior.v
Challenge.v
Client.v
Headers.v
Observability.v
Metrics.v
Cli.v
Commands.v
Proxy.v
ClientHello.v
ClientHelloWire.v
Server.v
Lifecycle.v
TlsFingerprint.v
Http2Frames.v
Http2Wire.v
Http2.v
Api.v
Wire.v
Sdk.v
Deploy.v
Concurrent.v
