(* ===== verification/Prelude.v ===== *)
(** * anti-scrapling: a verification library

    ** The program

    anti-scrapling (Go) is a reverse proxy that tells browsers from scrapers.  For each request the
    main handler ([cmd/antiscrapling/wire.go]) builds a request context, checks the pass token in the
    cookie ([internal/token]) and asks the pipeline ([internal/pipeline]) for a decision.  The
    pipeline looks in a cache ([internal/cache]), else runs the signal collectors in parallel:
    TLS fingerprints of the raw ClientHello ([internal/signal/tls]), header checks
    ([internal/signal/headers]), HTTP/2 and JA4H fingerprints ([internal/signal/http2]), address
    reputation ([internal/signal/ip]) and stored behaviour beacons ([internal/challenge],
    [internal/signal/behavior]).  The signals' scores are weighted, summed and combined with the
    policy's rules ([internal/policy], [internal/decision]) into allow, challenge or deny; the
    decision is recorded ([internal/observability]).  A challenged visitor solves a proof of work
    and reports a browser fingerprint ([internal/signal/fingerprint]) to the challenge service
    ([internal/challenge]), which issues a pass token.  A second listener serves probes, the audit log and
    a decision endpoint for SDKs ([internal/api]); a command-line tool works on policies, tokens and
    fingerprint reports ([cmd/antiscrapling-cli]).

    ** The library

    - [Prelude]: outcomes of Go code (value, error or panic) with their monad, 64-bit and
      narrower integers with wrap-around, bounds-checked indexing and slicing, tactics.
    - [Interleave]: objects shared by goroutines whose methods take their locks more than once, their histories, and
      linearizability from a simulation of one call at a time.
    - [UnicodeTables], [GoStrings], [GoStd], [GoUrl], [GoNet], [GoHttp]: the parts of Go's standard library the
      code calls (UTF-8, case mapping, quoting, sorting, float64, [path.Match], durations,
      [SplitHostPort], query strings, [url.Parse], addresses and prefixes, cookies, [ServeMux]);
      [Utf8Valid]: valid text survives coercion; [Crypto]: SHA-256 and MD5, executable.
    - [JsonText], [GoNumber], [Codec], [Bodies]: [encoding/json].  [JsonText] scans, unquotes and prints JSON text,
      [GoNumber] converts number literals to integers and floats, [Codec] describes how a Go type is decoded from a
      value and printed (fields matched by tag or folded name, last one wins, unknown ones skipped), and [Bodies] has the codecs of
      the request bodies.  Lemmas: printed text is scanned back, and each codec reads what it wrote.
    - [Types]: [internal/types] and HTTP headers and requests as records.
    - [Decision]: [Combine].  Theorems: which requests are allowed, the exact clamped score under
      overflow, monotonicity of the verdict, independence of the signals' order.
    - [Policy]: compiler, evaluator and validator, over an abstract CEL engine (classes [CEL], [CELTotal]).
      Theorems: quoting of match values, which match maps compile, first-match evaluation and
      its errors, validated configurations evaluate, family matching.
    - [Token]: issuing, binding and verification over a JWT library (classes [JWT], [JWTLaws]), the
      key file, cookies.  Theorem: an issued token verifies exactly until it expires and for the client it is bound to.
    - [Cache]: the interface as a class ([CacheIf], [CacheSpec]), the memory cache over an LRU library
      (classes [LRU], [LRULaws]), Redis, the factory.  Theorem: the memory cache is linearizable to a map with expiry.
    - [Json]: decisions as the JSON text the cache keeps.
    - [Pipeline]: [Decide], the collectors' goroutines as a step relation.  Theorems: every schedule ends
      with the sequential result, cache keys separate requests (but for a collision of the two key texts at hand), a
      decision is served from the memory cache until it expires whatever is decided in between, as long as nothing
      is evicted, policy errors fall back to thresholds.
    - [Fingerprint], [Behavior]: the probes and checks.  Theorems: bounds and tables of scores, which
      beacons get which signals, the iPhone false positive.
    - [Challenge]: identifiers, proof of work, beacon store, handlers.  Theorems: proof of work as
      a bound on the digest, identifiers validate once when calls do not overlap, when a token is issued, the beacon windows,
      the unescaped origin.
    - [Client]: the solver of the challenge page and what a browser posts.  Theorems: the solver finds the least nonce the
      server accepts, a beacon's text reaches the store as that beacon; the bundled client's body is one the handler always rejects.
    - [Headers]: order, client hints, Sec-Fetch, the referer window.  Theorems: the accepted
      orders, the ring buffers are linearizable to a sliding window with an exact ratio test.
    - [Ip]: ASN lookup with the fallback table, categories, the Tor list, the cached collector.  Theorems: the
      cached collector answers as the plain classification does however calls overlap, which addresses are exits, the
      fallback table is unambiguous.
    - [Observability], [Metrics]: the audit ring buffer and its handler, probes, loggers by their attributes, and the
      Prometheus metrics over classes [Prom] and [PromLaws].  Theorems: [Since] returns the latest entries, counters
      show exactly the recorded events.
    - [Cli]: the commands as functions to the text they print.  Theorems: lint's warnings are exact for repeated
      conditions and miss catch-all rules; tokens issued on the command line verify there.
    - [Commands]: the command tree and the exit status over cobra (classes [Cobra], [CobraLaws]).  Theorem: every command
      line prints and exits with 0 or reports an error and exits with 1.
    - [Proxy]: the director.  Theorem: exactly which headers reach the upstream.
    - [ClientHello], [ClientHelloWire], [TlsFingerprint]: the TLS parser, a reference encoder, JA3,
      JA4 and the collector.  Theorems: no panic on any input, round trip, JA3 identifies the
      hello's content, JA4 ignores order, the collector's signals.
    - [Server]: recording and sharing ClientHellos, TLS configuration, start, the test certificate.  Theorem: a capture
      is the client's hello, from the handshake until the connection closes.
    - [Lifecycle]: the process after start-up as a state machine: [main], three server goroutines, the error channel,
      signals, connections that are busy, and the 15 seconds the calls of [Stop] may wait for them together; nothing
      moves once [main] has returned.  Theorems: readiness, the channel's bound and the order of shutdown; at most 16
      moves apart from traffic (two for each server goroutine, two for each [Stop], one each for readiness, leaving the
      [select], the time limit and the end), and no life is stuck but one that waits with all servers serving.
    - [Http2Frames], [Http2Wire], [Http2]: frames and HPACK names, a reference encoder, Akamai and
      JA4H fingerprints and the collector.  Theorems: no panic, round trip through the dynamic table,
      what the fingerprints depend on, the collector's signals.
    - [Api]: the SDK endpoint.  Theorems: it decides on the request described; tokens through the SDKs.
    - [Wire]: configuration, construction of the dependencies, both multiplexers and their handlers in a state
      monad [W] over the daemon's state [deps]; the process as a list of events ([run]).  Theorems: how start-up ends, the
      challenge keeps the visitor's URI, the page's script is not routed, every proxied request gets the
      header-order signal.
    - [Sdk]: the Node and Python middleware.  Theorems: the Express middleware describes the visitor's request, its
      headers and its pass cookie to the daemon and does with the request what the pipeline decides about it; when a request reaches the application, failures of the daemon included; Python never sends the
      pass token.
    - [Deploy]: the composition, from the state [buildDeps] creates, over any run.  An invariant ([daemon_ok])
      ties the cache's contents to the log of decisions made; runs are traces whose outcomes account for
      every decision and audit entry.  Theorems: every request is answered, the audit log is complete, the
      vocabulary of signals.
    - [Concurrent]: the same daemon when requests overlap.  A handler is a program of atomic actions ([event_prog]) and a
      configuration a pool of programs over the shared state ([cstep]), each with the states it took its steps in, a history
      variable that says which collectors' reports a decision was made from ([collected]).  Theorems, for every schedule: only
      a decision to allow, made from the signals collected for the request or one with its cache key, lets a request
      through; a solved challenge admits; the audit log is complete; every request is answered within 12 steps of its own;
      the sequential runs of [Deploy] are among the schedules; and what overlapping does break, an identifier redeemed twice.

    ** How the model relates to the code

    A definition has the name of the Go function or type it models where that is free, and each loop is a
    fixpoint of its own.  State is passed explicitly; a mutex-protected operation is one step.
    Clock readings, random bytes, identifiers and the bytes of request bodies are arguments.  Loops over input bytes take one
    unit of fuel per byte plus one, and running out of fuel is a [Panic], so the no-panic
    theorems also say that the fuel suffices; JSON is scanned with the nesting limit of 10,000 that [encoding/json]
    has, and the round trips are about values within it.  Third-party code (CEL, JWT, LRU, Redis client, Prometheus, cobra)
    is a class of operations with a class of laws; each theorem that
    uses laws has a witness at a concrete instance.

    In [Wire] and [Deploy] a run is a sequence of requests, each handled in one step.  In [Concurrent] an action is one
    call of a component that locks by itself; the bound of 12 steps of a request is its token check, cache lookup, removal of an
    expired entry, at most five collectors, the decision with its store, metrics, audit log and answer.  One
    goroutine of a collector is one action, which is sound for the collectors that keep state: the beacon store has one lock,
    and the referer tracker and the address cache are linearizable.

    ** Not modelled

    The transport behind [httputil.ReverseProxy], the metrics page, the encoding of log lines and the flag package's parsing
    only call libraries.  Of the browser side of the challenge only the solver and the body it posts are modelled: probing and
    collecting are calls of browser interfaces.  CEL's environment is part of the CEL parameter.  In the SDKs, what the HTTP
    clients and the frameworks provide are arguments.  The 15 seconds of the shutdown are a move
    that can happen at any time after it began, not a clock.  The
    theorems of [Deploy] and [Concurrent] are about the memory cache; a Redis cache shared with other
    processes can hold what this process did not write.  [tools] pins build dependencies and has no code. *)

From stdpp Require Export base tactics option list list_numbers strings pretty gmap numbers sorting.
From Stdlib Require Export ZArith Lia.
From Stdlib Require Export Strings.Byte Strings.Ascii.

#[global] Set Default Goal Selector "!".
#[global] Open Scope Z_scope.

(** ** Outcomes of Go code

    A Go function that may fail returns [(T, error)]; one that indexes or slices may also
    panic.  [Ok] is a normal return, [Err] an error return carrying the error's text, and
    [Panic] a run-time panic. *)
Inductive outcome (A : Type) : Type :=
| Ok (a : A)
| Err (e : string)
| Panic.
Arguments Ok {A} _.
Arguments Err {A} _.
Arguments Panic {A}.

#[export] Instance outcome_ret : MRet outcome := @Ok.
#[export] Instance outcome_bind : MBind outcome := fun A B f m =>
  match m with
  | Ok a => f a
  | Err e => Err e
  | Panic => Panic
  end.

(** [fmt.Errorf("ctx: %w", err)]: prefix the text of an error. *)
Definition wrap_err {A} (ctx : string) (m : outcome A) : outcome A :=
  match m with
  | Err e => Err (ctx +:+ ": " +:+ e)
  | m => m
  end.

Definition no_panic {A} (m : outcome A) : Prop := m <> Panic.

Definition is_ok {A} (m : outcome A) : bool :=
  match m with Ok _ => true | _ => false end.

Create HintDb go.

Lemma no_panic_ok {A} (a : A) : no_panic (Ok a).
Proof. done. Qed.

Lemma no_panic_err {A} e : no_panic (@Err A e).
Proof. done. Qed.

Lemma no_panic_bind {A B} (m : outcome A) (f : A -> outcome B) :
  no_panic m -> (forall a, m = Ok a -> no_panic (f a)) -> no_panic (m ≫= f).
Proof. destruct m; intros Hm Hf; [by apply Hf | done | done]. Qed.

Lemma no_panic_wrap {A} ctx (m : outcome A) : no_panic m -> no_panic (wrap_err ctx m).
Proof. by destruct m. Qed.

Lemma wrap_err_ok {A} ctx (m : outcome A) a : wrap_err ctx m = Ok a <-> m = Ok a.
Proof. destruct m; naive_solver. Qed.

Lemma bind_ok {A B} (m : outcome A) (f : A -> outcome B) b :
  m ≫= f = Ok b <-> exists a, m = Ok a /\ f a = Ok b.
Proof. destruct m; naive_solver. Qed.

#[export] Hint Resolve no_panic_ok no_panic_err no_panic_wrap : go.

(** ** Machine integers

    [int] is 64 bits wide on every platform the program is built for. *)
Definition int_min : Z := - 2 ^ 63.
Definition int_max : Z := 2 ^ 63 - 1.
Definition wrap64 (z : Z) : Z := (z + 2 ^ 63) mod 2 ^ 64 - 2 ^ 63.
Definition u8 (z : Z) : Z := z mod 2 ^ 8.
Definition u16 (z : Z) : Z := z mod 2 ^ 16.
Definition u32 (z : Z) : Z := z mod 2 ^ 32.
Definition u64 (z : Z) : Z := z mod 2 ^ 64.

Definition in_int (z : Z) : Prop := int_min <= z <= int_max.

Lemma wrap64_small z : in_int z -> wrap64 z = z.
Proof. unfold in_int, int_min, int_max, wrap64. intros. rewrite Z.mod_small; lia. Qed.

Lemma wrap64_range z : in_int (wrap64 z).
Proof.
  unfold in_int, int_min, int_max, wrap64.
  pose proof (Z.mod_pos_bound (z + 2 ^ 63) (2 ^ 64)). lia.
Qed.

(** [len(s)] as an [int]. *)
Definition len {A} (l : list A) : Z := Z.of_nat (length l).

Lemma len_nonneg {A} (l : list A) : 0 <= len l.
Proof. unfold len. lia. Qed.

Lemma len_app {A} (l k : list A) : len (l ++ k) = len l + len k.
Proof. unfold len. rewrite length_app. lia. Qed.

Lemma len_nil A : len (@nil A) = 0.
Proof. done. Qed.

Lemma len_cons {A} (x : A) l : len (x :: l) = len l + 1.
Proof. unfold len. simpl. lia. Qed.

Lemma len_0_nil {A} (l : list A) : len l = 0 -> l = [].
Proof. unfold len. destruct l; simpl; [done | lia]. Qed.

(** [len(s)] of a string. *)
Definition slen (s : string) : Z := Z.of_nat (String.length s).

(** ** Bytes *)
Definition byte_to_Z (b : byte) : Z := Z.of_N (Byte.to_N b).
Definition byte_of_Z (z : Z) : byte :=
  match Byte.of_N (Z.to_N (z mod 256)) with
  | Some b => b
  | None => x00
  end.

#[export] Instance byte_eq_dec : EqDecision byte := Byte.byte_eq_dec.

Lemma byte_to_Z_range b : 0 <= byte_to_Z b < 256.
Proof. unfold byte_to_Z. pose proof (Byte.to_N_bounded b). lia. Qed.

Lemma byte_of_to_Z b : byte_of_Z (byte_to_Z b) = b.
Proof.
  unfold byte_of_Z. rewrite Z.mod_small by apply byte_to_Z_range.
  unfold byte_to_Z. rewrite N2Z.id, Byte.of_to_N. done.
Qed.

Lemma byte_to_of_Z z : byte_to_Z (byte_of_Z z) = z mod 256.
Proof.
  unfold byte_of_Z. pose proof (Z.mod_pos_bound z 256 ltac:(lia)) as Hb.
  destruct (Byte.of_N (Z.to_N (z mod 256))) as [b|] eqn:E.
  - apply Byte.to_of_N in E. unfold byte_to_Z. rewrite E. lia.
  - apply Byte.of_N_None_iff in E. lia.
Qed.

Lemma byte_to_of_Z_small z : 0 <= z < 256 -> byte_to_Z (byte_of_Z z) = z.
Proof. intros. rewrite byte_to_of_Z, Z.mod_small; lia. Qed.

Lemma byte_to_Z_inj a b : byte_to_Z a = byte_to_Z b -> a = b.
Proof. intros H. rewrite <- (byte_of_to_Z a), <- (byte_of_to_Z b), H. done. Qed.

Definition string_bytes (s : string) : list byte := String.list_byte_of_string s.
Definition bytes_string (bs : list byte) : string := String.string_of_list_byte bs.

Lemma bytes_string_bytes s : bytes_string (string_bytes s) = s.
Proof. apply String.string_of_list_byte_of_string. Qed.

Lemma string_bytes_string bs : string_bytes (bytes_string bs) = bs.
Proof. apply String.list_byte_of_string_of_list_byte. Qed.

(** ** Indexing and slicing

    [s[i]] and [s[i:j]] with Go's bounds checks.  Go bounds [j] by the capacity rather than
    the length; the model is the stricter one, so a slice expression shown not to panic here
    does not panic in Go and yields the same elements. *)
Definition index {A} (l : list A) (i : Z) : outcome A :=
  if (0 <=? i) && (i <? len l) then
    match l !! Z.to_nat i with Some a => Ok a | None => Panic end
  else Panic.

Definition slice {A} (l : list A) (i j : Z) : outcome (list A) :=
  if (0 <=? i) && (i <=? j) && (j <=? len l)
  then Ok (take (Z.to_nat (j - i)) (drop (Z.to_nat i) l))
  else Panic.

(** [s[i:]] *)
Definition slice_from {A} (l : list A) (i : Z) : outcome (list A) := slice l i (len l).

Lemma index_ok {A} (l : list A) i :
  0 <= i < len l -> exists a, index l i = Ok a /\ l !! Z.to_nat i = Some a.
Proof.
  intros Hi. unfold index.
  destruct (lookup_lt_is_Some_2 l (Z.to_nat i)) as [a Ha]; [unfold len in *; lia|].
  exists a. rewrite Ha.
  replace ((0 <=? i) && (i <? len l)) with true by lia. done.
Qed.

Lemma slice_ok {A} (l : list A) i j :
  0 <= i <= j -> j <= len l ->
  slice l i j = Ok (take (Z.to_nat (j - i)) (drop (Z.to_nat i) l)).
Proof.
  intros. unfold slice. replace ((0 <=? i) && (i <=? j) && (j <=? len l)) with true by lia. done.
Qed.

Lemma slice_len {A} (l : list A) i j k : slice l i j = Ok k -> len k = j - i.
Proof.
  unfold slice. destruct (_ && _) eqn:E; [|done]. intros [= <-].
  unfold len in *. rewrite length_take, length_drop. lia.
Qed.

Lemma index_no_panic {A} (l : list A) i : 0 <= i < len l -> no_panic (index l i).
Proof. intros Hi. destruct (index_ok l i Hi) as (a & -> & _). done. Qed.

Lemma slice_no_panic {A} (l : list A) i j : 0 <= i <= j -> j <= len l -> no_panic (slice l i j).
Proof. intros. rewrite slice_ok by lia. done. Qed.

(** The elements of a slice taken exactly around the middle part of an append. *)
Lemma slice_app_mid {A} (p m s : list A) i j :
  i = len p -> j = i + len m -> slice (p ++ m ++ s) i j = Ok m.
Proof.
  intros -> ->. rewrite slice_ok.
  - replace (len p + len m - len p) with (len m) by lia. unfold len.
    rewrite !Nat2Z.id, drop_app_length, take_app_length. done.
  - unfold len. lia.
  - rewrite !len_app. pose proof (len_nonneg s). lia.
Qed.

Lemma index_lookup {A} (l : list A) i a : 0 <= i -> l !! Z.to_nat i = Some a -> index l i = Ok a.
Proof.
  intros Hi Hl. unfold index. apply lookup_lt_Some in Hl as Hlt.
  replace ((0 <=? i) && (i <? len l)) with true by (unfold len; lia). by rewrite Hl.
Qed.

(** ** The last elements of a list, and lists written at an index *)
Definition lastn {A} (n : nat) (l : list A) : list A := drop (length l - n) l.

Lemma lastn_all {A} n (l : list A) : (length l <= n)%nat -> lastn n l = l.
Proof. intros. unfold lastn. replace (length l - n)%nat with 0%nat by lia. apply drop_0. Qed.

Lemma lastn_snoc {A} n (l : list A) x y k :
  (n <= length l)%nat -> lastn n l = x :: k -> lastn n (l ++ [y]) = k ++ [y].
Proof.
  unfold lastn. intros Hn H. rewrite length_app. cbn [length].
  replace (length l + 1 - n)%nat with (S (length l - n)) by lia.
  rewrite drop_app_le.
  - f_equal. replace (S (length l - n)) with ((length l - n) + 1)%nat by lia. by rewrite <- drop_drop, H.
  - assert (length (drop (length l - n) l) = length (x :: k)) as Hl by (by rewrite H).
    rewrite length_drop in Hl. cbn in Hl. lia.
Qed.

Lemma slice_0 {A} (l : list A) n : (n <= length l)%nat -> slice l 0 (Z.of_nat n) = Ok (take n l).
Proof.
  intros Hn. rewrite slice_ok by (unfold len; lia). rewrite Z.sub_0_r, Nat2Z.id. reflexivity.
Qed.

Lemma take_S_insert {A} (l : list A) p b : (p < length l)%nat -> take (S p) (<[p := b]> l) = take p l ++ [b].
Proof.
  intros Hp. rewrite (take_S_r _ _ b) by (by rewrite list_lookup_insert_eq). by rewrite take_insert_ge.
Qed.

#[export] Hint Resolve index_no_panic slice_no_panic : go.

(** ** Tactics

    [np] proves that a monadic body does not panic, opening binds and conditionals and
    leaving the bounds of the indexing operations to [lia]. *)
Ltac np_step :=
  match goal with
  | |- no_panic (Ok _) => apply no_panic_ok
  | |- no_panic (Err _) => apply no_panic_err
  | |- no_panic (wrap_err _ _) => apply no_panic_wrap
  | |- no_panic (mbind _ _) => apply no_panic_bind; [|intros ? ?]
  | |- no_panic (if ?b then _ else _) => destruct b eqn:?
  | |- no_panic (let '(_, _) := ?p in _) => destruct p
  | |- no_panic (match ?p with (_, _) => _ end) => destruct p
  end.
Ltac np := repeat np_step; try (solve [eauto with go lia | auto with go | lia]).

(** Split every monadic success hypothesis into its parts. *)
Ltac inv_ok :=
  repeat match goal with
  | H : mbind _ _ = Ok _ |- _ => apply bind_ok in H; destruct H as (? & ? & ?)
  | H : wrap_err _ _ = Ok _ |- _ => apply wrap_err_ok in H
  | H : (let '(_, _) := ?p in _) = Ok _ |- _ => destruct p
  | H : Ok _ = Ok _ |- _ => injection H as H; subst
  | H : mret _ = Ok _ |- _ => injection H as H; subst
  | H : Err _ = Ok _ |- _ => discriminate H
  | H : Panic = Ok _ |- _ => discriminate H
  end.

(** ** Bit operations as arithmetic *)
Lemma lor_shiftl lo hi k :
  0 <= k -> 0 <= lo < 2 ^ k -> Z.lor lo (Z.shiftl hi k) = lo + hi * 2 ^ k.
Proof.
  intros Hk Hlo. rewrite <- Z.shiftl_mul_pow2 by lia.
  assert (Hland : Z.land lo (Z.shiftl hi k) = 0).
  { destruct (Z.eq_dec lo 0) as [->|Hne]; [apply Z.land_0_l|].
    apply Z.bits_inj'. intros n Hn. rewrite Z.land_spec, Z.bits_0.
    destruct (Z.lt_ge_cases n k) as [?|?].
    - rewrite Z.shiftl_spec_low by lia. apply andb_false_r.
    - rewrite (Z.bits_above_log2 lo n); [done|lia|].
      apply Z.log2_lt_pow2; [lia|]. apply Z.lt_le_trans with (2 ^ k); [lia|].
      apply Z.pow_le_mono_r; lia. }
  rewrite Z.add_nocarry_lxor by done. by rewrite Z.lxor_lor.
Qed.

Lemma lor_shiftl' lo hi k :
  0 <= k -> 0 <= lo < 2 ^ k -> Z.lor (Z.shiftl hi k) lo = lo + hi * 2 ^ k.
Proof. intros. by rewrite Z.lor_comm, lor_shiftl. Qed.

(** ** Binary numerals as text, for the concrete codecs of the examples *)
Fixpoint pos_text (p : positive) : string :=
  match p with
  | xH => EmptyString
  | xO p => String "0" (pos_text p)
  | xI p => String "1" (pos_text p)
  end.
Fixpoint text_pos (s : string) : positive :=
  match s with
  | EmptyString => xH
  | String c s => if Ascii.eqb c "0" then xO (text_pos s) else xI (text_pos s)
  end.

Lemma text_pos_text p : text_pos (pos_text p) = p.
Proof. induction p as [p IH|p IH|]; cbn; by rewrite ?IH. Qed.
