(* ===== verification/Interleave.v ===== *)
(** * Shared objects whose methods take their locks more than once

    A method of an object that other goroutines use at the same time is a sequence of sections, each run under a lock;
    between two sections anything may happen.  [ostep] runs any number of calls, in any order of their sections, and
    records when each was invoked and when it returned.  A history is linearizable ([linearizable]) if every call can be
    given one moment between its invocation and its return at which a sequential object would have given its answer.
    [sim_linearizable] proves it from a simulation of one call at a time ([sim]); the referer windows, the address cache
    and the memory cache are instances. *)

From stdpp Require Import relations.
From S2P Require Import Prelude.

Section objects.
Context {St C A Ab : Type}.

(** A method: the sections it still has to run; a section may panic. *)
Inductive method :=
| Return (a : A)
| Locked {X : Type} (m : St -> outcome (X * St)) (k : X -> method).

(** The method with nobody else using the object. *)
Fixpoint uninterrupted (p : method) (s : St) : outcome (A * St) :=
  match p with
  | Return a => Ok (a, s)
  | Locked m k => '(x, s) ← m s; uninterrupted (k x) s
  end.

Inductive call_event := Invoked (i : nat) (c : C) | Returned (i : nat) (a : A).

(** The calls made so far, with what is left of them ([None] when they have returned), the object and the history. *)
Record world := MkWorld { w_calls : list (C * option method); w_state : St; w_hist : list call_event }.

Context (impl : C -> method).

Definition begin (s : St) : world := MkWorld [] s [].

Inductive obj_move := Invoke (c : C) | Step (n : nat).

(** The next section of a call, or its return. *)
Definition take_step (n : nat) (w : world) : option world :=
  match w_calls w !! n with
  | Some (c, Some (Return a)) => Some (MkWorld (<[n := (c, None)]> (w_calls w)) (w_state w) (w_hist w ++ [Returned n a]))
  | Some (c, Some (Locked m k)) =>
      match m (w_state w) with
      | Ok (x, s) => Some (MkWorld (<[n := (c, Some (k x))]> (w_calls w)) s (w_hist w))
      | _ => None
      end
  | _ => None
  end.

Definition make_move (m : obj_move) (w : world) : option world :=
  match m with
  | Invoke c => Some (MkWorld (w_calls w ++ [(c, Some (impl c))]) (w_state w) (w_hist w ++ [Invoked (length (w_calls w)) c]))
  | Step n => take_step n w
  end.

Definition ostep (w w' : world) : Prop := exists m, make_move m w = Some w'.

Fixpoint schedule (ms : list obj_move) (w : world) : option world :=
  match ms with [] => Some w | m :: ms => w ← make_move m w; schedule ms w end.

Lemma schedule_steps ms : forall w w', schedule ms w = Some w' -> rtc ostep w w'.
Proof.
  induction ms as [|m ms IH]; intros w w' Hs; [injection Hs as <-; apply rtc_refl|]. cbn in Hs.
  destruct (make_move m w) as [w1|] eqn:E; [|done]. eapply rtc_l; [by exists m|by apply IH].
Qed.

(** The world a schedule leads to; one that is not possible does nothing. *)
Definition reached (ms : list obj_move) (w : world) : world := default w (schedule ms w).
Lemma reached_steps ms w : rtc ostep w (reached ms w).
Proof. unfold reached. destruct (schedule ms w) eqn:E; [by eapply schedule_steps|apply rtc_refl]. Qed.

(** ** Linearizability *)
Context (spec : C -> Ab -> A -> Ab -> Prop).

(** A sequential run of the abstract object. *)
Inductive spec_run : Ab -> list (nat * C * A) -> Ab -> Prop :=
| spec_nil b : spec_run b [] b
| spec_snoc b l b1 i c a b2 : spec_run b l b1 -> spec c b1 a b2 -> spec_run b (l ++ [(i, c, a)]) b2.

Definition call_id (x : nat * C * A) : nat := x.1.1.

(** There is a sequential run with every returned call and its answer, of calls that were made, each once, in which a
    call that returned before another was invoked comes first. *)
Definition linearizable (b : Ab) (h : list call_event) : Prop :=
  exists l b', spec_run b l b' /\ NoDup (map call_id l)
  /\ (forall i c a, (i, c, a) ∈ l -> Invoked i c ∈ h)
  /\ (forall i a, Returned i a ∈ h -> exists c, (i, c, a) ∈ l)
  /\ forall h1 h2 i a j c p q x y, h = h1 ++ Returned i a :: h2 -> Invoked j c ∈ h2 ->
       l !! p = Some x -> l !! q = Some y -> call_id x = i -> call_id y = j -> (p < q)%nat.

(** Every call that has not returned can take its next step, whatever the others have done. *)
Definition unblocked (w : world) : Prop :=
  forall n c p, w_calls w !! n = Some (c, Some p) -> is_Some (take_step n w).

(** ** One call against the abstract object

    [inv] relates the object to the abstract one, and [later] says how other calls may have changed the object since the
    last section.  A call takes effect once, in one of its sections or, if that changes nothing, on return. *)
Context (inv : Ab -> St -> Prop) (later : St -> St -> Prop) `{!PreOrder later}.

Fixpoint sim (c : C) (p : method) (effect : option A) (seen : St) {struct p} : Prop :=
  match p with
  | Return a => match effect with Some b => b = a | None => forall b s, inv b s -> later seen s -> spec c b a b end
  | Locked m k => forall b s, inv b s -> later seen s -> exists x s', m s = Ok (x, s') /\ later s s'
      /\ (inv b s' /\ sim c (k x) effect s'
          \/ effect = None /\ exists a b', spec c b a b' /\ inv b' s' /\ sim c (k x) (Some a) s')
  end.

Lemma sim_later c p e s s' : later s s' -> sim c p e s -> sim c p e s'.
Proof.
  intros Hl. destruct p as [a|X m k]; cbn.
  - destruct e as [b|]; [done|]. intros Hs b s1 Hi Hl1. apply (Hs b s1 Hi). by etrans.
  - intros Hs b s1 Hi Hl1. apply (Hs b s1 Hi). by etrans.
Qed.

(** What is known of a call, by its number. *)
Definition call_ok (w : world) (l : list (nat * C * A)) (n : nat) (x : C * option method) : Prop :=
  Invoked n x.1 ∈ w_hist w
  /\ match x.2 with
     | None => exists a, (n, x.1, a) ∈ l
     | Some p => (forall a, Returned n a ∉ w_hist w)
         /\ exists e, sim x.1 p e (w_state w)
            /\ match e with Some a => (n, x.1, a) ∈ l | None => n ∉ map call_id l end
     end.

Definition ordered (h : list call_event) (l : list (nat * C * A)) : Prop :=
  forall h1 h2 i a j c p q x y, h = h1 ++ Returned i a :: h2 -> Invoked j c ∈ h2 ->
    l !! p = Some x -> l !! q = Some y -> call_id x = i -> call_id y = j -> (p < q)%nat.

Record world_ok (b : Ab) (w : world) (l : list (nat * C * A)) (b' : Ab) : Prop := {
  ok_run : spec_run b l b';
  ok_inv : inv b' (w_state w);
  ok_once : NoDup (map call_id l);
  ok_made : forall i c a, (i, c, a) ∈ l -> Invoked i c ∈ w_hist w;
  ok_returned : forall i a, Returned i a ∈ w_hist w -> exists c, (i, c, a) ∈ l;
  ok_ids : forall i c, Invoked i c ∈ w_hist w -> (i < length (w_calls w))%nat;
  ok_order : ordered (w_hist w) l;
  ok_calls : forall n x, w_calls w !! n = Some x -> call_ok w l n x
}.
(** *** Growing a history and its sequential run *)
Lemma snoc_split {T} (h h1 h2 : list T) e x :
  h ++ [e] = h1 ++ x :: h2 -> (h2 = [] /\ x = e /\ h = h1) \/ exists h2', h2 = h2' ++ [e] /\ h = h1 ++ x :: h2'.
Proof.
  destruct h2 as [|y h2' _] using rev_ind; intros Hh.
  - apply app_inj_tail in Hh as [-> ->]. by left.
  - rewrite app_comm_cons, app_assoc in Hh. apply app_inj_tail in Hh as [-> ->]. right. by exists h2'.
Qed.

Lemma ordered_event h l e :
  (forall j c, e = Invoked j c -> j ∉ map call_id l) -> ordered h l -> ordered (h ++ [e]) l.
Proof.
  intros He Ho h1 h2 i a j c p q x y Hh Hj Hp Hq Hx Hy.
  destruct (snoc_split _ _ _ _ _ Hh) as [(-> & _)|(h2' & -> & Hh')]; [by apply elem_of_nil in Hj|].
  apply elem_of_app in Hj as [Hj|Hj%list_elem_of_singleton]; [by eapply Ho|].
  destruct (He j c (eq_sym Hj)). rewrite <- Hy. apply list_elem_of_fmap. exists y. split; [done|by eapply list_elem_of_lookup_2].
Qed.

Lemma ordered_effect h l n c a :
  (forall a, Returned n a ∉ h) -> (forall i b, Returned i b ∈ h -> exists c, (i, c, b) ∈ l) -> NoDup (map call_id l) ->
  ordered h l -> ordered h (l ++ [(n, c, a)]).
Proof.
  intros Hn Hr Hd Ho h1 h2 i b j d p q x y Hh Hj Hp Hq Hx Hy.
  assert (Hi : Returned i b ∈ h) by (rewrite Hh; apply elem_of_app; right; by left).
  apply lookup_snoc_Some in Hp as [[Hlt Hp]|[_ <-]]; [|cbn in Hx; subst; by destruct (Hn b)].
  apply lookup_snoc_Some in Hq as [[_ Hq]|[-> _]]; [by eapply Ho|done].
Qed.

Lemma ids_snoc (l : list (nat * C * A)) n c a k : k ∉ map call_id l -> k <> n -> k ∉ map call_id (l ++ [(n, c, a)]).
Proof. intros Hk Hne. rewrite map_app, elem_of_app. cbn. by intros [?|?%list_elem_of_singleton]. Qed.

Lemma call_ok_other w w' l l' n x :
  later (w_state w) (w_state w') -> (forall i c, Invoked i c ∈ w_hist w -> Invoked i c ∈ w_hist w') ->
  (forall a, Returned n a ∈ w_hist w' -> Returned n a ∈ w_hist w) ->
  l ⊆ l' -> (n ∉ map call_id l -> n ∉ map call_id l') -> call_ok w l n x -> call_ok w' l' n x.
Proof.
  intros Hs Hi Hr Hl Hn [H1 H2]. split; [by apply Hi|]. destruct (x.2) as [p|].
  - destruct H2 as (Ha & e & Hsim & He). split; [intros a Ha'; by eapply Ha, Hr|]. exists e.
    split; [by eapply sim_later|]. destruct e; auto.
  - destruct H2 as [a Ha]. exists a. by apply Hl.
Qed.

(** The call [n] takes effect, and has not returned. *)
Lemma effect_ok b w l b' n c p a b'' s :
  world_ok b w l b' -> w_calls w !! n = Some (c, p) -> Invoked n c ∈ w_hist w -> (forall a, Returned n a ∉ w_hist w) ->
  n ∉ map call_id l -> spec c b' a b'' -> inv b'' s -> later (w_state w) s ->
  let l' := l ++ [(n, c, a)] in
  spec_run b l' b'' /\ NoDup (map call_id l') /\ (forall i c a, (i, c, a) ∈ l' -> Invoked i c ∈ w_hist w)
  /\ (forall i a, Returned i a ∈ w_hist w -> exists c, (i, c, a) ∈ l') /\ ordered (w_hist w) l'.
Proof.
  intros [] Hc Hi Hr Hn Hs Hb Hl l'. split_and!.
  - by eapply spec_snoc.
  - unfold l'. rewrite map_app. apply NoDup_app. split; [done|]. split; [|apply NoDup_singleton].
    intros k Hk ->%list_elem_of_singleton. done.
  - intros i c1 a1 [Hx|Hx%list_elem_of_singleton]%elem_of_app; [by eapply ok_made0|by injection Hx as -> -> ->].
  - intros i a1 [c1 Hx]%ok_returned0. exists c1. apply elem_of_app. by left.
  - by apply ordered_effect.
Qed.
(** The call [n] goes on to [p'], with or without taking effect. *)
Lemma advance_ok b w l b' n c p p' s l' b'' :
  world_ok b w l b' -> w_calls w !! n = Some (c, Some p) -> later (w_state w) s -> inv b'' s ->
  l ⊆ l' -> (forall k, k <> n -> k ∉ map call_id l -> k ∉ map call_id l') ->
  spec_run b l' b'' -> NoDup (map call_id l') -> (forall i c a, (i, c, a) ∈ l' -> Invoked i c ∈ w_hist w) ->
  (forall i a, Returned i a ∈ w_hist w -> exists c, (i, c, a) ∈ l') -> ordered (w_hist w) l' ->
  call_ok (MkWorld (<[n := (c, p')]> (w_calls w)) s (w_hist w)) l' n (c, p') ->
  world_ok b (MkWorld (<[n := (c, p')]> (w_calls w)) s (w_hist w)) l' b''.
Proof.
  intros [] Hn Hs Hi Hl Hk Hrun Hd Hm Hr Ho Hc. split; cbn; try done.
  - intros i c1 Hx. rewrite length_insert. by eapply ok_ids0.
  - intros k x Hx. apply list_lookup_insert_Some in Hx as [(<- & <- & _)|[Hne Hx]]; [done|].
    eapply (call_ok_other w); [done..|by apply Hk|by apply ok_calls0].
Qed.

Lemma section_ok b w l b' n c p p' s :
  world_ok b w l b' -> w_calls w !! n = Some (c, Some p) -> later (w_state w) s -> inv b' s ->
  call_ok (MkWorld (<[n := (c, p')]> (w_calls w)) s (w_hist w)) l n (c, p') ->
  world_ok b (MkWorld (<[n := (c, p')]> (w_calls w)) s (w_hist w)) l b'.
Proof. intros Hw Hn Hs Hi Hc. assert (Hw' := Hw). destruct Hw'. by eapply advance_ok. Qed.

Lemma effect_section_ok b w l b' n c p p' s a b'' :
  world_ok b w l b' -> w_calls w !! n = Some (c, Some p) -> n ∉ map call_id l ->
  later (w_state w) s -> spec c b' a b'' -> inv b'' s -> sim c p' (Some a) s ->
  world_ok b (MkWorld (<[n := (c, Some p')]> (w_calls w)) s (w_hist w)) (l ++ [(n, c, a)]) b''.
Proof.
  intros Hw Hn Hnew Hl Hs Hi Hsim. destruct (ok_calls _ _ _ _ Hw n _ Hn) as (Hinv & Hret & _).
  destruct (effect_ok b w l b' n c _ a b'' s Hw Hn Hinv Hret Hnew Hs Hi Hl) as (E1 & E2 & E3 & E4 & E5).
  eapply advance_ok; try done.
  - intros x Hx. apply elem_of_app. by left.
  - intros k Hne Hk. by apply ids_snoc.
  - split; [done|]. split; [done|]. exists (Some a). split; [done|]. cbn. apply elem_of_app. right. by left.
Qed.

Lemma return_ok b w l b' n c a :
  world_ok b w l b' -> w_calls w !! n = Some (c, Some (Return a)) -> (n, c, a) ∈ l ->
  world_ok b (MkWorld (<[n := (c, None)]> (w_calls w)) (w_state w) (w_hist w ++ [Returned n a])) l b'.
Proof.
  intros [] Hn Hl. split; cbn; try done.
  - intros i c1 a1 Hx. apply elem_of_app. left. by eapply ok_made0.
  - intros i a1 [Hx|Hx%list_elem_of_singleton]%elem_of_app; [by apply ok_returned0|]. injection Hx as -> ->. by exists c.
  - intros i c1 [Hx|Hx%list_elem_of_singleton]%elem_of_app; [|done]. rewrite length_insert. by eapply ok_ids0.
  - by apply ordered_event.
  - intros k x Hx. apply list_lookup_insert_Some in Hx as [(<- & <- & _)|[Hne Hx]].
    + destruct (ok_calls0 n _ Hn) as [Hi _]. split; [apply elem_of_app; by left|by exists a].
    + eapply (call_ok_other w); [done| | |done|done|by apply ok_calls0].
      * intros i c1 Hin. apply elem_of_app. by left.
      * intros a1 [Ha|Ha%list_elem_of_singleton]%elem_of_app; [done|]. injection Ha as -> ->. done.
Qed.

Lemma take_step_ok b w l b' n c p :
  world_ok b w l b' -> w_calls w !! n = Some (c, Some p) ->
  exists w' l' b'', take_step n w = Some w' /\ world_ok b w' l' b''.
Proof.
  intros Hw Hn. destruct (ok_calls _ _ _ _ Hw n _ Hn) as (Hinv & Hret & eff & Hsim & Heff). cbn in Hinv, Hsim, Heff.
  assert (Hb := ok_inv _ _ _ _ Hw). unfold take_step. rewrite Hn. destruct p as [a|X m k]; cbn in Hsim.
  - destruct eff as [a'|]; [subst a'; eexists _, l, b'; split; [reflexivity|by eapply return_ok]|].
    assert (Hs := Hsim b' (w_state w) Hb ltac:(done)).
    pose proof (effect_section_ok b w l b' n c _ (Return a) (w_state w) a b' Hw Hn Heff ltac:(done) Hs Hb eq_refl) as Hw'.
    rewrite list_insert_id in Hw' by done. destruct w as [calls s h]. cbn in *.
    eexists _, _, b'. split; [reflexivity|]. eapply return_ok in Hw'; [exact Hw'|done|]. apply elem_of_app. right. by left.
  - destruct (Hsim b' (w_state w) Hb ltac:(done)) as (x & s & -> & Hl & [[Hi Hk]|(-> & a & b'' & Hs & Hi & Hk)]).
    + eexists _, l, b'. split; [reflexivity|]. eapply section_ok; [done..|]. split; [done|]. split; [done|]. by exists eff.
    + eexists _, _, b''. split; [reflexivity|]. by eapply effect_section_ok.
Qed.

Context (Himpl : forall c s, sim c (impl c) None s).

Lemma invoke_ok b w l b' c :
  world_ok b w l b' ->
  world_ok b (MkWorld (w_calls w ++ [(c, Some (impl c))]) (w_state w) (w_hist w ++ [Invoked (length (w_calls w)) c])) l b'.
Proof.
  intros []. assert (Hnew : length (w_calls w) ∉ map call_id l).
  { intros ([[i c1] a1] & Hi & Hx)%list_elem_of_fmap. cbn in Hi. subst i. apply ok_made0, ok_ids0 in Hx. lia. }
  split; cbn; try done.
  - intros i c1 a1 Hx. apply elem_of_app. left. by eapply ok_made0.
  - intros i a1 [Hx|Hx%list_elem_of_singleton]%elem_of_app; [by apply ok_returned0|done].
  - intros i c1 Hx. rewrite length_app. cbn. apply elem_of_app in Hx as [Hx%ok_ids0|Hx%list_elem_of_singleton]; [lia|].
    injection Hx as -> ->. lia.
  - apply ordered_event; [|done]. by intros j c1 [= <- _].
  - intros k x Hx. apply lookup_snoc_Some in Hx as [[Hlt Hx]|[-> <-]].
    + eapply (call_ok_other w); [done| | |done|done|by apply ok_calls0].
      * intros i c1 Hin. apply elem_of_app. by left.
      * intros a1 [Ha|Ha%list_elem_of_singleton]%elem_of_app; done.
    + split; [apply elem_of_app; right; by left|]. split; [|by exists None].
      intros a [Ha|Ha%list_elem_of_singleton]%elem_of_app; [|done].
      destruct (ok_returned0 _ _ Ha) as [c1 Hl]. apply Hnew, list_elem_of_fmap. by exists (length (w_calls w), c1, a).
Qed.

Lemma steps_ok b w w' : rtc ostep w w' -> forall l b', world_ok b w l b' -> exists l' b'', world_ok b w' l' b''.
Proof.
  induction 1 as [w|w w1 w' [m Hm] _ IH]; intros l b' Hw; [eauto|]. destruct m as [c|n]; cbn in Hm.
  - injection Hm as <-. eapply IH, invoke_ok, Hw.
  - assert (Hn := Hm). unfold take_step in Hn. destruct (w_calls w !! n) as [[c [p|]]|] eqn:En; [|done..].
    destruct (take_step_ok b w l b' n c p Hw En) as (w2 & l2 & b2 & E & Hw2). rewrite E in Hm. injection Hm as <-. by eapply IH.
Qed.

(** If every call simulates the abstract object, every history is linearizable, no call is ever stuck, and the object
    stays related to the abstract one. *)
Lemma sim_linearizable b s w :
  inv b s -> rtc ostep (begin s) w -> linearizable b (w_hist w) /\ unblocked w /\ exists b', inv b' (w_state w).
Proof.
  intros Hi Hw. destruct (steps_ok b _ w Hw [] b) as (l & b' & Hok).
  { split; try done; cbn; try constructor; by intros * ?%elem_of_nil. }
  split_and!.
  - exists l, b'. destruct Hok. split_and!; done.
  - intros n c p Hn. destruct (take_step_ok b w l b' n c p Hok Hn) as (w' & _ & _ & -> & _). by eexists.
  - exists b'. by destruct Hok.
Qed.
End objects.

#[global] Arguments method : clear implicits.
#[global] Arguments world : clear implicits.
#[global] Arguments call_event : clear implicits.

(** Nothing is remembered of the object between two sections. *)
Definition anything {St : Type} (s s' : St) : Prop := True.
#[export] Instance anything_preorder St : PreOrder (anything (St := St)).
Proof. by split. Qed.

(** The answers of a history, in the order they were given. *)
Definition answers {C A} (h : list (call_event C A)) : list (nat * A) :=
  omap (fun e => match e with Returned i a => Some (i, a) | Invoked _ _ => None end) h.
