(* ===== verification/UnicodeTables.v ===== *)
(** * Unicode tables used by Go's [unicode] and [strconv] packages

    The simple lower-case mapping ([unicode.ToLower]), the simple case-folding classes
    ([unicode.SimpleFold]) and the printable runes ([strconv.IsPrint]) of Unicode 15, outside
    ASCII.  A case range is [(lo, hi, stride, delta)]: every [stride]-th rune from [lo] to
    [hi] maps to itself plus [delta].  The folding table maps a rune to the least rune of its
    folding class, and covers ASCII as well. *)

From S2P Require Import Prelude.

Definition lower_ranges : list (Z * Z * Z * Z) := [
  (192, 214, 1, 32); (216, 222, 1, 32); (256, 302, 2, 1); (304, 304, 1, (-199));
  (306, 310, 2, 1); (313, 327, 2, 1); (330, 374, 2, 1); (376, 376, 1, (-121));
  (377, 381, 2, 1); (385, 385, 1, 210); (386, 388, 2, 1); (390, 390, 1, 206); (391, 391, 1, 1);
  (393, 394, 1, 205); (395, 395, 1, 1); (398, 398, 1, 79); (399, 399, 1, 202);
  (400, 400, 1, 203); (401, 401, 1, 1); (403, 403, 1, 205); (404, 404, 1, 207);
  (406, 406, 1, 211); (407, 407, 1, 209); (408, 408, 1, 1); (412, 412, 1, 211);
  (413, 413, 1, 213); (415, 415, 1, 214); (416, 420, 2, 1); (422, 422, 1, 218);
  (423, 423, 1, 1); (425, 425, 1, 218); (428, 428, 1, 1); (430, 430, 1, 218); (431, 431, 1, 1);
  (433, 434, 1, 217); (435, 437, 2, 1); (439, 439, 1, 219); (440, 440, 1, 1); (444, 444, 1, 1);
  (452, 452, 1, 2); (453, 453, 1, 1); (455, 455, 1, 2); (456, 456, 1, 1); (458, 458, 1, 2);
  (459, 475, 2, 1); (478, 494, 2, 1); (497, 497, 1, 2); (498, 500, 2, 1); (502, 502, 1, (-97));
  (503, 503, 1, (-56)); (504, 542, 2, 1); (544, 544, 1, (-130)); (546, 562, 2, 1);
  (570, 570, 1, 10795); (571, 571, 1, 1); (573, 573, 1, (-163)); (574, 574, 1, 10792);
  (577, 577, 1, 1); (579, 579, 1, (-195)); (580, 580, 1, 69); (581, 581, 1, 71);
  (582, 590, 2, 1); (880, 882, 2, 1); (886, 886, 1, 1); (895, 895, 1, 116); (902, 902, 1, 38);
  (904, 906, 1, 37); (908, 908, 1, 64); (910, 911, 1, 63); (913, 929, 1, 32);
  (931, 939, 1, 32); (975, 975, 1, 8); (984, 1006, 2, 1); (1012, 1012, 1, (-60));
  (1015, 1015, 1, 1); (1017, 1017, 1, (-7)); (1018, 1018, 1, 1); (1021, 1023, 1, (-130));
  (1024, 1039, 1, 80); (1040, 1071, 1, 32); (1120, 1152, 2, 1); (1162, 1214, 2, 1);
  (1216, 1216, 1, 15); (1217, 1229, 2, 1); (1232, 1326, 2, 1); (1329, 1366, 1, 48);
  (4256, 4293, 1, 7264); (4295, 4295, 1, 7264); (4301, 4301, 1, 7264); (5024, 5103, 1, 38864);
  (5104, 5109, 1, 8); (7312, 7354, 1, (-3008)); (7357, 7359, 1, (-3008)); (7680, 7828, 2, 1);
  (7838, 7838, 1, (-7615)); (7840, 7934, 2, 1); (7944, 7951, 1, (-8)); (7960, 7965, 1, (-8));
  (7976, 7983, 1, (-8)); (7992, 7999, 1, (-8)); (8008, 8013, 1, (-8)); (8025, 8031, 2, (-8));
  (8040, 8047, 1, (-8)); (8072, 8079, 1, (-8)); (8088, 8095, 1, (-8)); (8104, 8111, 1, (-8));
  (8120, 8121, 1, (-8)); (8122, 8123, 1, (-74)); (8124, 8124, 1, (-9)); (8136, 8139, 1, (-86));
  (8140, 8140, 1, (-9)); (8152, 8153, 1, (-8)); (8154, 8155, 1, (-100)); (8168, 8169, 1, (-8));
  (8170, 8171, 1, (-112)); (8172, 8172, 1, (-7)); (8184, 8185, 1, (-128));
  (8186, 8187, 1, (-126)); (8188, 8188, 1, (-9)); (8486, 8486, 1, (-7517));
  (8490, 8490, 1, (-8383)); (8491, 8491, 1, (-8262)); (8498, 8498, 1, 28); (8544, 8559, 1, 16);
  (8579, 8579, 1, 1); (9398, 9423, 1, 26); (11264, 11311, 1, 48); (11360, 11360, 1, 1);
  (11362, 11362, 1, (-10743)); (11363, 11363, 1, (-3814)); (11364, 11364, 1, (-10727));
  (11367, 11371, 2, 1); (11373, 11373, 1, (-10780)); (11374, 11374, 1, (-10749));
  (11375, 11375, 1, (-10783)); (11376, 11376, 1, (-10782)); (11378, 11378, 1, 1);
  (11381, 11381, 1, 1); (11390, 11391, 1, (-10815)); (11392, 11490, 2, 1);
  (11499, 11501, 2, 1); (11506, 11506, 1, 1); (42560, 42604, 2, 1); (42624, 42650, 2, 1);
  (42786, 42798, 2, 1); (42802, 42862, 2, 1); (42873, 42875, 2, 1);
  (42877, 42877, 1, (-35332)); (42878, 42886, 2, 1); (42891, 42891, 1, 1);
  (42893, 42893, 1, (-42280)); (42896, 42898, 2, 1); (42902, 42920, 2, 1);
  (42922, 42922, 1, (-42308)); (42923, 42923, 1, (-42319)); (42924, 42924, 1, (-42315));
  (42925, 42925, 1, (-42305)); (42926, 42926, 1, (-42308)); (42928, 42928, 1, (-42258));
  (42929, 42929, 1, (-42282)); (42930, 42930, 1, (-42261)); (42931, 42931, 1, 928);
  (42932, 42946, 2, 1); (42948, 42948, 1, (-48)); (42949, 42949, 1, (-42307));
  (42950, 42950, 1, (-35384)); (42951, 42953, 2, 1); (42960, 42960, 1, 1);
  (42966, 42968, 2, 1); (42997, 42997, 1, 1); (65313, 65338, 1, 32); (66560, 66599, 1, 40);
  (66736, 66771, 1, 40); (66928, 66938, 1, 39); (66940, 66954, 1, 39); (66956, 66962, 1, 39);
  (66964, 66965, 1, 39); (68736, 68786, 1, 64); (71840, 71871, 1, 32); (93760, 93791, 1, 32);
  (125184, 125217, 1, 34)
].

Definition fold_ranges : list (Z * Z * Z * Z) := [
  (97, 122, 1, (-32)); (224, 246, 1, (-32)); (248, 254, 1, (-32)); (257, 303, 2, (-1));
  (307, 311, 2, (-1)); (314, 328, 2, (-1)); (331, 375, 2, (-1)); (376, 376, 1, (-121));
  (378, 382, 2, (-1)); (383, 383, 1, (-300)); (387, 389, 2, (-1)); (392, 392, 1, (-1));
  (396, 396, 1, (-1)); (402, 402, 1, (-1)); (409, 409, 1, (-1)); (417, 421, 2, (-1));
  (424, 424, 1, (-1)); (429, 429, 1, (-1)); (432, 432, 1, (-1)); (436, 438, 2, (-1));
  (441, 441, 1, (-1)); (445, 445, 1, (-1)); (453, 453, 1, (-1)); (454, 454, 1, (-2));
  (456, 456, 1, (-1)); (457, 457, 1, (-2)); (459, 459, 1, (-1)); (460, 460, 1, (-2));
  (462, 476, 2, (-1)); (477, 477, 1, (-79)); (479, 495, 2, (-1)); (498, 498, 1, (-1));
  (499, 499, 1, (-2)); (501, 501, 1, (-1)); (502, 502, 1, (-97)); (503, 503, 1, (-56));
  (505, 543, 2, (-1)); (544, 544, 1, (-130)); (547, 563, 2, (-1)); (572, 572, 1, (-1));
  (573, 573, 1, (-163)); (578, 578, 1, (-1)); (579, 579, 1, (-195)); (583, 591, 2, (-1));
  (595, 595, 1, (-210)); (596, 596, 1, (-206)); (598, 599, 1, (-205)); (601, 601, 1, (-202));
  (603, 603, 1, (-203)); (608, 608, 1, (-205)); (611, 611, 1, (-207)); (616, 616, 1, (-209));
  (617, 617, 1, (-211)); (623, 623, 1, (-211)); (626, 626, 1, (-213)); (629, 629, 1, (-214));
  (640, 640, 1, (-218)); (643, 643, 1, (-218)); (648, 648, 1, (-218)); (649, 649, 1, (-69));
  (650, 651, 1, (-217)); (652, 652, 1, (-71)); (658, 658, 1, (-219)); (881, 883, 2, (-1));
  (887, 887, 1, (-1)); (921, 921, 1, (-84)); (924, 924, 1, (-743)); (940, 940, 1, (-38));
  (941, 943, 1, (-37)); (945, 952, 1, (-32)); (953, 953, 1, (-116)); (954, 955, 1, (-32));
  (956, 956, 1, (-775)); (957, 961, 1, (-32)); (962, 962, 1, (-31)); (963, 971, 1, (-32));
  (972, 972, 1, (-64)); (973, 974, 1, (-63)); (976, 976, 1, (-62)); (977, 977, 1, (-57));
  (981, 981, 1, (-47)); (982, 982, 1, (-54)); (983, 983, 1, (-8)); (985, 1007, 2, (-1));
  (1008, 1008, 1, (-86)); (1009, 1009, 1, (-80)); (1011, 1011, 1, (-116));
  (1012, 1012, 1, (-92)); (1013, 1013, 1, (-96)); (1016, 1016, 1, (-1)); (1017, 1017, 1, (-7));
  (1019, 1019, 1, (-1)); (1021, 1023, 1, (-130)); (1072, 1103, 1, (-32));
  (1104, 1119, 1, (-80)); (1121, 1153, 2, (-1)); (1163, 1215, 2, (-1)); (1218, 1230, 2, (-1));
  (1231, 1231, 1, (-15)); (1233, 1327, 2, (-1)); (1377, 1414, 1, (-48)); (5112, 5117, 1, (-8));
  (7296, 7296, 1, (-6254)); (7297, 7297, 1, (-6253)); (7298, 7298, 1, (-6244));
  (7299, 7300, 1, (-6242)); (7301, 7301, 1, (-6243)); (7302, 7302, 1, (-6236));
  (7303, 7303, 1, (-6181)); (7312, 7354, 1, (-3008)); (7357, 7359, 1, (-3008));
  (7681, 7829, 2, (-1)); (7835, 7835, 1, (-59)); (7838, 7838, 1, (-7615));
  (7841, 7935, 2, (-1)); (7944, 7951, 1, (-8)); (7960, 7965, 1, (-8)); (7976, 7983, 1, (-8));
  (7992, 7999, 1, (-8)); (8008, 8013, 1, (-8)); (8025, 8031, 2, (-8)); (8040, 8047, 1, (-8));
  (8072, 8079, 1, (-8)); (8088, 8095, 1, (-8)); (8104, 8111, 1, (-8)); (8120, 8121, 1, (-8));
  (8122, 8123, 1, (-74)); (8124, 8124, 1, (-9)); (8126, 8126, 1, (-7289));
  (8136, 8139, 1, (-86)); (8140, 8140, 1, (-9)); (8152, 8153, 1, (-8));
  (8154, 8155, 1, (-100)); (8168, 8169, 1, (-8)); (8170, 8171, 1, (-112));
  (8172, 8172, 1, (-7)); (8184, 8185, 1, (-128)); (8186, 8187, 1, (-126));
  (8188, 8188, 1, (-9)); (8486, 8486, 1, (-7549)); (8490, 8490, 1, (-8415));
  (8491, 8491, 1, (-8294)); (8526, 8526, 1, (-28)); (8560, 8575, 1, (-16));
  (8580, 8580, 1, (-1)); (9424, 9449, 1, (-26)); (11312, 11359, 1, (-48));
  (11361, 11361, 1, (-1)); (11362, 11362, 1, (-10743)); (11363, 11363, 1, (-3814));
  (11364, 11364, 1, (-10727)); (11365, 11365, 1, (-10795)); (11366, 11366, 1, (-10792));
  (11368, 11372, 2, (-1)); (11373, 11373, 1, (-10780)); (11374, 11374, 1, (-10749));
  (11375, 11375, 1, (-10783)); (11376, 11376, 1, (-10782)); (11379, 11379, 1, (-1));
  (11382, 11382, 1, (-1)); (11390, 11391, 1, (-10815)); (11393, 11491, 2, (-1));
  (11500, 11502, 2, (-1)); (11507, 11507, 1, (-1)); (11520, 11557, 1, (-7264));
  (11559, 11559, 1, (-7264)); (11565, 11565, 1, (-7264)); (42561, 42569, 2, (-1));
  (42570, 42570, 1, (-35266)); (42571, 42571, 1, (-35267)); (42573, 42605, 2, (-1));
  (42625, 42651, 2, (-1)); (42787, 42799, 2, (-1)); (42803, 42863, 2, (-1));
  (42874, 42876, 2, (-1)); (42877, 42877, 1, (-35332)); (42879, 42887, 2, (-1));
  (42892, 42892, 1, (-1)); (42893, 42893, 1, (-42280)); (42897, 42899, 2, (-1));
  (42903, 42921, 2, (-1)); (42922, 42922, 1, (-42308)); (42923, 42923, 1, (-42319));
  (42924, 42924, 1, (-42315)); (42925, 42925, 1, (-42305)); (42926, 42926, 1, (-42308));
  (42928, 42928, 1, (-42258)); (42929, 42929, 1, (-42282)); (42930, 42930, 1, (-42261));
  (42933, 42947, 2, (-1)); (42948, 42948, 1, (-48)); (42949, 42949, 1, (-42307));
  (42950, 42950, 1, (-35384)); (42952, 42954, 2, (-1)); (42961, 42961, 1, (-1));
  (42967, 42969, 2, (-1)); (42998, 42998, 1, (-1)); (43859, 43859, 1, (-928));
  (43888, 43967, 1, (-38864)); (65345, 65370, 1, (-32)); (66600, 66639, 1, (-40));
  (66776, 66811, 1, (-40)); (66967, 66977, 1, (-39)); (66979, 66993, 1, (-39));
  (66995, 67001, 1, (-39)); (67003, 67004, 1, (-39)); (68800, 68850, 1, (-64));
  (71872, 71903, 1, (-32)); (93792, 93823, 1, (-32)); (125218, 125251, 1, (-34))
].

Definition print_ranges : list (Z * Z) := [
  (161, 172); (174, 887); (890, 895); (900, 906); (908, 908); (910, 929); (931, 1327);
  (1329, 1366); (1369, 1418); (1421, 1423); (1425, 1479); (1488, 1514); (1519, 1524);
  (1542, 1563); (1565, 1756); (1758, 1805); (1808, 1866); (1869, 1969); (1984, 2042);
  (2045, 2093); (2096, 2110); (2112, 2139); (2142, 2142); (2144, 2154); (2160, 2190);
  (2200, 2273); (2275, 2435); (2437, 2444); (2447, 2448); (2451, 2472); (2474, 2480);
  (2482, 2482); (2486, 2489); (2492, 2500); (2503, 2504); (2507, 2510); (2519, 2519);
  (2524, 2525); (2527, 2531); (2534, 2558); (2561, 2563); (2565, 2570); (2575, 2576);
  (2579, 2600); (2602, 2608); (2610, 2611); (2613, 2614); (2616, 2617); (2620, 2620);
  (2622, 2626); (2631, 2632); (2635, 2637); (2641, 2641); (2649, 2652); (2654, 2654);
  (2662, 2678); (2689, 2691); (2693, 2701); (2703, 2705); (2707, 2728); (2730, 2736);
  (2738, 2739); (2741, 2745); (2748, 2757); (2759, 2761); (2763, 2765); (2768, 2768);
  (2784, 2787); (2790, 2801); (2809, 2815); (2817, 2819); (2821, 2828); (2831, 2832);
  (2835, 2856); (2858, 2864); (2866, 2867); (2869, 2873); (2876, 2884); (2887, 2888);
  (2891, 2893); (2901, 2903); (2908, 2909); (2911, 2915); (2918, 2935); (2946, 2947);
  (2949, 2954); (2958, 2960); (2962, 2965); (2969, 2970); (2972, 2972); (2974, 2975);
  (2979, 2980); (2984, 2986); (2990, 3001); (3006, 3010); (3014, 3016); (3018, 3021);
  (3024, 3024); (3031, 3031); (3046, 3066); (3072, 3084); (3086, 3088); (3090, 3112);
  (3114, 3129); (3132, 3140); (3142, 3144); (3146, 3149); (3157, 3158); (3160, 3162);
  (3165, 3165); (3168, 3171); (3174, 3183); (3191, 3212); (3214, 3216); (3218, 3240);
  (3242, 3251); (3253, 3257); (3260, 3268); (3270, 3272); (3274, 3277); (3285, 3286);
  (3293, 3294); (3296, 3299); (3302, 3311); (3313, 3315); (3328, 3340); (3342, 3344);
  (3346, 3396); (3398, 3400); (3402, 3407); (3412, 3427); (3430, 3455); (3457, 3459);
  (3461, 3478); (3482, 3505); (3507, 3515); (3517, 3517); (3520, 3526); (3530, 3530);
  (3535, 3540); (3542, 3542); (3544, 3551); (3558, 3567); (3570, 3572); (3585, 3642);
  (3647, 3675); (3713, 3714); (3716, 3716); (3718, 3722); (3724, 3747); (3749, 3749);
  (3751, 3773); (3776, 3780); (3782, 3782); (3784, 3790); (3792, 3801); (3804, 3807);
  (3840, 3911); (3913, 3948); (3953, 3991); (3993, 4028); (4030, 4044); (4046, 4058);
  (4096, 4293); (4295, 4295); (4301, 4301); (4304, 4680); (4682, 4685); (4688, 4694);
  (4696, 4696); (4698, 4701); (4704, 4744); (4746, 4749); (4752, 4784); (4786, 4789);
  (4792, 4798); (4800, 4800); (4802, 4805); (4808, 4822); (4824, 4880); (4882, 4885);
  (4888, 4954); (4957, 4988); (4992, 5017); (5024, 5109); (5112, 5117); (5120, 5759);
  (5761, 5788); (5792, 5880); (5888, 5909); (5919, 5942); (5952, 5971); (5984, 5996);
  (5998, 6000); (6002, 6003); (6016, 6109); (6112, 6121); (6128, 6137); (6144, 6157);
  (6159, 6169); (6176, 6264); (6272, 6314); (6320, 6389); (6400, 6430); (6432, 6443);
  (6448, 6459); (6464, 6464); (6468, 6509); (6512, 6516); (6528, 6571); (6576, 6601);
  (6608, 6618); (6622, 6683); (6686, 6750); (6752, 6780); (6783, 6793); (6800, 6809);
  (6816, 6829); (6832, 6862); (6912, 6988); (6992, 7038); (7040, 7155); (7164, 7223);
  (7227, 7241); (7245, 7304); (7312, 7354); (7357, 7367); (7376, 7418); (7424, 7957);
  (7960, 7965); (7968, 8005); (8008, 8013); (8016, 8023); (8025, 8025); (8027, 8027);
  (8029, 8029); (8031, 8061); (8064, 8116); (8118, 8132); (8134, 8147); (8150, 8155);
  (8157, 8175); (8178, 8180); (8182, 8190); (8208, 8231); (8240, 8286); (8304, 8305);
  (8308, 8334); (8336, 8348); (8352, 8384); (8400, 8432); (8448, 8587); (8592, 9254);
  (9280, 9290); (9312, 11123); (11126, 11157); (11159, 11507); (11513, 11557); (11559, 11559);
  (11565, 11565); (11568, 11623); (11631, 11632); (11647, 11670); (11680, 11686);
  (11688, 11694); (11696, 11702); (11704, 11710); (11712, 11718); (11720, 11726);
  (11728, 11734); (11736, 11742); (11744, 11869); (11904, 11929); (11931, 12019);
  (12032, 12245); (12272, 12283); (12289, 12351); (12353, 12438); (12441, 12543);
  (12549, 12591); (12593, 12686); (12688, 12771); (12784, 12830); (12832, 42124);
  (42128, 42182); (42192, 42539); (42560, 42743); (42752, 42954); (42960, 42961);
  (42963, 42963); (42965, 42969); (42994, 43052); (43056, 43065); (43072, 43127);
  (43136, 43205); (43214, 43225); (43232, 43347); (43359, 43388); (43392, 43469);
  (43471, 43481); (43486, 43518); (43520, 43574); (43584, 43597); (43600, 43609);
  (43612, 43714); (43739, 43766); (43777, 43782); (43785, 43790); (43793, 43798);
  (43808, 43814); (43816, 43822); (43824, 43883); (43888, 44013); (44016, 44025);
  (44032, 55203); (55216, 55238); (55243, 55291); (63744, 64109); (64112, 64217);
  (64256, 64262); (64275, 64279); (64285, 64310); (64312, 64316); (64318, 64318);
  (64320, 64321); (64323, 64324); (64326, 64450); (64467, 64911); (64914, 64967);
  (64975, 64975); (65008, 65049); (65056, 65106); (65108, 65126); (65128, 65131);
  (65136, 65140); (65142, 65276); (65281, 65470); (65474, 65479); (65482, 65487);
  (65490, 65495); (65498, 65500); (65504, 65510); (65512, 65518); (65532, 65533);
  (65536, 65547); (65549, 65574); (65576, 65594); (65596, 65597); (65599, 65613);
  (65616, 65629); (65664, 65786); (65792, 65794); (65799, 65843); (65847, 65934);
  (65936, 65948); (65952, 65952); (66000, 66045); (66176, 66204); (66208, 66256);
  (66272, 66299); (66304, 66339); (66349, 66378); (66384, 66426); (66432, 66461);
  (66463, 66499); (66504, 66517); (66560, 66717); (66720, 66729); (66736, 66771);
  (66776, 66811); (66816, 66855); (66864, 66915); (66927, 66938); (66940, 66954);
  (66956, 66962); (66964, 66965); (66967, 66977); (66979, 66993); (66995, 67001);
  (67003, 67004); (67072, 67382); (67392, 67413); (67424, 67431); (67456, 67461);
  (67463, 67504); (67506, 67514); (67584, 67589); (67592, 67592); (67594, 67637);
  (67639, 67640); (67644, 67644); (67647, 67669); (67671, 67742); (67751, 67759);
  (67808, 67826); (67828, 67829); (67835, 67867); (67871, 67897); (67903, 67903);
  (67968, 68023); (68028, 68047); (68050, 68099); (68101, 68102); (68108, 68115);
  (68117, 68119); (68121, 68149); (68152, 68154); (68159, 68168); (68176, 68184);
  (68192, 68255); (68288, 68326); (68331, 68342); (68352, 68405); (68409, 68437);
  (68440, 68466); (68472, 68497); (68505, 68508); (68521, 68527); (68608, 68680);
  (68736, 68786); (68800, 68850); (68858, 68903); (68912, 68921); (69216, 69246);
  (69248, 69289); (69291, 69293); (69296, 69297); (69373, 69415); (69424, 69465);
  (69488, 69513); (69552, 69579); (69600, 69622); (69632, 69709); (69714, 69749);
  (69759, 69820); (69822, 69826); (69840, 69864); (69872, 69881); (69888, 69940);
  (69942, 69959); (69968, 70006); (70016, 70111); (70113, 70132); (70144, 70161);
  (70163, 70209); (70272, 70278); (70280, 70280); (70282, 70285); (70287, 70301);
  (70303, 70313); (70320, 70378); (70384, 70393); (70400, 70403); (70405, 70412);
  (70415, 70416); (70419, 70440); (70442, 70448); (70450, 70451); (70453, 70457);
  (70459, 70468); (70471, 70472); (70475, 70477); (70480, 70480); (70487, 70487);
  (70493, 70499); (70502, 70508); (70512, 70516); (70656, 70747); (70749, 70753);
  (70784, 70855); (70864, 70873); (71040, 71093); (71096, 71133); (71168, 71236);
  (71248, 71257); (71264, 71276); (71296, 71353); (71360, 71369); (71424, 71450);
  (71453, 71467); (71472, 71494); (71680, 71739); (71840, 71922); (71935, 71942);
  (71945, 71945); (71948, 71955); (71957, 71958); (71960, 71989); (71991, 71992);
  (71995, 72006); (72016, 72025); (72096, 72103); (72106, 72151); (72154, 72164);
  (72192, 72263); (72272, 72354); (72368, 72440); (72448, 72457); (72704, 72712);
  (72714, 72758); (72760, 72773); (72784, 72812); (72816, 72847); (72850, 72871);
  (72873, 72886); (72960, 72966); (72968, 72969); (72971, 73014); (73018, 73018);
  (73020, 73021); (73023, 73031); (73040, 73049); (73056, 73061); (73063, 73064);
  (73066, 73102); (73104, 73105); (73107, 73112); (73120, 73129); (73440, 73464);
  (73472, 73488); (73490, 73530); (73534, 73561); (73648, 73648); (73664, 73713);
  (73727, 74649); (74752, 74862); (74864, 74868); (74880, 75075); (77712, 77810);
  (77824, 78894); (78912, 78933); (82944, 83526); (92160, 92728); (92736, 92766);
  (92768, 92777); (92782, 92862); (92864, 92873); (92880, 92909); (92912, 92917);
  (92928, 92997); (93008, 93017); (93019, 93025); (93027, 93047); (93053, 93071);
  (93760, 93850); (93952, 94026); (94031, 94087); (94095, 94111); (94176, 94180);
  (94192, 94193); (94208, 100343); (100352, 101589); (101632, 101640); (110576, 110579);
  (110581, 110587); (110589, 110590); (110592, 110882); (110898, 110898); (110928, 110930);
  (110933, 110933); (110948, 110951); (110960, 111355); (113664, 113770); (113776, 113788);
  (113792, 113800); (113808, 113817); (113820, 113823); (118528, 118573); (118576, 118598);
  (118608, 118723); (118784, 119029); (119040, 119078); (119081, 119154); (119163, 119274);
  (119296, 119365); (119488, 119507); (119520, 119539); (119552, 119638); (119648, 119672);
  (119808, 119892); (119894, 119964); (119966, 119967); (119970, 119970); (119973, 119974);
  (119977, 119980); (119982, 119993); (119995, 119995); (119997, 120003); (120005, 120069);
  (120071, 120074); (120077, 120084); (120086, 120092); (120094, 120121); (120123, 120126);
  (120128, 120132); (120134, 120134); (120138, 120144); (120146, 120485); (120488, 120779);
  (120782, 121483); (121499, 121503); (121505, 121519); (122624, 122654); (122661, 122666);
  (122880, 122886); (122888, 122904); (122907, 122913); (122915, 122916); (122918, 122922);
  (122928, 122989); (123023, 123023); (123136, 123180); (123184, 123197); (123200, 123209);
  (123214, 123215); (123536, 123566); (123584, 123641); (123647, 123647); (124112, 124153);
  (124896, 124902); (124904, 124907); (124909, 124910); (124912, 124926); (124928, 125124);
  (125127, 125142); (125184, 125259); (125264, 125273); (125278, 125279); (126065, 126132);
  (126209, 126269); (126464, 126467); (126469, 126495); (126497, 126498); (126500, 126500);
  (126503, 126503); (126505, 126514); (126516, 126519); (126521, 126521); (126523, 126523);
  (126530, 126530); (126535, 126535); (126537, 126537); (126539, 126539); (126541, 126543);
  (126545, 126546); (126548, 126548); (126551, 126551); (126553, 126553); (126555, 126555);
  (126557, 126557); (126559, 126559); (126561, 126562); (126564, 126564); (126567, 126570);
  (126572, 126578); (126580, 126583); (126585, 126588); (126590, 126590); (126592, 126601);
  (126603, 126619); (126625, 126627); (126629, 126633); (126635, 126651); (126704, 126705);
  (126976, 127019); (127024, 127123); (127136, 127150); (127153, 127167); (127169, 127183);
  (127185, 127221); (127232, 127405); (127462, 127490); (127504, 127547); (127552, 127560);
  (127568, 127569); (127584, 127589); (127744, 128727); (128732, 128748); (128752, 128764);
  (128768, 128886); (128891, 128985); (128992, 129003); (129008, 129008); (129024, 129035);
  (129040, 129095); (129104, 129113); (129120, 129159); (129168, 129197); (129200, 129201);
  (129280, 129619); (129632, 129645); (129648, 129660); (129664, 129672); (129680, 129725);
  (129727, 129733); (129742, 129755); (129760, 129768); (129776, 129784); (129792, 129938);
  (129940, 129994); (130032, 130041); (131072, 173791); (173824, 177976); (177984, 178205);
  (178208, 183969); (183984, 191456); (194560, 195101); (196608, 201546); (201552, 205743);
  (917760, 917999)
].

Fixpoint case_delta (t : list (Z * Z * Z * Z)) (r : Z) : Z :=
  match t with
  | [] => 0
  | (lo, hi, stride, delta) :: t =>
      if (lo <=? r) && (r <=? hi) && ((r - lo) mod stride =? 0) then delta else case_delta t r
  end.

Definition in_ranges (t : list (Z * Z)) (r : Z) : bool :=
  existsb (fun '(lo, hi) => (lo <=? r) && (r <=? hi)) t.
