(* ===== verification/GoStrings.v ===== *)
(** * The parts of Go's [strings], [unicode], [utf8], [strconv], [sort] and [fmt] packages
    the program uses

    A Go string is a byte sequence, modelled by Rocq's [string]; case mapping and trimming
    work on the runes of its UTF-8 decoding, as in Go. *)

From S2P Require Import Prelude UnicodeTables.
#[local] Open Scope Z_scope.

(** ** UTF-8 *)
Module Utf8.
Definition RuneError : Z := 65533.

Definition cont (lo hi : Z) (b : byte) : bool :=
  (lo <=? byte_to_Z b) && (byte_to_Z b <=? hi).

(** The accepted range of the second byte, by the first byte (the [acceptRanges] table). *)
Definition second_ok (b0 b1 : byte) : bool :=
  let z := byte_to_Z b0 in
  if z =? 224 then cont 160 191 b1
  else if z =? 237 then cont 128 159 b1
  else if z =? 240 then cont 144 191 b1
  else if z =? 244 then cont 128 143 b1
  else cont 128 191 b1.

Definition bits6 (b : byte) : Z := Z.land (byte_to_Z b) 63.

(** The runes of a byte sequence, each with the bytes it was decoded from.  An invalid byte
    decodes to [RuneError] with width 1. *)
Fixpoint runes (s : list byte) : list (Z * list byte) :=
  match s with
  | [] => []
  | b0 :: s1 =>
      let z := byte_to_Z b0 in
      if z <? 128 then (z, [b0]) :: runes s1
      else if (194 <=? z) && (z <=? 223) then
        match s1 with
        | b1 :: s2 =>
            if second_ok b0 b1
            then (Z.lor (Z.shiftl (Z.land z 31) 6) (bits6 b1), [b0; b1]) :: runes s2
            else (RuneError, [b0]) :: runes s1
        | [] => (RuneError, [b0]) :: runes s1
        end
      else if (224 <=? z) && (z <=? 239) then
        match s1 with
        | b1 :: b2 :: s3 =>
            if second_ok b0 b1 && cont 128 191 b2
            then (Z.lor (Z.lor (Z.shiftl (Z.land z 15) 12) (Z.shiftl (bits6 b1) 6)) (bits6 b2),
                  [b0; b1; b2]) :: runes s3
            else (RuneError, [b0]) :: runes s1
        | _ => (RuneError, [b0]) :: runes s1
        end
      else if (240 <=? z) && (z <=? 244) then
        match s1 with
        | b1 :: b2 :: b3 :: s4 =>
            if second_ok b0 b1 && cont 128 191 b2 && cont 128 191 b3
            then (Z.lor (Z.lor (Z.shiftl (Z.land z 7) 18) (Z.shiftl (bits6 b1) 12))
                        (Z.lor (Z.shiftl (bits6 b2) 6) (bits6 b3)),
                  [b0; b1; b2; b3]) :: runes s4
            else (RuneError, [b0]) :: runes s1
        | _ => (RuneError, [b0]) :: runes s1
        end
      else (RuneError, [b0]) :: runes s1
  end.

(** [utf8.AppendRune]: surrogates and out-of-range runes become [RuneError]. *)
Definition encode (r : Z) : list byte :=
  let r := if (r <? 0) || (1114111 <? r) || ((55296 <=? r) && (r <=? 57343))
           then RuneError else r in
  let low6 n := byte_of_Z (128 + Z.land (Z.shiftr r n) 63) in
  if r <? 128 then [byte_of_Z r]
  else if r <? 2048 then [byte_of_Z (192 + Z.shiftr r 6); low6 0]
  else if r <? 65536 then [byte_of_Z (224 + Z.shiftr r 12); low6 6; low6 0]
  else [byte_of_Z (240 + Z.shiftr r 18); low6 12; low6 6; low6 0].
End Utf8.

(** ** Unicode case and classes *)
Definition unicode_ToLower (r : Z) : Z :=
  if (65 <=? r) && (r <=? 90) then r + 32
  else if r <? 128 then r
  else r + case_delta lower_ranges r.

(** The least rune of the [unicode.SimpleFold] orbit of [r]. *)
Definition fold_class (r : Z) : Z := r + case_delta fold_ranges r.

Definition unicode_IsSpace (r : Z) : bool :=
  ((9 <=? r) && (r <=? 13)) || (r =? 32) || (r =? 133) || (r =? 160) || (r =? 5760)
  || ((8192 <=? r) && (r <=? 8202)) || (r =? 8232) || (r =? 8233) || (r =? 8239)
  || (r =? 8287) || (r =? 12288).

Definition strconv_IsPrint (r : Z) : bool :=
  ((32 <=? r) && (r <? 127)) || ((161 <=? r) && in_ranges print_ranges r).

(** ** Package [strings] *)
Definition ToLower (s : string) : string :=
  bytes_string (flat_map (fun '(r, _) => Utf8.encode (unicode_ToLower r)) (Utf8.runes (string_bytes s))).

Fixpoint drop_space (l : list (Z * list byte)) : list (Z * list byte) :=
  match l with
  | [] => []
  | (r, bs) :: l' => if unicode_IsSpace r then drop_space l' else l
  end.

Definition TrimSpace (s : string) : string :=
  bytes_string (flat_map snd (reverse (drop_space (reverse (drop_space (Utf8.runes (string_bytes s))))))).

Definition EqualFold (s t : string) : bool :=
  bool_decide (map (fun p => fold_class p.1) (Utf8.runes (string_bytes s))
             = map (fun p => fold_class p.1) (Utf8.runes (string_bytes t))).

Definition HasPrefix (s p : string) : bool := String.prefix p s.

Fixpoint Contains (s sub : string) : bool :=
  HasPrefix s sub ||
  match s with
  | EmptyString => false
  | String _ s' => Contains s' sub
  end.

(** [s[n:]] and [s[:n]] of a string, for [n] within its length. *)
Fixpoint sdrop (n : nat) (s : string) : string :=
  match n, s with
  | S n, String _ s => sdrop n s
  | _, _ => s
  end.
Fixpoint stake (n : nat) (s : string) : string :=
  match n, s with
  | S n, String c s => String c (stake n s)
  | _, _ => EmptyString
  end.

Definition TrimPrefix (s p : string) : string :=
  if HasPrefix s p then sdrop (String.length p) s else s.

Definition HasSuffix (s p : string) : bool :=
  (String.length p <=? String.length s)%nat &&
  (String.eqb (sdrop (String.length s - String.length p) s) p).

(** [strings.Cut(s, sep)] for a one-byte separator: the parts around its first occurrence. *)
Fixpoint Cut (sep : ascii) (s : string) : option (string * string) :=
  match s with
  | EmptyString => None
  | String c s' =>
      if Ascii.eqb c sep then Some (EmptyString, s')
      else match Cut sep s' with
           | Some (a, b) => Some (String c a, b)
           | None => None
           end
  end.

(** [strings.Split(s, sep)] for a one-byte separator. *)
Fixpoint Split (sep : ascii) (s : string) : list string :=
  match s with
  | EmptyString => [EmptyString]
  | String c s' =>
      if Ascii.eqb c sep then EmptyString :: Split sep s'
      else match Split sep s' with
           | w :: ws => String c w :: ws
           | [] => [String c EmptyString]
           end
  end.

Definition Join (parts : list string) (sep : string) : string := String.concat sep parts.

(** [strings.ReplaceAll] of one byte by a string. *)
Fixpoint ReplaceAll (s : string) (old : ascii) (new : string) : string :=
  match s with
  | EmptyString => EmptyString
  | String c s' => if Ascii.eqb c old then new +:+ ReplaceAll s' old new
                   else String c (ReplaceAll s' old new)
  end.

(** ** [strconv], [hex] and [fmt] *)
Definition Itoa (z : Z) : string := pretty z.

(** [%02d] of a non-negative integer. *)
Definition pad2 (z : Z) : string := if z <? 10 then "0" +:+ Itoa z else Itoa z.

Definition hex_digit (z : Z) : ascii :=
  match String.get (Z.to_nat z) "0123456789abcdef" with
  | Some c => c
  | None => "0"%char
  end.

Definition hex_byte (b : byte) : string :=
  let z := byte_to_Z b in
  String (hex_digit (z / 16)) (String (hex_digit (z mod 16)) EmptyString).

(** [hex.EncodeToString], also [%x] of a byte slice. *)
Fixpoint hex (bs : list byte) : string :=
  match bs with
  | [] => EmptyString
  | b :: bs => hex_byte b +:+ hex bs
  end.

(** The last [n] hexadecimal digits of an integer. *)
Fixpoint hex_digits (n : nat) (z : Z) : string :=
  match n with
  | O => EmptyString
  | S n => hex_digits n (z / 16) +:+ String (hex_digit (z mod 16)) EmptyString
  end.

Definition dquote : string := String "034"%char EmptyString.
Definition backslash : string := String "092"%char EmptyString.

(** [strconv.appendEscapedRune] for a double-quoted string. *)
Definition quote_rune (p : Z * list byte) : string :=
  let '(r, raw) := p in
  match raw with
  | [b] =>
      if 128 <=? byte_to_Z b then backslash +:+ "x" +:+ hex_byte b
      else if (r =? 34) || (r =? 92) then backslash +:+ bytes_string raw
      else if (32 <=? r) && (r <? 127) then bytes_string raw
      else if r =? 7 then backslash +:+ "a"
      else if r =? 8 then backslash +:+ "b"
      else if r =? 12 then backslash +:+ "f"
      else if r =? 10 then backslash +:+ "n"
      else if r =? 13 then backslash +:+ "r"
      else if r =? 9 then backslash +:+ "t"
      else if r =? 11 then backslash +:+ "v"
      else backslash +:+ "x" +:+ hex_byte b
  | _ =>
      if strconv_IsPrint r then bytes_string raw
      else if r <? 65536 then backslash +:+ "u" +:+ hex_digits 4 r
      else backslash +:+ "U" +:+ hex_digits 8 r
  end.

(** [strconv.Quote], also [%q] of a string. *)
Definition Quote (s : string) : string :=
  dquote +:+ fold_right (fun p acc => quote_rune p +:+ acc) EmptyString (Utf8.runes (string_bytes s)) +:+ dquote.

(** ** [sort] *)
Definition sort_Strings (l : list string) : list string := merge_sort String.le l.
Definition sort_ints (l : list Z) : list Z := merge_sort Z.le l.

Lemma sort_ints_Permutation (l : list Z) : sort_ints l ≡ₚ l.
Proof. apply merge_sort_Permutation. Qed.

Lemma sort_ints_sorted (l : list Z) : StronglySorted Z.le (sort_ints l).
Proof. apply (StronglySorted_merge_sort Z.le). Qed.

(** Sorting forgets the order of its input. *)
Lemma sort_ints_proper (l k : list Z) : l ≡ₚ k -> sort_ints l = sort_ints k.
Proof.
  intros H. apply (StronglySorted_unique Z.le); [apply sort_ints_sorted..|].
  by rewrite !sort_ints_Permutation.
Qed.

Lemma sort_ints_inj_perm (l k : list Z) : sort_ints l = sort_ints k -> l ≡ₚ k.
Proof. intros H. by rewrite <- (sort_ints_Permutation l), H, sort_ints_Permutation. Qed.

#[export] Instance sort_ints_Proper : Proper (Permutation ==> eq) sort_ints.
Proof. intros l k. apply sort_ints_proper. Qed.

Lemma sort_Strings_proper (l k : list string) : l ≡ₚ k -> sort_Strings l = sort_Strings k.
Proof.
  intros H. apply (StronglySorted_unique String.le);
    [apply (StronglySorted_merge_sort String.le)..|].
  unfold sort_Strings. by rewrite !merge_sort_Permutation.
Qed.

(** ** Facts on strings *)
Lemma append_cons x (a b : string) : String x a +:+ b = String x (a +:+ b).
Proof. done. Qed.

Lemma append_nil_l (a : string) : EmptyString +:+ a = a.
Proof. done. Qed.

Lemma append_assoc (a b c : string) : (a +:+ b) +:+ c = a +:+ (b +:+ c).
Proof. induction a as [|x a IH]; [done|]. rewrite !append_cons. by rewrite IH. Qed.

Lemma append_nil_r (a : string) : a +:+ EmptyString = a.
Proof. induction a as [|x a IH]; [done|]. rewrite append_cons. by rewrite IH. Qed.

Lemma length_append (a b : string) :
  String.length (a +:+ b) = (String.length a + String.length b)%nat.
Proof. induction a as [|x a IH]; [done|]. rewrite append_cons. simpl. by rewrite IH. Qed.

(** An append splits uniquely at a known length. *)
Lemma append_inj (a b c d : string) :
  String.length a = String.length c -> a +:+ b = c +:+ d -> a = c /\ b = d.
Proof.
  revert c. induction a as [|x a IH]; intros [|y c] Hl; simpl in *; try done.
  rewrite !append_cons. intros [= -> H]. injection Hl as Hl. destruct (IH _ Hl H) as [-> ->]. done.
Qed.

Lemma length_hex bs : String.length (hex bs) = (2 * length bs)%nat.
Proof. induction bs as [|b bs IH]; simpl; [done|]. rewrite length_append, IH. simpl. lia. Qed.

Lemma HasPrefix_append p s : HasPrefix (p +:+ s) p = true.
Proof.
  unfold HasPrefix. induction p as [|c p IH]; [rewrite append_nil_l; by destruct s|].
  rewrite append_cons. cbn. by destruct (ascii_dec c c).
Qed.

Lemma sdrop_append p s : sdrop (String.length p) (p +:+ s) = s.
Proof. induction p as [|c p IH]; [by destruct s|]. rewrite append_cons. exact IH. Qed.

Lemma HasPrefix_iff s p : HasPrefix s p = true <-> exists t, s = p +:+ t.
Proof.
  split; [|intros [t ->]; apply HasPrefix_append].
  unfold HasPrefix. revert s. induction p as [|c p IH]; intros [|d s]; cbn; try done.
  - intros _. by exists EmptyString.
  - intros _. by exists (String d s).
  - case_match; [|done]. intros [t ->]%IH. subst. exists t. by rewrite append_cons.
Qed.

(** A string does not contain a byte. *)
Fixpoint no_byte (c : ascii) (s : string) : bool :=
  match s with
  | EmptyString => true
  | String d s => negb (Ascii.eqb c d) && no_byte c s
  end.

(** Fields free of the separator can be read back from their join. *)
Lemma append_sep_inj c (a b a' b' : string) :
  no_byte c a -> no_byte c a' ->
  a +:+ String c b = a' +:+ String c b' -> a = a' /\ b = b'.
Proof.
  revert a'. induction a as [|x a IH]; intros [|y a']; rewrite ?append_cons, ?append_nil_l; simpl; intros Ha Ha' H.
  - by injection H as ->.
  - injection H as -> _. rewrite Ascii.eqb_refl in Ha'. done.
  - injection H as -> _. rewrite Ascii.eqb_refl in Ha. done.
  - injection H as -> H. apply andb_prop_elim in Ha as [_ Ha], Ha' as [_ Ha'].
    destruct (IH a' Ha Ha' H) as [-> ->]. done.
Qed.

(** Splitting at a separator undoes joining with it. *)
Lemma Split_no_byte c s : no_byte c s -> Split c s = [s].
Proof.
  induction s as [|d s IH]; [done|]. cbn. intros [H1 H2]%andb_prop_elim.
  rewrite Ascii.eqb_sym in H1. destruct (Ascii.eqb d c); [done|]. by rewrite IH.
Qed.

Lemma Split_append c a s : no_byte c a -> Split c (a +:+ String c s) = a :: Split c s.
Proof.
  induction a as [|d a IH]; rewrite ?append_cons, ?append_nil_l; cbn.
  - by rewrite Ascii.eqb_refl.
  - intros [H1 H2]%andb_prop_elim. rewrite Ascii.eqb_sym in H1.
    destruct (Ascii.eqb d c); [done|]. by rewrite IH.
Qed.

Lemma Split_Join c l :
  l <> [] -> Forall (fun s => no_byte c s) l -> Split c (Join l (String c EmptyString)) = l.
Proof.
  induction l as [|a l IH]; [done|]. intros _ [Ha Hl]%Forall_cons.
  destruct l as [|b l]; [by apply Split_no_byte|].
  change (Join (a :: b :: l) (String c EmptyString))
    with (a +:+ String c (Join (b :: l) (String c EmptyString))).
  rewrite Split_append by done. by rewrite IH.
Qed.

Lemma Join_inj_len c l k :
  Forall (fun s => no_byte c s) l -> Forall (fun s => no_byte c s) k -> length l = length k ->
  Join l (String c EmptyString) = Join k (String c EmptyString) -> l = k.
Proof.
  intros Hl Hk Hlen H. destruct l as [|a l], k as [|b k]; [done..|].
  by rewrite <- (Split_Join c (a :: l)), <- (Split_Join c (b :: k)), H.
Qed.

(** [Join] of non-empty fields is injective at every length. *)
Lemma Join_inj c l k :
  Forall (fun s => no_byte c s /\ s <> EmptyString) l ->
  Forall (fun s => no_byte c s /\ s <> EmptyString) k ->
  Join l (String c EmptyString) = Join k (String c EmptyString) -> l = k.
Proof.
  intros Hl Hk H.
  assert (Hne : forall x xs, Forall (fun s => no_byte c s /\ s <> EmptyString) (x :: xs) ->
    Join (x :: xs) (String c EmptyString) <> EmptyString).
  { intros x xs [[_ Hx] _]%Forall_cons. destruct x as [|d x]; [done|]. by destruct xs. }
  destruct l as [|a l], k as [|b k]; [done| | |].
  - symmetry in H. by apply Hne in H.
  - by apply Hne in H.
  - rewrite <- (Split_Join c (a :: l)), <- (Split_Join c (b :: k)), H; try done;
      (eapply Forall_impl; [eassumption|]; naive_solver).
Qed.

(** Append from the right: suffixes of known length. *)
Lemma append_inj_r (a b c d : string) :
  String.length b = String.length d -> a +:+ b = c +:+ d -> a = c /\ b = d.
Proof.
  intros Hl H. apply append_inj; [|done].
  apply (f_equal String.length) in H. rewrite !length_append in H. lia.
Qed.

Lemma no_byte_append c a b : no_byte c (a +:+ b) = no_byte c a && no_byte c b.
Proof.
  induction a as [|d a IH]; [done|]. rewrite append_cons. cbn. rewrite IH. apply andb_assoc.
Qed.

Lemma no_byte_Join c sep l :
  no_byte c sep -> Forall (fun s => no_byte c s) l -> no_byte c (Join l sep).
Proof.
  intros Hs. induction l as [|a l IH]; [done|]. intros [Ha Hl]%Forall_cons.
  destruct l as [|b l]; [done|]. change (no_byte c (a +:+ (sep +:+ Join (b :: l) sep))).
  rewrite !no_byte_append. repeat (apply andb_prop_intro; split); auto.
Qed.

(** ** Decimal numbers *)
Definition digit (c : ascii) : bool :=
  bool_decide (c ∈ (["0"; "1"; "2"; "3"; "4"; "5"; "6"; "7"; "8"; "9"]%char : list ascii)).

Lemma pretty_N_go_no_byte c x s : digit c = false -> no_byte c s -> no_byte c (pretty_N_go x s).
Proof.
  intros Hc. revert s. induction (N.lt_wf_0 x) as [x _ IH]; intros s Hs.
  destruct (decide (x = 0)%N) as [->|]; [done|].
  rewrite pretty_N_go_step by lia. apply IH; [apply N.div_lt; lia|]. cbn.
  apply andb_prop_intro; split; [|done].
  destruct (Ascii.eqb_spec c (pretty_N_char (x `mod` 10))) as [->|]; [|done].
  unfold pretty_N_char in Hc. repeat case_match; done.
Qed.

Lemma Itoa_no_byte c z : 0 <= z -> digit c = false -> no_byte c (Itoa z).
Proof.
  intros Hz Hc. unfold Itoa, pretty, pretty_Z.
  assert (forall n : N, no_byte c (pretty n)) as H.
  { intros n. unfold pretty, pretty_N. case_decide; [|by apply pretty_N_go_no_byte].
    cbn. destruct (Ascii.eqb_spec c "0") as [->|]; done. }
  destruct z; [apply (H 0%N)|apply (H (Npos _))|lia].
Qed.

Lemma pretty_N_go_ne x s : (0 < x)%N \/ s <> EmptyString -> pretty_N_go x s <> EmptyString.
Proof.
  revert s. induction (N.lt_wf_0 x) as [x _ IH]; intros s Hs.
  destruct (decide (x = 0)%N) as [->|]; [rewrite pretty_N_go_0; naive_solver lia|].
  rewrite pretty_N_go_step by lia. apply IH; [apply N.div_lt; lia|by right].
Qed.

Lemma Itoa_ne z : Itoa z <> EmptyString.
Proof.
  unfold Itoa, pretty, pretty_Z, pretty_positive, pretty, pretty_N.
  destruct z; [done| |]; case_decide; try done.
  - apply pretty_N_go_ne. left. lia.
Qed.

#[export] Instance Itoa_inj : Inj (=) (=) Itoa.
Proof. unfold Itoa. apply _. Qed.

(** On ASCII text, [ToLower] is the byte-wise mapping of Go's fast path. *)
Definition ascii_byte (b : byte) : bool := byte_to_Z b <? 128.
Definition lower_byte (b : byte) : byte := byte_of_Z (unicode_ToLower (byte_to_Z b)).

Lemma unicode_ToLower_ascii z : 0 <= z < 128 -> 0 <= unicode_ToLower z < 128.
Proof.
  intros Hz. unfold unicode_ToLower. replace (z <? 128) with true by lia.
  destruct ((65 <=? z) && (z <=? 90)) eqn:E; lia.
Qed.

Lemma runes_ascii bs :
  forallb ascii_byte bs -> Utf8.runes bs = map (fun b => (byte_to_Z b, [b])) bs.
Proof.
  induction bs as [|b bs IH]; [done|]. simpl. unfold ascii_byte.
  intros H%andb_prop_elim. destruct H as [H1 H2].
  destruct (byte_to_Z b <? 128) eqn:E; [|done]. by rewrite IH.
Qed.

Lemma encode_ascii r : 0 <= r < 128 -> Utf8.encode r = [byte_of_Z r].
Proof.
  intros. unfold Utf8.encode.
  replace ((r <? 0) || (1114111 <? r) || ((55296 <=? r) && (r <=? 57343))) with false by lia.
  by replace (r <? 128) with true by lia.
Qed.

Lemma ToLower_ascii bs :
  forallb ascii_byte bs -> ToLower (bytes_string bs) = bytes_string (map lower_byte bs).
Proof.
  intros H. unfold ToLower. rewrite string_bytes_string, runes_ascii by done. f_equal.
  induction bs as [|b bs IH]; [done|]. simpl in *. apply andb_prop_elim in H as [H1 H2].
  rewrite encode_ascii, IH; [done..|].
  apply unicode_ToLower_ascii. unfold ascii_byte in H1. pose proof (byte_to_Z_range b).
  destruct (byte_to_Z b <? 128) eqn:E; [lia|done].
Qed.

(** ** Hexadecimal text is already in lower case *)
Lemma hex_digit_lower z :
  ascii_byte (byte_of_ascii (hex_digit z)) /\
  lower_byte (byte_of_ascii (hex_digit z)) = byte_of_ascii (hex_digit z).
Proof.
  unfold hex_digit. generalize (Z.to_nat z) as n. intros n.
  do 16 (destruct n as [|n]; [by vm_compute|]). simpl. destruct n; by vm_compute.
Qed.

Lemma string_bytes_append a b : string_bytes (a +:+ b) = string_bytes a ++ string_bytes b.
Proof. induction a as [|c a IH]; [done|]. rewrite append_cons. cbn. f_equal. exact IH. Qed.

Lemma hex_lower bs :
  forallb ascii_byte (string_bytes (hex bs)) /\
  map lower_byte (string_bytes (hex bs)) = string_bytes (hex bs).
Proof.
  induction bs as [|b bs [IH1 IH2]]; [done|]. cbn [hex]. rewrite string_bytes_append, forallb_app, map_app, IH2.
  destruct (hex_digit_lower (byte_to_Z b / 16)) as [H1 H2], (hex_digit_lower (byte_to_Z b mod 16)) as [H3 H4].
  split.
  - cbn. cbn in IH1. repeat (apply andb_prop_intro; split); done.
  - f_equal. cbn. by rewrite H2, H4.
Qed.

Lemma ToLower_hex bs : ToLower (hex bs) = hex bs.
Proof.
  destruct (hex_lower bs) as [H1 H2].
  rewrite <- (bytes_string_bytes (hex bs)) at 1. by rewrite ToLower_ascii, H2, bytes_string_bytes.
Qed.

Lemma length_stake n s : (n <= String.length s)%nat -> String.length (stake n s) = n.
Proof. revert s. induction n as [|n IH]; intros [|c s]; cbn; try lia. intros. rewrite IH; lia. Qed.

Lemma hex_digit_inj a b : 0 <= a < 16 -> 0 <= b < 16 -> hex_digit a = hex_digit b -> a = b.
Proof.
  intros Ha Hb H.
  assert (Hall : forallb (fun m => forallb (fun n => implb (Ascii.eqb (hex_digit (Z.of_nat m)) (hex_digit (Z.of_nat n)))
      (m =? n)%nat) (List.seq 0 16)) (List.seq 0 16) = true) by (vm_compute; reflexivity).
  rewrite forallb_forall in Hall. specialize (Hall (Z.to_nat a)).
  rewrite forallb_forall in Hall. specialize (Hall ltac:(apply List.in_seq; lia) (Z.to_nat b) ltac:(apply List.in_seq; lia)).
  rewrite !Z2Nat.id, H, Ascii.eqb_refl in Hall by lia. cbn in Hall. apply Nat.eqb_eq in Hall. lia.
Qed.

#[export] Instance hex_inj : Inj (=) (=) hex.
Proof.
  intros bs. induction bs as [|b bs IH]; intros [|c cs] H; try done.
  cbn [hex] in H. unfold hex_byte in H. rewrite !append_cons, !append_nil_l in H. injection H as H1 H2 H3.
  pose proof (byte_to_Z_range b). pose proof (byte_to_Z_range c).
  apply hex_digit_inj in H1; [|split; [apply Z.div_pos; lia|apply Z.div_lt_upper_bound; lia]..].
  apply hex_digit_inj in H2; [|apply Z.mod_pos_bound; lia..].
  f_equal; [|by apply IH]. apply byte_to_Z_inj.
  rewrite (Z.div_mod (byte_to_Z b) 16), (Z.div_mod (byte_to_Z c) 16), H1, H2 by lia. done.
Qed.

Lemma length_pad2 z : 0 <= z < 100 -> String.length (pad2 z) = 2%nat.
Proof.
  intros Hz.
  assert (H : forallb (fun n => String.length (pad2 (Z.of_nat n)) =? 2)%nat (List.seq 0 100) = true)
    by (vm_compute; reflexivity).
  rewrite forallb_forall in H. specialize (H (Z.to_nat z)).
  rewrite Z2Nat.id in H by lia. apply Nat.eqb_eq, H, List.in_seq. lia.
Qed.

Example ToLower_kelvin : ToLower (bytes_string (Utf8.encode 8490)) = "k".
Proof. reflexivity. Qed.
Example EqualFold_ex : EqualFold "PDF Viewer" "pdf vIEWER" = true.
Proof. reflexivity. Qed.
Example TrimSpace_ex : TrimSpace " 	a b  " = "a b".
Proof. reflexivity. Qed.
Example Split_ex : Split ","%char "a,,b" = ["a"; ""; "b"].
Proof. reflexivity. Qed.
