(* ===== verification/GoStd.v ===== *)
(** * Further parts of Go's standard library: [strconv.Atoi], [path.Match],
    [time.ParseDuration] and binary64 arithmetic *)

From Stdlib Require Export SpecFloat.
From S2P Require Import Prelude GoStrings.
#[local] Open Scope Z_scope.

(** ** [float64] *)
Definition prec64 : Z := 53.
Definition emax64 : Z := 1024.
Definition f64_of_Z (z : Z) : spec_float := binary_normalize prec64 emax64 z 0 false.
Definition f64_add := SFadd prec64 emax64.
Definition f64_sub := SFsub prec64 emax64.
Definition f64_mul := SFmul prec64 emax64.
Definition f64_div := SFdiv prec64 emax64.
Definition f64_lt (a b : spec_float) : bool := SFltb a b.
Definition f64_le (a b : spec_float) : bool := SFleb a b.
Definition f64_eq (a b : spec_float) : bool := SFeqb a b.

(** Conversion to an integer discards the fraction; defined for finite values. *)
Definition f64_trunc (f : spec_float) : Z :=
  match f with
  | S754_finite s m e =>
      let a := if 0 <=? e then Zpos m * 2 ^ e else Zpos m / 2 ^ (- e) in
      if s then - a else a
  | _ => 0
  end.

(** ** [strconv.Atoi] *)
Definition digit_value (c : ascii) : option Z :=
  let n := Z.of_N (N_of_ascii c) in
  if (48 <=? n) && (n <=? 57) then Some (n - 48) else None.

Definition is_digit (c : ascii) : bool := match digit_value c with Some _ => true | None => false end.

Fixpoint decimal (acc : Z) (s : string) : option Z :=
  match s with
  | EmptyString => Some acc
  | String c s => match digit_value c with Some d => decimal (10 * acc + d) s | None => None end
  end.

(** The unsigned digits of [s]; at least one is needed. *)
Definition parse_digits (s : string) : option Z :=
  match s with EmptyString => None | _ => decimal 0 s end.

Definition split_sign (s : string) : bool * string :=
  match s with
  | String c s' => if Ascii.eqb c "-" then (true, s') else if Ascii.eqb c "+" then (false, s') else (false, s)
  | EmptyString => (false, s)
  end.

Definition Atoi (s : string) : outcome Z :=
  let '(neg, digits) := split_sign s in
  match parse_digits digits with
  | None => Err ("strconv.Atoi: parsing " +:+ Quote s +:+ ": invalid syntax")
  | Some n =>
      let z := if neg then - n else n in
      if (int_min <=? z) && (z <=? int_max) then Ok z
      else Err ("strconv.Atoi: parsing " +:+ Quote s +:+ ": value out of range")
  end.

(** ** [path.Match] *)
Module PathMatch.
Definition is_b (c : string) (b : byte) : bool := bool_decide (string_bytes c = [b]).
Definition star_b := is_b "*".
Definition slash_b := is_b "/".
Definition esc_b := is_b backslash.
Definition open_b := is_b "[".
Definition close_b := is_b "]".
Definition dash_b := is_b "-".
Definition ErrBadPattern : string := "syntax error in pattern".

(** [utf8.DecodeRuneInString] *)
Definition DecodeRune (s : list byte) : Z * nat :=
  match Utf8.runes s with
  | (r, bs) :: _ => (r, length bs)
  | [] => (Utf8.RuneError, 0%nat)
  end.

Definition getEsc (chunk : list byte) : outcome (Z * list byte) :=
  match chunk with
  | [] => Err ErrBadPattern
  | c :: rest =>
      if dash_b c || close_b c then Err ErrBadPattern
      else
        match (if esc_b c then rest else chunk) with
        | [] => Err ErrBadPattern
        | chunk =>
            let '(r, n) := DecodeRune chunk in
            let nchunk := drop n chunk in
            if ((r =? Utf8.RuneError) && (n =? 1)%nat) || (len nchunk =? 0) then Err ErrBadPattern
            else Ok (r, nchunk)
        end
  end.

(** The ranges of a character class: whether [r] is in one, and the rest of the chunk. *)
Fixpoint ranges (fuel : nat) (chunk : list byte) (r : Z) (nrange : nat) (found : bool)
    : outcome (bool * list byte) :=
  match fuel with
  | O => Panic
  | S fuel =>
      match chunk with
      | c :: rest =>
          if close_b c && (0 <? nrange)%nat then Ok (found, rest)
          else
            '(lo, chunk) ← getEsc chunk;
            c ← index chunk 0;
            '(hi, chunk) ← (if dash_b c then getEsc (drop 1 chunk) else Ok (lo, chunk));
            ranges fuel chunk r (S nrange) (found || ((lo <=? r) && (r <=? hi)))
      | [] => Err ErrBadPattern
      end
  end.

(** [matchChunk]: the rest of [s] after a match of [chunk], or [None] where it does not match. *)
Fixpoint matchChunk (fuel : nat) (chunk s : list byte) (failed : bool) : outcome (option (list byte)) :=
  match fuel with
  | O => Panic
  | S fuel =>
      match chunk with
      | [] => Ok (if failed then None else Some s)
      | c :: chunk' =>
          let failed := failed || (len s =? 0) in
          if open_b c then
            let '(r, n) := if failed then (0, 0%nat) else DecodeRune s in
            let s := drop n s in
            let '(negated, chunk') :=
              match chunk' with
              | d :: rest => if is_b "^" d then (true, rest) else (false, chunk')
              | [] => (false, chunk')
              end in
            '(found, chunk') ← ranges (S (length chunk')) chunk' r 0 false;
            matchChunk fuel chunk' s (failed || Bool.eqb found negated)
          else if is_b "?" c then
            if failed then matchChunk fuel chunk' s true
            else matchChunk fuel chunk' (drop (DecodeRune s).2 s)
                   (match s with d :: _ => slash_b d | [] => true end)
          else
            match (if esc_b c then chunk' else chunk) with
            | [] => Err ErrBadPattern
            | c :: chunk' =>
                if failed then matchChunk fuel chunk' s true
                else
                  match s with
                  | d :: s => matchChunk fuel chunk' s (negb (bool_decide (c = d)))
                  | [] => matchChunk fuel chunk' s true
                  end
            end
      end
  end.
Definition match_chunk (chunk s : list byte) : outcome (option (list byte)) :=
  matchChunk (S (length chunk)) chunk s false.

Fixpoint skip_stars (p : list byte) : bool * list byte :=
  match p with
  | c :: p' => if star_b c then (true, (skip_stars p').2) else (false, p)
  | [] => (false, [])
  end.

(** The bytes up to the first star that is neither escaped nor in a class, and the rest. *)
Fixpoint scan (inrange : bool) (p : list byte) : list byte * list byte :=
  match p with
  | [] => ([], [])
  | c :: p' =>
      if esc_b c then
        match p' with
        | d :: p'' => let '(a, b) := scan inrange p'' in (c :: d :: a, b)
        | [] => ([c], [])
        end
      else if open_b c then let '(a, b) := scan true p' in (c :: a, b)
      else if close_b c then let '(a, b) := scan false p' in (c :: a, b)
      else if star_b c && negb inrange then ([], p)
      else let '(a, b) := scan inrange p' in (c :: a, b)
  end.

Definition scanChunk (pattern : list byte) : bool * list byte * list byte :=
  let '(star, p) := skip_stars pattern in
  let '(chunk, rest) := scan false p in (star, chunk, rest).

(** The loop over the bytes a star may skip; [last] when no pattern is left. *)
Fixpoint skip_match (chunk name : list byte) (last : bool) : outcome (option (list byte)) :=
  match name with
  | [] => Ok None
  | c :: name' =>
      if slash_b c then Ok None
      else
        t ← match_chunk chunk name';
        match t with
        | Some t => if last && (0 <? len t) then skip_match chunk name' last else Ok (Some t)
        | None => skip_match chunk name' last
        end
  end.

Fixpoint check_rest (fuel : nat) (pattern : list byte) : outcome bool :=
  match fuel with
  | O => Panic
  | S fuel =>
      match pattern with
      | [] => Ok false
      | _ => let '(_, chunk, pattern) := scanChunk pattern in
             _ ← match_chunk chunk []; check_rest fuel pattern
      end
  end.

Fixpoint match_loop (fuel : nat) (pattern name : list byte) : outcome bool :=
  match fuel with
  | O => Panic
  | S fuel =>
      match pattern with
      | [] => Ok (len name =? 0)
      | _ =>
          let '(star, chunk, pattern) := scanChunk pattern in
          if star && (len chunk =? 0) then Ok (negb (existsb slash_b name))
          else
            t ← match_chunk chunk name;
            let skip :=
              if (star : bool) then
                t ← skip_match chunk name (len pattern =? 0);
                match t with
                | Some t => match_loop fuel pattern t
                | None => check_rest (S (length pattern)) pattern
                end
              else check_rest (S (length pattern)) pattern in
            match t with
            | Some t => if (len t =? 0) || (0 <? len pattern) then match_loop fuel pattern t else skip
            | None => skip
            end
      end
  end.
End PathMatch.

Definition path_Match (pattern name : string) : outcome bool :=
  PathMatch.match_loop (S (String.length pattern)) (string_bytes pattern) (string_bytes name).

(** ** [time.ParseDuration], in nanoseconds *)
Module Duration.
Definition quote (s : string) : string :=
  dquote +:+
  fold_right (fun b acc =>
    let z := byte_to_Z b in
    (if (128 <=? z) || (z <? 32) then backslash +:+ "x" +:+ hex_byte b
     else if (z =? 34) || (z =? 92) then backslash +:+ bytes_string [b]
     else bytes_string [b]) +:+ acc) EmptyString (string_bytes s)
  +:+ dquote.

Definition unitMap (u : string) : option Z :=
  if String.eqb u "ns" then Some 1
  else if String.eqb u "us" || String.eqb u (bytes_string (Utf8.encode 181 ++ string_bytes "s"))
          || String.eqb u (bytes_string (Utf8.encode 956 ++ string_bytes "s")) then Some 1000
  else if String.eqb u "ms" then Some 1000000
  else if String.eqb u "s" then Some 1000000000
  else if String.eqb u "m" then Some 60000000000
  else if String.eqb u "h" then Some 3600000000000
  else None.

(** [None] is an overflow. *)
Fixpoint leadingInt (x : Z) (s : string) : option (Z * string) :=
  match s with
  | String c s' =>
      match digit_value c with
      | Some d =>
          if 2 ^ 63 / 10 <? x then None
          else let x := x * 10 + d in
               if 2 ^ 63 <? x then None else leadingInt x s'
      | None => Some (x, s)
      end
  | EmptyString => Some (x, s)
  end.

Fixpoint leadingFraction (x : Z) (scale : spec_float) (overflow : bool) (s : string)
    : Z * spec_float * string :=
  match s with
  | String c s' =>
      match digit_value c with
      | Some d =>
          if overflow || ((2 ^ 63 - 1) / 10 <? x) then leadingFraction x scale true s'
          else
            let y := x * 10 + d in
            if 2 ^ 63 <? y then leadingFraction x scale true s'
            else leadingFraction y (f64_mul scale (f64_of_Z 10)) false s'
      | None => (x, scale, s)
      end
  | EmptyString => (x, scale, s)
  end.

Fixpoint unit_prefix (s : string) : string * string :=
  match s with
  | String c s' =>
      if Ascii.eqb c "." || is_digit c then (EmptyString, s)
      else let '(u, r) := unit_prefix s' in (String c u, r)
  | EmptyString => (EmptyString, EmptyString)
  end.

Definition invalid (orig : string) {A} : outcome A := Err ("time: invalid duration " +:+ quote orig).

Fixpoint terms (fuel : nat) (orig : string) (d : Z) (s : string) : outcome Z :=
  match fuel with
  | O => Panic
  | S fuel =>
      match s with
      | EmptyString => Ok d
      | String c _ =>
          if negb (Ascii.eqb c "." || is_digit c) then invalid orig
          else
            match leadingInt 0 s with
            | None => invalid orig
            | Some (v, s1) =>
                let pre := negb (String.length s =? String.length s1)%nat in
                let '(f, scale, s2, post) :=
                  match s1 with
                  | String c1 s1' =>
                      if Ascii.eqb c1 "." then
                        let '(f, scale, s2) := leadingFraction 0 (f64_of_Z 1) false s1' in
                        (f, scale, s2, negb (String.length s1' =? String.length s2)%nat)
                      else (0, f64_of_Z 1, s1, false)
                  | EmptyString => (0, f64_of_Z 1, s1, false)
                  end in
                if negb pre && negb post then invalid orig
                else
                  let '(u, s3) := unit_prefix s2 in
                  if String.eqb u EmptyString then Err ("time: missing unit in duration " +:+ quote orig)
                  else
                    match unitMap u with
                    | None => Err ("time: unknown unit " +:+ quote u +:+ " in duration " +:+ quote orig)
                    | Some unit =>
                        if 2 ^ 63 / unit <? v then invalid orig
                        else
                          let v := v * unit in
                          let v := if 0 <? f
                                   then u64 (v + f64_trunc (f64_mul (f64_of_Z f) (f64_div (f64_of_Z unit) scale)))
                                   else v in
                          if (0 <? f) && (2 ^ 63 <? v) then invalid orig
                          else
                            let d := u64 (d + v) in
                            if 2 ^ 63 <? d then invalid orig else terms fuel orig d s3
                    end
            end
      end
  end.

Lemma leadingInt_length s : forall x v r, leadingInt x s = Some (v, r) -> (String.length r <= String.length s)%nat.
Proof.
  induction s as [|c s IH]; intros x v r; cbn [leadingInt]; [by intros [= _ <-]|]. destruct (digit_value c); [|by intros [= _ <-]].
  destruct (_ <? x); [done|]. destruct (_ <? _); [done|]. intros Hr%IH. cbn. lia.
Qed.

Lemma leadingFraction_length s : forall x scale o, (String.length (leadingFraction x scale o s).2 <= String.length s)%nat.
Proof.
  induction s as [|c s IH]; intros x scale o; cbn [leadingFraction]; [done|]. destruct (digit_value c); [|done].
  repeat case_match; (etrans; [apply IH|]); cbn; lia.
Qed.

Lemma unit_prefix_length s u r : unit_prefix s = (u, r) -> (String.length u + String.length r = String.length s)%nat.
Proof.
  revert u r. induction s as [|c s IH]; intros u r; cbn [unit_prefix]; [by intros [= <- <-]|]. destruct (_ || _); [by intros [= <- <-]|].
  destruct (unit_prefix s) as [u' r'] eqn:E. intros [= <- <-]. specialize (IH u' r' eq_refl). cbn. lia.
Qed.

(** The fuel is enough: every term consumes a unit. *)
Lemma terms_no_panic fuel orig : forall d s, (String.length s < fuel)%nat -> no_panic (terms fuel orig d s).
Proof.
  induction fuel as [|fuel IH]; intros d s Hf; [lia|]. cbn [terms]. destruct s as [|c s]; [done|]. destruct (negb _); [done|].
  destruct (leadingInt 0 (String c s)) as [[v s1]|] eqn:E1; [|done]. apply leadingInt_length in E1. cbv zeta.
  set (m := match s1 with
            | EmptyString => (0, f64_of_Z 1, s1, false)
            | String c1 s1' => if Ascii.eqb c1 "." then let '(f, scale, s2) := leadingFraction 0 (f64_of_Z 1) false s1' in
                (f, scale, s2, negb (String.length s1' =? String.length s2)%nat) else (0, f64_of_Z 1, s1, false) end).
  assert (Hm : (String.length m.1.2 <= String.length s1)%nat).
  { unfold m. destruct s1 as [|c1 s1]; [done|]. destruct (Ascii.eqb c1 "."); [|done].
    pose proof (leadingFraction_length s1 0 (f64_of_Z 1) false) as Hl. destruct (leadingFraction _ _ _ _) as [[f scale] s2]. cbn in *. lia. }
  destruct m as [[[f scale] s2] post]. cbn [fst snd] in Hm. destruct (negb _ && negb _); [done|].
  destruct (unit_prefix s2) as [u s3] eqn:E3. apply unit_prefix_length in E3. destruct u as [|cu u]; [done|]. cbn [String.eqb].
  destruct (unitMap _) as [z|]; [|done]. destruct (2 ^ 63 / z <? v); [done|]. destruct (_ && _); [done|]. destruct (2 ^ 63 <? _); [done|]. apply IH. cbn [String.length] in *. lia.
Qed.
End Duration.

Definition ParseDuration (s : string) : outcome Z :=
  let '(neg, t) := split_sign s in
  if String.eqb t "0" then Ok 0
  else if String.eqb t EmptyString then Duration.invalid s
  else
    d ← Duration.terms (S (String.length t)) s 0 t;
    if neg then Ok (wrap64 (- wrap64 d))
    else if int_max <? d then Duration.invalid s
    else Ok d.

Lemma ParseDuration_no_panic s : no_panic (ParseDuration s).
Proof.
  unfold ParseDuration. destruct (split_sign s) as [neg t]. destruct (String.eqb t "0"); [done|]. destruct (String.eqb t EmptyString); [done|].
  apply no_panic_bind; [apply Duration.terms_no_panic; lia|]. intros d _. repeat case_match; done.
Qed.

Example ParseDuration_24h : ParseDuration "24h" = Ok (24 * 3600 * 1000000000).
Proof. reflexivity. Qed.
Example ParseDuration_frac : ParseDuration "-1h1.5m0.25s" = Ok (- (3600 + 90) * 1000000000 - 250000000).
Proof. vm_compute. reflexivity. Qed.
Example ParseDuration_7d : is_ok (ParseDuration "7d") = false.
Proof. vm_compute. reflexivity. Qed.
Example path_Match_ex :
  (path_Match "curl_*[0-9]?" "curl_abc8x", path_Match "a*/b" "ac/b", path_Match "[" "a", path_Match "*x" "a/x")
  = (Ok true, Ok true, Err PathMatch.ErrBadPattern, Ok false).
Proof. vm_compute. reflexivity. Qed.
Example Atoi_ex : (Atoi "-50", is_ok (Atoi "5x"), is_ok (Atoi "9223372036854775808")) = (Ok (-50), false, false).
Proof. vm_compute. reflexivity. Qed.

(** ** [net.SplitHostPort]

    [None] stands for every error; no caller looks at its text. *)
Fixpoint IndexByte (c : ascii) (s : string) : option nat :=
  match s with
  | EmptyString => None
  | String d s => if Ascii.eqb c d then Some 0%nat else S <$> IndexByte c s
  end.
Fixpoint LastIndexByte (c : ascii) (s : string) : option nat :=
  match s with
  | EmptyString => None
  | String d s =>
      match LastIndexByte c s with
      | Some i => Some (S i)
      | None => if Ascii.eqb c d then Some 0%nat else None
      end
  end.
Definition has_byte (c : ascii) (s : string) : bool := negb (no_byte c s).

Definition SplitHostPort (hostport : string) : option (string * string) :=
  match LastIndexByte ":" hostport with
  | None => None
  | Some i =>
      let port := sdrop (S i) hostport in
      if HasPrefix hostport "[" then
        match IndexByte "]" hostport with
        | None => None
        | Some e =>
            if (S e =? i)%nat then
              if has_byte "[" (sdrop 1 hostport) || has_byte "]" (sdrop (S e) hostport) then None
              else Some (sdrop 1 (stake e hostport), port)
            else None
        end
      else
        let host := stake i hostport in
        if has_byte ":" host || has_byte "[" hostport || has_byte "]" hostport then None
        else Some (host, port)
  end.

Example SplitHostPort_ex :
  (SplitHostPort "203.0.113.7:4000", SplitHostPort "[2001:db8::1]:443", SplitHostPort "2001:db8::1", SplitHostPort "host")
  = (Some ("203.0.113.7", "4000"), Some ("2001:db8::1", "443"), None, None).
Proof. reflexivity. Qed.

(** ** [url.Values] of a raw query *)
Definition unhex (c : ascii) : option Z :=
  let n := Z.of_N (N_of_ascii c) in
  if (48 <=? n) && (n <=? 57) then Some (n - 48)
  else if (97 <=? n) && (n <=? 102) then Some (n - 87)
  else if (65 <=? n) && (n <=? 70) then Some (n - 55)
  else None.

(** [url.QueryUnescape]; [None] is an invalid escape. *)
Fixpoint QueryUnescape (s : string) : option string :=
  match s with
  | EmptyString => Some EmptyString
  | String c s1 =>
      if Ascii.eqb c "%" then
        match s1 with
        | String h1 (String h2 s2) =>
            match unhex h1, unhex h2 with
            | Some a, Some b => String (ascii_of_byte (byte_of_Z (16 * a + b))) <$> QueryUnescape s2
            | _, _ => None
            end
        | _ => None
        end
      else String (if Ascii.eqb c "+" then " "%char else c) <$> QueryUnescape s1
  end.

(** The pairs of a query in order; malformed ones are dropped, as [URL.Query] does. *)
Definition parse_pair (key : string) : option (string * string) :=
  if String.eqb key EmptyString || has_byte ";" key then None
  else
    let '(k, v) := match Cut "=" key with Some p => p | None => (key, EmptyString) end in
    k ← QueryUnescape k; v ← QueryUnescape v; Some (k, v).
Definition ParseQuery (rawQuery : string) : list (string * string) := omap parse_pair (Split "&" rawQuery).
Definition query_Get (rawQuery key : string) : string :=
  match List.find (fun p => String.eqb p.1 key) (ParseQuery rawQuery) with Some p => p.2 | None => EmptyString end.

Example query_Get_ex : query_Get "a=1&origin=%2Fx%3Fy+z&origin=2" "origin" = "/x?y z".
Proof. reflexivity. Qed.

(** ** [bytes.ReplaceAll] of a non-empty substring *)
Fixpoint replace_sub (fuel : nat) (s old new : string) : string :=
  match fuel with
  | O => s
  | S fuel =>
      if HasPrefix s old then new +:+ replace_sub fuel (sdrop (String.length old) s) old new
      else match s with
           | EmptyString => EmptyString
           | String c s => String c (replace_sub fuel s old new)
           end
  end.
Definition bytes_ReplaceAll (s old new : string) : string := replace_sub (S (String.length s)) s old new.

(** ** Matching literal patterns *)
Definition path_special (b : byte) : bool :=
  PathMatch.star_b b || PathMatch.esc_b b || PathMatch.open_b b || PathMatch.close_b b || PathMatch.is_b "?" b.

Definition literal_pattern (p : list byte) : Prop := Forall (fun b => path_special b = false) p.

Lemma scan_literal_star p rest :
  literal_pattern p -> rest = [] \/ (exists c r, rest = c :: r /\ PathMatch.star_b c = true) ->
  PathMatch.scan false (p ++ rest) = (p, rest).
Proof.
  intros Hp Hr. induction p as [|c p IH].
  - destruct Hr as [->|(c & r & -> & Hc)]; [done|]. cbn.
    assert (PathMatch.esc_b c = false /\ PathMatch.open_b c = false /\ PathMatch.close_b c = false)
      as (-> & -> & ->).
    { unfold PathMatch.star_b, PathMatch.esc_b, PathMatch.open_b, PathMatch.close_b, PathMatch.is_b in *.
      apply bool_decide_eq_true in Hc. rewrite <- Hc. split_and!; reflexivity. }
    by rewrite Hc.
  - apply Forall_cons in Hp as [Hc Hp]. unfold path_special in Hc.
    repeat (apply orb_false_iff in Hc as [Hc ?]). cbn. rewrite H0, H1, H2, Hc. cbn.
    by rewrite (IH Hp).
Qed.

Lemma matchChunk_literal fuel chunk s failed :
  literal_pattern chunk -> (length chunk < fuel)%nat ->
  PathMatch.matchChunk fuel chunk s failed =
  Ok (if failed then None
      else if bool_decide (take (length chunk) s = chunk) then Some (drop (length chunk) s) else None).
Proof.
  revert chunk s failed. induction fuel as [|fuel IH]; intros chunk s failed Hl Hf; [lia|].
  destruct chunk as [|c chunk]; [cbn; by rewrite drop_0|].
  apply Forall_cons in Hl as [Hc Hl]. unfold path_special in Hc.
  repeat (apply orb_false_iff in Hc as [Hc ?]). cbn [PathMatch.matchChunk]. rewrite H, H1, H2.
  cbn [length] in Hf. destruct s as [|d s]; cbn [len length Z.of_nat Z.eqb take drop].
  - rewrite orb_true_r, IH by (done || lia). by destruct failed.
  - replace (len (d :: s) =? 0) with false by (rewrite len_cons; pose proof (len_nonneg s); lia).
    rewrite orb_false_r. destruct failed; [by rewrite IH by (done || lia)|].
    rewrite IH by (done || lia). f_equal.
    destruct (bool_decide_reflect (c = d)) as [->|Hne]; cbn [negb].
    + destruct (bool_decide_reflect (take (length chunk) s = chunk)) as [E|E].
      * by rewrite bool_decide_true by (by rewrite E).
      * by rewrite bool_decide_false by (by intros [= ?]).
    + by rewrite bool_decide_false by congruence.
Qed.

Lemma skip_stars_literal p : literal_pattern p -> PathMatch.skip_stars p = (false, p).
Proof.
  destruct p as [|c p]; [done|]. intros [Hc _]%Forall_cons. unfold path_special in Hc.
  repeat (apply orb_false_iff in Hc as [Hc ?]). cbn. by rewrite Hc.
Qed.

Lemma string_bytes_inj a b : string_bytes a = string_bytes b -> a = b.
Proof. intros H. by rewrite <- (bytes_string_bytes a), <- (bytes_string_bytes b), H. Qed.

Lemma length_string_bytes s : length (string_bytes s) = String.length s.
Proof. induction s as [|c s IH]; [done|]. cbn. f_equal. exact IH. Qed.

(** A pattern without metacharacters matches itself only. *)
Lemma path_Match_literal p n :
  literal_pattern (string_bytes p) -> path_Match p n = Ok (String.eqb p n).
Proof.
  intros Hp. unfold path_Match. cbn [PathMatch.match_loop].
  assert (Heq : String.eqb p n = bool_decide (string_bytes p = string_bytes n)).
  { destruct (String.eqb_spec p n) as [->|Hne]; [by rewrite bool_decide_true|].
    rewrite bool_decide_false; [done|]. by intros ?%string_bytes_inj. }
  rewrite Heq. clear Heq. rewrite <- length_string_bytes.
  revert Hp. generalize (string_bytes p) as pb, (string_bytes n) as nb. intros pb nb Hp.
  destruct pb as [|c0 r0] eqn:E; [by destruct nb|]. rewrite <- E in *.
  unfold PathMatch.scanChunk. rewrite skip_stars_literal by done.
  rewrite <- (app_nil_r pb) at 1. rewrite scan_literal_star by auto. cbn [andb].
  unfold PathMatch.match_chunk. rewrite matchChunk_literal by (done || lia). cbn [mbind outcome_bind].
  destruct (bool_decide_reflect (take (length pb) nb = pb)) as [Ht|Ht].
  - cbn [len length Z.of_nat Z.ltb Z.compare PathMatch.check_rest]. rewrite orb_false_r.
    destruct (drop (length pb) nb) as [|d r] eqn:Ed.
    + rewrite E. cbn. rewrite <- E. f_equal. symmetry. apply bool_decide_eq_true.
      by rewrite <- (take_drop (length pb) nb), Ht, Ed, app_nil_r.
    + replace (len (d :: r) =? 0) with false by (rewrite len_cons; pose proof (len_nonneg r); lia).
      f_equal. symmetry. apply bool_decide_eq_false. intros <-. by rewrite drop_all in Ed.
  - cbn. f_equal. symmetry. apply bool_decide_eq_false. intros <-. by rewrite firstn_all in Ht.
Qed.

(** A literal followed by one star matches the names that extend it without a slash. *)
Lemma path_Match_prefix p n :
  literal_pattern (string_bytes p) -> p <> EmptyString ->
  path_Match (p +:+ "*") n =
  Ok (HasPrefix n p && negb (existsb PathMatch.slash_b (drop (String.length p) (string_bytes n)))).
Proof.
  intros Hp Hne. unfold path_Match. rewrite string_bytes_append, length_append.
  assert (Heq : HasPrefix n p = bool_decide (take (length (string_bytes p)) (string_bytes n) = string_bytes p)).
  { unfold HasPrefix. clear. revert n. induction p as [|c p IH]; intros [|d n]; [done..|]. cbn.
    destruct (Ascii.ascii_dec c d) as [->|Hcd].
    - rewrite IH. apply bool_decide_ext.
      split; [intros H; cbn; f_equal; exact H|intros [= H]; exact H].
    - rewrite bool_decide_false; [done|]. intros [= H _]. apply Hcd.
      by rewrite <- (ascii_of_byte_of_ascii c), <- (ascii_of_byte_of_ascii d), H. }
  rewrite Heq, <- length_string_bytes. clear Heq.
  assert (Hnb : string_bytes p <> []) by (by destruct p).
  revert Hp Hnb. generalize (string_bytes p) as pb, (string_bytes n) as nb. intros pb nb Hp Hnb.
  cbn [PathMatch.match_loop].
  destruct (pb ++ string_bytes "*") as [|c0 r0] eqn:E; [by destruct pb|]. rewrite <- E. clear c0 r0 E.
  unfold PathMatch.scanChunk.
  assert (PathMatch.skip_stars (pb ++ string_bytes "*") = (false, pb ++ string_bytes "*")) as ->.
  { destruct pb as [|c pb]; [done|]. apply Forall_cons in Hp as [Hc _]. unfold path_special in Hc.
    repeat (apply orb_false_iff in Hc as [Hc ?]). cbn. by rewrite Hc. }
  rewrite scan_literal_star; [|done|right; by eexists _, []].
  cbn [andb]. unfold PathMatch.match_chunk. rewrite matchChunk_literal by (done || lia).
  cbn [mbind outcome_bind]. replace (len (string_bytes "*")) with 1 by done.
  destruct (bool_decide_reflect (take (length pb) nb = pb)) as [Ht|Ht].
  - rewrite orb_true_r. rewrite Nat.add_comm. cbn. done.
  - cbn. done.
Qed.
