(* ===== verification/JsonText.v ===== *)
(** * JSON text ([encoding/json]: scanner, decoder and encoder of text)

    A JSON tree keeps its number literals as text, since [encoding/json] converts a literal by the type it is
    decoded into.  The scanner's nesting limit is the recursion bound of the parser. *)

From S2P Require Import Prelude GoStrings GoStd.
#[local] Open Scope Z_scope.

Inductive json : Type :=
| JNull
| JBool (b : bool)
| JNum (lit : string)
| JStr (s : string)
| JArr (l : list json)
| JObj (l : list (string * json)).

(** Text becomes valid UTF-8: each byte that is not part of it is replaced by U+FFFD. *)
Definition utf8_coerce (s : string) : string :=
  bytes_string (flat_map (fun '(r, _) => Utf8.encode r) (Utf8.runes (string_bytes s))).

Fixpoint json_coerce (j : json) : json :=
  match j with
  | JStr s => JStr (utf8_coerce s)
  | JArr l => JArr (map json_coerce l)
  | JObj l => JObj (map (fun p => (utf8_coerce p.1, json_coerce p.2)) l)
  | j => j
  end.

(** ** Lexical structure *)
Definition bz (z : Z) (b : byte) : bool := byte_to_Z b =? z.
Definition isSpace (b : byte) : bool := bz 32 b || bz 9 b || bz 13 b || bz 10 b.
Definition isDigit (b : byte) : bool := (48 <=? byte_to_Z b) && (byte_to_Z b <=? 57).

Fixpoint skip_ws (bs : list byte) : list byte :=
  match bs with b :: r => if isSpace b then skip_ws r else bs | [] => [] end.

Fixpoint span_digits (bs : list byte) : list byte * list byte :=
  match bs with
  | b :: r => if isDigit b then let '(a, t) := span_digits r in (b :: a, t) else ([], bs)
  | [] => ([], [])
  end.

(** A number: an optional minus, an integer without leading zeros, an optional fraction, an optional exponent. *)
Definition lex_sign (bs : list byte) : list byte * list byte :=
  match bs with b :: r => if bz 45 b then ([b], r) else ([], bs) | [] => ([], []) end.

Definition lex_int (bs : list byte) : option (list byte * list byte) :=
  match bs with
  | b :: r => if bz 48 b then Some ([b], r)
              else match span_digits bs with ([], _) => None | (a, t) => Some (a, t) end
  | [] => None
  end.

Definition digits1 (bs : list byte) : option (list byte * list byte) :=
  match span_digits bs with ([], _) => None | (a, t) => Some (a, t) end.

Definition lex_frac (bs : list byte) : option (list byte * list byte) :=
  match bs with
  | b :: r => if bz 46 b then '(a, t) ← digits1 r; Some (b :: a, t) else Some ([], bs)
  | [] => Some ([], [])
  end.

Definition lex_exp (bs : list byte) : option (list byte * list byte) :=
  match bs with
  | b :: r =>
      if bz 101 b || bz 69 b then
        match r with
        | c :: r' => if bz 43 c || bz 45 c then '(a, t) ← digits1 r'; Some (b :: c :: a, t)
                     else '(a, t) ← digits1 r; Some (b :: a, t)
        | [] => None
        end
      else Some ([], bs)
  | [] => Some ([], [])
  end.

Definition lex_number (bs : list byte) : option (list byte * list byte) :=
  let '(sg, r) := lex_sign bs in
  '(ip, r) ← lex_int r;
  '(fr, r) ← lex_frac r;
  '(ex, r) ← lex_exp r;
  Some (sg ++ ip ++ fr ++ ex, r).

Definition number_ok (lit : string) : bool := bool_decide (lex_number (string_bytes lit) = Some (string_bytes lit, [])).

(** ** Strings *)
Definition hex_value (z : Z) : option Z :=
  if (48 <=? z) && (z <=? 57) then Some (z - 48)
  else if (97 <=? z) && (z <=? 102) then Some (z - 87)
  else if (65 <=? z) && (z <=? 70) then Some (z - 55)
  else None.
Definition isHex (b : byte) : bool := match hex_value (byte_to_Z b) with Some _ => true | None => false end.

(** The escapes after a backslash other than [\u]. *)
Definition escape_char (z : Z) : option Z :=
  if (z =? 34) || (z =? 92) || (z =? 47) then Some z
  else if z =? 98 then Some 8
  else if z =? 102 then Some 12
  else if z =? 110 then Some 10
  else if z =? 114 then Some 13
  else if z =? 116 then Some 9
  else None.

(** The scanner inside a string: its raw contents and what follows the closing quote. *)
Fixpoint scan_string (bs : list byte) : option (list byte * list byte) :=
  match bs with
  | [] => None
  | b :: r =>
      if bz 34 b then Some ([], r)
      else if bz 92 b then
        match r with
        | e :: r1 =>
            if bz 117 e then
              match r1 with
              | h1 :: h2 :: h3 :: h4 :: r2 =>
                  if isHex h1 && isHex h2 && isHex h3 && isHex h4
                  then '(a, t) ← scan_string r2; Some (b :: e :: h1 :: h2 :: h3 :: h4 :: a, t)
                  else None
              | _ => None
              end
            else if bool_decide (is_Some (escape_char (byte_to_Z e)))
            then '(a, t) ← scan_string r1; Some (b :: e :: a, t)
            else None
        | [] => None
        end
      else if byte_to_Z b <? 32 then None
      else '(a, t) ← scan_string r; Some (b :: a, t)
  end.

(** [getu4] *)
Definition getu4 (a b c d : Z) : option Z :=
  w ← hex_value a; x ← hex_value b; y ← hex_value c; z ← hex_value d; Some (((w * 16 + x) * 16 + y) * 16 + z).

Definition IsSurrogate (r : Z) : bool := (55296 <=? r) && (r <? 57344).
(** [utf16.DecodeRune] *)
Definition DecodeRune (r1 r2 : Z) : Z :=
  if (55296 <=? r1) && (r1 <? 56320) && (56320 <=? r2) && (r2 <? 57344)
  then (r1 - 55296) * 1024 + (r2 - 56320) + 65536
  else Utf8.RuneError.

(** [unquoteBytes] on the runes of the raw contents; a contents that passed the scanner always has complete escapes. *)
Fixpoint unquote (rs : list Z) : list byte :=
  match rs with
  | [] => []
  | r :: rs1 =>
      if r =? 92 then
        match rs1 with
        | e :: rs2 =>
            if e =? 117 then
              match rs2 with
              | a :: b :: c :: d :: rs3 =>
                  match getu4 a b c d with
                  | Some rr =>
                      if IsSurrogate rr then
                        match rs3 with
                        | s1 :: s2 :: a' :: b' :: c' :: d' :: rs4 =>
                            let dec := if (s1 =? 92) && (s2 =? 117)
                                       then match getu4 a' b' c' d' with Some rr1 => DecodeRune rr rr1 | None => Utf8.RuneError end
                                       else Utf8.RuneError in
                            if dec =? Utf8.RuneError then Utf8.encode Utf8.RuneError ++ unquote rs3
                            else Utf8.encode dec ++ unquote rs4
                        | _ => Utf8.encode Utf8.RuneError ++ unquote rs3
                        end
                      else Utf8.encode rr ++ unquote rs3
                  | None => []
                  end
              | _ => []
              end
            else match escape_char e with Some c => byte_of_Z c :: unquote rs2 | None => [] end
        | [] => []
        end
      else Utf8.encode r ++ unquote rs1
  end.

Definition unquote_string (raw : list byte) : string := bytes_string (unquote (map fst (Utf8.runes raw))).

(** [appendString] with HTML escaping: how one rune is written. *)
Definition hex4 (r : Z) : list byte := string_bytes (hex_digits 4 r).
Definition u_escape (r : Z) : list byte := byte_of_Z 92 :: byte_of_Z 117 :: hex4 r.
Definition escape_rune (p : Z * list byte) : list byte :=
  let '(r, raw) := p in
  if match raw with b :: _ => byte_to_Z b <? 128 | [] => false end then
    if (r =? 92) || (r =? 34) then [byte_of_Z 92; byte_of_Z r]
    else if r =? 8 then [byte_of_Z 92; byte_of_Z 98]
    else if r =? 12 then [byte_of_Z 92; byte_of_Z 102]
    else if r =? 10 then [byte_of_Z 92; byte_of_Z 110]
    else if r =? 13 then [byte_of_Z 92; byte_of_Z 114]
    else if r =? 9 then [byte_of_Z 92; byte_of_Z 116]
    else if (r <? 32) || (r =? 60) || (r =? 62) || (r =? 38) then u_escape r
    else raw
  else if (r =? Utf8.RuneError) && (length raw =? 1)%nat then u_escape Utf8.RuneError
  else if (r =? 8232) || (r =? 8233) then u_escape r
  else raw.

Definition quote_json (s : string) : list byte :=
  byte_of_Z 34 :: flat_map escape_rune (Utf8.runes (string_bytes s)) ++ [byte_of_Z 34].

(** ** Printing *)
Fixpoint comma_sep (l : list (list byte)) : list byte :=
  match l with
  | [] => []
  | [x] => x
  | x :: l => x ++ byte_of_Z 44 :: comma_sep l
  end.

Fixpoint json_print (j : json) : list byte :=
  match j with
  | JNull => string_bytes "null"
  | JBool true => string_bytes "true"
  | JBool false => string_bytes "false"
  | JNum lit => string_bytes lit
  | JStr s => quote_json s
  | JArr l => byte_of_Z 91 :: comma_sep (map json_print l) ++ [byte_of_Z 93]
  | JObj l => byte_of_Z 123 :: comma_sep (map (fun p => quote_json p.1 ++ byte_of_Z 58 :: json_print p.2) l) ++ [byte_of_Z 125]
  end.

(** ** Parsing *)

(** The rest of an array after a value was expected, and of an object after a key was expected; [fuel] bounds the
    number of entries. *)
Section containers.
Context (value : list byte -> option (json * list byte)).

Fixpoint parse_elements (fuel : nat) (bs : list byte) : option (list json * list byte) :=
  match fuel with
  | O => None
  | S fuel =>
      '(j, r) ← value bs;
      match skip_ws r with
      | b :: r =>
          if bz 44 b then '(l, t) ← parse_elements fuel r; Some (j :: l, t)
          else if bz 93 b then Some ([j], r)
          else None
      | [] => None
      end
  end.

Definition parse_key (bs : list byte) : option (string * list byte) :=
  match skip_ws bs with
  | b :: r =>
      if bz 34 b then
        '(raw, r) ← scan_string r;
        match skip_ws r with
        | c :: r => if bz 58 c then Some (unquote_string raw, r) else None
        | [] => None
        end
      else None
  | [] => None
  end.

Fixpoint parse_members (fuel : nat) (bs : list byte) : option (list (string * json) * list byte) :=
  match fuel with
  | O => None
  | S fuel =>
      '(k, r) ← parse_key bs;
      '(j, r) ← value r;
      match skip_ws r with
      | b :: r =>
          if bz 44 b then '(l, t) ← parse_members fuel r; Some ((k, j) :: l, t)
          else if bz 125 b then Some ([(k, j)], r)
          else None
      | [] => None
      end
  end.

Definition parse_array (bs : list byte) : option (json * list byte) :=
  match skip_ws bs with
  | b :: r => if bz 93 b then Some (JArr [], r) else '(l, t) ← parse_elements (length bs) bs; Some (JArr l, t)
  | [] => None
  end.

Definition parse_object (bs : list byte) : option (json * list byte) :=
  match skip_ws bs with
  | b :: r => if bz 125 b then Some (JObj [], r) else '(l, t) ← parse_members (length bs) bs; Some (JObj l, t)
  | [] => None
  end.
End containers.

Fixpoint strip_prefix (p bs : list byte) : option (list byte) :=
  match p, bs with
  | [], _ => Some bs
  | a :: p, b :: bs => if Byte.eqb a b then strip_prefix p bs else None
  | _ :: _, [] => None
  end.

Definition keyword (w : string) (j : json) (bs : list byte) : option (json * list byte) :=
  r ← strip_prefix (string_bytes w) bs; Some (j, r).

(** The value at the start of a text and what follows it; [depth] more containers may be opened. *)
Fixpoint parse_value (depth : nat) (bs : list byte) : option (json * list byte) :=
  match skip_ws bs with
  | [] => None
  | b :: r =>
      if bz 34 b then '(raw, t) ← scan_string r; Some (JStr (unquote_string raw), t)
      else if bz 91 b then match depth with O => None | S depth => parse_array (parse_value depth) r end
      else if bz 123 b then match depth with O => None | S depth => parse_object (parse_value depth) r end
      else if bz 110 b then keyword "null" JNull (b :: r)
      else if bz 116 b then keyword "true" (JBool true) (b :: r)
      else if bz 102 b then keyword "false" (JBool false) (b :: r)
      else '(lit, t) ← lex_number (b :: r); Some (JNum (bytes_string lit), t)
  end.

Definition maxNestingDepth : nat := Z.to_nat 10000.

(** [json.Unmarshal] takes a text that is one value; [Decoder.Decode] takes the value the text begins with. *)
Definition json_parse (bs : list byte) : option json :=
  '(j, r) ← parse_value maxNestingDepth bs;
  match skip_ws r with [] => Some j | _ => None end.
Definition json_first (bs : list byte) : option json :=
  '(j, _) ← parse_value maxNestingDepth bs; Some j.

(** Conversion unfolds the parser last. *)
#[global] Strategy 1000 [maxNestingDepth parse_value json_parse json_first].

(** ** Number literals followed by other text *)
Definition stops (rest : list byte) : Prop :=
  match rest with b :: _ => isDigit b = false /\ bz 46 b = false /\ bz 101 b = false /\ bz 69 b = false | [] => True end.

Lemma span_digits_ext l rest a r :
  span_digits l = (a, r) -> (r = [] -> stops rest) -> span_digits (l ++ rest) = (a, r ++ rest).
Proof.
  revert a r. induction l as [|b l IH]; intros a r; cbn.
  - intros [= <- <-] Hs. specialize (Hs eq_refl). destruct rest as [|c rest]; [done|]. cbn. by destruct Hs as (-> & _).
  - destruct (isDigit b); [|by intros [= <- <-]]. destruct (span_digits l) as [a' r'].
    intros [= <- <-] Hs. by rewrite (IH _ _ eq_refl Hs).
Qed.

Lemma digits1_ext l rest a r :
  digits1 l = Some (a, r) -> (r = [] -> stops rest) -> digits1 (l ++ rest) = Some (a, r ++ rest).
Proof.
  unfold digits1. destruct (span_digits l) as [a' r'] eqn:E. intros Ha Hs.
  assert (r' = r) as -> by (destruct a'; [done|]; by injection Ha). rewrite (span_digits_ext l rest a' r E Hs).
  destruct a' as [|d a']; [done|]. by injection Ha as <-.
Qed.

Lemma lex_int_ext l rest a r :
  lex_int l = Some (a, r) -> (r = [] -> stops rest) -> lex_int (l ++ rest) = Some (a, r ++ rest).
Proof.
  destruct l as [|b l]; [done|]. intros Ha Hs. change ((b :: l) ++ rest) with (b :: l ++ rest). unfold lex_int in *.
  destruct (bz 48 b); [by injection Ha as <- <-|]. exact (digits1_ext (b :: l) rest a r Ha Hs).
Qed.

Lemma lex_frac_ext l rest a r :
  lex_frac l = Some (a, r) -> (r = [] -> stops rest) -> lex_frac (l ++ rest) = Some (a, r ++ rest).
Proof.
  destruct l as [|b l]; cbn [lex_frac app].
  - intros [= <- <-] Hs. specialize (Hs eq_refl). destruct rest as [|c rest]; [done|]. cbn. by destruct Hs as (_ & -> & _).
  - destruct (bz 46 b); [|by intros [= <- <-]]. destruct (digits1 l) as [[a' r']|] eqn:E; [|done]. cbn.
    intros [= <- <-] Hs. by rewrite (digits1_ext _ _ _ _ E Hs).
Qed.

Lemma lex_exp_ext l rest a r :
  lex_exp l = Some (a, r) -> (r = [] -> stops rest) -> lex_exp (l ++ rest) = Some (a, r ++ rest).
Proof.
  destruct l as [|b l]; cbn [lex_exp app].
  - intros [= <- <-] Hs. specialize (Hs eq_refl). destruct rest as [|c rest]; [done|]. cbn. by destruct Hs as (_ & _ & -> & ->).
  - destruct (bz 101 b || bz 69 b); [|by intros [= <- <-]]. destruct l as [|c l]; [done|]. cbn [app].
    destruct (bz 43 c || bz 45 c).
    + destruct (digits1 l) as [[a' r']|] eqn:E; [|done]. cbn. intros [= <- <-] Hs. by rewrite (digits1_ext _ _ _ _ E Hs).
    + destruct (digits1 (c :: l)) as [[a' r']|] eqn:E; [|done]. cbn [mbind option_bind]. intros [= <- <-] Hs.
      change (c :: l ++ rest) with ((c :: l) ++ rest). by rewrite (digits1_ext _ _ _ _ E Hs).
Qed.

Lemma lex_number_ext l rest a : lex_number l = Some (a, []) -> stops rest -> lex_number (l ++ rest) = Some (a, rest).
Proof.
  intros Hl Hs. unfold lex_number in *. destruct l as [|b l]; [done|]. cbn [lex_sign app] in *.
  assert (Hgo : forall sg r,
    ('(ip, r) ← lex_int r; '(fr, r) ← lex_frac r; '(ex, r) ← lex_exp r; Some (sg ++ ip ++ fr ++ ex, r)) = Some (a, []) ->
    ('(ip, r) ← lex_int (r ++ rest); '(fr, r) ← lex_frac r; '(ex, r) ← lex_exp r; Some (sg ++ ip ++ fr ++ ex, r))
    = Some (a, rest)).
  { intros sg r. destruct (lex_int r) as [[ip r1]|] eqn:E1; [|done]. cbn [mbind option_bind].
    destruct (lex_frac r1) as [[fr r2]|] eqn:E2; [|done]. cbn [mbind option_bind].
    destruct (lex_exp r2) as [[ex r3]|] eqn:E3; [|done]. cbn [mbind option_bind]. intros [= <- ->].
    rewrite (lex_int_ext _ rest _ _ E1) by done. cbn [mbind option_bind].
    rewrite (lex_frac_ext _ rest _ _ E2) by done. cbn [mbind option_bind].
    by rewrite (lex_exp_ext _ rest _ _ E3). }
  destruct (bz 45 b); [by apply Hgo|]. by apply (Hgo [] (b :: l)).
Qed.

(** A literal starts with a minus or a digit. *)
Lemma lex_number_head l a r : lex_number l = Some (a, r) -> exists b l', l = b :: l' /\ (bz 45 b = true \/ isDigit b = true).
Proof.
  destruct l as [|b l]; [done|]. intros Hl. exists b, l. split; [done|]. destruct (bz 45 b) eqn:E; [by left|right].
  unfold lex_number in Hl. cbn [lex_sign] in Hl. rewrite E in Hl. cbn [lex_int] in Hl.
  destruct (bz 48 b) eqn:E0; [unfold isDigit, bz in *; lia|]. cbn [span_digits] in Hl. by destruct (isDigit b).
Qed.

(** ** Runes *)
Lemma lor_ge a b k : 0 <= k -> 0 <= a -> 0 <= b -> 2 ^ k <= a \/ 2 ^ k <= b -> 2 ^ k <= Z.lor a b.
Proof.
  intros Hk Ha Hb H. destruct (decide (Z.lor a b = 0)) as [E|E].
  { apply Z.lor_eq_0_iff in E as [-> ->]. pose proof (Z.pow_pos_nonneg 2 k). lia. }
  assert (0 < Z.lor a b) by (pose proof (proj2 (Z.lor_nonneg a b)); lia).
  apply Z.log2_le_pow2; [done|]. rewrite Z.log2_lor by done.
  destruct H as [H|H]; (apply Z.log2_le_pow2 in H; [lia|pose proof (Z.pow_pos_nonneg 2 k); lia]).
Qed.

Lemma shiftl_ge a n k : 0 <= n -> 1 <= a -> k = n -> 2 ^ k <= Z.shiftl a n.
Proof. intros Hn Ha ->. rewrite Z.shiftl_mul_pow2 by done. pose proof (Z.pow_pos_nonneg 2 n). nia. Qed.

Lemma lead_ge b : (194 <= byte_to_Z b <= 223 -> 2 <= Z.land (byte_to_Z b) 31)
  /\ (225 <= byte_to_Z b <= 239 -> 1 <= Z.land (byte_to_Z b) 15) /\ (241 <= byte_to_Z b <= 244 -> 1 <= Z.land (byte_to_Z b) 7)
  /\ (144 <= byte_to_Z b <= 191 -> 1 <= Z.land (byte_to_Z b) 63).
Proof. destruct b; vm_compute; repeat split; intros [? ?]; congruence || (intros; discriminate). Qed.

Lemma land_nonneg b m : 0 <= Z.land (byte_to_Z b) m.
Proof. apply Z.land_nonneg. left. pose proof (byte_to_Z_range b). lia. Qed.

(** What a rune of a text is: an ASCII byte, an invalid byte, or a longer sequence that decodes to it wherever it stands. *)
Definition rune_shape (p : Z * list byte) : Prop :=
  (exists b, p = (byte_to_Z b, [b]) /\ byte_to_Z b < 128)
  \/ (exists b, p = (Utf8.RuneError, [b]) /\ 128 <= byte_to_Z b)
  \/ (exists b c raw, p.2 = b :: c :: raw /\ Forall (fun x => 128 <= byte_to_Z x) p.2 /\ 128 <= p.1
      /\ forall t, Utf8.runes (p.2 ++ t) = p :: Utf8.runes t).

Lemma second_ok_ge a b : Utf8.second_ok a b = true -> 128 <= byte_to_Z b <= 191.
Proof. unfold Utf8.second_ok, Utf8.cont. repeat case_match; lia. Qed.

Ltac long_rune :=
  right; right; eexists _, _, _; split; [reflexivity|]; split;
  [repeat (apply Forall_cons; split); try apply Forall_nil; try done; try lia|]; split; [cbn [fst]|].

(** The value of a sequence of two, three or four bytes lies above the ASCII range. *)
Lemma rune2_ge a b : 194 <= byte_to_Z a <= 223 -> 128 <= Z.lor (Z.shiftl (Z.land (byte_to_Z a) 31) 6) (Utf8.bits6 b).
Proof.
  intros Ha. pose proof (proj1 (lead_ge a) Ha). apply (lor_ge _ _ 7); [lia| |apply land_nonneg|left].
  - rewrite Z.shiftl_nonneg. apply land_nonneg.
  - rewrite Z.shiftl_mul_pow2 by lia. lia.
Qed.

Lemma rune3_ge a b c : 224 <= byte_to_Z a <= 239 -> Utf8.second_ok a b = true ->
  128 <= Z.lor (Z.lor (Z.shiftl (Z.land (byte_to_Z a) 15) 12) (Z.shiftl (Utf8.bits6 b) 6)) (Utf8.bits6 c).
Proof.
  intros Ha Hs. assert (0 <= Utf8.bits6 b) by apply land_nonneg. pose proof (land_nonneg a 15).
  apply (lor_ge _ _ 7); [lia|rewrite Z.lor_nonneg, !Z.shiftl_nonneg; lia|apply land_nonneg|left].
  apply (lor_ge _ _ 7); [lia|by rewrite Z.shiftl_nonneg..|]. destruct (decide (byte_to_Z a = 224)) as [E|E].
  - right. unfold Utf8.second_ok, Utf8.cont in Hs. replace (byte_to_Z a =? 224) with true in Hs by lia.
    assert (2 <= Utf8.bits6 b) by (unfold Utf8.bits6; clear -Hs; destruct b; vm_compute in Hs |- *; congruence).
    rewrite Z.shiftl_mul_pow2 by lia. lia.
  - left. pose proof (proj1 (proj2 (lead_ge a)) ltac:(lia)). rewrite Z.shiftl_mul_pow2 by lia. lia.
Qed.

Lemma rune4_ge a b c d : 240 <= byte_to_Z a <= 244 -> Utf8.second_ok a b = true ->
  128 <= Z.lor (Z.lor (Z.shiftl (Z.land (byte_to_Z a) 7) 18) (Z.shiftl (Utf8.bits6 b) 12))
               (Z.lor (Z.shiftl (Utf8.bits6 c) 6) (Utf8.bits6 d)).
Proof.
  intros Ha Hs. assert (0 <= Utf8.bits6 b) by apply land_nonneg. assert (0 <= Utf8.bits6 c) by apply land_nonneg.
  assert (0 <= Utf8.bits6 d) by apply land_nonneg. pose proof (land_nonneg a 7).
  apply (lor_ge _ _ 7); [lia|rewrite Z.lor_nonneg, !Z.shiftl_nonneg; lia|rewrite Z.lor_nonneg, Z.shiftl_nonneg; lia|left].
  apply (lor_ge _ _ 7); [lia|by rewrite Z.shiftl_nonneg..|]. destruct (decide (byte_to_Z a = 240)) as [E|E].
  - right. unfold Utf8.second_ok, Utf8.cont in Hs. replace (byte_to_Z a =? 224) with false in Hs by lia.
    replace (byte_to_Z a =? 237) with false in Hs by lia. replace (byte_to_Z a =? 240) with true in Hs by lia.
    pose proof (proj2 (proj2 (proj2 (lead_ge b))) ltac:(lia)). rewrite Z.shiftl_mul_pow2 by lia. unfold Utf8.bits6 in *. lia.
  - left. pose proof (proj1 (proj2 (proj2 (lead_ge a))) ltac:(lia)). rewrite Z.shiftl_mul_pow2 by lia. lia.
Qed.

Lemma runes_shape_n n : forall bs, (length bs <= n)%nat -> Forall rune_shape (Utf8.runes bs).
Proof.
  induction n as [|n IH]; intros bs Hn; [destruct bs; [constructor|cbn in Hn; lia]|].
  destruct bs as [|a s1]; [constructor|]. cbn [length] in Hn. cbn [Utf8.runes].
  destruct (byte_to_Z a <? 128) eqn:E1; [constructor; [left; exists a; split; [done|lia]|apply IH; lia]|].
  assert (Hbad : Forall rune_shape ((Utf8.RuneError, [a]) :: Utf8.runes s1)).
  { constructor; [right; left; exists a; split; [done|lia]|apply IH; lia]. }
  destruct ((194 <=? byte_to_Z a) && (byte_to_Z a <=? 223)) eqn:E2.
  { destruct s1 as [|b s2]; [done|]. destruct (Utf8.second_ok a b) eqn:Es; [|done].
    pose proof (second_ok_ge a b Es). constructor; [|apply IH; cbn in Hn; lia].
    long_rune; [apply rune2_ge; lia|]. intros t. cbn [snd app Utf8.runes]. by rewrite E1, E2, Es. }
  destruct ((224 <=? byte_to_Z a) && (byte_to_Z a <=? 239)) eqn:E3.
  { destruct s1 as [|b [|c s2]]; try done. destruct (Utf8.second_ok a b && Utf8.cont 128 191 c) eqn:Es; [|done].
    apply andb_true_iff in Es as Es'. destruct Es' as [Es1 Es2]. pose proof (second_ok_ge a b Es1).
    unfold Utf8.cont in Es2. constructor; [|apply IH; cbn in Hn; lia].
    long_rune; [apply rune3_ge; [lia|done]|]. intros t. cbn [snd app Utf8.runes]. by rewrite E1, E2, E3, Es. }
  destruct ((240 <=? byte_to_Z a) && (byte_to_Z a <=? 244)) eqn:E4; [|done].
  destruct s1 as [|b [|c [|d s2]]]; try done.
  destruct (Utf8.second_ok a b && Utf8.cont 128 191 c && Utf8.cont 128 191 d) eqn:Es; [|done].
  apply andb_true_iff in Es as Es'. destruct Es' as [Es1 Es3]. apply andb_true_iff in Es1 as [Es1 Es2].
  pose proof (second_ok_ge a b Es1). unfold Utf8.cont in Es2, Es3. constructor; [|apply IH; cbn in Hn; lia].
  long_rune; [apply rune4_ge; [lia|done]|]. intros t. cbn [snd app Utf8.runes]. by rewrite E1, E2, E3, E4, Es.
Qed.

Lemma runes_shape bs : Forall rune_shape (Utf8.runes bs).
Proof. by apply (runes_shape_n (length bs)). Qed.

(** ** Strings survive *)
Lemma scan_high l t : Forall (fun x => 128 <= byte_to_Z x) l ->
  scan_string (l ++ t) = ('(a, t') ← scan_string t; Some (l ++ a, t')).
Proof.
  induction 1 as [|b l Hb _ IH]; cbn [app]; [by destruct (scan_string t) as [[]|]|]. cbn [scan_string].
  unfold bz. replace (byte_to_Z b =? 34) with false by lia. replace (byte_to_Z b =? 92) with false by lia.
  replace (byte_to_Z b <? 32) with false by lia. rewrite IH. by destruct (scan_string t) as [[]|].
Qed.

Definition short_rune (p : Z * list byte) : Prop := forall t,
  scan_string (escape_rune p ++ t) = ('(a, t') ← scan_string t; Some (escape_rune p ++ a, t'))
  /\ unquote (map fst (Utf8.runes (escape_rune p ++ t))) = Utf8.encode p.1 ++ unquote (map fst (Utf8.runes t)).

(** Scanning over concrete bytes. *)
Ltac escaped_scan :=
  match goal with |- scan_string (?e ++ ?t) = _ => let e' := eval vm_compute in e in change e with e' end;
  cbn [app scan_string]; match goal with |- context [scan_string ?t] => destruct (scan_string t) as [[]|] end; reflexivity.

Lemma short_ascii b : byte_to_Z b < 128 -> short_rune (byte_to_Z b, [b]).
Proof.
  intros Hb t. destruct b; try (exfalso; revert Hb; vm_compute; discriminate); (split; [escaped_scan|reflexivity]).
Qed.

Lemma short_escaped r raw : r ∈ [Utf8.RuneError; 8232; 8233] -> escape_rune (r, raw) = u_escape r -> short_rune (r, raw).
Proof.
  intros Hr He t. rewrite He. rewrite !elem_of_cons, elem_of_nil in Hr.
  destruct Hr as [->|[->|[->|[]]]]; (split; [escaped_scan|reflexivity]).
Qed.

Lemma escape_rune_ok p : rune_shape p -> short_rune p.
Proof.
  intros [(b & -> & Hb)|[(b & -> & Hb)|(b & c & raw & Hraw & Hhi & Hr & Hdec)]].
  - by apply short_ascii.
  - apply short_escaped; [by left|]. unfold escape_rune. by replace (byte_to_Z b <? 128) with false by lia.
  - destruct p as [r raw']. cbn [fst snd] in *. subst raw'. rewrite Forall_cons in Hhi. pose proof (proj1 Hhi) as Hb.
    assert (He : escape_rune (r, b :: c :: raw) = if (r =? 8232) || (r =? 8233) then u_escape r else b :: c :: raw).
    { unfold escape_rune. replace (byte_to_Z b <? 128) with false by lia. cbn [length Nat.eqb]. by rewrite andb_false_r. }
    destruct ((r =? 8232) || (r =? 8233)) eqn:E.
    + apply short_escaped; [|done]. apply orb_true_iff in E as [->%Z.eqb_eq| ->%Z.eqb_eq]; rewrite !elem_of_cons; tauto.
    + intros t. rewrite He. split; [apply scan_high; by apply Forall_cons|]. rewrite Hdec. cbn [map fst unquote].
      by replace (r =? 92) with false by lia.
Qed.

Lemma quoted_ok rs rest : Forall rune_shape rs ->
  scan_string (flat_map escape_rune rs ++ byte_of_Z 34 :: rest) = Some (flat_map escape_rune rs, rest)
  /\ unquote (map fst (Utf8.runes (flat_map escape_rune rs))) = flat_map (fun '(r, _) => Utf8.encode r) rs.
Proof.
  induction 1 as [|p rs Hp _ [IH1 IH2]]; [done|]. cbn [flat_map]. rewrite <- app_assoc.
  pose proof (escape_rune_ok p Hp) as Hs. split.
  - rewrite (proj1 (Hs _)), IH1. done.
  - rewrite (proj2 (Hs _)), IH2. by destruct p.
Qed.

Lemma scan_quoted s rest : exists raw, (exists b t, quote_json s ++ rest = b :: t /\ bz 34 b = true
  /\ scan_string t = Some (raw, rest)) /\ unquote_string raw = utf8_coerce s.
Proof.
  destruct (quoted_ok _ rest (runes_shape (string_bytes s))) as [H1 H2]. eexists. split.
  - eexists _, _. unfold quote_json. cbn [app]. split; [reflexivity|]. split; [done|]. rewrite <- app_assoc. exact H1.
  - unfold unquote_string, utf8_coerce. by rewrite H2.
Qed.

(** ** Trees survive *)

(** The literals of the tree are numbers and at most [n] containers are nested. *)
Fixpoint json_fits (n : nat) (j : json) {struct j} : bool :=
  match j with
  | JNum lit => number_ok lit
  | JArr l => match n with O => false | S n => forallb (json_fits n) l end
  | JObj l => match n with O => false | S n => forallb (fun p => json_fits n p.2) l end
  | _ => true
  end.

Lemma skip_ws_cons b r : isSpace b = false -> skip_ws (b :: r) = b :: r.
Proof. intros Hb. cbn. by rewrite Hb. Qed.

Definition starts_value (bs : list byte) : Prop :=
  exists b t, bs = b :: t /\ isSpace b = false /\ bz 93 b = false /\ bz 125 b = false.

Lemma number_head b : bz 45 b = true \/ isDigit b = true ->
  isSpace b = false /\ bz 93 b = false /\ bz 125 b = false /\ bz 34 b = false /\ bz 91 b = false /\ bz 123 b = false
  /\ bz 110 b = false /\ bz 116 b = false /\ bz 102 b = false.
Proof. unfold isSpace, isDigit, bz. intros H. split_and!; lia. Qed.

Lemma number_ok_lex lit : number_ok lit = true -> lex_number (string_bytes lit) = Some (string_bytes lit, []).
Proof. apply bool_decide_eq_true. Qed.

Lemma json_print_starts n j : json_fits n j = true -> starts_value (json_print j).
Proof.
  destruct j as [|[]|lit|s|l|l]; cbn [json_print json_fits]; intros Hj; try by eexists _, _.
  apply number_ok_lex, lex_number_head in Hj as (b & t & -> & Hb). exists b, t.
  apply number_head in Hb. tauto.
Qed.

Lemma stops_sep z rest : z ∈ [44; 93; 125] -> stops (byte_of_Z z :: rest).
Proof. rewrite !elem_of_cons, elem_of_nil. intros [->|[->|[->|[]]]]; done. Qed.

Lemma starts_array l rest : Forall (fun x => starts_value x) l -> l <> [] ->
  exists b t, skip_ws (comma_sep l ++ rest) = b :: t /\ bz 93 b = false.
Proof.
  intros Hl Hn. destruct l as [|x l]; [done|]. rewrite Forall_cons in Hl. destruct Hl as [(b & t & -> & Hb & H93 & _) _].
  destruct l as [|y l]; cbn [comma_sep app]; rewrite skip_ws_cons by done; eauto.
Qed.

Lemma comma_sep_cons x y l : comma_sep (x :: y :: l) = x ++ byte_of_Z 44 :: comma_sep (y :: l).
Proof. done. Qed.

Lemma parse_elements_print value l rest : forall fuel, l <> [] -> (length l <= fuel)%nat ->
  Forall (fun j => forall rest, stops rest -> value (json_print j ++ rest) = Some (json_coerce j, rest)) l ->
  parse_elements value fuel (comma_sep (map json_print l) ++ byte_of_Z 93 :: rest) = Some (map json_coerce l, rest).
Proof.
  induction l as [|j l IH]; intros fuel Hne Hf Hl; [done|]. destruct fuel as [|fuel]; [cbn in Hf; lia|].
  rewrite Forall_cons in Hl. destruct Hl as [Hj Hl]. cbn [map]. destruct l as [|k l].
  - cbn [map comma_sep parse_elements]. rewrite Hj by (apply stops_sep; rewrite !elem_of_cons; tauto). done.
  - rewrite map_cons, comma_sep_cons, <- map_cons, <- app_assoc, <- app_comm_cons. cbn [parse_elements].
    rewrite Hj by (apply stops_sep; rewrite !elem_of_cons; tauto). cbn [mbind option_bind].
    rewrite skip_ws_cons by done. change (bz 44 (byte_of_Z 44)) with true. cbn iota.
    rewrite (IH fuel) by (done || cbn in *; lia). done.
Qed.

Definition print_member (p : string * json) : list byte := quote_json p.1 ++ byte_of_Z 58 :: json_print p.2.
Definition coerce_member (p : string * json) : string * json := (utf8_coerce p.1, json_coerce p.2).

Lemma parse_key_print k t : parse_key (quote_json k ++ byte_of_Z 58 :: t) = Some (utf8_coerce k, t).
Proof.
  destruct (scan_quoted k (byte_of_Z 58 :: t)) as (raw & (b & u & E & Hb & Hs) & Hu). rewrite E. unfold parse_key.
  rewrite skip_ws_cons by (unfold isSpace, bz in *; lia). rewrite Hb, Hs. cbn [mbind option_bind].
  rewrite skip_ws_cons by done. change (bz 58 (byte_of_Z 58)) with true. cbn iota. by rewrite Hu.
Qed.

Lemma parse_members_print value l rest : forall fuel, l <> [] -> (length l <= fuel)%nat ->
  Forall (fun p : string * json => forall rest, stops rest -> value (json_print p.2 ++ rest) = Some (json_coerce p.2, rest)) l ->
  parse_members value fuel (comma_sep (map print_member l) ++ byte_of_Z 125 :: rest) = Some (map coerce_member l, rest).
Proof.
  induction l as [|p l IH]; intros fuel Hne Hf Hl; [done|]. destruct fuel as [|fuel]; [cbn in Hf; lia|].
  rewrite Forall_cons in Hl. destruct Hl as [Hj Hl]. cbn [map]. destruct l as [|q l].
  - cbn [map comma_sep parse_members]. unfold print_member. rewrite <- app_assoc, <- app_comm_cons, parse_key_print.
    cbn [mbind option_bind]. rewrite Hj by (apply stops_sep; rewrite !elem_of_cons; tauto). done.
  - rewrite map_cons, comma_sep_cons, <- map_cons, <- app_assoc, <- app_comm_cons. cbn [parse_members]. unfold print_member at 1.
    rewrite <- app_assoc, <- app_comm_cons, parse_key_print. cbn [mbind option_bind].
    rewrite Hj by (apply stops_sep; rewrite !elem_of_cons; tauto). cbn [mbind option_bind].
    rewrite skip_ws_cons by done. change (bz 44 (byte_of_Z 44)) with true. cbn iota.
    rewrite (IH fuel) by (done || cbn in *; lia). done.
Qed.

Lemma comma_sep_length l : Forall (fun x => starts_value x) l -> (length l <= length (comma_sep l))%nat.
Proof.
  induction 1 as [|x l (b & t & -> & _) Hl IH]; [done|]. destruct l as [|y l]; [cbn; lia|].
  change (comma_sep ((b :: t) :: y :: l)) with (b :: t ++ byte_of_Z 44 :: comma_sep (y :: l)).
  cbn [length] in *. rewrite length_app. cbn [length]. lia.
Qed.

Lemma parse_array_print value l rest :
  Forall (fun j => starts_value (json_print j)
            /\ forall rest, stops rest -> value (json_print j ++ rest) = Some (json_coerce j, rest)) l ->
  parse_array value (comma_sep (map json_print l) ++ byte_of_Z 93 :: rest) = Some (JArr (map json_coerce l), rest).
Proof.
  intros [Hs Hv]%Forall_and. destruct l as [|j l]; [done|]. apply Forall_map in Hs. unfold parse_array.
  destruct (starts_array _ (byte_of_Z 93 :: rest) Hs) as (b & t & -> & ->); [done|].
  rewrite (parse_elements_print value (j :: l)); [done|done| |done].
  apply comma_sep_length in Hs. rewrite length_map in Hs. rewrite length_app. lia.
Qed.

Lemma quote_starts k t : exists u, quote_json k ++ t = byte_of_Z 34 :: u.
Proof. by eexists. Qed.

Lemma parse_object_print value l rest :
  Forall (fun p : string * json => forall rest, stops rest -> value (json_print p.2 ++ rest) = Some (json_coerce p.2, rest)) l ->
  parse_object value (comma_sep (map print_member l) ++ byte_of_Z 125 :: rest) = Some (JObj (map coerce_member l), rest).
Proof.
  intros Hv. destruct l as [|p l]; [done|]. unfold parse_object.
  assert (Hs : Forall (fun x => starts_value x) (map print_member (p :: l))) by (apply Forall_map, Forall_true; intros; by eexists _, _).
  assert (exists u, comma_sep (map print_member (p :: l)) ++ byte_of_Z 125 :: rest = byte_of_Z 34 :: u) as [u E].
  { cbn [map]. destruct (map print_member l); cbn [comma_sep]; by eexists. }
  rewrite E. rewrite skip_ws_cons by done. change (bz 125 (byte_of_Z 34)) with false. cbn iota. rewrite <- E.
  rewrite (parse_members_print value (p :: l)); [done|done| |done].
  apply comma_sep_length in Hs. rewrite length_map in Hs. rewrite length_app. lia.
Qed.

(** A printed tree parses back, its strings made valid UTF-8, whatever follows it. *)
Lemma parse_print n : forall j rest, json_fits n j = true -> stops rest ->
  parse_value n (json_print j ++ rest) = Some (json_coerce j, rest).
Proof.
  induction n as [|n IH]; intros j rest Hj Hr; (destruct j as [|[]|lit|s|l|l]; [reflexivity|reflexivity|reflexivity| | | |]).
  all: try discriminate Hj.
  1, 3: apply number_ok_lex in Hj; pose proof (lex_number_head _ _ _ Hj) as (b & t & E & Hb); apply number_head in Hb;
    cbn [json_print json_coerce]; pose proof (lex_number_ext _ rest _ Hj Hr) as Hx; rewrite E in *;
    destruct Hb as (H0 & _ & _ & H1 & H2 & H3 & H4 & H5 & H6); cbn [app] in *;
    cbn [parse_value skip_ws]; rewrite H0, H1, H2, H3, H4, H5, H6, Hx; cbn [mbind option_bind];
    by rewrite <- E, bytes_string_bytes.
  1, 2: cbn [json_print json_coerce]; destruct (scan_quoted s rest) as (raw & (b & u & E & Hb & Hs) & Hu); rewrite E;
    cbn [parse_value skip_ws]; replace (isSpace b) with false by (unfold isSpace, bz in *; lia); rewrite Hb, Hs;
    cbn [mbind option_bind]; by rewrite Hu.
  - cbn [json_print json_coerce]. rewrite <- app_comm_cons, <- app_assoc.
    change (parse_value (S n) (byte_of_Z 91 :: ?x)) with (parse_array (parse_value n) x). cbn [app]. apply parse_array_print.
    apply Forall_forall. intros j Hjl. cbn in Hj. rewrite forallb_forall in Hj.
    assert (json_fits n j = true) by (by apply Hj, list_elem_of_In).
    split; [by eapply json_print_starts|]. intros. by apply IH.
  - cbn [json_print json_coerce]. rewrite <- app_comm_cons, <- app_assoc.
    change (parse_value (S n) (byte_of_Z 123 :: ?x)) with (parse_object (parse_value n) x). cbn [app].
    apply (parse_object_print (parse_value n) l). apply Forall_forall. intros p Hp. cbn in Hj. rewrite forallb_forall in Hj.
    intros. apply IH; [|done]. by apply (Hj p), list_elem_of_In.
Qed.

(** ** The bound on the number of entries is never reached *)
Lemma skip_ws_len bs : (length (skip_ws bs) <= length bs)%nat.
Proof. induction bs as [|b bs IH]; cbn; [done|]. destruct (isSpace b); cbn; lia. Qed.

Lemma span_digits_len bs : forall a r, span_digits bs = (a, r) -> (length bs = length a + length r)%nat.
Proof.
  induction bs as [|b bs IH]; intros a r; cbn; [by intros [= <- <-]|]. destruct (isDigit b); [|by intros [= <- <-]].
  destruct (span_digits bs) as [a' r']. intros [= <- <-]. cbn. rewrite (IH a' r' eq_refl). lia.
Qed.

Lemma digits1_len bs a r : digits1 bs = Some (a, r) -> (length r < length bs)%nat.
Proof.
  unfold digits1. destruct (span_digits bs) as [a' r'] eqn:E. apply span_digits_len in E.
  destruct a' as [|d a']; [done|]. intros [= <- <-]. cbn in E. lia.
Qed.

Lemma lex_number_len bs a r : lex_number bs = Some (a, r) -> (length r < length bs)%nat.
Proof.
  unfold lex_number. destruct (lex_sign bs) as [sg r0] eqn:E0.
  assert (length r0 <= length bs)%nat.
  { unfold lex_sign in E0. destruct bs as [|b bs]; [by injection E0 as <- <-|]. destruct (bz 45 b); injection E0 as <- <-; cbn; lia. }
  destruct (lex_int r0) as [[ip r1]|] eqn:E1; [|done]. cbn [mbind option_bind].
  assert (length r1 < length r0)%nat.
  { destruct r0 as [|b r0]; [done|]. cbn [lex_int] in E1. destruct (bz 48 b); [injection E1 as <- <-; cbn; lia|].
    by apply (digits1_len (b :: r0) ip). }
  destruct (lex_frac r1) as [[fr r2]|] eqn:E2; [|done]. cbn [mbind option_bind].
  assert (length r2 <= length r1)%nat.
  { destruct r1 as [|b r1]; [by injection E2 as <- <-|]. cbn [lex_frac] in E2. destruct (bz 46 b); [|by injection E2 as <- <-].
    destruct (digits1 r1) as [[x y]|] eqn:E; [|done]. injection E2 as <- <-. apply digits1_len in E. cbn. lia. }
  destruct (lex_exp r2) as [[ex r3]|] eqn:E3; [|done]. cbn [mbind option_bind]. intros [= <- <-].
  enough (length r3 <= length r2)%nat by lia.
  destruct r2 as [|b r2]; [by injection E3 as <- <-|]. cbn [lex_exp] in E3. destruct (_ || _); [|by injection E3 as <- <-].
  destruct r2 as [|c r2]; [done|]. destruct (_ || _).
  - destruct (digits1 r2) as [[x y]|] eqn:E; [|done]. injection E3 as <- <-. apply digits1_len in E. cbn. lia.
  - destruct (digits1 (c :: r2)) as [[x y]|] eqn:E; [|done]. injection E3 as <- <-. apply digits1_len in E. cbn in *. lia.
Qed.

Lemma scan_string_len_n n : forall bs a r, (length bs <= n)%nat -> scan_string bs = Some (a, r) -> (length r < length bs)%nat.
Proof.
  induction n as [|n IH]; intros bs a r Hn; (destruct bs as [|b bs]; [done|]); cbn [length] in *; [lia|]. cbn [scan_string].
  destruct (bz 34 b); [intros [= <- <-]; lia|].
  assert (Hgo : forall t pre, (length t <= length bs)%nat ->
    ('(a, t) ← scan_string t; Some (pre ++ a, t)) = Some (a, r) -> (length r < S (length bs))%nat).
  { intros t pre Ht. destruct (scan_string t) as [[x y]|] eqn:E; [|done]. cbn. intros [= _ <-]. apply IH in E; lia. }
  destruct (bz 92 b); [|destruct (byte_to_Z b <? 32); [done|by apply (Hgo bs [b])]].
  destruct bs as [|e bs]; [done|]. destruct (bz 117 e).
  - destruct bs as [|h1 [|h2 [|h3 [|h4 bs]]]]; try done. destruct (_ && _); [|done].
    apply (Hgo bs [b; e; h1; h2; h3; h4]). cbn. lia.
  - case_bool_decide; [|done]. apply (Hgo bs [b; e]). cbn. lia.
Qed.

Lemma scan_string_len bs a r : scan_string bs = Some (a, r) -> (length r < length bs)%nat.
Proof. by apply (scan_string_len_n (length bs)). Qed.

Section fuel.
Context (value : list byte -> option (json * list byte)).
Context (Hvalue : forall bs j r, value bs = Some (j, r) -> (length r < length bs)%nat).

Lemma parse_key_len bs k r : parse_key bs = Some (k, r) -> (length r < length bs)%nat.
Proof.
  unfold parse_key. pose proof (skip_ws_len bs). destruct (skip_ws bs) as [|b t]; [done|]. destruct (bz 34 b); [|done].
  destruct (scan_string t) as [[raw t']|] eqn:E; [|done]. apply scan_string_len in E. cbn [mbind option_bind].
  pose proof (skip_ws_len t'). destruct (skip_ws t') as [|c u]; [done|]. destruct (bz 58 c); [|done].
  intros [= <- <-]. cbn in *. lia.
Qed.

Lemma parse_elements_len fuel : forall bs l r, parse_elements value fuel bs = Some (l, r) -> (length r < length bs)%nat.
Proof.
  induction fuel as [|fuel IH]; intros bs l r; cbn [parse_elements]; [done|].
  destruct (value bs) as [[j t]|] eqn:E; [|done]. apply Hvalue in E. cbn [mbind option_bind].
  pose proof (skip_ws_len t). destruct (skip_ws t) as [|b u]; [done|]. cbn [length] in *.
  destruct (bz 44 b); [|destruct (bz 93 b); [intros [= _ <-]; lia|done]].
  destruct (parse_elements value fuel u) as [[l' r']|] eqn:E'; [|done]. cbn. intros [= _ <-]. apply IH in E'. lia.
Qed.

Lemma parse_members_len fuel : forall bs l r, parse_members value fuel bs = Some (l, r) -> (length r < length bs)%nat.
Proof.
  induction fuel as [|fuel IH]; intros bs l r; cbn [parse_members]; [done|].
  destruct (parse_key bs) as [[k s]|] eqn:Ek; [|done]. apply parse_key_len in Ek. cbn [mbind option_bind].
  destruct (value s) as [[j t]|] eqn:E; [|done]. apply Hvalue in E. cbn [mbind option_bind].
  pose proof (skip_ws_len t). destruct (skip_ws t) as [|b u]; [done|]. cbn [length] in *.
  destruct (bz 44 b); [|destruct (bz 125 b); [intros [= _ <-]; lia|done]].
  destruct (parse_members value fuel u) as [[l' r']|] eqn:E'; [|done]. cbn. intros [= _ <-]. apply IH in E'. lia.
Qed.

Lemma parse_array_len bs j r : parse_array value bs = Some (j, r) -> (length r < length bs)%nat.
Proof.
  unfold parse_array. pose proof (skip_ws_len bs). destruct (skip_ws bs) as [|c u]; [done|]. cbn [length] in *.
  destruct (bz 93 c); [intros [= _ <-]; lia|]. destruct (parse_elements _ _ bs) as [[l' r']|] eqn:E; [|done].
  cbn. intros [= _ <-]. by apply parse_elements_len in E.
Qed.

Lemma parse_object_len bs j r : parse_object value bs = Some (j, r) -> (length r < length bs)%nat.
Proof.
  unfold parse_object. pose proof (skip_ws_len bs). destruct (skip_ws bs) as [|c u]; [done|]. cbn [length] in *.
  destruct (bz 125 c); [intros [= _ <-]; lia|]. destruct (parse_members _ _ bs) as [[l' r']|] eqn:E; [|done].
  cbn. intros [= _ <-]. by apply parse_members_len in E.
Qed.

(** Any two bounds of at least the text's length give the same result. *)
Lemma parse_elements_fuel f : forall g bs, (length bs <= f)%nat -> (length bs <= g)%nat ->
  parse_elements value f bs = parse_elements value g bs.
Proof.
  induction f as [|f IH]; intros [|g] bs Hf Hg; cbn [parse_elements]; try done.
  1, 2: destruct (value bs) as [[j t]|] eqn:E; [|done]; apply Hvalue in E; lia.
  destruct (value bs) as [[j t]|] eqn:E; [|done]. apply Hvalue in E. cbn [mbind option_bind].
  pose proof (skip_ws_len t). destruct (skip_ws t) as [|b u]; [done|]. cbn [length] in *. rewrite (IH g u) by lia. done.
Qed.

Lemma parse_members_fuel f : forall g bs, (length bs <= f)%nat -> (length bs <= g)%nat ->
  parse_members value f bs = parse_members value g bs.
Proof.
  induction f as [|f IH]; intros [|g] bs Hf Hg; cbn [parse_members]; try done.
  1, 2: destruct (parse_key bs) as [[k s]|] eqn:E; [|done]; apply parse_key_len in E; lia.
  destruct (parse_key bs) as [[k s]|] eqn:Ek; [|done]. apply parse_key_len in Ek. cbn [mbind option_bind].
  destruct (value s) as [[j t]|] eqn:E; [|done]. apply Hvalue in E. cbn [mbind option_bind].
  pose proof (skip_ws_len t). destruct (skip_ws t) as [|b u]; [done|]. cbn [length] in *. rewrite (IH g u) by lia. done.
Qed.
End fuel.

Lemma strip_prefix_len p : forall bs r, strip_prefix p bs = Some r -> (length r + length p = length bs)%nat.
Proof.
  induction p as [|a p IH]; intros bs r; cbn; [intros [= <-]; lia|]. destruct bs as [|b bs]; [done|].
  destruct (Byte.eqb a b); [|done]. intros Hr%IH. cbn. lia.
Qed.

(** A value takes at least one byte, so the loops over entries end on their own. *)
Lemma parse_value_len n : forall bs j r, parse_value n bs = Some (j, r) -> (length r < length bs)%nat.
Proof.
  assert (Hk : forall w x b t j r, w <> EmptyString -> keyword w x (b :: t) = Some (j, r) -> (length r < S (length t))%nat).
  { intros w x b t j r Hw. unfold keyword. destruct (strip_prefix _ _) as [u|] eqn:E; [|done]. cbn. intros [= _ <-].
    apply strip_prefix_len in E. destruct w; [done|]. cbn in *. lia. }
  induction n as [|n IH]; intros bs j r; cbn [parse_value]; pose proof (skip_ws_len bs) as Hl;
    destruct (skip_ws bs) as [|b t]; try done; cbn [length] in Hl;
    (destruct (bz 34 b);
     [destruct (scan_string t) as [[raw u]|] eqn:E; [|done]; cbn; intros [= _ <-]; apply scan_string_len in E; lia|]).
  all: assert (Hnum : ('(lit, u) ← lex_number (b :: t); Some (JNum (bytes_string lit), u)) = Some (j, r) -> (length r < length bs)%nat)
    by (destruct (lex_number (b :: t)) as [[lit u]|] eqn:E; [|done]; cbn; intros [= _ <-]; apply lex_number_len in E; cbn in E; lia).
  all: destruct (bz 91 b); [|destruct (bz 123 b)]; try done.
  2: intros Hp; apply (parse_array_len _ IH) in Hp; lia.
  2: intros Hp; apply (parse_object_len _ IH) in Hp; lia.
  all: repeat (match goal with |- (if ?c then keyword _ _ _ else _) = _ -> _ => destruct c; [intros Hw; apply Hk in Hw; [lia|done]|] end);
    exact Hnum.
Qed.


(** ** Texts *)
Lemma json_first_print j rest : json_fits maxNestingDepth j = true -> stops rest ->
  json_first (json_print j ++ rest) = Some (json_coerce j).
Proof. intros Hj Hr. unfold json_first. by rewrite parse_print. Qed.

Lemma json_parse_print j : json_fits maxNestingDepth j = true -> json_parse (json_print j) = Some (json_coerce j).
Proof. intros Hj. unfold json_parse. rewrite <- (app_nil_r (json_print j)), parse_print by done. done. Qed.

Lemma json_print_nonempty n j : json_fits n j = true -> 0 < len (json_print j).
Proof. intros (b & t & -> & _)%json_print_starts. rewrite len_cons. pose proof (len_nonneg t). lia. Qed.

Lemma json_fits_mono n : forall m j, (n <= m)%nat -> json_fits n j = true -> json_fits m j = true.
Proof.
  induction n as [|n IH]; intros m j Hm Hj; (destruct j as [|b|lit|s|l|l]; try done); (destruct m as [|m]; [lia|]);
    cbn in *; rewrite forallb_forall in Hj |- *; intros x Hx; apply IH; auto; lia.
Qed.

(** ** A deeper limit accepts more *)
Section mono.
Context (v v' : list byte -> option (json * list byte)) (Hv : forall bs x, v bs = Some x -> v' bs = Some x).

Lemma parse_elements_mono fuel : forall bs x, parse_elements v fuel bs = Some x -> parse_elements v' fuel bs = Some x.
Proof.
  induction fuel as [|fuel IH]; intros bs x; cbn [parse_elements]; [done|].
  destruct (v bs) as [[j t]|] eqn:E; [|done]. rewrite (Hv _ _ E). cbn [mbind option_bind].
  destruct (skip_ws t) as [|b u]; [done|]. destruct (bz 44 b); [|done].
  destruct (parse_elements v fuel u) as [y|] eqn:E'; [|done]. by rewrite (IH _ _ E').
Qed.

Lemma parse_members_mono fuel : forall bs x, parse_members v fuel bs = Some x -> parse_members v' fuel bs = Some x.
Proof.
  induction fuel as [|fuel IH]; intros bs x; cbn [parse_members]; [done|].
  destruct (parse_key bs) as [[k s]|]; [|done]. cbn [mbind option_bind].
  destruct (v s) as [[j t]|] eqn:E; [|done]. rewrite (Hv _ _ E). cbn [mbind option_bind].
  destruct (skip_ws t) as [|b u]; [done|]. destruct (bz 44 b); [|done].
  destruct (parse_members v fuel u) as [y|] eqn:E'; [|done]. by rewrite (IH _ _ E').
Qed.

Lemma parse_array_mono bs x : parse_array v bs = Some x -> parse_array v' bs = Some x.
Proof.
  unfold parse_array. destruct (skip_ws bs) as [|b t]; [done|]. destruct (bz 93 b); [done|].
  destruct (parse_elements v _ bs) as [y|] eqn:E; [|done]. by rewrite (parse_elements_mono _ _ _ E).
Qed.

Lemma parse_object_mono bs x : parse_object v bs = Some x -> parse_object v' bs = Some x.
Proof.
  unfold parse_object. destruct (skip_ws bs) as [|b t]; [done|]. destruct (bz 125 b); [done|].
  destruct (parse_members v _ bs) as [y|] eqn:E; [|done]. by rewrite (parse_members_mono _ _ _ E).
Qed.
End mono.

Lemma parse_value_mono n : forall m bs x, (n <= m)%nat -> parse_value n bs = Some x -> parse_value m bs = Some x.
Proof.
  induction n as [|n IH]; intros [|m] bs x Hm; try done; try lia; cbn [parse_value]; destruct (skip_ws bs) as [|b t]; try done.
  - destruct (bz 34 b); [done|]. destruct (bz 91 b); [done|]. by destruct (bz 123 b).
  - destruct (bz 34 b); [done|]. destruct (bz 91 b); [apply parse_array_mono; intros; apply IH; [lia|done]|].
    destruct (bz 123 b); [apply parse_object_mono; intros; apply IH; [lia|done]|done].
Qed.

(** A printed tree parses to itself, its strings made valid UTF-8, or is nested too deeply to be parsed. *)
Lemma json_parse_sound n j j' : json_fits n j = true -> json_parse (json_print j) = Some j' -> j' = json_coerce j.
Proof.
  intros Hj. unfold json_parse. destruct (parse_value _ _) as [[j1 r]|] eqn:E; [|done]. cbn [mbind option_bind].
  destruct (skip_ws r); [|done]. intros [= <-]. set (m := Nat.max n maxNestingDepth).
  apply (parse_value_mono _ m) in E; [|lia]. rewrite <- (app_nil_r (json_print j)), (parse_print m) in E; [by injection E| |done].
  apply (json_fits_mono n); [lia|done].
Qed.
