(* ===== verification/GoNumber.v ===== *)
(** * Numbers as text ([strconv]): decimal integers and [float64]

    [ParseFloat] on JSON number literals, correctly rounded, and the shortest decimal that reads back as a
    given [float64], in the two layouts [encoding/json] uses. *)

From S2P Require Import Prelude GoStrings GoStd JsonText.
#[local] Open Scope Z_scope.

#[export] Instance spec_float_eq_dec : EqDecision spec_float.
Proof. solve_decision. Defined.

(** ** [strconv.ParseFloat] on a number literal *)
Definition digits_value (ds : list byte) : Z := fold_left (fun v b => 10 * v + (byte_to_Z b - 48)) ds 0.

Definition exponent_value (ex : list byte) : Z :=
  match ex with
  | _ :: s :: ds => if bz 45 s then - digits_value ds else if bz 43 s then digits_value ds else digits_value (s :: ds)
  | _ => 0
  end.

(** The value of a literal as sign, digits and decimal exponent. *)
Definition literal_value (lit : string) : option (bool * Z * Z) :=
  let '(sg, r) := lex_sign (string_bytes lit) in
  '(ip, r) ← lex_int r;
  '(fr, r) ← lex_frac r;
  '(ex, r) ← lex_exp r;
  Some (bool_decide (sg <> []), digits_value (ip ++ drop 1 fr), exponent_value ex - len (drop 1 fr)).

(** [m * 10 ^ e] rounded to the nearest [float64]. *)
Definition f64_of_decimal (neg : bool) (m e : Z) : spec_float :=
  match m with
  | Zpos p =>
      if 0 <=? e then binary_normalize prec64 emax64 (if neg then - (m * 10 ^ e) else m * 10 ^ e) 0 neg
      else match 10 ^ (- e) with
           | Zpos d => f64_div (S754_finite neg p 0) (S754_finite false d 0)
           | _ => S754_nan
           end
  | _ => S754_zero neg
  end.

(** Values beyond the largest [float64] are a range error. *)
Definition ParseFloat (lit : string) : option spec_float :=
  '(neg, m, e) ← literal_value lit;
  match f64_of_decimal neg m e with
  | S754_infinity _ | S754_nan => None
  | f => Some f
  end.

(** ** The shortest decimal *)
Definition pow10 (k : Z) : Z := 10 ^ Z.max 0 k.

(** The number of digits before the decimal point of [num / den]. *)
Definition decimal_point (num den : Z) : Z :=
  let k0 := (Z.log2 num - Z.log2 den) * 30103 / 100000 in
  default k0 (List.find (fun k => num * pow10 (- k) <? den * pow10 k) [k0 - 1; k0; k0 + 1; k0 + 2; k0 + 3]).

(** The two integers next to [num / den * 10 ^ e], the nearer one first. *)
Definition neighbours (num den e : Z) : list Z :=
  let n := num * pow10 e in
  let d := den * pow10 (- e) in
  let q := n / d in
  let r := n mod d in
  if r =? 0 then [q]
  else if (2 * r <? d) || ((2 * r =? d) && Z.even q) then [q; q + 1] else [q + 1; q].

Definition digit_counts : list Z := [1; 2; 3; 4; 5; 6; 7; 8; 9; 10; 11; 12; 13; 14; 15; 16; 17].

(** The decimals [q * 10 ^ x] near a positive number, shortest first. *)
Definition candidates (m : positive) (e : Z) : list (Z * Z) :=
  let num := Zpos m * 2 ^ Z.max 0 e in
  let den := 2 ^ Z.max 0 (- e) in
  let k := decimal_point num den in
  flat_map (fun n => map (fun q => (q, k - n)) (neighbours num den (n - k))) digit_counts.

(** [%f] and [%e] of the digits [ds] with the decimal point after [dp] of them. *)
Definition zeros (n : Z) : string := String.concat EmptyString (repeat "0" (Z.to_nat n)).
Definition format_f (ds : string) (dp : Z) : string :=
  let nd := Z.of_nat (String.length ds) in
  if dp <=? 0 then "0." +:+ zeros (- dp) +:+ ds
  else if nd <=? dp then ds +:+ zeros (dp - nd)
  else String.substring 0 (Z.to_nat dp) ds +:+ "." +:+ String.substring (Z.to_nat dp) (Z.to_nat (nd - dp)) ds.
Definition format_e (ds : string) (dp : Z) : string :=
  let nd := Z.of_nat (String.length ds) in
  String.substring 0 1 ds +:+ (if nd =? 1 then EmptyString else "." +:+ String.substring 1 (Z.to_nat (nd - 1)) ds)
  +:+ "e" +:+ (if dp - 1 <? 0 then "-" else "+") +:+ Itoa (Z.abs (dp - 1)).

(** The encoder's layout: exponents outside [1e-6, 1e21). *)
Definition tiny : spec_float := f64_div (f64_of_Z 1) (f64_of_Z 1000000).
Definition huge : spec_float := f64_of_Z (10 ^ 21).
Definition layout (f : spec_float) (neg : bool) (c : Z * Z) : string :=
  let abs := match f with S754_finite _ m e => S754_finite false m e | f => f end in
  let ds := Itoa c.1 in
  let dp := Z.of_nat (String.length ds) + c.2 in
  (if neg then "-" else EmptyString)
  +:+ (if f64_lt abs tiny || f64_le huge abs then format_e ds dp else format_f ds dp).

Definition reads_back (f : spec_float) (lit : string) : bool := number_ok lit && bool_decide (ParseFloat lit = Some f).

(** The literal of a [float64]; [None] for the values JSON has no literal for.  Seventeen digits determine a [float64],
    so a finite value always has one. *)
Definition float_literal (f : spec_float) : option string :=
  match f with
  | S754_zero neg => Some (if neg then "-0" else "0")
  | S754_finite neg m e => List.find (reads_back f) (map (layout f neg) (candidates m e))
  | _ => None
  end.

Example float_literal_ex :
  map float_literal [S754_zero true; f64_of_Z 3; f64_div (f64_of_Z 1) (f64_of_Z 10); f64_div (f64_of_Z (-2)) (f64_of_Z 3);
    f64_of_Z (10 ^ 21); f64_div (f64_of_Z 1) (f64_of_Z 100000000); f64_of_Z 123456789012; f64_of_Z (2 ^ 1000);
    S754_finite false 1 (-1074)]
  = map Some ["-0"; "3"; "0.1"; "-0.6666666666666666"; "1e+21"; "1e-8"; "123456789012"; "1.0715086071862673e+301"; "5e-324"].
Proof. vm_compute. reflexivity. Qed.

(** ** Integers read back *)
Definition digit_byte (b : byte) : bool := isDigit b.

Lemma pretty_char_digit n : (n < 10)%N ->
  digit_value (pretty_N_char n) = Some (Z.of_N n)
  /\ isDigit (byte_of_ascii (pretty_N_char n)) = true
  /\ (n <> 0%N -> bz 48 (byte_of_ascii (pretty_N_char n)) = false).
Proof.
  intros Hn. destruct n as [|p]; [done|]. do 4 (try destruct p as [p|p|]); done || lia.
Qed.

Lemma decimal_pretty x : forall s, decimal 0 (pretty_N_go x s) = decimal (Z.of_N x) s.
Proof.
  induction (N.lt_wf_0 x) as [x _ IH]; intros s. destruct (decide (x = 0)%N) as [->|]; [done|].
  rewrite pretty_N_go_step by lia. rewrite IH by (apply N.div_lt; lia). cbn [decimal].
  destruct (pretty_char_digit (x `mod` 10)%N) as [-> _]; [apply N.mod_lt; lia|]. f_equal.
  pose proof (N.div_mod x 10 ltac:(lia)). lia.
Qed.

(** The digits of a positive number: no leading zero. *)
Definition plain_digits (l : list byte) : Prop :=
  exists d ds, l = d :: ds /\ bz 48 d = false /\ forallb isDigit l = true.

Lemma pretty_digits x : (0 < x)%N -> forall s, forallb isDigit (string_bytes s) = true -> plain_digits (string_bytes (pretty_N_go x s)).
Proof.
  induction (N.lt_wf_0 x) as [x _ IH]; intros Hx s Hs. rewrite pretty_N_go_step by lia.
  destruct (pretty_char_digit (x `mod` 10)%N) as (_ & Hd & Hz); [apply N.mod_lt; lia|].
  assert (forallb isDigit (string_bytes (String (pretty_N_char (x `mod` 10)) s)) = true) as Hs'.
  { change (isDigit (byte_of_ascii (pretty_N_char (x `mod` 10)%N)) && forallb isDigit (string_bytes s) = true). by rewrite Hd, Hs. }
  destruct (decide (x / 10 = 0)%N) as [E|E].
  - rewrite E, pretty_N_go_0. eexists _, _. split; [reflexivity|]. split; [|exact Hs'].
    apply Hz. pose proof (N.div_mod x 10 ltac:(lia)). lia.
  - apply IH; [apply N.div_lt; lia|by apply N.neq_0_lt_0|exact Hs'].
Qed.

Lemma Itoa_pos p : Itoa (Zpos p) = pretty_N_go (Npos p) EmptyString.
Proof. reflexivity. Qed.
Lemma Itoa_neg p : Itoa (Zneg p) = String "-" (pretty_N_go (Npos p) EmptyString).
Proof. reflexivity. Qed.

Lemma span_all l : forallb isDigit l = true -> span_digits l = (l, []).
Proof. induction l as [|b l IH]; cbn; [done|]. intros [-> Hl]%andb_true_iff. by rewrite IH. Qed.

Lemma lex_plain l : plain_digits l -> lex_int l = Some (l, []).
Proof.
  intros (d & ds & -> & Hd & Hl). unfold lex_int. rewrite Hd, span_all by done. done.
Qed.

Lemma plain_no_sign d ds : plain_digits (d :: ds) -> bz 45 d = false.
Proof. intros (d' & ds' & [= <- <-] & _ & Hl). cbn in Hl. unfold isDigit, bz in *. lia. Qed.

Lemma Itoa_number z : number_ok (Itoa z) = true.
Proof.
  apply bool_decide_eq_true. destruct z as [|p|p]; [reflexivity| |].
  - rewrite Itoa_pos. pose proof (pretty_digits (Npos p) ltac:(lia) EmptyString eq_refl) as Hp.
    unfold lex_number. destruct (string_bytes _) as [|d ds]; [by destruct Hp as (? & ? & ? & _)|]. cbn [lex_sign].
    rewrite (plain_no_sign d ds Hp), (lex_plain _ Hp). cbn. by rewrite app_nil_r.
  - rewrite Itoa_neg. pose proof (pretty_digits (Npos p) ltac:(lia) EmptyString eq_refl) as Hp.
    change (string_bytes (String "-" ?s)) with (byte_of_Z 45 :: string_bytes s). unfold lex_number. cbn [lex_sign].
    change (bz 45 (byte_of_Z 45)) with true. cbn iota. rewrite (lex_plain _ Hp). cbn. by rewrite app_nil_r.
Qed.

Lemma pretty_head p : exists c s, pretty_N_go (Npos p) EmptyString = String c s /\ Ascii.eqb c "-" = false /\ Ascii.eqb c "+" = false.
Proof.
  pose proof (pretty_digits (Npos p) ltac:(lia) EmptyString eq_refl) as (d & ds & E & _ & Hl).
  destruct (pretty_N_go (Npos p) EmptyString) as [|c s]; [done|]. exists c, s. split; [done|].
  change (string_bytes (String c s)) with (byte_of_ascii c :: string_bytes s) in E, Hl. cbn in Hl.
  apply andb_true_iff in Hl as [Hc _]. destruct c as [[] [] [] [] [] [] [] []]; done.
Qed.

Lemma Atoi_Itoa z : in_int z -> Atoi (Itoa z) = Ok z.
Proof.
  intros [H1 H2]. unfold Atoi. destruct z as [|p|p]; [done| |].
  - rewrite Itoa_pos. destruct (pretty_head p) as (c & s & E & Hm & Hp). pose proof (decimal_pretty (Npos p) EmptyString) as Hd.
    rewrite E in *. cbn [split_sign]. rewrite Hm, Hp. unfold parse_digits. rewrite Hd. cbn [decimal Z.of_N].
    by replace ((int_min <=? Zpos p) && (Zpos p <=? int_max)) with true by lia.
  - rewrite Itoa_neg. cbn [split_sign]. change (Ascii.eqb "-" "-") with true. cbn iota.
    destruct (pretty_head p) as (c & s & E & _). pose proof (decimal_pretty (Npos p) EmptyString) as Hd.
    unfold parse_digits. rewrite E in *. rewrite Hd. cbn [decimal Z.of_N]. change (- Zpos p) with (Zneg p).
    by rewrite (proj2 (Z.leb_le _ _) H1), (proj2 (Z.leb_le _ _) H2).
Qed.

(** ** Floats read back *)
Lemma float_literal_spec f lit : float_literal f = Some lit -> number_ok lit = true /\ ParseFloat lit = Some f.
Proof.
  destruct f as [[]|b| |b m e]; cbn [float_literal]; try done; [intros [= <-]; by vm_compute..|].
  intros [_ H]%List.find_some. apply andb_true_iff in H as [H1 H2]. by apply bool_decide_eq_true in H2.
Qed.

(** ** Integers as [float64]: an [int] is far from the largest value *)
Lemma shr_1_range r : 0 <= shr_m r -> 0 <= shr_m (shr_1 r) <= shr_m r.
Proof. destruct r as [m a b]. cbn. destruct m as [|[p|p|]|p]; cbn; lia. Qed.

Lemma iter_shr_range p : forall r, 0 <= shr_m r -> 0 <= shr_m (iter_pos shr_1 p r) <= shr_m r.
Proof.
  induction p as [p IH|p IH|]; intros r Hr; cbn [iter_pos].
  - pose proof (shr_1_range r Hr). pose proof (IH (shr_1 r) ltac:(lia)).
    pose proof (IH (iter_pos shr_1 p (shr_1 r)) ltac:(lia)). lia.
  - pose proof (IH r Hr). pose proof (IH (iter_pos shr_1 p r) ltac:(lia)). lia.
  - by apply shr_1_range.
Qed.

Lemma digits2_pos_bound p k : 0 < k -> Zpos p <= 2 ^ k -> Zpos (digits2_pos p) <= k + 1.
Proof.
  revert k. induction p as [p IH|p IH|]; intros k Hk Hp; cbn [digits2_pos]; try lia.
  - destruct (decide (k = 1)) as [->|]; [change (2 ^ 1) with 2 in Hp; lia|].
    enough (Zpos (digits2_pos p) <= (k - 1) + 1) by lia. apply IH; [lia|].
    replace k with (1 + (k - 1)) in Hp by lia. rewrite Z.pow_add_r in Hp by lia. lia.
  - destruct (decide (k = 1)) as [->|]; [change (2 ^ 1) with 2 in Hp; assert (p = 1)%positive as -> by lia; cbn; lia|].
    enough (Zpos (digits2_pos p) <= (k - 1) + 1) by lia. apply IH; [lia|].
    replace k with (1 + (k - 1)) in Hp by lia. rewrite Z.pow_add_r in Hp by lia. lia.
Qed.

Lemma shr_fexp_bound m e l m' e' : 0 <= m <= 2 ^ 65 -> e <= 100 -> shr_fexp prec64 emax64 m e l = (m', e') ->
  0 <= shr_m m' <= m /\ e' <= e + 13 \/ 0 <= shr_m m' <= m /\ e' <= 0.
Proof.
  intros Hm He. unfold shr_fexp, shr.
  assert (Hr : shr_m (shr_record_of_loc m l) = m) by (destruct l as [|[]]; done).
  assert (Hd : 0 <= Zdigits2 m <= 66).
  { destruct m as [|p|p]; cbn [Zdigits2]; [lia| |lia]. pose proof (digits2_pos_bound p 65 ltac:(lia) ltac:(lia)). lia. }
  destruct (fexp prec64 emax64 (Zdigits2 m + e) - e) as [|p|p] eqn:E; intros [= <- <-]; rewrite ?Hr; [lia| |lia].
  pose proof (iter_shr_range p (shr_record_of_loc m l) ltac:(lia)) as H. rewrite Hr in H.
  unfold fexp, prec64, emax64, SpecFloat.emin in E. lia.
Qed.

Lemma round_range m l : 0 <= m -> 0 <= round_nearest_even m l <= m + 1.
Proof. intros. destruct l as [|[]]; cbn; try lia. destruct (Z.even m); lia. Qed.


Lemma digits2_pos_lower p : 2 ^ (Zpos (digits2_pos p) - 1) <= Zpos p < 2 ^ Zpos (digits2_pos p).
Proof.
  induction p as [p IH|p IH|]; cbn [digits2_pos]; [| |done];
    rewrite Pos2Z.inj_succ, Z.pow_succ_r by lia; replace (Z.succ (Zpos (digits2_pos p)) - 1) with (Z.succ (Zpos (digits2_pos p) - 1)) by lia;
    rewrite Z.pow_succ_r by lia; lia.
Qed.

Lemma iter_xO d : forall p, Zpos (Pos.iter xO p d) = Zpos p * 2 ^ Zpos d.
Proof.
  induction d as [|d IH] using Pos.peano_ind; intros p; [cbn; lia|].
  rewrite Pos.iter_succ, Pos2Z.inj_succ, Z.pow_succ_r by lia. pose proof (IH p). lia.
Qed.

(** Aligning an [int] to 53 digits keeps it small. *)
Lemma shl_align_small p m e : Zpos p <= 2 ^ 63 ->
  shl_align p 0 (fexp prec64 emax64 (Zpos (digits2_pos p) + 0)) = (m, e) -> Zpos m <= 2 ^ 64 /\ e <= 0.
Proof.
  intros Hp. unfold shl_align. pose proof (digits2_pos_bound p 63 ltac:(lia) Hp). pose proof (digits2_pos_lower p) as [_ Hu].
  destruct (_ - 0) as [|d|d] eqn:E; intros [= <- <-]; [lia..|]. split.
  - rewrite iter_xO. unfold fexp, prec64, emax64, SpecFloat.emin in E. assert (Zpos d <= 53 - Zpos (digits2_pos p)) by lia.
    transitivity (2 ^ (Zpos (digits2_pos p) + Zpos d)); [rewrite Z.pow_add_r by lia; nia|]. apply Z.pow_le_mono_r; lia.
  - unfold fexp, prec64, emax64, SpecFloat.emin in *. lia.
Qed.

Definition finite (f : spec_float) : bool :=
  match f with S754_zero _ | S754_finite _ _ _ => true | _ => false end.

Lemma binary_round_finite sx p : Zpos p <= 2 ^ 63 -> finite (binary_round prec64 emax64 sx p 0) = true.
Proof.
  intros Hp. unfold binary_round. destruct (shl_align _ _ _) as [m e] eqn:E. apply shl_align_small in E as [Hm He]; [|done].
  unfold binary_round_aux. destruct (shr_fexp _ _ _ e _) as [m1 e1] eqn:E1. apply shr_fexp_bound in E1; [|lia..].
  pose proof (round_range (shr_m m1) (loc_of_shr_record m1) ltac:(lia)).
  destruct (shr_fexp _ _ _ e1 _) as [m2 e2] eqn:E2. apply shr_fexp_bound in E2; [|lia..].
  destruct (shr_m m2) as [|q|q]; [done| |lia]. unfold prec64, emax64. by replace (e2 <=? 1024 - 53) with true by lia.
Qed.

Lemma f64_of_int_finite z : in_int z -> finite (f64_of_Z z) = true.
Proof.
  unfold in_int, int_min, int_max. intros Hz. unfold f64_of_Z. destruct z as [|p|p]; [done|apply binary_round_finite..]; lia.
Qed.

Lemma decimal_digits s : forall acc v, decimal acc s = Some v ->
  fold_left (fun v b => 10 * v + (byte_to_Z b - 48)) (string_bytes s) acc = v.
Proof.
  induction s as [|c s IH]; intros acc v; cbn [decimal]; [by intros [= <-]|].
  destruct (digit_value c) as [d|] eqn:Ed; [|done]. intros Hv. rewrite <- (IH _ _ Hv).
  change (string_bytes (String c s)) with (byte_of_ascii c :: string_bytes s). cbn [fold_left]. f_equal.
  enough (byte_to_Z (byte_of_ascii c) - 48 = d) by lia.
  destruct c as [[] [] [] [] [] [] [] []]; vm_compute in Ed; congruence || by injection Ed as <-.
Qed.

Lemma pretty_value p : digits_value (string_bytes (pretty_N_go (Npos p) EmptyString)) = Zpos p.
Proof. apply decimal_digits, decimal_pretty. Qed.

Lemma literal_value_Itoa z : literal_value (Itoa z) = Some (z <? 0, Z.abs z, 0).
Proof.
  unfold literal_value. destruct z as [|p|p]; [reflexivity| |].
  - rewrite Itoa_pos. pose proof (pretty_digits (Npos p) ltac:(lia) EmptyString eq_refl) as Hp. pose proof (pretty_value p) as Hv.
    destruct (string_bytes _) as [|d ds]; [by destruct Hp as (? & ? & ? & _)|]. cbn [lex_sign].
    rewrite (plain_no_sign d ds Hp), (lex_plain _ Hp). cbn [lex_frac lex_exp mbind option_bind drop app]. by rewrite app_nil_r, Hv.
  - rewrite Itoa_neg. pose proof (pretty_digits (Npos p) ltac:(lia) EmptyString eq_refl) as Hp.
    change (string_bytes (String "-" ?s)) with (byte_of_Z 45 :: string_bytes s). cbn [lex_sign].
    change (bz 45 (byte_of_Z 45)) with true. cbn iota. rewrite (lex_plain _ Hp). cbn [lex_frac lex_exp mbind option_bind drop app].
    by rewrite app_nil_r, pretty_value.
Qed.

Lemma ParseFloat_Itoa z : in_int z -> ParseFloat (Itoa z) = Some (f64_of_Z z).
Proof.
  intros Hz. pose proof (f64_of_int_finite z Hz) as Hf. unfold ParseFloat. rewrite literal_value_Itoa. cbn [mbind option_bind].
  assert (f64_of_decimal (z <? 0) (Z.abs z) 0 = f64_of_Z z) as ->.
  { destruct z as [|p|p]; [done|..]; unfold f64_of_decimal, f64_of_Z; cbn [Z.abs Z.ltb Z.compare Z.leb];
      change (10 ^ 0) with 1; by rewrite Z.mul_1_r. }
  by destruct (f64_of_Z z).
Qed.

(** ** Literals into Go's number types *)

(** [strconv.ParseInt(lit, 10, 64)] on a literal. *)
Definition ParseInt (lit : string) : option Z := match Atoi lit with Ok z => Some z | _ => None end.

Lemma ParseInt_Itoa z : in_int z -> ParseInt (Itoa z) = Some z.
Proof. intros Hz. unfold ParseInt. by rewrite Atoi_Itoa. Qed.
