(* ===== verification/GoUrl.v ===== *)
(** * [net/url]: parsing a URL, and the text of a path

    [url.Parse] of Go 1.25.0 as far as the program reads its result; [None] stands for every
    error.  Escaping a path and parsing it gives the path back. *)

From S2P Require Import Prelude GoStrings GoStd.
#[local] Open Scope Z_scope.

Definition acode (c : ascii) : Z := Z.of_N (N_of_ascii c).
Definition is_alpha (c : ascii) : bool :=
  let n := acode c in ((97 <=? n) && (n <=? 122)) || ((65 <=? n) && (n <=? 90)).
Definition is_alnum (c : ascii) : bool := is_alpha c || is_digit c.
Definition one_of (l : string) (c : ascii) : bool := has_byte c l.

Fixpoint all_bytes (p : ascii -> bool) (s : string) : bool :=
  match s with EmptyString => true | String c s => p c && all_bytes p s end.

(** [shouldEscape] for the host and zone modes. *)
Definition host_byte (c : ascii) : bool :=
  is_alnum c || one_of ("!$&'()*+,;=:[]<>" +:+ dquote) c || one_of "-_.~" c.

Inductive escape_mode := EncodeOther | EncodeHost | EncodeZone.

(** [unescape]: [%] escapes, with the restrictions of the host and zone modes. *)
Fixpoint url_unescape (mode : escape_mode) (s : string) : option string :=
  match s with
  | EmptyString => Some EmptyString
  | String c s1 =>
      if Ascii.eqb c "%" then
        match s1 with
        | String h1 (String h2 s2) =>
            match unhex h1, unhex h2 with
            | Some a, Some b =>
                let v := 16 * a + b in
                let is25 := Ascii.eqb h1 "2" && Ascii.eqb h2 "5" in
                let bad :=
                  match mode with
                  | EncodeOther => false
                  | EncodeHost => (a <? 8) && negb is25
                  | EncodeZone => negb is25 && negb (v =? 32) && negb (host_byte (ascii_of_byte (byte_of_Z v)))
                  end in
                if bad then None else String (ascii_of_byte (byte_of_Z v)) <$> url_unescape mode s2
            | _, _ => None
            end
        | _ => None
        end
      else
        match mode with
        | EncodeOther => String c <$> url_unescape mode s1
        | _ => if (acode c <? 128) && negb (host_byte c) then None else String c <$> url_unescape mode s1
        end
  end.

(** [getScheme]: the scheme and the rest. *)
Fixpoint scheme_loop (first : bool) (s : string) : option (option nat) :=
  match s with
  | EmptyString => Some None
  | String c s =>
      if is_alpha c then (fun r => option_map S r) <$> scheme_loop false s
      else if is_digit c || one_of "+-." c then
        if first then Some None else (fun r => option_map S r) <$> scheme_loop false s
      else if Ascii.eqb c ":" then (if first then None else Some (Some 0%nat))
      else Some None
  end.

Definition getScheme (rawURL : string) : option (string * string) :=
  r ← scheme_loop true rawURL;
  match r with
  | Some i => Some (stake i rawURL, sdrop (S i) rawURL)
  | None => Some (EmptyString, rawURL)
  end.

Definition validOptionalPort (port : string) : bool :=
  match port with
  | EmptyString => true
  | String c port => Ascii.eqb c ":" && all_bytes is_digit port
  end.

(** The first index of a three-byte escape. *)
Fixpoint index_zone (s : string) : option nat :=
  if HasPrefix s "%25" then Some 0%nat
  else match s with EmptyString => None | String _ s => S <$> index_zone s end.

Definition parseHost (host : string) : option string :=
  if HasPrefix host "[" then
    match LastIndexByte "]" host with
    | None => None
    | Some i =>
        if negb (validOptionalPort (sdrop (S i) host)) then None
        else
          match index_zone (stake i host) with
          | Some zone =>
              host1 ← url_unescape EncodeHost (stake zone host);
              host2 ← url_unescape EncodeZone (sdrop zone (stake i host));
              host3 ← url_unescape EncodeHost (sdrop i host);
              Some (host1 +:+ host2 +:+ host3)
          | None => url_unescape EncodeHost host
          end
    end
  else
    match LastIndexByte ":" host with
    | Some i => if negb (validOptionalPort (sdrop i host)) then None else url_unescape EncodeHost host
    | None => url_unescape EncodeHost host
    end.

Definition validUserinfo (s : string) : bool :=
  all_bytes (fun c => is_alnum c || one_of "-._:~!$&'()*+,;=%@" c) s.

Definition parseAuthority (authority : string) : option string :=
  match LastIndexByte "@" authority with
  | None => parseHost authority
  | Some i =>
      host ← parseHost (sdrop (S i) authority);
      let userinfo := stake i authority in
      if negb (validUserinfo userinfo) then None
      else
        match Cut ":" userinfo with
        | None => _ ← url_unescape EncodeOther userinfo; Some host
        | Some (u, p) => _ ← url_unescape EncodeOther u; _ ← url_unescape EncodeOther p; Some host
        end
  end.

Definition ctl_byte (c : ascii) : bool := (acode c <? 32) || (acode c =? 127).

(** [strings.Count] of a byte. *)
Fixpoint count_byte (c : ascii) (s : string) : nat :=
  match s with EmptyString => 0 | String d s => (if Ascii.eqb c d then 1 else 0) + count_byte c s end.

(** The fields of the result the program reads. *)
Record parsed_url := MkParsed { pu_scheme : string; pu_host : string; pu_path : string; pu_query : string }.

(** [url.parse] without a fragment; a URL with an opaque part has no host and no path. *)
Definition parse_no_fragment (rawURL : string) : option parsed_url :=
  if negb (all_bytes (fun c => negb (ctl_byte c)) rawURL) then None
  else if String.eqb rawURL "*" then Some (MkParsed EmptyString EmptyString "*" EmptyString)
  else
    '(scheme, rest) ← getScheme rawURL;
    let scheme := ToLower scheme in
    let '(rest, query) :=
      if HasSuffix rest "?" && (count_byte "?" rest =? 1)%nat then (stake (String.length rest - 1) rest, EmptyString)
      else match Cut "?" rest with Some p => p | None => (rest, EmptyString) end in
    let has_scheme := negb (String.eqb scheme EmptyString) in
    if negb (HasPrefix rest "/") && has_scheme then Some (MkParsed scheme EmptyString EmptyString query)
    else if negb (HasPrefix rest "/")
            && has_byte ":" (match Cut "/" rest with Some (seg, _) => seg | None => rest end) then None
    else
      '(host, path) ←
        (if (has_scheme || negb (HasPrefix rest "///")) && HasPrefix rest "//" then
           let authority := sdrop 2 rest in
           let '(authority, path) :=
             match IndexByte "/" authority with
             | Some i => (stake i authority, sdrop i authority)
             | None => (authority, EmptyString)
             end in
           host ← parseAuthority authority; Some (host, path)
         else Some (EmptyString, rest));
      path ← url_unescape EncodeOther path;
      Some (MkParsed scheme host path query).

(** [url.Parse(rawURL)] *)
Definition url_Parse (rawURL : string) : option parsed_url :=
  let '(u, frag) := match Cut "#" rawURL with Some p => p | None => (rawURL, EmptyString) end in
  r ← parse_no_fragment u;
  if String.eqb frag EmptyString then Some r
  else _ ← url_unescape EncodeOther frag; Some r.

Definition url_Parse_Host (rawURL : string) : option string := pu_host <$> url_Parse rawURL.

(** ** [URL.String] of a URL that has only a path *)
Definition path_byte (c : ascii) : bool := is_alnum c || one_of "-_.~$&+,/:;=@" c.
Definition upper_hex (z : Z) : ascii := ascii_of_byte (byte_of_Z (if z <? 10 then 48 + z else 55 + z)).

(** [escape(s, encodePath)] *)
Fixpoint escape_path (s : string) : string :=
  match s with
  | EmptyString => EmptyString
  | String c s =>
      if path_byte c then String c (escape_path s)
      else String "%" (String (upper_hex (acode c / 16)) (String (upper_hex (acode c mod 16)) (escape_path s)))
  end.

Definition EscapedPath (path : string) : string := if String.eqb path "*" then "*" else escape_path path.

(** A first segment with a colon is kept from being read as a scheme. *)
Definition path_String (path : string) : string :=
  let p := EscapedPath path in
  if has_byte ":" (match Cut "/" p with Some (seg, _) => seg | None => p end) then "./" +:+ p else p.

Example url_Parse_Host_ex :
  map url_Parse_Host
    ["https://www.google.com:8080/search?q=a#f"; "//u:p@h/x"; "mailto:a@b"; "a:b"; ":x"; "http://[::1%25en0]:80/";
     "http://a b/"; "http://x/%zz"; "www.google.com/"; "1a:b"; "http://h:8x/"; "https://google.de"]
  = [Some "www.google.com:8080"; Some "h"; Some EmptyString; Some EmptyString; None; Some "[::1%en0]:80";
     None; None; Some EmptyString; None; None; Some "google.de"].
Proof. vm_compute. reflexivity. Qed.
Example url_Parse_ex :
  map url_Parse ["HTTP://up.example:80/base%20x?q=1#f"; path_String "/a b?c#d"; path_String "//admin/x"; path_String "a:b/c"]
  = [Some (MkParsed "http" "up.example:80" "/base x" "q=1"); Some (MkParsed "" "" "/a b?c#d" "");
     Some (MkParsed "" "admin" "/x" ""); Some (MkParsed "" "" "./a:b/c" "")].
Proof. vm_compute. reflexivity. Qed.

(** ** The text of a rooted path parses back to the path *)
Lemma upper_hex_unhex z : 0 <= z < 16 -> unhex (upper_hex z) = Some z.
Proof.
  intros Hz. assert (z ∈ seqZ 0 16) as Hin by (apply elem_of_seqZ; lia). vm_compute in Hin.
  repeat (apply elem_of_cons in Hin as [->|Hin]; [reflexivity|]). by apply elem_of_nil in Hin.
Qed.

Lemma acode_range c : 0 <= acode c < 256.
Proof. unfold acode. pose proof (N_ascii_bounded c). lia. Qed.

Lemma acode_byte c : ascii_of_byte (byte_of_Z (acode c)) = c.
Proof. destruct c as [[] [] [] [] [] [] [] []]; reflexivity. Qed.

Lemma code_nibbles c : 0 <= acode c / 16 < 16 /\ 0 <= acode c mod 16 < 16 /\ 16 * (acode c / 16) + acode c mod 16 = acode c.
Proof.
  pose proof (acode_range c). split; [split; [apply Z.div_pos|apply Z.div_lt_upper_bound]; lia|].
  split; [apply Z.mod_pos_bound; lia|]. symmetry. apply Z.div_mod. lia.
Qed.

Lemma path_byte_not_percent c : path_byte c = true -> Ascii.eqb c "%" = false.
Proof. destruct c as [[] [] [] [] [] [] [] []]; vm_compute; intros H; (discriminate H || auto). Qed.

Lemma unescape_escape_path s : url_unescape EncodeOther (escape_path s) = Some s.
Proof.
  induction s as [|c s IH]; [done|]. cbn [escape_path]. destruct (path_byte c) eqn:E.
  - apply path_byte_not_percent in E. cbn [url_unescape]. by rewrite E, IH.
  - destruct (code_nibbles c) as (H1 & H2 & H3). cbn [url_unescape Ascii.eqb Bool.eqb andb].
    rewrite !upper_hex_unhex, H3, acode_byte, IH by done. reflexivity.
Qed.

(** The bytes of an escaped path: none that ends a path or is a control byte. *)
Definition escaped_byte (c : ascii) : bool :=
  negb (ctl_byte c) && negb (Ascii.eqb "?" c) && negb (Ascii.eqb "#" c).

Lemma path_byte_escaped c : path_byte c = true -> escaped_byte c = true.
Proof. destruct c as [[] [] [] [] [] [] [] []]; vm_compute; intros H; (discriminate H || auto). Qed.

Lemma upper_hex_escaped z : 0 <= z < 16 -> escaped_byte (upper_hex z) = true.
Proof.
  intros Hz. assert (z ∈ seqZ 0 16) as Hin by (apply elem_of_seqZ; lia). vm_compute in Hin.
  repeat (apply elem_of_cons in Hin as [->|Hin]; [reflexivity|]). by apply elem_of_nil in Hin.
Qed.

Lemma escape_path_bytes s : all_bytes escaped_byte (escape_path s) = true.
Proof.
  induction s as [|c s IH]; [done|]. cbn [escape_path]. destruct (path_byte c) eqn:E; cbn [all_bytes].
  - by rewrite path_byte_escaped, IH.
  - destruct (code_nibbles c) as (H1 & H2 & _). by rewrite !upper_hex_escaped, IH.
Qed.

Lemma escaped_no_byte c s : escaped_byte c = false -> all_bytes escaped_byte s = true -> no_byte c s.
Proof.
  intros Hc. induction s as [|d s IH]; [done|]. cbn [all_bytes no_byte]. intros [Hd Hs]%andb_true_iff.
  destruct (Ascii.eqb_spec c d) as [->|]; [by rewrite Hc in Hd|]. by apply IH.
Qed.

Lemma escaped_no_ctl s : all_bytes escaped_byte s = true -> all_bytes (fun c => negb (ctl_byte c)) s = true.
Proof.
  induction s as [|d s IH]; [done|]. cbn [all_bytes]. unfold escaped_byte at 1. rewrite !andb_true_iff.
  intros [[[Hd _] _] Hs]. auto.
Qed.

Lemma Cut_absent c s : no_byte c s -> Cut c s = None.
Proof.
  induction s as [|d s IH]; [done|]. cbn. intros [H1 H2]%andb_prop_elim.
  rewrite Ascii.eqb_sym. destruct (Ascii.eqb c d); [done|]. by rewrite IH.
Qed.

Lemma count_absent c s : no_byte c s -> count_byte c s = 0%nat.
Proof.
  induction s as [|d s IH]; [done|]. cbn. intros [H1 H2]%andb_prop_elim. destruct (Ascii.eqb c d); [done|]. by apply IH.
Qed.

Lemma url_Parse_rooted s :
  HasPrefix s "/" = false ->
  url_Parse (path_String (String "/" s)) = Some (MkParsed EmptyString EmptyString (String "/" s) EmptyString).
Proof.
  intros Hp.
  assert (path_String (String "/" s) = String "/" (escape_path s)) as -> by reflexivity.
  pose proof (escape_path_bytes s) as Hb.
  assert (no_byte "?" (String "/" (escape_path s)) /\ no_byte "#" (String "/" (escape_path s))) as [Hq Hf]
    by (split; (apply escaped_no_byte; [reflexivity|exact Hb])).
  unfold url_Parse. rewrite (Cut_absent "#") by done. unfold parse_no_fragment.
  replace (all_bytes (fun c => negb (ctl_byte c)) (String "/" (escape_path s))) with true
    by (symmetry; apply escaped_no_ctl, Hb).
  cbn [negb]. change (String.eqb (String "/" (escape_path s)) "*") with false. cbn iota.
  change (getScheme (String "/" (escape_path s))) with (Some (EmptyString, String "/" (escape_path s))).
  cbn [mbind option_bind]. rewrite (count_absent "?"), andb_false_r, (Cut_absent "?") by done.
  change (ToLower EmptyString) with EmptyString. cbn [String.eqb negb andb].
  replace (HasPrefix (String "/" (escape_path s)) "/") with true by (symmetry; apply (HasPrefix_append "/")).
  cbn [negb andb orb].
  assert (HasPrefix (String "/" (escape_path s)) "//" = false) as ->.
  { destruct (HasPrefix (String "/" (escape_path s)) "//") eqn:E; [|done]. exfalso.
    apply HasPrefix_iff in E as [t E]. rewrite !append_cons in E. injection E as E. destruct s as [|c s]; [done|].
    cbn [escape_path] in E. destruct (path_byte c); [injection E as -> _|discriminate E].
    change (HasPrefix ("/" +:+ s) "/" = false) in Hp. by rewrite HasPrefix_append in Hp. }
  rewrite andb_false_r. cbn [mbind option_bind].
  change (url_unescape EncodeOther (String "/" (escape_path s))) with (String "/" <$> url_unescape EncodeOther (escape_path s)).
  rewrite unescape_escape_path. reflexivity.
Qed.
