(* ===== verification/GoNet.v ===== *)
(** * Go's [net] and [net/netip]: textual addresses and prefixes

    [ParseAddr], [ParsePrefix], [net.ParseIP], [IP.String] and the address classes.  The main result is that
    the text of a 16-byte address parses back to it, so that the text identifies the address. *)

From S2P Require Import Prelude GoStrings GoStd GoUrl.
#[local] Open Scope Z_scope.

(** ** [netip.Addr]: an IPv4 address of 4 bytes, or an IPv6 address of 16 bytes with a zone *)
Inductive Addr := Addr4 (b : list byte) | Addr6 (b : list byte) (zone : string).

(** [net.IP]: a slice of 4 or 16 bytes; the nil slice is the empty list. *)
Definition IP : Type := list byte.

Definition v4InV6Prefix : list byte := replicate 10 x00 ++ [xff; xff].

Definition As16 (a : Addr) : list byte :=
  match a with Addr4 b => v4InV6Prefix ++ b | Addr6 b _ => b end.

Definition AddrFromSlice (b : IP) : option Addr :=
  if len b =? 4 then Some (Addr4 b) else if len b =? 16 then Some (Addr6 b EmptyString) else None.

Definition is_4in6 (b : list byte) : bool := bool_decide (take 12 b = v4InV6Prefix).

Definition Unmap (a : Addr) : Addr :=
  match a with Addr6 b z => if is_4in6 b then Addr4 (drop 12 b) else a | _ => a end.

(** ** Parsing *)

(** [parseIPv4Fields]: [fields] are the octets read so far, [val] and [digLen] those of the current one.
    At the start and after a dot [digLen] is zero. *)
Fixpoint ipv4_fields (fields : list byte) (val : Z) (digLen : nat) (s : string) : option (list byte) :=
  match s with
  | EmptyString => if (length fields <? 3)%nat then None else Some (fields ++ [byte_of_Z val])
  | String c s' =>
      match digit_value c with
      | Some d =>
          if (digLen =? 1)%nat && (val =? 0) then None
          else
            let val := val * 10 + d in
            if 255 <? val then None else ipv4_fields fields val (S digLen) s'
      | None =>
          if Ascii.eqb c "." then
            if (digLen =? 0)%nat || String.eqb s' EmptyString then None
            else if (length fields =? 3)%nat then None
            else ipv4_fields (fields ++ [byte_of_Z val]) 0 0 s'
          else None
      end
  end.
Definition parseIPv4Fields (s : string) : option (list byte) := ipv4_fields [] 0 0 s.

(** The hexadecimal digits of one group: their value, how many there are and the rest. *)
Fixpoint hex_field (off : nat) (acc : Z) (s : string) : option (Z * nat * string) :=
  match s with
  | EmptyString => Some (acc, off, s)
  | String c s' =>
      match unhex c with
      | None => Some (acc, off, s)
      | Some d =>
          let acc := acc * 16 + d in
          if (3 <? off)%nat then None else if 65535 <? acc then None else hex_field (S off) acc s'
      end
  end.

(** The loop over the groups; [n] groups are left to fill, [ip] holds the bytes filled so far
    and [ellipsis] the position of the double colon.  The result has the rest of the text. *)
Fixpoint ipv6_loop (n : nat) (ip : list byte) (ellipsis : option nat) (s : string)
    : option (list byte * option nat * string) :=
  match n with
  | O => Some (ip, ellipsis, s)
  | S n =>
      '(acc, off, rest) ← hex_field 0 0 s;
      if (off =? 0)%nat then None
      else
        match rest with
        | EmptyString => Some (ip ++ [byte_of_Z (Z.shiftr acc 8); byte_of_Z acc], ellipsis, rest)
        | String c rest' =>
            if Ascii.eqb c "." then
              if (match ellipsis with None => true | Some _ => false end) && negb (length ip =? 12)%nat then None
              else if (16 <? length ip + 4)%nat then None
              else b ← parseIPv4Fields s; Some (ip ++ b, ellipsis, EmptyString)
            else
              let ip := ip ++ [byte_of_Z (Z.shiftr acc 8); byte_of_Z acc] in
              if negb (Ascii.eqb c ":") then None
              else
                match rest' with
                | EmptyString => None
                | String d rest'' =>
                    if Ascii.eqb d ":" then
                      match ellipsis with
                      | Some _ => None
                      | None =>
                          match rest'' with
                          | EmptyString => Some (ip, Some (length ip), EmptyString)
                          | _ => ipv6_loop n ip (Some (length ip)) rest''
                          end
                      end
                    else ipv6_loop n ip ellipsis rest'
                end
        end
  end.

(** The end of [parseIPv6]: the whole text is used, and the double colon stands for at least one group. *)
Definition ipv6_expand (r : list byte * option nat * string) : option (list byte) :=
  let '(ip, ellipsis, s) := r in
  if negb (String.eqb s EmptyString) then None
  else
    match ellipsis with
    | Some e => if (length ip <? 16)%nat then Some (take e ip ++ replicate (16 - length ip) x00 ++ drop e ip) else None
    | None => if (length ip <? 16)%nat then None else Some ip
    end.

Definition ipv6_text (s : string) : option (list byte) :=
  if HasPrefix s "::" then
    let s := sdrop 2 s in
    if String.eqb s EmptyString then Some (replicate 16 x00)
    else r ← ipv6_loop 8 [] (Some 0%nat) s; ipv6_expand r
  else r ← ipv6_loop 8 [] None s; ipv6_expand r.

Definition parseIPv6 (s : string) : option Addr :=
  match Cut "%" s with
  | Some (s, zone) =>
      if String.eqb zone EmptyString then None else b ← ipv6_text s; Some (Addr6 b zone)
  | None => b ← ipv6_text s; Some (Addr6 b EmptyString)
  end.

(** [ParseAddr] picks the family by the first of the three characters. *)
Fixpoint addr_kind (s : string) : option ascii :=
  match s with
  | EmptyString => None
  | String c s => if existsb (Ascii.eqb c) ["."; ":"; "%"]%char then Some c else addr_kind s
  end.

Definition ParseAddr (s : string) : option Addr :=
  match addr_kind s with
  | Some c =>
      if Ascii.eqb c "." then Addr4 <$> parseIPv4Fields s
      else if Ascii.eqb c ":" then parseIPv6 s
      else None
  | None => None
  end.

(** [net.ParseIP]: 16 bytes, or nil where the text is not an address or has a zone. *)
Definition ParseIP (s : string) : IP :=
  match ParseAddr s with
  | Some (Addr6 b z) => if String.eqb z EmptyString then b else []
  | Some a => As16 a
  | None => []
  end.

(** ** Printing *)
Definition string4 (b : list byte) : string := Join (map (fun x => Itoa (byte_to_Z x)) b) ".".

(** The 16-bit groups of an IPv6 address. *)
Fixpoint v6u16 (b : list byte) : list Z :=
  match b with
  | hi :: lo :: b => byte_to_Z hi * 256 + byte_to_Z lo :: v6u16 b
  | _ => []
  end.

Definition appendHex (x : Z) : string :=
  (if 4096 <=? x then String (hex_digit (x / 4096)) EmptyString else EmptyString)
  +:+ (if 256 <=? x then String (hex_digit (x / 256 mod 16)) EmptyString else EmptyString)
  +:+ (if 16 <=? x then String (hex_digit (x / 16 mod 16)) EmptyString else EmptyString)
  +:+ String (hex_digit (x mod 16)) EmptyString.

(** The number of leading zero groups. *)
Fixpoint zeros (gs : list Z) : nat :=
  match gs with g :: gs => if g =? 0 then S (zeros gs) else 0 | [] => 0 end.

(** The first longest run of at least two zero groups, as its start and end. *)
Definition zero_run (gs : list Z) : option (nat * nat) :=
  fold_left (fun best i =>
      let l := zeros (drop i gs) in
      let cur := match best with Some (s, e) => e - s | None => 0 end%nat in
      if (2 <=? l)%nat && (cur <? l)%nat then Some (i, i + l)%nat else best)
    (List.seq 0 8) None.

Definition string6 (b : list byte) : string :=
  let gs := v6u16 b in
  match zero_run gs with
  | None => Join (map appendHex gs) ":"
  | Some (zs, ze) => Join (map appendHex (take zs gs)) ":" +:+ "::" +:+ Join (map appendHex (drop ze gs)) ":"
  end.

(** [To4]: the 4 bytes of an IPv4 address in either form. *)
Definition To4 (ip : IP) : option (list byte) :=
  if len ip =? 4 then Some ip
  else if (len ip =? 16) && is_4in6 ip then Some (drop 12 ip)
  else None.

Definition IP_String (ip : IP) : string :=
  if len ip =? 0 then "<nil>"
  else if negb (len ip =? 4) && negb (len ip =? 16) then "?" +:+ hex ip
  else match To4 ip with Some b => string4 b | None => string6 ip end.

(** ** Classes of addresses *)
Definition byte_at (b : list byte) (i : nat) : Z := byte_to_Z (default x00 (b !! i)).

Definition IPv6loopback : list byte := replicate 15 x00 ++ [x01].

(** [ip.Equal(IPv6loopback)] for an address that is not IPv4. *)
Definition IsLoopback (ip : IP) : bool :=
  match To4 ip with
  | Some b => byte_at b 0 =? 127
  | None => bool_decide (ip = IPv6loopback)
  end.

Definition IsPrivate (ip : IP) : bool :=
  match To4 ip with
  | Some b =>
      (byte_at b 0 =? 10) || ((byte_at b 0 =? 172) && (Z.land (byte_at b 1) 240 =? 16))
      || ((byte_at b 0 =? 192) && (byte_at b 1 =? 168))
  | None => (len ip =? 16) && (Z.land (byte_at ip 0) 254 =? 252)
  end.

Definition IsLinkLocalUnicast (ip : IP) : bool :=
  match To4 ip with
  | Some b => (byte_at b 0 =? 169) && (byte_at b 1 =? 254)
  | None => (len ip =? 16) && (byte_at ip 0 =? 254) && (Z.land (byte_at ip 1) 192 =? 128)
  end.

(** ** Prefixes *)
Record Prefix := MkPrefix { pfx_addr : Addr; pfx_bits : Z }.

(** Address bytes as one big-endian number. *)
Definition addr_bits (a : Addr) : Z :=
  fold_left (fun acc b => acc * 256 + byte_to_Z b) (match a with Addr4 b | Addr6 b _ => b end) 0.
Definition BitLen (a : Addr) : Z := match a with Addr4 _ => 32 | Addr6 _ _ => 128 end.
Definition hasZone (a : Addr) : bool := match a with Addr6 _ z => negb (String.eqb z EmptyString) | _ => false end.

Definition ParsePrefix (s : string) : option Prefix :=
  i ← LastIndexByte "/" s;
  ip ← ParseAddr (stake i s);
  if hasZone ip then None
  else
    let bitsStr := sdrop (S i) s in
    if match bitsStr with
       | String c (String _ _) => negb ((49 <=? Z.of_N (N_of_ascii c)) && (Z.of_N (N_of_ascii c) <=? 57))
       | _ => false
       end
    then None
    else
      match Atoi bitsStr with
      | Ok bits => if (bits <? 0) || (BitLen ip <? bits) then None else Some (MkPrefix ip bits)
      | _ => None
      end.

(** [n] bytes of a big-endian number. *)
Fixpoint be_bytes (n : nat) (z : Z) : list byte :=
  match n with O => [] | S n => be_bytes n (z / 256) ++ [byte_of_Z z] end.

(** [Masked] clears the host bits. *)
Definition Masked (p : Prefix) : Prefix :=
  let k := BitLen (pfx_addr p) - pfx_bits p in
  let z := Z.shiftl (Z.shiftr (addr_bits (pfx_addr p)) k) k in
  MkPrefix (match pfx_addr p with Addr4 _ => Addr4 (be_bytes 4 z) | Addr6 _ _ => Addr6 (be_bytes 16 z) EmptyString end)
    (pfx_bits p).

Definition prefix_Contains (p : Prefix) (a : Addr) : bool :=
  negb (hasZone a) && (BitLen (pfx_addr p) =? BitLen a)
  && (Z.shiftr (Z.lxor (addr_bits a) (addr_bits (pfx_addr p))) (BitLen a - pfx_bits p) =? 0).

Example ParseIP_ex1 : IP_String (ParseIP "2001:DB8:0:0:1:0:0:1") = "2001:db8::1:0:0:1".
Proof. vm_compute. reflexivity. Qed.
Example ParseIP_ex2 : IP_String (ParseIP "::ffff:192.0.2.1") = "192.0.2.1".
Proof. vm_compute. reflexivity. Qed.
Example ParseIP_ex3 : map ParseIP ["1.2.3"; "1.2.3.04"; "1.2.3.256"; "fe80::1%eth0"; "::1::"; "12345::"; ":"; "1:2:3:4:5:6:7:8:9"] = replicate 8 [].
Proof. vm_compute. reflexivity. Qed.
Example ParseIP_ex4 : map (fun s => IP_String (ParseIP s)) ["::"; "::1"; "1::"; "1:0:2:0:0:3:4:5"; "64:ff9b::1.2.3.4"]
  = ["::"; "::1"; "1::"; "1:0:2::3:4:5"; "64:ff9b::102:304"].
Proof. vm_compute. reflexivity. Qed.

(** ** The text of an address parses back *)

(** Reading the digits of one octet. *)
Fixpoint octet_run (val : Z) (digLen : nat) (s : string) : option (Z * nat) :=
  match s with
  | EmptyString => Some (val, digLen)
  | String c s =>
      d ← digit_value c;
      if (digLen =? 1)%nat && (val =? 0) then None
      else if 255 <? val * 10 + d then None else octet_run (val * 10 + d) (S digLen) s
  end.

Lemma octet_run_fields fs s : forall val k val' k' t,
  octet_run val k s = Some (val', k') -> ipv4_fields fs val k (s +:+ t) = ipv4_fields fs val' k' t.
Proof.
  induction s as [|c s IH]; intros val k val' k' t; cbn [octet_run]; [by intros [= <- <-]|].
  rewrite append_cons. cbn [ipv4_fields]. destruct (digit_value c) as [d|]; [|done]. cbn [mbind option_bind].
  destruct (_ && _); [done|]. destruct (255 <? _); [done|]. apply IH.
Qed.

Lemma octet_run_kind s : forall val k r t, octet_run val k s = Some r -> addr_kind (s +:+ t) = addr_kind t.
Proof.
  induction s as [|c s IH]; intros val k r t; cbn [octet_run]; [done|].
  rewrite append_cons. cbn [addr_kind]. destruct (digit_value c) as [d|] eqn:Ed; [|done]. cbn [mbind option_bind].
  destruct (existsb _ _) eqn:Ee.
  - exfalso. cbn in Ee. destruct c as [[] [] [] [] [] [] [] []]; discriminate.
  - destruct (_ && _); [done|]. destruct (255 <? _); [done|]. apply IH.
Qed.

Lemma octet_digits b : exists n, octet_run 0 0 (Itoa (byte_to_Z b)) = Some (byte_to_Z b, S n).
Proof. destruct b; eexists; vm_compute; reflexivity. Qed.

Lemma string4_eq a b c d :
  string4 [a; b; c; d] = Itoa (byte_to_Z a) +:+ String "." (Itoa (byte_to_Z b) +:+ String "."
    (Itoa (byte_to_Z c) +:+ String "." (Itoa (byte_to_Z d) +:+ EmptyString))).
Proof. rewrite append_nil_r. reflexivity. Qed.

Lemma ipv4_fields_dot fs b t :
  (length fs < 3)%nat -> t <> EmptyString ->
  ipv4_fields fs 0 0 (Itoa (byte_to_Z b) +:+ String "." t) = ipv4_fields (fs ++ [b]) 0 0 t.
Proof.
  intros Hl Ht. destruct (octet_digits b) as [n Hn]. rewrite (octet_run_fields _ _ _ _ _ _ _ Hn). cbn [ipv4_fields].
  change (digit_value ".") with (@None Z). cbn [Ascii.eqb Bool.eqb andb Nat.eqb orb].
  destruct (String.eqb_spec t EmptyString); [done|]. rewrite (proj2 (Nat.eqb_neq _ _)) by lia.
  by rewrite byte_of_to_Z.
Qed.

Lemma append_ne_r (a : string) c t : a +:+ String c t <> EmptyString.
Proof. by destruct a. Qed.

Lemma parseIPv4_string4 a b c d : parseIPv4Fields (string4 [a; b; c; d]) = Some [a; b; c; d].
Proof.
  unfold parseIPv4Fields. rewrite string4_eq.
  rewrite !ipv4_fields_dot by first [apply append_ne_r | cbn; lia | rewrite append_nil_r; apply Itoa_ne].
  destruct (octet_digits d) as [n Hn]. rewrite (octet_run_fields _ _ _ _ _ _ _ Hn). cbn. by rewrite byte_of_to_Z.
Qed.

Lemma ParseAddr_string4 a b c d : ParseAddr (string4 [a; b; c; d]) = Some (Addr4 [a; b; c; d]).
Proof.
  unfold ParseAddr. rewrite parseIPv4_string4, string4_eq. destruct (octet_digits a) as [n Hn].
  rewrite (octet_run_kind _ _ _ _ _ Hn). reflexivity.
Qed.

(** *** Groups of an IPv6 address *)
Lemma unhex_hex_digit z : 0 <= z < 16 -> unhex (hex_digit z) = Some z.
Proof.
  intros Hz. assert (z ∈ seqZ 0 16) as Hin by (apply elem_of_seqZ; lia). vm_compute in Hin.
  repeat (apply elem_of_cons in Hin as [->|Hin]; [reflexivity|]). by apply elem_of_nil in Hin.
Qed.

Lemma hex_digit_kind z : 0 <= z < 16 -> existsb (Ascii.eqb (hex_digit z)) ["."; ":"; "%"]%char = false.
Proof.
  intros Hz. assert (z ∈ seqZ 0 16) as Hin by (apply elem_of_seqZ; lia). vm_compute in Hin.
  repeat (apply elem_of_cons in Hin as [->|Hin]; [reflexivity|]). by apply elem_of_nil in Hin.
Qed.

(** The rest of a text after a group: its end, or a colon. *)
Definition after_group (t : string) : Prop := t = EmptyString \/ exists t', t = String ":" t'.

Lemma hex_field_end off acc t : after_group t -> hex_field off acc t = Some (acc, off, t).
Proof. intros [->|[t' ->]]; reflexivity. Qed.

Lemma hex_field_digit off acc d t :
  0 <= d < 16 -> (off <= 3)%nat -> acc * 16 + d <= 65535 ->
  hex_field off acc (String (hex_digit d) t) = hex_field (S off) (acc * 16 + d) t.
Proof.
  intros Hd Ho Ha. cbn [hex_field]. rewrite unhex_hex_digit by done.
  replace (3 <? off)%nat with false by (symmetry; apply Nat.ltb_ge; lia).
  by replace (65535 <? acc * 16 + d) with false by lia.
Qed.

(** The digits [appendHex] writes, most significant first. *)
Definition hex_group (x : Z) : list Z :=
  (if 4096 <=? x then [x / 4096] else []) ++ (if 256 <=? x then [x / 256 mod 16] else [])
  ++ (if 16 <=? x then [x / 16 mod 16] else []) ++ [x mod 16].
Definition digits_text (ds : list Z) (t : string) : string := foldr (fun d t => String (hex_digit d) t) t ds.

Lemma appendHex_digits x t : appendHex x +:+ t = digits_text (hex_group x) t.
Proof.
  unfold appendHex, hex_group. rewrite !append_assoc.
  destruct (4096 <=? x), (256 <=? x), (16 <=? x); cbn [app digits_text foldr]; rewrite !append_cons, ?append_nil_l; reflexivity.
Qed.

Lemma hex_field_digits ds : forall off acc t,
  Forall (fun d => 0 <= d < 16) ds -> 0 <= acc -> (off + length ds <= 4)%nat -> acc * 16 ^ len ds + 16 ^ len ds <= 65536 ->
  after_group t ->
  hex_field off acc (digits_text ds t) = Some (fold_left (fun a d => a * 16 + d) ds acc, (off + length ds)%nat, t).
Proof.
  induction ds as [|d ds IH]; intros off acc t Hd Hacc Hl Hb Ht.
  - cbn [digits_text foldr]. rewrite hex_field_end by done. cbn. do 3 f_equal. lia.
  - change (digits_text (d :: ds) t) with (String (hex_digit d) (digits_text ds t)).
    apply Forall_cons in Hd as [Hd Hds]. cbn [length] in Hl. rewrite len_cons in Hb.
    pose proof (len_nonneg ds). rewrite Z.pow_add_r in Hb by lia. change (16 ^ 1) with 16 in Hb.
    assert (0 < 16 ^ len ds) by (apply Z.pow_pos_nonneg; lia).
    rewrite hex_field_digit by (done || lia || nia). rewrite IH; [|done|lia|lia|nia|done].
    cbn. do 3 f_equal. lia.
Qed.

Lemma hex_field_appendHex x t :
  0 <= x < 65536 -> after_group t ->
  hex_field 0 0 (appendHex x +:+ t) = Some (x, length (hex_group x), t) /\ length (hex_group x) <> 0%nat.
Proof.
  intros Hx Ht.
  assert (Hd : Forall (fun d => 0 <= d < 16) (hex_group x)).
  { unfold hex_group. repeat (apply Forall_app; split); repeat case_match; repeat constructor;
      try apply Z.mod_pos_bound; try apply Z.div_pos; try apply Z.div_lt_upper_bound; lia. }
  assert (Hl : (1 <= length (hex_group x) <= 4)%nat).
  { unfold hex_group. rewrite !length_app. repeat case_match; cbn; lia. }
  split; [|lia]. rewrite appendHex_digits, hex_field_digits; [|done|lia|lia| |done].
  - do 3 f_equal. unfold hex_group.
    assert (x = 16 * (x / 16) + x mod 16) by (apply Z.div_mod; lia).
    assert (x / 16 = 16 * (x / 256) + x / 16 mod 16).
    { replace (x / 256) with (x / 16 / 16) by (rewrite Z.div_div by lia; reflexivity). apply Z.div_mod; lia. }
    assert (x / 256 = 16 * (x / 4096) + x / 256 mod 16).
    { replace (x / 4096) with (x / 256 / 16) by (rewrite Z.div_div by lia; reflexivity). apply Z.div_mod; lia. }
    assert (x < 4096 -> x / 4096 = 0) by (intros; apply Z.div_small; lia).
    assert (x < 256 -> x / 256 = 0) by (intros; apply Z.div_small; lia).
    assert (x < 16 -> x / 16 = 0) by (intros; apply Z.div_small; lia).
    destruct (4096 <=? x) eqn:?, (256 <=? x) eqn:?, (16 <=? x) eqn:?; cbn [app fold_left]; lia.
  - assert (16 ^ len (hex_group x) <= 16 ^ 4) by (apply Z.pow_le_mono_r; unfold len; lia). lia.
Qed.

Definition group_bytes (g : Z) : list byte := [byte_of_Z (Z.shiftr g 8); byte_of_Z g].
Definition is_group (g : Z) : Prop := 0 <= g < 65536.
Definition groups_text (gs : list Z) : string := Join (map appendHex gs) ":".

Lemma hex_group_first x : is_group x -> exists d ds, hex_group x = d :: ds /\ 0 <= d < 16.
Proof.
  intros Hx. unfold is_group in Hx.
  assert (forall z, 0 <= z mod 16 < 16) by (intros; apply Z.mod_pos_bound; lia).
  assert (0 <= x / 4096 < 16) by (split; [apply Z.div_pos|apply Z.div_lt_upper_bound]; lia).
  unfold hex_group. repeat case_match; cbn [app]; eauto.
Qed.

(** A group starts with a hexadecimal digit. *)
Lemma appendHex_first x t : is_group x -> exists d u, appendHex x +:+ t = String (hex_digit d) u /\ 0 <= d < 16.
Proof.
  intros Hx. rewrite appendHex_digits. destruct (hex_group_first x Hx) as (d & ds & -> & Hd).
  exists d, (digits_text ds t). done.
Qed.

Lemma hex_digit_not_colon d : 0 <= d < 16 -> Ascii.eqb (hex_digit d) ":" = false.
Proof. intros H%hex_digit_kind. cbn [existsb] in H. rewrite !orb_false_iff in H. tauto. Qed.

Lemma groups_text_cons g g' gs t :
  groups_text (g :: g' :: gs) +:+ t = appendHex g +:+ String ":" (groups_text (g' :: gs) +:+ t).
Proof.
  change (groups_text (g :: g' :: gs)) with (appendHex g +:+ (":" +:+ groups_text (g' :: gs))).
  rewrite !append_assoc. reflexivity.
Qed.

Lemma groups_text_first g gs t : is_group g -> exists d u, groups_text (g :: gs) +:+ t = String (hex_digit d) u /\ 0 <= d < 16.
Proof.
  intros Hg. destruct gs as [|g' gs]; [by apply appendHex_first|]. rewrite groups_text_cons. by apply appendHex_first.
Qed.

(** One group followed by a colon. *)
Lemma ipv6_loop_colon n ip ell g u :
  is_group g ->
  ipv6_loop (S n) ip ell (appendHex g +:+ String ":" u) =
  match u with
  | EmptyString => None
  | String d u' =>
      if Ascii.eqb d ":" then
        match ell with
        | Some _ => None
        | None =>
            match u' with
            | EmptyString => Some (ip ++ group_bytes g, Some (length (ip ++ group_bytes g)), EmptyString)
            | _ => ipv6_loop n (ip ++ group_bytes g) (Some (length (ip ++ group_bytes g))) u'
            end
        end
      else ipv6_loop n (ip ++ group_bytes g) ell u
  end.
Proof.
  intros Hg. cbn [ipv6_loop].
  destruct (hex_field_appendHex g (String ":" u)) as [-> Hn]; [done|right; by eexists|].
  cbn [mbind option_bind]. rewrite (proj2 (Nat.eqb_neq _ _)) by done.
  cbn [Ascii.eqb Bool.eqb andb negb]. reflexivity.
Qed.

Lemma ipv6_loop_last n ip ell g :
  is_group g -> ipv6_loop (S n) ip ell (appendHex g) = Some (ip ++ group_bytes g, ell, EmptyString).
Proof.
  intros Hg. cbn [ipv6_loop]. rewrite <- (append_nil_r (appendHex g)).
  destruct (hex_field_appendHex g EmptyString) as [-> Hn]; [done|by left|].
  cbn [mbind option_bind]. by rewrite (proj2 (Nat.eqb_neq _ _)) by done.
Qed.

(** Several groups, followed by the end of the text or by a double colon. *)
Lemma ipv6_loop_groups gs : forall n ip ell,
  gs <> [] -> Forall is_group gs -> (length gs <= n)%nat ->
  ipv6_loop n ip ell (groups_text gs) = Some (ip ++ flat_map group_bytes gs, ell, EmptyString).
Proof.
  induction gs as [|g gs IH]; intros n ip ell Hne Hg Hl; [done|].
  apply Forall_cons in Hg as [Hg Hgs]. destruct n as [|n]; [cbn in Hl; lia|]. cbn [length] in Hl.
  destruct gs as [|g' gs]; [by apply ipv6_loop_last|].
  rewrite <- (append_nil_r (groups_text _)), groups_text_cons, ipv6_loop_colon by done.
  apply Forall_cons in Hgs as Hg'. destruct (groups_text_first g' gs EmptyString (proj1 Hg')) as (d & u & E & Hd).
  rewrite E, hex_digit_not_colon, <- E, append_nil_r by done. rewrite IH by (done || lia).
  cbn [flat_map]. by rewrite <- app_assoc.
Qed.

Lemma ipv6_loop_ellipsis gs : forall n ip u,
  gs <> [] -> Forall is_group gs -> (length gs <= n)%nat ->
  ipv6_loop n ip None (groups_text gs +:+ ("::" +:+ u)) =
  let ip := ip ++ flat_map group_bytes gs in
  match u with
  | EmptyString => Some (ip, Some (length ip), EmptyString)
  | _ => ipv6_loop (n - length gs) ip (Some (length ip)) u
  end.
Proof.
  induction gs as [|g gs IH]; intros n ip u Hne Hg Hl; [done|].
  apply Forall_cons in Hg as [Hg Hgs]. destruct n as [|n]; [cbn in Hl; lia|]. cbn [length] in *.
  destruct gs as [|g' gs].
  - change (groups_text [g]) with (appendHex g). change ("::" +:+ u) with (String ":" (String ":" u)).
    rewrite ipv6_loop_colon by done. cbn [Ascii.eqb Bool.eqb andb flat_map length]. rewrite app_nil_r.
    destruct u; [done|]. by replace (S n - 1)%nat with n by lia.
  - rewrite groups_text_cons, ipv6_loop_colon by done.
    apply Forall_cons in Hgs as Hg'. destruct (groups_text_first g' gs ("::" +:+ u) (proj1 Hg')) as (d & v & E & Hd).
    rewrite E, hex_digit_not_colon, <- E by done. rewrite IH by (done || lia).
    cbn [flat_map length]. rewrite !(app_assoc ip). reflexivity.
Qed.

(** *** The zero run *)
Lemma zeros_spec gs : (zeros gs <= length gs)%nat /\ take (zeros gs) gs = replicate (zeros gs) 0.
Proof.
  induction gs as [|g gs [IH1 IH2]]; [done|]. cbn [zeros]. destruct (Z.eqb_spec g 0) as [->|]; cbn; [|split; [lia|done]].
  rewrite IH2. split; [lia|done].
Qed.

(** A run of at least two zero groups. *)
Definition is_run (gs : list Z) (r : nat * nat) : Prop :=
  (r.1 + 2 <= r.2 <= length gs)%nat /\ gs = take r.1 gs ++ replicate (r.2 - r.1) 0 ++ drop r.2 gs.

Lemma zeros_run gs i : (2 <= zeros (drop i gs))%nat -> is_run gs (i, i + zeros (drop i gs))%nat.
Proof.
  intros Hz. destruct (zeros_spec (drop i gs)) as [Hl Ht]. rewrite length_drop in Hl. split; cbn [fst snd]; [lia|].
  replace (i + zeros (drop i gs) - i)%nat with (zeros (drop i gs)) by lia.
  rewrite <- Ht, <- drop_drop, take_drop, take_drop. done.
Qed.

Lemma zero_run_spec gs r : zero_run gs = Some r -> is_run gs r.
Proof.
  unfold zero_run. generalize (List.seq 0 8) as l.
  assert (forall l best, match best with Some r => is_run gs r | None => True end ->
    forall r, fold_left (fun best i =>
      let l := zeros (drop i gs) in
      let cur := match best with Some (s, e) => e - s | None => 0 end%nat in
      if (2 <=? l)%nat && (cur <? l)%nat then Some (i, i + l)%nat else best) l best = Some r -> is_run gs r) as H.
  { induction l as [|i l IH]; intros best Hb r'; cbn [fold_left]; [by intros ->|]. apply IH.
    destruct (2 <=? zeros (drop i gs))%nat eqn:E; [|exact Hb]. cbn [andb].
    destruct (_ <? _)%nat; [|exact Hb]. apply zeros_run. by apply Nat.leb_le. }
  intros l. by apply (H l None).
Qed.

(** *** Bytes and groups *)
Lemma group_bytes_join hi lo : group_bytes (byte_to_Z hi * 256 + byte_to_Z lo) = [hi; lo].
Proof.
  pose proof (byte_to_Z_range hi). pose proof (byte_to_Z_range lo). unfold group_bytes.
  rewrite Z.shiftr_div_pow2 by lia. change (2 ^ 8) with 256. rewrite Z.div_add_l, Z.div_small, Z.add_0_r, byte_of_to_Z by lia.
  do 2 f_equal. apply byte_to_Z_inj. rewrite byte_to_of_Z, Z.add_comm, Z.mod_add, Z.mod_small by lia. done.
Qed.

Lemma v6u16_spec n : forall b, length b = (2 * n)%nat ->
  length (v6u16 b) = n /\ Forall is_group (v6u16 b) /\ flat_map group_bytes (v6u16 b) = b.
Proof.
  induction n as [|n IH]; intros b Hb; [by destruct b|].
  destruct b as [|hi [|lo b]]; [cbn in Hb; lia..|]. cbn [length] in Hb.
  destruct (IH b ltac:(lia)) as (Hl & Hg & Hf). cbn [v6u16 length flat_map]. rewrite Hl, Hf, group_bytes_join.
  split; [done|]. split; [|done]. constructor; [|done].
  pose proof (byte_to_Z_range hi). pose proof (byte_to_Z_range lo). unfold is_group. lia.
Qed.

Lemma length_group_bytes gs : length (flat_map group_bytes gs) = (2 * length gs)%nat.
Proof. induction gs as [|g gs IH]; [done|]. cbn [flat_map length]. rewrite length_app, IH. cbn. lia. Qed.

Lemma group_bytes_zeros n : flat_map group_bytes (replicate n 0) = replicate (2 * n) x00.
Proof.
  induction n as [|n IH]; [done|]. cbn [replicate flat_map]. rewrite IH.
  replace (2 * S n)%nat with (S (S (2 * n))) by lia. reflexivity.
Qed.

(** Expanding the double colon restores the zero groups between [pre] and [post]. *)
Lemma ipv6_expand_run pre post :
  (length pre + 2 + length post <= 8)%nat ->
  ipv6_expand (flat_map group_bytes (pre ++ post), Some (2 * length pre)%nat, EmptyString)
  = Some (flat_map group_bytes (pre ++ replicate (8 - length pre - length post) 0 ++ post)).
Proof.
  intros Hl. unfold ipv6_expand. cbn [String.eqb negb]. rewrite length_group_bytes, length_app.
  rewrite (proj2 (Nat.ltb_lt _ _)) by lia. f_equal. rewrite !flat_map_app, group_bytes_zeros.
  rewrite <- (length_group_bytes pre), take_app_length, drop_app_length.
  do 2 f_equal. f_equal. lia.
Qed.

Lemma groups_text_ne gs : gs <> [] -> Forall is_group gs -> exists c u, groups_text gs = String c u.
Proof.
  destruct gs as [|g gs]; [done|]. intros _ [Hg _]%Forall_cons.
  destruct (groups_text_first g gs EmptyString Hg) as (d & u & E & _). rewrite append_nil_r in E. by eexists _, _.
Qed.

Lemma no_prefix_hex d u t : 0 <= d < 16 -> t = String (hex_digit d) u -> HasPrefix t "::" = false.
Proof.
  intros Hd ->. destruct (HasPrefix _ _) eqn:E; [|done]. apply HasPrefix_iff in E as [v E].
  rewrite append_cons in E. injection E as E _. pose proof (hex_digit_not_colon d Hd) as H. rewrite E in H. discriminate.
Qed.

Lemma ipv6_text_run pre post :
  (length pre + 2 + length post <= 8)%nat -> Forall is_group pre -> Forall is_group post ->
  ipv6_text (groups_text pre +:+ "::" +:+ groups_text post)
  = Some (flat_map group_bytes (pre ++ replicate (8 - length pre - length post) 0 ++ post)).
Proof.
  intros Hl Hpre Hpost. unfold ipv6_text. destruct pre as [|g pre].
  - change (groups_text [] +:+ "::" +:+ groups_text post) with ("::" +:+ groups_text post).
    rewrite HasPrefix_append. change (sdrop 2 ("::" +:+ groups_text post)) with (groups_text post). cbn zeta.
    destruct (decide (post = [])) as [->|Hne]; [reflexivity|].
    destruct (groups_text_ne post Hne Hpost) as (c & u & E).
    replace (String.eqb (groups_text post) EmptyString) with false by (by rewrite E).
    rewrite ipv6_loop_groups by (done || cbn in *; lia). cbn [mbind option_bind app].
    apply (ipv6_expand_run [] post). lia.
  - apply Forall_cons in Hpre as Hg. destruct (groups_text_first g pre ("::" +:+ groups_text post) (proj1 Hg)) as (d & u & E & Hd).
    rewrite (no_prefix_hex d u) by done. rewrite ipv6_loop_ellipsis by (done || cbn in *; lia). cbn [app].
    rewrite length_group_bytes. destruct (decide (post = [])) as [->|Hne].
    { cbn [groups_text map Join String.concat mbind option_bind]. rewrite <- (app_nil_r (g :: pre)) at 1.
      by apply ipv6_expand_run. }
    destruct (groups_text_ne post Hne Hpost) as (c & v & Ec).
    transitivity (ipv6_loop (8 - length (g :: pre)) (flat_map group_bytes (g :: pre)) (Some (2 * length (g :: pre)))%nat
      (groups_text post) ≫= ipv6_expand); [by rewrite Ec|].
    rewrite ipv6_loop_groups by (done || cbn in *; lia). rewrite <- flat_map_app. cbn [mbind option_bind].
    by apply ipv6_expand_run.
Qed.

Lemma ipv6_text_full gs :
  length gs = 8%nat -> Forall is_group gs -> ipv6_text (groups_text gs) = Some (flat_map group_bytes gs).
Proof.
  intros Hl Hg. destruct gs as [|g gs]; [done|]. apply Forall_cons in Hg as Hg'.
  destruct (groups_text_first g gs EmptyString (proj1 Hg')) as (d & u & E & Hd). rewrite append_nil_r in E.
  unfold ipv6_text. rewrite (no_prefix_hex d u), ipv6_loop_groups by (done || lia). cbn [mbind option_bind app].
  unfold ipv6_expand. rewrite length_group_bytes, Hl. reflexivity.
Qed.

Lemma ipv6_text_string6 b : length b = 16%nat -> ipv6_text (string6 b) = Some b.
Proof.
  intros Hb. destruct (v6u16_spec 8 b Hb) as (Hl & Hg & Hf). unfold string6.
  destruct (zero_run (v6u16 b)) as [[zs ze]|] eqn:Ez.
  - apply zero_run_spec in Ez as [Hr Heq]. cbn [fst snd] in *. rewrite Hl in Hr.
    change (ipv6_text (groups_text (take zs (v6u16 b)) +:+ "::" +:+ groups_text (drop ze (v6u16 b))) = Some b).
    rewrite ipv6_text_run; [|rewrite length_take, length_drop; lia|by apply Forall_take|by apply Forall_drop].
    rewrite length_take, length_drop, Hl. replace (8 - zs `min` 8 - (8 - ze))%nat with (ze - zs)%nat by lia.
    by rewrite <- Heq, Hf.
  - by rewrite <- Hf at 2; apply ipv6_text_full.
Qed.

(** *** From text to address *)
Lemma no_byte_digits c ds : Forall (fun d => Ascii.eqb c (hex_digit d) = false) ds -> no_byte c (digits_text ds EmptyString).
Proof. induction 1 as [|d ds Hd _ IH]; [done|]. cbn. by rewrite Hd. Qed.

Lemma appendHex_no_byte x : is_group x -> no_byte "%" (appendHex x).
Proof.
  intros Hx. rewrite <- (append_nil_r (appendHex x)), appendHex_digits. apply no_byte_digits.
  assert (forall d, 0 <= d < 16 -> Ascii.eqb "%" (hex_digit d) = false) as H.
  { intros d Hd%hex_digit_kind. cbn [existsb] in Hd. rewrite !orb_false_iff in Hd. rewrite Ascii.eqb_sym. tauto. }
  unfold is_group in Hx.
  unfold hex_group. repeat (apply Forall_app; split); repeat case_match; repeat constructor; apply H;
    first [apply Z.mod_pos_bound; lia | split; [apply Z.div_pos|apply Z.div_lt_upper_bound]; lia].
Qed.

Lemma groups_text_no_byte gs : Forall is_group gs -> no_byte "%" (groups_text gs).
Proof. intros H. apply no_byte_Join; [done|]. apply Forall_map. eapply Forall_impl; [exact H|]. apply appendHex_no_byte. Qed.

Lemma addr_kind_digits ds t : Forall (fun d => 0 <= d < 16) ds -> addr_kind (digits_text ds t) = addr_kind t.
Proof.
  induction 1 as [|d ds Hd _ IH]; [done|]. change (digits_text (d :: ds) t) with (String (hex_digit d) (digits_text ds t)).
  cbn [addr_kind]. by rewrite hex_digit_kind.
Qed.

Lemma hex_group_range x : is_group x -> Forall (fun d => 0 <= d < 16) (hex_group x).
Proof.
  unfold is_group, hex_group. intros Hx. repeat (apply Forall_app; split); repeat case_match; repeat constructor;
    try apply Z.mod_pos_bound; try apply Z.div_pos; try apply Z.div_lt_upper_bound; lia.
Qed.

Lemma addr_kind_groups g gs t : is_group g -> (gs <> [] \/ exists u, t = String ":" u) ->
  addr_kind (groups_text (g :: gs) +:+ t) = Some ":"%char.
Proof.
  intros Hg H. destruct gs as [|g' gs].
  - destruct H as [H|[u ->]]; [done|]. change (groups_text [g]) with (appendHex g).
    by rewrite appendHex_digits, addr_kind_digits by by apply hex_group_range.
  - rewrite groups_text_cons, appendHex_digits, addr_kind_digits by by apply hex_group_range. done.
Qed.

Lemma string6_shape b : length b = 16%nat -> addr_kind (string6 b) = Some ":"%char /\ no_byte "%" (string6 b).
Proof.
  intros Hb. destruct (v6u16_spec 8 b Hb) as (Hl & Hg & _). unfold string6.
  destruct (zero_run (v6u16 b)) as [[zs ze]|].
  - fold (groups_text (take zs (v6u16 b))) (groups_text (drop ze (v6u16 b))). split.
    + destruct (take zs (v6u16 b)) as [|g gs] eqn:E; [done|].
      apply addr_kind_groups; [|right; by eexists]. apply (Forall_take _ zs) in Hg. rewrite E in Hg. by inversion Hg.
    + rewrite !no_byte_append. repeat (apply andb_prop_intro; split); try done.
      * by apply groups_text_no_byte, Forall_take.
      * by apply groups_text_no_byte, Forall_drop.
  - fold (groups_text (v6u16 b)). split; [|by apply groups_text_no_byte].
    destruct (v6u16 b) as [|g [|g' gs]]; [done..|]. rewrite <- (append_nil_r (groups_text _)).
    apply addr_kind_groups; [by inversion Hg|by left].
Qed.

Lemma ParseAddr_string6 b : length b = 16%nat -> ParseAddr (string6 b) = Some (Addr6 b EmptyString).
Proof.
  intros Hb. destruct (string6_shape b Hb) as [Hk Hp]. unfold ParseAddr. rewrite Hk.
  cbn [Ascii.eqb Bool.eqb andb]. unfold parseIPv6. by rewrite Cut_absent, ipv6_text_string6.
Qed.

(** An address as [ParseIP] returns it. *)
Definition valid_ip (ip : IP) : Prop := length ip = 16%nat.

Lemma ParseIP_String ip : valid_ip ip -> ParseIP (IP_String ip) = ip.
Proof.
  unfold valid_ip, IP_String, ParseIP, To4. intros Hl.
  replace (len ip =? 0) with false by (unfold len; lia). replace (len ip =? 4) with false by (unfold len; lia).
  replace (len ip =? 16) with true by (unfold len; lia). cbn [negb andb].
  destruct (is_4in6 ip) eqn:E.
  - apply bool_decide_eq_true in E. transitivity (take 12 ip ++ drop 12 ip); [rewrite E|apply take_drop].
    assert (length (drop 12 ip) = 4%nat) as Hd by (rewrite length_drop; lia).
    destruct (drop 12 ip) as [|a [|b [|c [|d [|]]]]]; try done. by rewrite ParseAddr_string4.
  - by rewrite ParseAddr_string6.
Qed.

Lemma IP_String_inj a b : valid_ip a -> valid_ip b -> IP_String a = IP_String b -> a = b.
Proof. intros Ha Hb H. by rewrite <- (ParseIP_String a Ha), <- (ParseIP_String b Hb), H. Qed.

(** *** What [ParseIP] returns is nil or has 16 bytes *)
Lemma ipv4_fields_length s : forall fs v k b, (length fs <= 3)%nat -> ipv4_fields fs v k s = Some b -> length b = 4%nat.
Proof.
  induction s as [|c s IH]; intros fs v k b Hf; cbn [ipv4_fields].
  - destruct (length fs <? 3)%nat eqn:E; [done|]. intros [= <-]. apply Nat.ltb_ge in E. rewrite length_app. cbn. lia.
  - destruct (digit_value c).
    + destruct (_ && _); [done|]. destruct (_ <? _); [done|]. by apply IH.
    + destruct (Ascii.eqb c "."); [|done]. destruct (_ || _); [done|].
      destruct (length fs =? 3)%nat eqn:E; [done|]. apply Nat.eqb_neq in E. apply IH. rewrite length_app. cbn. lia.
Qed.

Lemma ipv6_loop_length n : forall ip e s ip' e' s',
  (length ip + 2 * n = 16)%nat -> ipv6_loop n ip e s = Some (ip', e', s') -> (length ip' <= 16)%nat.
Proof.
  induction n as [|n IH]; intros ip e s ip' e' s' Hl; cbn [ipv6_loop]; [intros [= <- _ _]; lia|].
  destruct (hex_field 0 0 s) as [[[acc off] rest]|]; [|done]. cbn [mbind option_bind].
  destruct (off =? 0)%nat; [done|].
  destruct rest as [|c rest]; [intros [= <- _ _]; rewrite length_app; cbn; lia|].
  destruct (Ascii.eqb c ".").
  { destruct (_ && _); [done|]. destruct (16 <? length ip + 4)%nat eqn:E; [done|]. apply Nat.ltb_ge in E.
    destruct (parseIPv4Fields s) as [b|] eqn:Eb; [|done]. cbn. intros [= <- _ _].
    apply ipv4_fields_length in Eb; [|cbn; lia]. rewrite length_app. lia. }
  cbn zeta. destruct (negb _); [done|]. destruct rest as [|d rest]; [done|].
  destruct (Ascii.eqb d ":").
  - destruct e; [done|]. destruct rest.
    + intros [= <- _ _]. rewrite length_app. cbn. lia.
    + apply IH. rewrite length_app. cbn. lia.
  - apply IH. rewrite length_app. cbn. lia.
Qed.

Lemma ipv6_expand_length ip e s b : (length ip <= 16)%nat -> ipv6_expand (ip, e, s) = Some b -> length b = 16%nat.
Proof.
  unfold ipv6_expand. intros Hl. destruct (negb _); [done|]. destruct e as [e|].
  - destruct (length ip <? 16)%nat eqn:E; [|done]. intros [= <-]. apply Nat.ltb_lt in E.
    rewrite !length_app, length_take, length_drop, length_replicate. lia.
  - destruct (length ip <? 16)%nat eqn:E; [done|]. intros [= <-]. apply Nat.ltb_ge in E. lia.
Qed.

Lemma ipv6_text_length s b : ipv6_text s = Some b -> length b = 16%nat.
Proof.
  assert (forall e s b, ipv6_loop 8 [] e s ≫= ipv6_expand = Some b -> length b = 16%nat) as H.
  { intros e' s' b'. destruct (ipv6_loop 8 [] e' s') as [[[ip e''] s'']|] eqn:E; [|done].
    apply ipv6_loop_length in E; [|done]. by apply ipv6_expand_length. }
  unfold ipv6_text. destruct (HasPrefix s "::"); [|apply H].
  destruct (String.eqb _ _); [by intros [= <-]|apply H].
Qed.

Lemma ParseIP_valid s : ParseIP s = [] \/ valid_ip (ParseIP s).
Proof.
  unfold ParseIP, ParseAddr, valid_ip. destruct (addr_kind s) as [c|]; [|by left].
  destruct (Ascii.eqb c ".").
  { destruct (parseIPv4Fields s) as [b|] eqn:E; [|by left]. apply ipv4_fields_length in E; [|cbn; lia].
    right. cbn [fmap option_fmap option_map As16]. rewrite length_app, E. reflexivity. }
  destruct (Ascii.eqb c ":"); [|by left]. unfold parseIPv6. destruct (Cut "%" s) as [[s' z]|].
  - destruct (String.eqb z EmptyString) eqn:Ez; [by left|]. destruct (ipv6_text s'); [|by left]. cbn. rewrite Ez. by left.
  - destruct (ipv6_text s) as [b|] eqn:E; [|by left]. right. cbn. by apply ipv6_text_length in E.
Qed.
