(* ===== verification/Crypto.v ===== *)
(** * The hash functions of Go's [crypto/sha256] and [crypto/md5]

    SHA-256 (FIPS 180-4) and MD5 (RFC 1321) on byte sequences, executable, with the standard
    test vectors. *)

From S2P Require Import Prelude GoStrings.
#[local] Open Scope Z_scope.

Definition add32 (a b : Z) : Z := u32 (a + b).
Definition shl32 (x n : Z) : Z := u32 (Z.shiftl x n).
Definition rotr32 (x n : Z) : Z := Z.lor (Z.shiftr x n) (shl32 x (32 - n)).
Definition rotl32 (x n : Z) : Z := Z.lor (shl32 x n) (Z.shiftr x (32 - n)).
Definition not32 (x : Z) : Z := Z.lxor x 0xffffffff.

(** The [n] low bytes of an integer, least or most significant first. *)
Fixpoint le_bytes (n : nat) (z : Z) : list byte :=
  match n with
  | O => []
  | S n => byte_of_Z z :: le_bytes n (Z.shiftr z 8)
  end.
Definition be_bytes (n : nat) (z : Z) : list byte := rev (le_bytes n z).

Fixpoint le_value (bs : list byte) : Z :=
  match bs with
  | [] => 0
  | b :: bs => byte_to_Z b + 256 * le_value bs
  end.
Definition be_value (bs : list byte) : Z := le_value (rev bs).

(** Cut a list into blocks of [n] elements; [fuel] bounds the number of blocks. *)
Fixpoint blocks {A} (fuel n : nat) (l : list A) : list (list A) :=
  match fuel, l with
  | S fuel, _ :: _ => take n l :: blocks fuel n (drop n l)
  | _, _ => []
  end.

(** Merkle-Damgard padding: 0x80, zeros, and the 64-bit bit length. *)
Definition md_pad (enc : nat -> Z -> list byte) (msg : list byte) : list byte :=
  let zeros := Z.to_nat ((55 - len msg) mod 64) in
  msg ++ [byte_of_Z 128] ++ replicate zeros x00 ++ enc 8%nat (8 * len msg).

Definition nthz (l : list Z) (i : nat) : Z := nth i l 0.

(** ** SHA-256 *)
Module Sha256.
(** The constants are the first 32 bits of the fractional parts of the cube and square roots
    of the first primes. *)
Definition prime (n : nat) : bool := forallb (fun d => negb (n mod d =? 0)%nat) (seq 2 (n - 2)).
Definition primes : list Z := map Z.of_nat (filter prime (seq 2 310)).

Fixpoint cbrt_bits (n : nat) (acc z : Z) : Z :=
  match n with
  | O => acc
  | S n => let c := Z.setbit acc (Z.of_nat n) in
           cbrt_bits n (if c * c * c <=? z then c else acc) z
  end.
Definition K : list Z := Eval vm_compute in
  map (fun p => u32 (cbrt_bits 40 0 (Z.shiftl p 96))) primes.
Definition H0 : list Z := Eval vm_compute in
  map (fun p => u32 (Z.sqrt (Z.shiftl p 64))) (take 8 primes).

(** The message schedule, newest word first. *)
Fixpoint extend (n : nat) (w : list Z) : list Z :=
  match n with
  | O => w
  | S n =>
      let x15 := nthz w 14 in
      let x2 := nthz w 1 in
      let s0 := Z.lxor (Z.lxor (rotr32 x15 7) (rotr32 x15 18)) (Z.shiftr x15 3) in
      let s1 := Z.lxor (Z.lxor (rotr32 x2 17) (rotr32 x2 19)) (Z.shiftr x2 10) in
      extend n (u32 (nthz w 15 + s0 + nthz w 6 + s1) :: w)
  end.

Record st := St { ra : Z; rb : Z; rc : Z; rd : Z; re : Z; rf : Z; rg : Z; rh : Z }.

Definition round (s : st) (kw : Z * Z) : st :=
  let '(St a b c d e f g h) := s in
  let S1 := Z.lxor (Z.lxor (rotr32 e 6) (rotr32 e 11)) (rotr32 e 25) in
  let ch := Z.lxor (Z.land e f) (Z.land (not32 e) g) in
  let t1 := h + S1 + ch + kw.1 + kw.2 in
  let S0 := Z.lxor (Z.lxor (rotr32 a 2) (rotr32 a 13)) (rotr32 a 22) in
  let maj := Z.lxor (Z.lxor (Z.land a b) (Z.land a c)) (Z.land b c) in
  St (u32 (t1 + S0 + maj)) a b c (u32 (d + t1)) e f g.

Definition block (h : list Z) (blk : list byte) : list Z :=
  let w16 := map be_value (blocks 16 4 blk) in
  let w := rev (extend 48 (rev w16)) in
  let s := St (nthz h 0) (nthz h 1) (nthz h 2) (nthz h 3) (nthz h 4) (nthz h 5) (nthz h 6) (nthz h 7) in
  let '(St a b c d e f g i) := fold_left round (combine K w) s in
  zip_with add32 h [a; b; c; d; e; f; g; i].
End Sha256.

Definition sha256 (msg : list byte) : list byte :=
  let p := md_pad be_bytes msg in
  let h := fold_left Sha256.block (blocks (length p) 64 p) Sha256.H0 in
  flat_map (be_bytes 4) h.

(** ** MD5 *)
Module Md5.
Definition K : list Z := [
    0xd76aa478; 0xe8c7b756; 0x242070db; 0xc1bdceee; 0xf57c0faf; 0x4787c62a; 0xa8304613;
    0xfd469501; 0x698098d8; 0x8b44f7af; 0xffff5bb1; 0x895cd7be; 0x6b901122; 0xfd987193;
    0xa679438e; 0x49b40821; 0xf61e2562; 0xc040b340; 0x265e5a51; 0xe9b6c7aa; 0xd62f105d;
    0x02441453; 0xd8a1e681; 0xe7d3fbc8; 0x21e1cde6; 0xc33707d6; 0xf4d50d87; 0x455a14ed;
    0xa9e3e905; 0xfcefa3f8; 0x676f02d9; 0x8d2a4c8a; 0xfffa3942; 0x8771f681; 0x6d9d6122;
    0xfde5380c; 0xa4beea44; 0x4bdecfa9; 0xf6bb4b60; 0xbebfbc70; 0x289b7ec6; 0xeaa127fa;
    0xd4ef3085; 0x04881d05; 0xd9d4d039; 0xe6db99e5; 0x1fa27cf8; 0xc4ac5665; 0xf4292244;
    0x432aff97; 0xab9423a7; 0xfc93a039; 0x655b59c3; 0x8f0ccc92; 0xffeff47d; 0x85845dd1;
    0x6fa87e4f; 0xfe2ce6e0; 0xa3014314; 0x4e0811a1; 0xf7537e82; 0xbd3af235; 0x2ad7d2bb;
    0xeb86d391
].
Definition S : list Z :=
  let q a b c d := [a; b; c; d; a; b; c; d; a; b; c; d; a; b; c; d] in
  q 7 12 17 22 ++ q 5 9 14 20 ++ q 4 11 16 23 ++ q 6 10 15 21.
Definition H0 : list Z := [0x67452301; 0xefcdab89; 0x98badcfe; 0x10325476].

Definition round (m : list Z) (s : Z * Z * Z * Z) (i : nat) : Z * Z * Z * Z :=
  let '(a, b, c, d) := s in
  let '(f, g) :=
    if (i <? 16)%nat then (Z.lor (Z.land b c) (Z.land (not32 b) d), i)
    else if (i <? 32)%nat then (Z.lor (Z.land d b) (Z.land (not32 d) c), Nat.modulo (5 * i + 1) 16)
    else if (i <? 48)%nat then (Z.lxor (Z.lxor b c) d, Nat.modulo (3 * i + 5) 16)
    else (Z.lxor c (Z.lor b (not32 d)), Nat.modulo (7 * i) 16) in
  let t := u32 (a + f + nthz K i + nthz m g) in
  (d, add32 b (rotl32 t (nthz S i)), b, c).

Definition block (h : list Z) (blk : list byte) : list Z :=
  let m := map le_value (blocks 16 4 blk) in
  let '(a, b, c, d) :=
    fold_left (round m) (seq 0 64) (nthz h 0, nthz h 1, nthz h 2, nthz h 3) in
  zip_with add32 h [a; b; c; d].
End Md5.

Definition md5 (msg : list byte) : list byte :=
  let p := md_pad le_bytes msg in
  let h := fold_left Md5.block (blocks (length p) 64 p) Md5.H0 in
  flat_map (le_bytes 4) h.

(** ** Test vectors and sizes *)
Example sha256_abc :
  hex (sha256 (string_bytes "abc")) = "ba7816bf8f01cfea414140de5dae2223b00361a396177a9cb410ff61f20015ad".
Proof. vm_compute. reflexivity. Qed.

Example sha256_two_blocks :
  hex (sha256 (string_bytes "abcdbcdecdefdefgefghfghighijhijkijkljklmklmnlmnomnopnopq"))
  = "248d6a61d20638b8e5c026930c3e6039a33ce45964ff2167f6ecedd419db06c1".
Proof. vm_compute. reflexivity. Qed.

Example md5_empty : hex (md5 []) = "d41d8cd98f00b204e9800998ecf8427e".
Proof. vm_compute. reflexivity. Qed.

Example md5_digits :
  hex (md5 (string_bytes "12345678901234567890123456789012345678901234567890123456789012345678901234567890"))
  = "57edf4a22be3c955ac49da2e2107b67a".
Proof. vm_compute. reflexivity. Qed.

Lemma length_le_bytes n z : length (le_bytes n z) = n.
Proof. revert z. induction n as [|n IH]; intros; simpl; [done|]. by rewrite IH. Qed.

Lemma length_be_bytes n z : length (be_bytes n z) = n.
Proof. unfold be_bytes. by rewrite length_rev, length_le_bytes. Qed.

Lemma length_flat_map_const {A B} (f : A -> list B) n l :
  (forall x, length (f x) = n) -> length (flat_map f l) = (n * length l)%nat.
Proof.
  intros Hf. induction l as [|x l IH]; simpl; [lia|]. rewrite length_app, Hf, IH. lia.
Qed.

Lemma length_fold_blocks {A} (f : list Z -> A -> list Z) n bs h :
  (forall h b, length h = n -> length (f h b) = n) ->
  length h = n -> length (fold_left f bs h) = n.
Proof. intros Hf. revert h. induction bs as [|b bs IH]; intros h Hh; simpl; auto. Qed.

Lemma length_sha256 msg : length (sha256 msg) = 32%nat.
Proof.
  unfold sha256. rewrite (length_flat_map_const _ 4) by (intros; apply length_be_bytes).
  rewrite (length_fold_blocks _ 8); [done| |done].
  intros h b Hh. unfold Sha256.block. case_match. rewrite length_zip_with, Hh. done.
Qed.

Lemma length_md5 msg : length (md5 msg) = 16%nat.
Proof.
  unfold md5. rewrite (length_flat_map_const _ 4) by (intros; apply length_le_bytes).
  rewrite (length_fold_blocks _ 4); [done| |done].
  intros h b Hh. unfold Md5.block. repeat case_match. rewrite length_zip_with, Hh. done.
Qed.

(** Reading back an encoded integer. *)
Lemma le_value_bytes n z : 0 <= z < 256 ^ Z.of_nat n -> le_value (le_bytes n z) = z.
Proof.
  revert z. induction n as [|n IH]; intros z Hz; simpl.
  - rewrite Z.pow_0_r in Hz. lia.
  - rewrite Nat2Z.inj_succ, Z.pow_succ_r in Hz by lia.
    rewrite byte_to_of_Z, Z.shiftr_div_pow2 by lia. change (2 ^ 8) with 256.
    rewrite IH.
    + pose proof (Z.div_mod z 256). lia.
    + split; [apply Z.div_pos; lia|]. apply Z.div_lt_upper_bound; lia.
Qed.

Lemma be_value_bytes n z : 0 <= z < 256 ^ Z.of_nat n -> be_value (be_bytes n z) = z.
Proof. intros. unfold be_value, be_bytes. rewrite rev_involutive. by apply le_value_bytes. Qed.
