(* ===== verification/Types.v ===== *)
(** * Package [internal/types] and the parts of [net/http] it builds on

    One record per Go struct.  Field names carry the struct's initials, since Rocq's
    projections share one name space. *)

From Stdlib Require Export SpecFloat.
From S2P Require Import Prelude GoStrings.
#[local] Open Scope Z_scope.

(** ** Dynamic values

    The Go type [any], for the dynamic types the program builds or inspects: the values YAML
    decoding produces and the values put in a signal's detail map. *)
Inductive any : Type :=
| ANil
| AString (s : string)
| AInt (z : Z)
| AUint (z : Z)
| ABool (b : bool)
| AFloat (f : spec_float)
| AList (l : list any)
| AMap (l : list (string * any))
| AStrings (l : list string)
| AInts (l : list Z).

(** [fmt.Sprintf("%T", v)] *)
Definition type_name (v : any) : string :=
  match v with
  | ANil => "<nil>"
  | AString _ => "string"
  | AInt _ => "int"
  | AUint _ => "uint"
  | ABool _ => "bool"
  | AFloat _ => "float64"
  | AList _ => "[]interface {}"
  | AMap _ => "map[string]interface {}"
  | AStrings _ => "[]string"
  | AInts _ => "[]int"
  end.

(** ** signal.go, verdict.go *)
Record Signal := MkSignal {
  sig_Name : string;
  sig_Score : Z;
  sig_Reason : string;
  sig_Detail : gmap string any
}.

Definition set_Score (s : Signal) (w : Z) : Signal :=
  MkSignal (sig_Name s) w (sig_Reason s) (sig_Detail s).

Inductive Verdict := VerdictAllow | VerdictChallenge | VerdictDeny.

#[export] Instance Verdict_eq_dec : EqDecision Verdict.
Proof. solve_decision. Defined.

Record Decision := MkDecision {
  d_Verdict : Verdict;
  d_Score : Z;
  d_Signals : list Signal;
  d_Reasons : list string;
  d_PolicyName : string;
  d_Timestamp : Z;
  d_RequestID : string
}.

(** ** policy.go *)
Record TLSConfig := MkTLSConfig { tlsc_Cert : string; tlsc_Key : string }.

Record ListenerConfig := MkListenerConfig {
  lc_Bind : string;
  lc_Target : string;
  lc_TLS : option TLSConfig
}.

Record TokenConfig := MkTokenConfig {
  tc_SecretFile : string;
  tc_TTL : string;
  tc_BindTo : list string
}.

Record PolicyRule := MkPolicyRule {
  pr_Name : string;
  pr_Match : gmap string any;
  pr_Action : string;
  pr_Reason : string
}.

Record PolicySection := MkPolicySection {
  ps_Default : string;
  ps_Rules : list PolicyRule
}.

Record ScoringConfig := MkScoringConfig {
  sc_Weights : gmap string Z;
  sc_ChallengeThreshold : Z;
  sc_DenyThreshold : Z
}.

Record ChallengeConfig := MkChallengeConfig {
  cc_PowDifficulty : Z;
  cc_CollectFingerprint : bool
}.

Record RedisConfig := MkRedisConfig { rc_Addr : string; rc_DB : Z }.

Record CacheConfig := MkCacheConfig {
  cac_Backend : string;
  cac_Redis : option RedisConfig;
  cac_TTLSeconds : Z
}.

Record PolicyConfig := MkPolicyConfig {
  pc_Version : Z;
  pc_Listener : ListenerConfig;
  pc_Token : TokenConfig;
  pc_Policy : PolicySection;
  pc_Scoring : ScoringConfig;
  pc_Challenge : ChallengeConfig;
  pc_Cache : CacheConfig
}.

(** ** token.go

    The registered claims hold the issue and expiry times in whole seconds
    ([jwt.NewNumericDate] truncates to seconds). *)
Record TokenClaims := MkTokenClaims {
  cl_Sub : string;
  cl_IP : string;
  cl_UA : string;
  cl_JA3 : string;
  cl_JA4 : string;
  cl_Score : Z;
  cl_Ver : Z;
  cl_IssuedAt : Z;
  cl_ExpiresAt : Z
}.

(** ** [net/http] headers

    [http.Header] is a map from canonical names to value lists. *)
Abbreviation Header := (gmap string (list string)).

Definition token_char (c : ascii) : bool :=
  let n := Z.of_N (N_of_ascii c) in
  ((48 <=? n) && (n <=? 57)) || ((65 <=? n) && (n <=? 90)) || ((97 <=? n) && (n <=? 122))
  || existsb (fun d => Ascii.eqb c d)
       ["!"; "#"; "$"; "%"; "&"; "'"; "*"; "+"; "-"; "."; "^"; "_"; "`"; "|"; "~"]%char.

Fixpoint all_token (s : string) : bool :=
  match s with
  | EmptyString => true
  | String c s => token_char c && all_token s
  end.

Definition upper_ascii (c : ascii) : ascii :=
  let n := N_of_ascii c in
  if ((97 <=? n) && (n <=? 122))%N then ascii_of_N (n - 32) else c.
Definition lower_ascii (c : ascii) : ascii :=
  let n := N_of_ascii c in
  if ((65 <=? n) && (n <=? 90))%N then ascii_of_N (n + 32) else c.

Fixpoint canon_key (up : bool) (s : string) : string :=
  match s with
  | EmptyString => EmptyString
  | String c s =>
      String (if up then upper_ascii c else lower_ascii c) (canon_key (Ascii.eqb c "-"%char) s)
  end.

(** [textproto.CanonicalMIMEHeaderKey] *)
Definition CanonicalHeaderKey (s : string) : string :=
  if all_token s then canon_key true s else s.

Definition header_Values (h : Header) (name : string) : list string :=
  default [] (h !! CanonicalHeaderKey name).
Definition header_Get (h : Header) (name : string) : string :=
  match header_Values h name with v :: _ => v | [] => EmptyString end.
Definition header_Set (h : Header) (name v : string) : Header := <[CanonicalHeaderKey name := [v]]> h.
Definition header_Del (h : Header) (name : string) : Header := delete (CanonicalHeaderKey name) h.

(** ** [net/http] requests, as far as the program reads them *)
Record URL := MkURL { url_Scheme : string; url_Host : string; url_Path : string; url_RawQuery : string }.

Record Request := MkRequest {
  r_Method : string;
  r_URL : option URL;
  r_ProtoMajor : Z;
  r_ProtoMinor : Z;
  r_Header : Header;
  r_Host : string;
  r_RemoteAddr : string;
  r_Frames : list byte   (** the HTTP/2 frame bytes attached to the request's context *)
}.

Definition UserAgent (r : Request) : string := header_Get (r_Header r) "User-Agent".

(** ** request.go

    [Ctx] carries only the HTTP/2 frame bytes the http2 collector looks up, and is [None]
    when nil. *)
Record RequestContext := MkRequestContext {
  rq_Ctx : option (list byte);
  rq_Request : option Request;
  rq_RemoteIP : string;
  rq_ClientHello : list byte;
  rq_JA3 : string;
  rq_JA4 : string;
  rq_Headers : Header;
  rq_HeaderOrder : list string
}.

(** [types.SignalCollector]: a collector has a name, a state of its own (the referer windows,
    the IP cache, the beacon store; [unit] for a stateless one) and [Collect].  Go returns the
    signals and the error side by side, so a result is a pair; [Panic] is a run-time panic. *)
Definition collect_out : Type := outcome (list Signal * option string).

Record SignalCollector := MkCollector {
  col_Name : string;
  col_State : Type;
  col_Collect : RequestContext -> col_State -> collect_out * col_State
}.

(** ** decision_request.go *)
Record DecisionRequest := MkDecisionRequest {
  dr_Method : string;
  dr_Path : string;
  dr_Host : string;
  dr_RemoteIP : string;
  dr_Headers : gmap string string;
  dr_HeaderOrder : list string;
  dr_JA3 : string;
  dr_JA4 : string;
  dr_Token : string
}.

(** ** beacon.go *)
Record MouseMetrics := MkMouseMetrics {
  mm_MoveCount : Z;
  mm_PathLength : spec_float;
  mm_AvgVelocity : spec_float;
  mm_JitterIndex : spec_float;
  mm_Clicks : Z;
  mm_ClickIntervalsMs : list Z
}.
Record ScrollMetrics := MkScrollMetrics { sm_Events : Z; sm_MaxY : Z }.
Record VisibilityMetrics := MkVisibilityMetrics { vm_HiddenMs : Z; vm_VisibleMs : Z }.
Record ResourceMetrics := MkResourceMetrics {
  rm_CSS : Z; rm_Image : Z; rm_Font : Z; rm_Script : Z; rm_XHR : Z
}.
Record BehaviorBeacon := MkBehaviorBeacon {
  bb_SessionID : string;
  bb_Timestamp : Z;
  bb_Mouse : MouseMetrics;
  bb_Scroll : ScrollMetrics;
  bb_Visibility : VisibilityMetrics;
  bb_ResourceFetches : ResourceMetrics
}.

(** ** fingerprint.go *)
Record NavigatorProbe := MkNavigatorProbe {
  nv_UserAgent : string;
  nv_Platform : string;
  nv_Vendor : string;
  nv_Languages : list string;
  nv_Language : string;
  nv_HardwareConcurrency : Z;
  nv_DeviceMemory : spec_float;
  nv_Webdriver : bool;
  nv_Plugins : list string;
  nv_MimeTypes : list string;
  nv_Oscpu : string;
  nv_Product : string;
  nv_ProductSub : string
}.
Record WebGLProbe := MkWebGLProbe {
  wg_Vendor : string;
  wg_Renderer : string;
  wg_UnmaskedVendor : string;
  wg_UnmaskedRenderer : string;
  wg_Version : string;
  wg_ShadingLanguageVer : string;
  wg_Extensions : list string;
  wg_MaxTextureSize : Z;
  wg_MaxAnisotropy : spec_float
}.
Record CanvasProbe := MkCanvasProbe { cv_Hashes : list string; cv_Variance : Z }.
Record AudioProbe := MkAudioProbe { au_Hashes : list string; au_Variance : Z }.
Record CodecsProbe := MkCodecsProbe { cd_Common : gmap string string; cd_Rare : gmap string string }.
Record FontsProbe := MkFontsProbe {
  fo_DetectedCount : Z; fo_Detected : list string; fo_MissingOSBundled : list string
}.
Record WindowProbe := MkWindowProbe {
  wi_InnerWidth : Z; wi_InnerHeight : Z; wi_OuterWidth : Z; wi_OuterHeight : Z;
  wi_ScreenWidth : Z; wi_ScreenHeight : Z; wi_DevicePixelRatio : spec_float;
  wi_ColorDepth : Z; wi_PixelDepth : Z
}.
Record ChromeProbe := MkChromeProbe {
  ch_Present : bool; ch_RuntimePresent : bool; ch_AppPresent : bool;
  ch_LoadTimesPresent : bool; ch_CsiPresent : bool; ch_RuntimeConnectError : string
}.
Record PermissionsProbe := MkPermissionsProbe {
  pe_NotificationsState : string; pe_MidiState : string; pe_CameraState : string
}.
Record WebRTCProbe := MkWebRTCProbe { wr_LocalIPs : list string; wr_PublicIP : string }.
Record DOMProbe := MkDOMProbe {
  do_IframeContentWindowIdentity : bool;
  do_ClosedShadowRootAccessible : bool;
  do_DocumentElementKeys : list string
}.
Record RuntimeProbe := MkRuntimeProbe {
  ru_FunctionToStringNative : bool;
  ru_ConsoleDebugArity : Z;
  ru_ConsoleDebugToString : string;
  ru_EvalLength : Z;
  ru_ErrorStackContainsPwSig : bool
}.
Record SpeechProbe := MkSpeechProbe { sp_VoicesCount : Z; sp_Voices : list string }.
Record ServiceWorkerProbe := MkServiceWorkerProbe {
  sw_Registered : bool; sw_Controller : bool; sw_Error : string
}.
Record HairlineProbe := MkHairlineProbe { ha_NonModernizrResult : Z }.
Record TimingProbe := MkTimingProbe {
  ti_CollectionDurationMs : Z; ti_NavigationStart : Z; ti_DomContentLoaded : Z
}.
Record FingerprintReport := MkFingerprintReport {
  fr_Version : Z;
  fr_Navigator : NavigatorProbe;
  fr_WebGL : WebGLProbe;
  fr_Canvas : CanvasProbe;
  fr_Audio : AudioProbe;
  fr_Codecs : CodecsProbe;
  fr_Fonts : FontsProbe;
  fr_Window : WindowProbe;
  fr_Chrome : ChromeProbe;
  fr_Permissions : PermissionsProbe;
  fr_WebRTC : WebRTCProbe;
  fr_DOM : DOMProbe;
  fr_Runtime : RuntimeProbe;
  fr_Speech : SpeechProbe;
  fr_ServiceWorker : ServiceWorkerProbe;
  fr_Hairline : HairlineProbe;
  fr_Timing : TimingProbe
}.

Example canonical_ex : CanonicalHeaderKey "x-request-ID" = "X-Request-Id".
Proof. reflexivity. Qed.
