(* ===== verification/GoHttp.v ===== *)
(** * Parts of [net/http]: cookies of a request, the request multiplexer *)

From S2P Require Import Prelude GoStrings GoStd GoUrl Types.
#[local] Open Scope Z_scope.

(** ** Cookies of a request *)

(** [textproto.TrimString] *)
Definition ascii_space (c : ascii) : bool := existsb (Z.eqb (acode c)) [32; 9; 10; 13].
Fixpoint trim_left (s : string) : string :=
  match s with
  | String c s' => if ascii_space c then trim_left s' else s
  | EmptyString => EmptyString
  end.
Fixpoint trim_right (s : string) : string :=
  match s with
  | EmptyString => EmptyString
  | String c s' =>
      match trim_right s' with
      | EmptyString => if ascii_space c then EmptyString else String c EmptyString
      | t => String c t
      end
  end.
Definition TrimString (s : string) : string := trim_right (trim_left s).

Definition isToken (s : string) : bool := negb (String.eqb s EmptyString) && all_token s.

(** [parseCookieValue(raw, true)]: surrounding double quotes are removed, then every byte must be valid. *)
Definition validCookieValueByte (c : ascii) : bool :=
  (32 <=? acode c) && (acode c <? 127) && negb (existsb (Z.eqb (acode c)) [34; 59; 92]).
Definition unquote_cookie (raw : string) : string :=
  if (1 <? slen raw) && HasPrefix raw dquote && HasSuffix raw dquote
  then stake (String.length raw - 2) (sdrop 1 raw) else raw.
Definition parseCookieValue (raw : string) : option string :=
  let raw := unquote_cookie raw in
  if all_bytes validCookieValueByte raw then Some raw else None.

(** One part of a Cookie line: the value if it is a well-formed cookie with the wanted name. *)
Definition cookie_value (name part : string) : option string :=
  let part := TrimString part in
  let '(n, v) := match Cut "=" part with Some p => p | None => (part, EmptyString) end in
  let n := TrimString n in
  if negb (isToken n) then None
  else if negb (String.eqb n name) then None
  else parseCookieValue v.

(** The values [readCookies] returns for a non-empty name, in order (Go 1.25.0: no limit on their number). *)
Definition readCookies (h : Header) (name : string) : list string :=
  flat_map (fun line => omap (cookie_value name) (Split ";" (TrimString line))) (header_Values h "Cookie").

(** [r.Cookie(name)] *)
Definition request_Cookie (r : Request) (name : string) : option string :=
  if String.eqb name EmptyString then None else head (readCookies (r_Header r) name).

(** ** [path.Clean] of a rooted path and the multiplexer's [cleanPath] *)
Definition clean_step (acc : list string) (seg : string) : list string :=
  if String.eqb seg EmptyString || String.eqb seg "." then acc
  else if String.eqb seg ".." then tail acc
  else seg :: acc.

(** The segments left, last first. *)
Definition clean_segments (p : string) : list string := fold_left clean_step (Split "/" p) [].

Definition path_Clean (p : string) : string := "/" +:+ Join (rev (clean_segments p)) "/".

Definition cleanPath (p : string) : string :=
  if String.eqb p EmptyString then "/"
  else
    let p := if HasPrefix p "/" then p else "/" +:+ p in
    let np := path_Clean p in
    if HasSuffix p "/" && negb (String.eqb np "/") then np +:+ "/" else np.

(** ** [http.ServeMux]

    A pattern without a method has the empty one; [GET] also stands for [HEAD].  Patterns are exact
    paths, but the root matches every path (a CONNECT request may have none).  The path is the URL's escaped path; segments are
    compared after unescaping, and an invalid escape is left as it is. *)
Record pattern (A : Type) := MkPattern { pat_method : string; pat_path : list string; pat_handler : A }.
Arguments MkPattern {A}.
Arguments pat_method {A}.
Arguments pat_path {A}.
Arguments pat_handler {A}.

Definition pathUnescape (s : string) : string := default s (url_unescape EncodeOther s).
Definition path_segments (path : string) : list string := map pathUnescape (tail (Split "/" path)).

Definition method_matches (want method : string) : bool :=
  String.eqb want EmptyString || String.eqb want method || (String.eqb want "GET" && String.eqb method "HEAD").

Inductive route (A : Type) :=
| Handled (a : A)
| MovedPermanently (target : string)
| MethodNotAllowed (allow : list string)
| NotFound
| BadRequest.
Arguments Handled {A}.
Arguments MovedPermanently {A}.
Arguments MethodNotAllowed {A}.
Arguments NotFound {A}.
Arguments BadRequest {A}.

(** The methods of the patterns for a path, sorted. *)
Definition matchingMethods {A} (ps : list (pattern A)) (segs : list string) : list string :=
  sort_Strings (flat_map (fun p =>
    if bool_decide (pat_path p = segs) then
      if String.eqb (pat_method p) "GET" then ["GET"; "HEAD"] else [pat_method p]
    else []) ps).

Definition mux_match {A} (ps : list (pattern A)) (root : option A) (method path : string) : route A :=
  let segs := path_segments path in
  if String.eqb path EmptyString then NotFound
  else
  match List.find (fun p => bool_decide (pat_path p = segs) && method_matches (pat_method p) method) ps, root with
  | Some p, _ => Handled (pat_handler p)
  | None, Some a => Handled a
  | None, None =>
      match matchingMethods ps segs with [] => NotFound | ms => MethodNotAllowed ms end
  end.

(** The text of a URL with the given path and raw query. *)
Definition redirect_text (path query : string) : string :=
  path_String path +:+ (if String.eqb query EmptyString then EmptyString else "?" +:+ query).

Definition ServeMux {A} (ps : list (pattern A)) (root : option A)
    (method requestURI escapedPath query : string) : route A :=
  if String.eqb requestURI "*" then BadRequest
  else if String.eqb method "CONNECT" then mux_match ps root method escapedPath
  else
    let path := cleanPath escapedPath in
    if negb (String.eqb path escapedPath) then MovedPermanently (redirect_text path query)
    else mux_match ps root method path.

Example cleanPath_ex : map cleanPath [""; "a"; "/"; "//a/./b/"; "/a/../../b"; "/a/b/.."; "/.."; "/a//"]
  = ["/"; "/a"; "/"; "/a/b/"; "/b"; "/a"; "/"; "/a/"].
Proof. vm_compute. reflexivity. Qed.

Definition cookie_header (lines : list string) : Header := {[ "Cookie" := lines ]}.
Example readCookies_ex :
  readCookies (cookie_header ["a=1; __as_pass=tok.en ; b=2"; "__as_pass=x y;__as_pass;=v;__as_pass=bad" +:+ backslash]) "__as_pass"
  = ["tok.en"; "x y"; ""].
Proof. vm_compute. reflexivity. Qed.

(** ** Reading back the cookies a browser sends *)
Definition cookie_octet (c : ascii) : bool := validCookieValueByte c && negb (ascii_space c).
Definition cookie_wf (p : string * string) : bool := isToken p.1 && all_bytes cookie_octet p.2.
Definition cookie_pair (p : string * string) : string := p.1 +:+ String "=" p.2.
Definition cookie_line (cs : list (string * string)) : string := Join (map cookie_pair cs) "; ".

Lemma token_char_plain c : token_char c = true -> ascii_space c = false /\ Ascii.eqb c "=" = false /\ Ascii.eqb ";" c = false.
Proof. destruct c as [[] [] [] [] [] [] [] []]; vm_compute; intros H; (discriminate H || auto). Qed.

Lemma cookie_octet_plain c :
  cookie_octet c = true -> ascii_space c = false /\ Ascii.eqb ";" c = false /\ validCookieValueByte c = true.
Proof. destruct c as [[] [] [] [] [] [] [] []]; vm_compute; intros H; (discriminate H || auto). Qed.

(** A text that ends in a byte other than a space. *)
Definition right_plain (s : string) : Prop := s <> EmptyString /\ trim_right s = s.

Lemma trim_right_append a b : right_plain b -> right_plain (a +:+ b).
Proof.
  intros [Hne Hb]. induction a as [|c a [IH1 IH2]]; [done|]. rewrite append_cons. split; [done|].
  cbn [trim_right]. rewrite IH2. by destruct (a +:+ b).
Qed.

Lemma octets_right_plain c v :
  ascii_space c = false -> all_bytes cookie_octet v = true -> right_plain (String c v).
Proof.
  revert c. induction v as [|d v IH]; intros c Hc Hv; (split; [done|]); cbn [trim_right].
  - by rewrite Hc.
  - cbn [all_bytes] in Hv. apply andb_true_iff in Hv as [Hd Hv]. apply cookie_octet_plain in Hd as (Hd & _ & _).
    destruct (IH d Hd Hv) as [_ E]. cbn [trim_right] in E. by rewrite E.
Qed.

Lemma cookie_pair_right p : cookie_wf p = true -> right_plain (cookie_pair p).
Proof. intros [_ Hv]%andb_true_iff. by apply trim_right_append, octets_right_plain. Qed.

Lemma trim_left_token n t : isToken n = true -> trim_left (n +:+ t) = n +:+ t.
Proof.
  destruct n as [|c n]; [done|]. unfold isToken. cbn [String.eqb negb andb all_token]. intros [Hc _]%andb_true_iff.
  apply token_char_plain in Hc as (Hc & _). rewrite append_cons. cbn [trim_left]. by rewrite Hc.
Qed.

Lemma TrimString_pair p : cookie_wf p = true -> TrimString (cookie_pair p) = cookie_pair p.
Proof.
  intros Hp. unfold TrimString. pose proof Hp as [Hn _]%andb_true_iff.
  unfold cookie_pair at 1. rewrite trim_left_token by done. apply (cookie_pair_right p Hp).
Qed.

Lemma cookie_line_cons p q cs : cookie_line (p :: q :: cs) = cookie_pair p +:+ String ";" (String " " (cookie_line (q :: cs))).
Proof. reflexivity. Qed.

Lemma cookie_line_right cs : cs <> [] -> forallb cookie_wf cs = true -> right_plain (cookie_line cs).
Proof.
  induction cs as [|p cs IH]; [done|]. cbn [forallb]. intros _ [Hp Hcs]%andb_true_iff.
  destruct cs as [|q cs]; [by apply cookie_pair_right|]. rewrite cookie_line_cons.
  apply trim_right_append. destruct (IH ltac:(done) Hcs) as [Hne E].
  apply (trim_right_append "; "). by split.
Qed.

Lemma TrimString_line cs : cs <> [] -> forallb cookie_wf cs = true -> TrimString (cookie_line cs) = cookie_line cs.
Proof.
  intros Hne Hcs. unfold TrimString. destruct cs as [|[n v] cs]; [done|].
  assert (exists t, cookie_line ((n, v) :: cs) = n +:+ t) as [t Ht].
  { destruct cs as [|q cs]; [by eexists|]. rewrite cookie_line_cons. unfold cookie_pair. cbn [fst snd].
    rewrite append_assoc. by eexists. }
  pose proof Hcs as Hn. cbn [forallb] in Hn. apply andb_true_iff in Hn as [[Hn _]%andb_true_iff _]. cbn [fst] in Hn.
  rewrite Ht, trim_left_token, <- Ht by done. by apply cookie_line_right.
Qed.

Lemma token_no_byte n : all_token n = true -> no_byte ";" n.
Proof.
  induction n as [|c n IH]; [done|]. cbn [all_token no_byte]. intros [Hc Hn]%andb_true_iff.
  apply token_char_plain in Hc as (_ & _ & ->). by apply IH.
Qed.

Lemma octets_no_byte v : all_bytes cookie_octet v = true -> no_byte ";" v.
Proof.
  induction v as [|c v IH]; [done|]. cbn [all_bytes no_byte]. intros [Hc Hv]%andb_true_iff.
  apply cookie_octet_plain in Hc as (_ & -> & _). by apply IH.
Qed.

Lemma cookie_pair_no_byte p : cookie_wf p = true -> no_byte ";" (cookie_pair p).
Proof.
  unfold cookie_wf, isToken. rewrite !andb_true_iff. intros [[_ Hn] Hv]. unfold cookie_pair.
  rewrite no_byte_append. apply andb_prop_intro; split; [by apply token_no_byte|by apply octets_no_byte].
Qed.

Lemma Split_space s : exists w ws, Split ";" s = w :: ws /\ Split ";" (String " " s) = String " " w :: ws.
Proof.
  assert (exists w ws, Split ";" s = w :: ws) as (w & ws & E).
  { destruct s as [|c s]; [by eexists _, _|]. cbn. destruct (Ascii.eqb c ";"); [by eexists _, _|].
    destruct (Split ";" s); by eexists _, _. }
  exists w, ws. split; [done|]. cbn. by rewrite E.
Qed.

(** The parts of a cookie line, trimmed, are its pairs. *)
Lemma cookie_line_parts cs :
  cs <> [] -> forallb cookie_wf cs = true -> map TrimString (Split ";" (cookie_line cs)) = map cookie_pair cs.
Proof.
  induction cs as [|p cs IH]; [done|]. cbn [forallb]. intros _ [Hp Hcs]%andb_true_iff.
  destruct cs as [|q cs].
  - change (cookie_line [p]) with (cookie_pair p). rewrite Split_no_byte by by apply cookie_pair_no_byte.
    cbn. by rewrite TrimString_pair.
  - rewrite cookie_line_cons, Split_append by by apply cookie_pair_no_byte.
    destruct (Split_space (cookie_line (q :: cs))) as (w & ws & E1 & E2). specialize (IH ltac:(done) Hcs).
    rewrite E2. rewrite E1 in IH. cbn [map] in *. rewrite TrimString_pair by done. f_equal. exact IH.
Qed.

Lemma Cut_pair n v : all_token n = true -> Cut "=" (n +:+ String "=" v) = Some (n, v).
Proof.
  induction n as [|c n IH]; [done|]. rewrite append_cons. cbn [all_token Cut]. intros [Hc Hn]%andb_true_iff.
  apply token_char_plain in Hc as (_ & -> & _). by rewrite IH.
Qed.

Lemma trim_token n : isToken n = true -> TrimString n = n.
Proof.
  intros Hn. unfold TrimString. rewrite <- (append_nil_r n) at 1. rewrite trim_left_token, append_nil_r by done.
  unfold isToken in Hn. apply andb_true_iff in Hn as [Hne Hn]. clear Hne.
  induction n as [|c n IH]; [done|]. cbn [all_token] in Hn. apply andb_true_iff in Hn as [Hc Hn]. cbn [trim_right].
  rewrite IH by done. apply token_char_plain in Hc as (-> & _). by destruct n.
Qed.

Lemma octets_valid v : all_bytes cookie_octet v = true -> parseCookieValue v = Some v.
Proof.
  intros Hv. assert (unquote_cookie v = v) as E.
  { unfold unquote_cookie. destruct (HasPrefix v dquote) eqn:Ep; [|by rewrite andb_false_r].
    apply HasPrefix_iff in Ep as [t ->]. exfalso. change (dquote +:+ t) with (String "034" t) in Hv. discriminate Hv. }
  unfold parseCookieValue. rewrite E. replace (all_bytes validCookieValueByte v) with true; [done|]. symmetry. clear E.
  induction v as [|c v IH]; [done|]. cbn [all_bytes] in *. apply andb_true_iff in Hv as [Hc Hv].
  apply cookie_octet_plain in Hc as (_ & _ & ->). by apply IH.
Qed.

Lemma cookie_value_pair name part p :
  TrimString part = cookie_pair p -> cookie_wf p = true -> cookie_value name part = if String.eqb p.1 name then Some p.2 else None.
Proof.
  intros Hp. unfold cookie_wf. intros [Hn Hv]%andb_true_iff. unfold cookie_value. rewrite Hp. unfold cookie_pair.
  rewrite Cut_pair by by apply andb_true_iff in Hn as [_ Hn]. rewrite trim_token, Hn by done. cbn [negb].
  destruct (String.eqb p.1 name); [|done]. cbn [negb]. by apply octets_valid.
Qed.

(** The values a server reads are those the browser sent under the name. *)
Lemma readCookies_line h name cs :
  name <> EmptyString -> forallb cookie_wf cs = true -> cs <> [] -> header_Values h "Cookie" = [cookie_line cs] ->
  readCookies h name = (List.filter (fun p => String.eqb p.1 name) cs).*2.
Proof.
  intros _ Hw Hne Hh. unfold readCookies. rewrite Hh. cbn [flat_map]. rewrite app_nil_r, TrimString_line by done.
  pose proof (cookie_line_parts cs Hne Hw) as Hp. clear Hh Hne. revert Hw Hp. generalize (Split ";" (cookie_line cs)) as parts.
  induction cs as [|p cs IH]; intros [|part parts] Hw Hp; try done. cbn [map forallb] in *.
  injection Hp as Hp Hps. apply andb_true_iff in Hw as [Hw Hws].
  cbn [omap list_omap]. rewrite (cookie_value_pair name part p Hp Hw). cbn [List.filter]. specialize (IH parts Hws Hps).
  destruct (String.eqb p.1 name); cbn [fmap list_fmap]; [f_equal|]; exact IH.
Qed.

Lemma request_Cookie_line r name cs pre v post :
  name <> EmptyString -> forallb cookie_wf cs = true -> header_Values (r_Header r) "Cookie" = [cookie_line cs] ->
  cs = pre ++ (name, v) :: post -> Forall (fun p => p.1 <> name) pre -> request_Cookie r name = Some v.
Proof.
  intros Hn Hw Hh -> Hpre. unfold request_Cookie. destruct (String.eqb_spec name EmptyString); [done|].
  rewrite (readCookies_line _ _ _ Hn Hw ltac:(by destruct pre) Hh), List.filter_app, fmap_app.
  replace (List.filter (fun p => String.eqb p.1 name) pre) with (@nil (string * string)).
  - cbn. by rewrite String.eqb_refl.
  - symmetry. clear Hw Hh. induction Hpre as [|p pre Hp _ IH]; [done|]. cbn. by destruct (String.eqb_spec p.1 name).
Qed.
