(* ===== verification/Decision.v ===== *)
(** * Package [internal/decision]: the score combiner and verdict *)

From S2P Require Import Prelude GoStrings Types.
#[local] Open Scope Z_scope.

Definition defaultDenyThreshold : Z := 80.
Definition defaultChallengeThreshold : Z := 50.

(** [type Action string]: an action coming from a policy is an arbitrary string. *)
Definition ActionAllow : string := "allow".
Definition ActionChallenge : string := "challenge".
Definition ActionDeny : string := "deny".
Definition ActionNone : string := "".

Record EvalResult := MkEvalResult { er_Action : string; er_RuleName : string }.

Record RequestInfo := MkRequestInfo {
  ri_Method : string;
  ri_Path : string;
  ri_Host : string;
  ri_UserAgent : string;
  ri_RemoteIP : string;
  ri_JA3 : string;
  ri_JA4 : string;
  ri_IPCategory : string
}.

Record EvalCtx := MkEvalCtx {
  ec_Score : Z;
  ec_Signals : gmap string Signal;
  ec_RequestInfo : RequestInfo;
  ec_HasValidToken : bool
}.

(** The weighting loop: a signal named in the weights takes its weight as score. *)
Definition weigh1 (weights : gmap string Z) (s : Signal) : Signal :=
  match weights !! sig_Name s with
  | Some w => set_Score s w
  | None => s
  end.
Definition weigh (policy : option PolicyConfig) (signals : list Signal) : list Signal :=
  match policy with
  | Some p =>
      if (0 <? Z.of_nat (size (sc_Weights (pc_Scoring p))))
      then map (weigh1 (sc_Weights (pc_Scoring p))) signals
      else signals
  | None => signals
  end.

(** The summation loop, on [int], and the clamp to [0, 100]. *)
Definition sum_scores (signals : list Signal) : Z :=
  fold_left (fun total s => wrap64 (total + sig_Score s)) signals 0.
Definition clamp (total : Z) : Z :=
  let total := if total <? 0 then 0 else total in
  if 100 <? total then 100 else total.

Definition deny_threshold (policy : option PolicyConfig) : Z :=
  match policy with
  | Some p => if 0 <? sc_DenyThreshold (pc_Scoring p) then sc_DenyThreshold (pc_Scoring p)
              else defaultDenyThreshold
  | None => defaultDenyThreshold
  end.
Definition challenge_threshold (policy : option PolicyConfig) : Z :=
  match policy with
  | Some p => if 0 <? sc_ChallengeThreshold (pc_Scoring p) then sc_ChallengeThreshold (pc_Scoring p)
              else defaultChallengeThreshold
  | None => defaultChallengeThreshold
  end.

(** [sigMap]: a later signal of the same name replaces an earlier one. *)
Definition signal_map (signals : list Signal) : gmap string Signal :=
  fold_left (fun m s => <[sig_Name s := s]> m) signals ∅.

Definition verdict_of_action (action : string) : Verdict :=
  if decide (action = ActionAllow) then VerdictAllow
  else if decide (action = ActionDeny) then VerdictDeny
  else VerdictChallenge.

Definition evalDecision (now : Z) (action ruleName : string) (score : Z) (signals : list Signal) : Decision :=
  {| d_Verdict := verdict_of_action action;
     d_Score := score;
     d_Signals := signals;
     d_Reasons := [ruleName];
     d_PolicyName := ruleName;
     d_Timestamp := now;
     d_RequestID := "" |}.

Definition threshold_decision (now deny chal total : Z) (weighted : list Signal) : Decision :=
  let mk v name := {| d_Verdict := v; d_Score := total; d_Signals := weighted; d_Reasons := [];
                      d_PolicyName := name; d_Timestamp := now; d_RequestID := "" |} in
  if deny <=? total then mk VerdictDeny "threshold_deny"
  else if chal <=? total then mk VerdictChallenge "threshold_challenge"
  else mk VerdictAllow "threshold_allow".

(** [now] is the value of [time.Now().UnixNano()]. *)
Definition Combine (now : Z) (signals : list Signal) (policy : option PolicyConfig)
    (requestInfo : RequestInfo) (hasValidToken : bool)
    (evalFn : option (EvalCtx -> EvalResult)) : Decision :=
  let weighted := weigh policy signals in
  let total := clamp (sum_scores weighted) in
  let denyThreshold := deny_threshold policy in
  let challengeThreshold := challenge_threshold policy in
  if hasValidToken && (total <? denyThreshold) then
    {| d_Verdict := VerdictAllow; d_Score := total; d_Signals := weighted;
       d_Reasons := ["token_bypass"]; d_PolicyName := "token_bypass";
       d_Timestamp := now; d_RequestID := "" |}
  else
    let fallback := threshold_decision now denyThreshold challengeThreshold total weighted in
    match evalFn with
    | Some f =>
        let ctx := {| ec_Score := total; ec_Signals := signal_map weighted;
                      ec_RequestInfo := requestInfo; ec_HasValidToken := hasValidToken |} in
        let result := f ctx in
        if decide (er_Action result = ActionNone) then fallback
        else evalDecision now (er_Action result) (er_RuleName result) total weighted
    | None => fallback
    end.

(** ** Lemmas *)

Lemma clamp_range z : 0 <= clamp z <= 100.
Proof. unfold clamp. destruct (z <? 0) eqn:?; case_match; lia. Qed.

Lemma clamp_spec z : clamp z = Z.max 0 (Z.min 100 z).
Proof. unfold clamp. destruct (z <? 0) eqn:?; case_match; lia. Qed.

(** The sum without overflow. *)
Definition zsum (signals : list Signal) : Z := foldr (fun s acc => sig_Score s + acc) 0 signals.

Lemma wrap64_add_l a b : wrap64 (wrap64 a + b) = wrap64 (a + b).
Proof.
  unfold wrap64. f_equal.
  replace ((a + 2 ^ 63) `mod` 2 ^ 64 - 2 ^ 63 + b + 2 ^ 63) with ((a + 2 ^ 63) `mod` 2 ^ 64 + b) by lia.
  rewrite Zplus_mod_idemp_l. f_equal. lia.
Qed.

(** The summation loop computes the sum modulo 2^64, whatever wraps on the way. *)
Lemma sum_scores_wrap signals : sum_scores signals = wrap64 (zsum signals).
Proof.
  unfold sum_scores.
  assert (H : forall acc, fold_left (fun total s => wrap64 (total + sig_Score s)) signals (wrap64 acc)
              = wrap64 (acc + zsum signals)).
  { induction signals as [|s l IH]; intros acc; simpl.
    - by rewrite Z.add_0_r.
    - rewrite wrap64_add_l, IH. f_equal. lia. }
  rewrite <- (wrap64_small 0) at 1 by (unfold in_int, int_min, int_max; lia). by rewrite H.
Qed.

Lemma zsum_app a b : zsum (a ++ b) = zsum a + zsum b.
Proof. induction a as [|s a IH]; simpl; lia. Qed.

#[export] Instance zsum_Proper : Proper (Permutation ==> eq) zsum.
Proof. intros l k H. induction H; simpl; lia. Qed.

#[export] Instance weigh_Proper : Proper (eq ==> Permutation ==> Permutation) weigh.
Proof.
  intros p ? <- l k H. unfold weigh. destruct p as [p|]; [|done].
  case_match; [|done]. by apply Permutation_map.
Qed.

Lemma signal_map_foldr (l : list Signal) (m : gmap string Signal) :
  fold_left (fun m s => <[sig_Name s := s]> m) l m
  = list_to_map (reverse ((fun s => (sig_Name s, s)) <$> l)) ∪ m.
Proof.
  revert m. induction l as [|s l IH]; intros m; simpl.
  - by rewrite (left_id_L ∅ (∪)).
  - rewrite IH, reverse_cons, list_to_map_app. simpl.
    rewrite <- (assoc_L (∪)). f_equal. rewrite insert_union_singleton_l. f_equal.
Qed.

(** With distinct names, the signal map does not depend on the order of the signals. *)
Lemma signal_map_perm l k :
  NoDup (sig_Name <$> l) -> l ≡ₚ k -> signal_map l = signal_map k.
Proof.
  intros Hnd Hp. unfold signal_map. rewrite !signal_map_foldr, !(right_id_L ∅ (∪)).
  apply list_to_map_proper.
  - rewrite reverse_Permutation, <- list_fmap_compose. done.
  - by rewrite !reverse_Permutation, Hp.
Qed.

Lemma weigh_names p l : sig_Name <$> weigh p l = sig_Name <$> l.
Proof.
  unfold weigh. destruct p as [p|]; [|done]. case_match; [|done].
  rewrite <- (list_fmap_compose (weigh1 _)). apply list_fmap_ext. intros i s _. simpl.
  unfold weigh1. by case_match.
Qed.

(** ** Properties *)
Section Properties.
Context (now : Z) (signals : list Signal) (policy : option PolicyConfig).
Context (info : RequestInfo) (tok : bool) (evalFn : option (EvalCtx -> EvalResult)).

(** What the policy answers for the context [Combine] builds: [ActionNone] without a policy. *)
Definition rule_action : string :=
  match evalFn with
  | None => ActionNone
  | Some f =>
      let w := weigh policy signals in
      er_Action (f {| ec_Score := clamp (sum_scores w); ec_Signals := signal_map w;
                      ec_RequestInfo := info; ec_HasValidToken := tok |})
  end.

Lemma combine_score_clamp :
  d_Score (Combine now signals policy info tok evalFn) = clamp (sum_scores (weigh policy signals)).
Proof. unfold Combine, threshold_decision, evalDecision. repeat case_match; done. Qed.

Lemma combine_signals :
  d_Signals (Combine now signals policy info tok evalFn) = weigh policy signals.
Proof. unfold Combine, threshold_decision, evalDecision. repeat case_match; done. Qed.

(** The verdict as a function of the score, the token and the policy's answer. *)
Lemma combine_verdict :
  let d := Combine now signals policy info tok evalFn in
  d_Verdict d =
    if tok && (d_Score d <? deny_threshold policy) then VerdictAllow
    else if decide (rule_action = ActionNone) then
      if deny_threshold policy <=? d_Score d then VerdictDeny
      else if challenge_threshold policy <=? d_Score d then VerdictChallenge else VerdictAllow
    else verdict_of_action rule_action.
Proof.
  cbv zeta. rewrite combine_score_clamp. unfold Combine, rule_action, threshold_decision.
  destruct (tok && _); [done|]. destruct evalFn as [f|].
  - case_decide; [repeat case_match; done|done].
  - rewrite decide_True by done. repeat case_match; done.
Qed.
End Properties.

Definition severity (v : Verdict) : Z :=
  match v with VerdictAllow => 0 | VerdictChallenge => 1 | VerdictDeny => 2 end.

Lemma clamp_mono a b : a <= b -> clamp a <= clamp b.
Proof. rewrite !clamp_spec. lia. Qed.

(** Why a decision allows. *)
Lemma combine_allowed now sigs p info tok f :
  d_Verdict (Combine now sigs p info tok f) = VerdictAllow ->
  let score := clamp (sum_scores (weigh p sigs)) in
  let rule := rule_action sigs p info tok f in
  (tok = true /\ score < deny_threshold p) \/ rule = ActionAllow
  \/ (rule = ActionNone /\ score < deny_threshold p /\ score < challenge_threshold p).
Proof.
  rewrite combine_verdict. cbv zeta. rewrite combine_score_clamp. destruct (tok && _) eqn:E.
  { intros _. left. apply andb_true_iff in E as [-> ?]. lia. }
  case_decide; [|unfold verdict_of_action; repeat case_decide; by auto].
  destruct (deny_threshold p <=? _) eqn:?; [done|]. destruct (challenge_threshold p <=? _) eqn:?; [done|]. intros _. right. right.
  split; [done|lia].
Qed.

(** C2: a request is allowed exactly when a valid pass token accompanies a score below the
    deny threshold, or the policy answers "allow", or the policy has no answer and the score
    is below both thresholds.  In particular a score at or above the deny threshold is only
    let through by an explicit "allow" of the policy, token or not.  This is what the code does; the
    documentation (docs/05-policy-reference.md, [scoring], and policies/README.md) calls both thresholds
    informational and says that only [policy.rules] enforce, which is not so for a request with a token or
    without an answer of the policy. *)
Theorem combine_allow_iff now signals policy info tok evalFn :
  let d := Combine now signals policy info tok evalFn in
  let rule := rule_action signals policy info tok evalFn in
  d_Verdict d = VerdictAllow <->
    (tok = true /\ d_Score d < deny_threshold policy)
    \/ rule = ActionAllow
    \/ (rule = ActionNone /\ d_Score d < deny_threshold policy
        /\ d_Score d < challenge_threshold policy).
Proof.
  cbv zeta. rewrite combine_score_clamp. split; [apply combine_allowed|].
  rewrite combine_verdict, combine_score_clamp. cbv zeta. intros [[-> Hd]|[->|(-> & Hd & Hc)]].
  - cbn. by replace (_ <? _) with true by lia.
  - destruct (tok && _); [done|]. unfold verdict_of_action. by repeat case_decide.
  - destruct (tok && _); [done|]. case_decide; [|done].
    by replace (deny_threshold policy <=? _) with false by lia; replace (challenge_threshold policy <=? _) with false by lia.
Qed.

(** C7: the reported score is the sum of the weighted signal scores clamped to [0, 100],
    whenever that sum fits an [int]; intermediate overflow in the loop does not matter. *)
Theorem combine_score_exact now signals policy info tok evalFn :
  in_int (zsum (weigh policy signals)) ->
  d_Score (Combine now signals policy info tok evalFn)
  = Z.max 0 (Z.min 100 (zsum (weigh policy signals))).
Proof. intros H. by rewrite combine_score_clamp, sum_scores_wrap, wrap64_small, clamp_spec. Qed.

(** Without policy rules, more evidence never softens the verdict: if the weighted score
    sum of one request is at most that of another, so is the severity of the verdict. *)
Theorem combine_monotone now now' l l' policy info info' tok :
  in_int (zsum (weigh policy l)) -> in_int (zsum (weigh policy l')) ->
  zsum (weigh policy l) <= zsum (weigh policy l') ->
  severity (d_Verdict (Combine now l policy info tok None))
  <= severity (d_Verdict (Combine now' l' policy info' tok None)).
Proof.
  intros H H' Hle. rewrite !combine_verdict, !combine_score_clamp, !sum_scores_wrap.
  rewrite !wrap64_small by done. apply clamp_mono in Hle.
  unfold rule_action. rewrite !decide_True by done.
  destruct tok; simpl; repeat case_match; simpl; lia.
Qed.

(** The order in which the collectors' signals arrive does not matter: for signals with
    distinct names, a permutation changes neither verdict, score, reasons nor policy name. *)
Theorem combine_order_irrelevant now l l' policy info tok evalFn :
  NoDup (sig_Name <$> l) -> l ≡ₚ l' ->
  let d := Combine now l policy info tok evalFn in
  let d' := Combine now l' policy info tok evalFn in
  d_Verdict d = d_Verdict d' /\ d_Score d = d_Score d' /\ d_Reasons d = d_Reasons d'
  /\ d_PolicyName d = d_PolicyName d' /\ d_Signals d ≡ₚ d_Signals d'.
Proof.
  intros Hnd Hp.
  assert (Hw : weigh policy l ≡ₚ weigh policy l') by (by rewrite Hp).
  assert (Hm : signal_map (weigh policy l) = signal_map (weigh policy l')).
  { apply signal_map_perm; [by rewrite weigh_names|done]. }
  assert (Hs : sum_scores (weigh policy l) = sum_scores (weigh policy l')).
  { rewrite !sum_scores_wrap. by rewrite Hw. }
  cbv zeta. rewrite !combine_signals. unfold Combine. rewrite Hs, Hm.
  unfold threshold_decision, evalDecision. repeat case_match; done.
Qed.

(** ** Witnesses *)
Definition sample_policy : PolicyConfig := {|
  pc_Version := 1;
  pc_Listener := MkListenerConfig ":8080" "http://upstream:3000" None;
  pc_Token := MkTokenConfig "token.key" "24h" ["ip"; "ua"];
  pc_Policy := MkPolicySection "challenge" [];
  pc_Scoring := MkScoringConfig {["tor_exit" := 50; "mobile_ip" := -5]} 40 80;
  pc_Challenge := MkChallengeConfig 4 true;
  pc_Cache := MkCacheConfig "memory" None 60
|}.
Definition sample_info : RequestInfo := MkRequestInfo "GET" "/" "h" "curl/8" "198.51.100.7" "" "" "".
Definition tor_signal : Signal := MkSignal "tor_exit" 10 "tor" ∅.
Definition dc_signal : Signal := MkSignal "datacenter_ip" 30 "dc" ∅.

Lemma combine_score_exact_witness :
  d_Score (Combine 0 [tor_signal; dc_signal] (Some sample_policy) sample_info true None) = 80.
Proof.
  rewrite (combine_score_exact 0 [tor_signal; dc_signal] (Some sample_policy) sample_info true None).
  - vm_compute. reflexivity.
  - vm_compute. split; discriminate.
Defined.

Lemma combine_monotone_witness :
  severity (d_Verdict (Combine 0 [dc_signal] (Some sample_policy) sample_info false None))
  <= severity (d_Verdict (Combine 1 [tor_signal; dc_signal] (Some sample_policy) sample_info false None)).
Proof.
  apply (combine_monotone 0 1 [dc_signal] [tor_signal; dc_signal] (Some sample_policy)
           sample_info sample_info false); vm_compute; try split; discriminate.
Defined.

Lemma combine_order_irrelevant_witness :
  d_Verdict (Combine 0 [tor_signal; dc_signal] (Some sample_policy) sample_info false None)
  = d_Verdict (Combine 0 [dc_signal; tor_signal] (Some sample_policy) sample_info false None).
Proof.
  apply (combine_order_irrelevant 0 [tor_signal; dc_signal] [dc_signal; tor_signal]
           (Some sample_policy) sample_info false None).
  - apply (bool_decide_unpack _). vm_compute. exact I.
  - apply Permutation_swap.
Defined.
