(* ===== verification/Policy.v ===== *)
(** * Package [internal/policy]: rule compiler, evaluator and configuration validator

    The CEL library is a parameter: the class [CEL] holds the environment, the compiler and
    the evaluator the package calls. *)

From S2P Require Import Prelude GoStrings GoStd JsonText Types.
#[local] Open Scope Z_scope.

(** ** evaluator.go: data *)
Definition Action : Type := string.
Definition ActionAllow : Action := "allow".
Definition ActionChallenge : Action := "challenge".
Definition ActionDeny : Action := "deny".

Record RequestInfo := MkPolicyRequestInfo {
  pri_Method : string; pri_Path : string; pri_Host : string; pri_UserAgent : string
}.
Record IPInfo := MkIPInfo { ipi_Address : string; ipi_Category : string; ipi_ASN : string }.
Record EvaluationContext := MkEvaluationContext {
  evc_Request : RequestInfo;
  evc_IP : IPInfo;
  evc_JA3 : string;
  evc_JA4 : string;
  evc_Score : Z;
  evc_HasValidToken : bool;
  evc_Signals : gmap string Z
}.

(** The values of the activation map. *)
Inductive act_value :=
| VStr (s : string)
| VInt (z : Z)
| VBool (b : bool)
| VStrMap (m : gmap string string)
| VIntMap (m : gmap string Z).

Definition buildActivation (ctx : EvaluationContext) : gmap string act_value :=
  let r := evc_Request ctx in
  let i := evc_IP ctx in
  list_to_map [
    ("request", VStrMap (list_to_map [("method", pri_Method r); ("path", pri_Path r);
                                      ("host", pri_Host r); ("user_agent", pri_UserAgent r)]));
    ("ip", VStrMap (list_to_map [("address", ipi_Address i); ("category", ipi_Category i);
                                 ("asn", ipi_ASN i)]));
    ("ja3", VStr (evc_JA3 ctx));
    ("ja4", VStr (evc_JA4 ctx));
    ("score", VInt (evc_Score ctx));
    ("has_valid_token", VBool (evc_HasValidToken ctx));
    ("signals", VIntMap (evc_Signals ctx))].

(** ** The CEL library

    [out.Value()] of an evaluation is a bool or a value of another Go type, of which the
    program uses only the name. *)
Inductive cel_out := OutBool (b : bool) | OutOther (type : string).

Class CEL := {
  cel_env : Type;
  cel_ast : Type;
  cel_program : Type;
  cel_NewEnv : outcome cel_env;
  cel_Compile : cel_env -> string -> outcome cel_ast;
  cel_Program : cel_env -> cel_ast -> outcome cel_program;
  cel_Eval : cel_program -> gmap string act_value -> outcome cel_out
}.

(** ** compiler.go *)

(** [traits.Lister] and its elements. *)
Definition as_list (v : any) : option (list any) :=
  match v with
  | AList l => Some l
  | AStrings l => Some (map AString l)
  | AInts l => Some (map AInt l)
  | _ => None
  end.

Definition family_pattern_matches (ja3Str : string) (v : any) : bool :=
  match v with
  | AString pattern =>
      match path_Match (TrimPrefix pattern "@") ja3Str with
      | Ok matched => matched
      | _ => false
      end
  | _ => false
  end.

Definition matchesFamilyBinding (lhs rhs : any) : bool :=
  match lhs with
  | AString ja3Str =>
      match as_list rhs with
      | Some l => existsb (family_pattern_matches ja3Str) l
      | None => false
      end
  | _ => false
  end.

Definition comparisonOps : list string := [">="; "<="; "!="; ">"; "<"; "=="].

Fixpoint parseScoreOps (ops : list string) (s : string) : outcome string :=
  match ops with
  | [] => Err ("invalid score comparison " +:+ Quote s +:+ ": must start with an operator (>=, <=, !=, >, <, ==)")
  | op :: ops =>
      if HasPrefix s op then
        let numStr := TrimSpace (sdrop (String.length op) s) in
        _ ← wrap_err ("invalid number in score comparison " +:+ Quote s) (Atoi numStr);
        Ok ("score " +:+ op +:+ " " +:+ numStr)
      else parseScoreOps ops s
  end.
Definition parseScoreExpr (s : string) : outcome string := parseScoreOps comparisonOps s.

Fixpoint string_elements (i : Z) (raw : list any) : outcome (list string) :=
  match raw with
  | [] => Ok []
  | AString s :: raw => rest ← string_elements (i + 1) raw; Ok (s :: rest)
  | v :: _ => Err ("element " +:+ Itoa i +:+ " is not a string, got " +:+ type_name v)
  end.

Definition toStringSlice (value : any) : outcome (list string) :=
  match value with
  | AList raw => string_elements 0 raw
  | _ => Err ("expected a list, got " +:+ type_name value)
  end.

Definition joinQuoted (ss : list string) : string := Join (map Quote ss) ", ".

Definition want_string {A} (key : string) (value : any) (k : string -> outcome A) : outcome A :=
  match value with
  | AString s => k s
  | _ => Err (dquote +:+ key +:+ dquote +:+ " value must be a string, got " +:+ type_name value)
  end.

Definition keyValueToExpr (key : string) (value : any) : outcome string :=
  if String.eqb key "expr" then want_string "expr" value (fun s => Ok s)
  else if String.eqb key "path" then
    want_string "path" value (fun s => Ok ("request.path == " +:+ Quote s))
  else if String.eqb key "path_prefix" then
    want_string "path_prefix" value (fun s => Ok ("request.path.startsWith(" +:+ Quote s +:+ ")"))
  else if String.eqb key "ja3_in" then
    list ← wrap_err (dquote +:+ "ja3_in" +:+ dquote +:+ " value") (toStringSlice value);
    Ok ("ja3.matches_family([" +:+ joinQuoted list +:+ "])")
  else if String.eqb key "score" then
    match value with
    | AString s => parseScoreExpr s
    | _ => Err (dquote +:+ "score" +:+ dquote +:+ " value must be a quoted comparison string like "
                +:+ dquote +:+ ">=50" +:+ dquote +:+ ", got " +:+ type_name value)
    end
  else if String.eqb key "ip_category" then
    want_string "ip_category" value (fun s => Ok ("ip.category == " +:+ Quote s))
  else if String.eqb key "has_valid_token" then
    match value with
    | ABool b => Ok (if b then "has_valid_token" else "!has_valid_token")
    | _ => Err (dquote +:+ "has_valid_token" +:+ dquote +:+ " value must be a bool, got " +:+ type_name value)
    end
  else Err ("unknown match key " +:+ Quote key).

Fixpoint exprs_of (mtch : gmap string any) (keys : list string) : outcome (list string) :=
  match keys with
  | [] => Ok []
  | key :: keys =>
      part ← keyValueToExpr key (default ANil (mtch !! key));
      parts ← exprs_of mtch keys;
      Ok (part :: parts)
  end.

Definition sorted_keys (mtch : gmap string any) : list string := sort_Strings (map_to_list mtch).*1.

Definition matchMapToExpr (mtch : gmap string any) : outcome string :=
  if Z.of_nat (size mtch) =? 0 then Ok "true"
  else parts ← exprs_of mtch (sorted_keys mtch); Ok (Join parts " && ").

Section policy.
Context {cel : CEL}.

Record CompiledRule := MkCompiledRule { cr_Rule : PolicyRule; cr_Program : cel_program }.

Definition compileRule (rule : PolicyRule) : outcome CompiledRule :=
  env ← wrap_err "CEL env" cel_NewEnv;
  expr ← wrap_err "match expression" (matchMapToExpr (pr_Match rule));
  ast ← wrap_err ("CEL compile " +:+ Quote expr) (cel_Compile env expr);
  prg ← wrap_err "CEL program" (cel_Program env ast);
  Ok (MkCompiledRule rule prg).

(** ** evaluator.go *)
Record Evaluator := MkEvaluator { ev_config : PolicyConfig; ev_rules : list CompiledRule }.

Fixpoint compile_rules (i : Z) (rules : list PolicyRule) : outcome (list CompiledRule) :=
  match rules with
  | [] => Ok []
  | rule :: rules =>
      cr ← wrap_err ("policy: compile rules[" +:+ Itoa i +:+ "] " +:+ Quote (pr_Name rule)) (compileRule rule);
      crs ← compile_rules (i + 1) rules;
      Ok (cr :: crs)
  end.

Definition NewEvaluator (cfg : PolicyConfig) : outcome Evaluator :=
  rules ← compile_rules 0 (ps_Rules (pc_Policy cfg));
  Ok (MkEvaluator cfg rules).

Fixpoint eval_rules (rules : list CompiledRule) (dflt : string) (activation : gmap string act_value)
    : outcome (Action * option PolicyRule) :=
  match rules with
  | [] => Ok (dflt, None)
  | cr :: rules =>
      out ← wrap_err ("policy: eval rule " +:+ Quote (pr_Name (cr_Rule cr))) (cel_Eval (cr_Program cr) activation);
      match out with
      | OutOther t => Err ("policy: rule " +:+ Quote (pr_Name (cr_Rule cr)) +:+ " returned non-bool: " +:+ t)
      | OutBool true => Ok (pr_Action (cr_Rule cr), Some (cr_Rule cr))
      | OutBool false => eval_rules rules dflt activation
      end
  end.

Definition Evaluate (e : Evaluator) (ctx : EvaluationContext) : outcome (Action * option PolicyRule) :=
  eval_rules (ev_rules e) (ps_Default (pc_Policy (ev_config e))) (buildActivation ctx).

(** ** loader.go *)
Definition validActions (a : string) : bool :=
  String.eqb a "allow" || String.eqb a "challenge" || String.eqb a "deny".

Definition action_hint : string :=
  " is invalid (must be " +:+ dquote +:+ "allow" +:+ dquote +:+ ", " +:+ dquote +:+ "challenge"
  +:+ dquote +:+ ", or " +:+ dquote +:+ "deny" +:+ dquote +:+ ")".

Fixpoint validate_rules (i : Z) (rules : list PolicyRule) : outcome unit :=
  match rules with
  | [] => Ok tt
  | rule :: rules =>
      let pos := "policy: rules[" +:+ Itoa i +:+ "] " +:+ Quote (pr_Name rule) in
      if negb (validActions (pr_Action rule))
      then Err (pos +:+ ": action " +:+ Quote (pr_Action rule) +:+ action_hint)
      else
        _ ← wrap_err pos (compileRule rule);
        validate_rules (i + 1) rules
  end.

Definition validateConfig (cfg : PolicyConfig) : outcome unit :=
  if pc_Version cfg =? 0 then Err ("policy: missing required field " +:+ dquote +:+ "version" +:+ dquote)
  else if negb (validActions (ps_Default (pc_Policy cfg)))
  then Err ("policy: policy.default " +:+ Quote (ps_Default (pc_Policy cfg)) +:+ action_hint)
  else
    _ ← (if negb (String.eqb (tc_TTL (pc_Token cfg)) EmptyString) then
           wrap_err ("policy: token.ttl " +:+ Quote (tc_TTL (pc_Token cfg))
             +:+ " is not a valid duration (e.g. " +:+ dquote +:+ "24h" +:+ dquote +:+ ", " +:+ dquote
             +:+ "30m" +:+ dquote +:+ ")") (ParseDuration (tc_TTL (pc_Token cfg)))
         else Ok 0);
    validate_rules 0 (ps_Rules (pc_Policy cfg)).

(** [parse], over the YAML decoder. *)
Definition parse (yaml_Unmarshal : list byte -> outcome PolicyConfig) (data : list byte) : outcome PolicyConfig :=
  cfg ← wrap_err "policy: YAML parse error" (yaml_Unmarshal data);
  _ ← validateConfig cfg;
  Ok cfg.

(** [file] is what reading [path] gives. *)
Definition Load (yaml_Unmarshal : list byte -> outcome PolicyConfig) (path : string) (file : outcome (list byte))
    : outcome PolicyConfig :=
  data ← wrap_err ("policy: cannot read " +:+ Quote path) file;
  parse yaml_Unmarshal data.
End policy.

(** ** String literals in the generated expressions

    A lexer for double-quoted CEL string literals, written from the CEL language
    definition: the literal's value (escapes name code points) and the text after it. *)
Definition hex_value (c : ascii) : option Z :=
  let n := Z.of_N (N_of_ascii c) in
  if (48 <=? n) && (n <=? 57) then Some (n - 48)
  else if (97 <=? n) && (n <=? 102) then Some (n - 87)
  else if (65 <=? n) && (n <=? 70) then Some (n - 55)
  else None.

Fixpoint hex_values (acc : Z) (l : list ascii) : option Z :=
  match l with
  | [] => Some acc
  | c :: l => match hex_value c with Some d => hex_values (16 * acc + d) l | None => None end
  end.

Definition simple_escape (c : ascii) : option Z :=
  if Ascii.eqb c "a" then Some 7 else if Ascii.eqb c "b" then Some 8
  else if Ascii.eqb c "f" then Some 12 else if Ascii.eqb c "n" then Some 10
  else if Ascii.eqb c "r" then Some 13 else if Ascii.eqb c "t" then Some 9
  else if Ascii.eqb c "v" then Some 11 else if Ascii.eqb c "092" then Some 92
  else if Ascii.eqb c "034" then Some 34 else None.

Definition lit_cons (v : list byte) (r : option (list byte * string)) : option (list byte * string) :=
  match r with Some (w, rest) => Some (v ++ w, rest) | None => None end.

Definition lit_point (digits : list ascii) (r : option (list byte * string)) : option (list byte * string) :=
  match hex_values 0 digits with Some z => lit_cons (Utf8.encode z) r | None => None end.

Fixpoint lit_body (s : string) : option (list byte * string) :=
  match s with
  | EmptyString => None
  | String c s1 =>
      if Ascii.eqb c "034" then Some ([], s1)
      else if Ascii.eqb c "010" || Ascii.eqb c "013" then None
      else if Ascii.eqb c "092" then
        match s1 with
        | EmptyString => None
        | String e s2 =>
            match simple_escape e with
            | Some z => lit_cons [byte_of_Z z] (lit_body s2)
            | None =>
                if Ascii.eqb e "x" then
                  match s2 with
                  | String h1 (String h2 s3) => lit_point [h1; h2] (lit_body s3)
                  | _ => None
                  end
                else if Ascii.eqb e "u" then
                  match s2 with
                  | String h1 (String h2 (String h3 (String h4 s3))) => lit_point [h1; h2; h3; h4] (lit_body s3)
                  | _ => None
                  end
                else if Ascii.eqb e "U" then
                  match s2 with
                  | String h1 (String h2 (String h3 (String h4
                      (String h5 (String h6 (String h7 (String h8 s3))))))) =>
                      lit_point [h1; h2; h3; h4; h5; h6; h7; h8] (lit_body s3)
                  | _ => None
                  end
                else None
            end
        end
      else lit_cons [byte_of_ascii c] (lit_body s1)
  end.

Definition cel_literal (s : string) : option (string * string) :=
  match s with
  | String c s => if Ascii.eqb c "034" then
                    match lit_body s with Some (v, rest) => Some (bytes_string v, rest) | None => None end
                  else None
  | EmptyString => None
  end.

(** What a literal needs of a decoded rune. *)
Definition lit_rune (p : Z * list byte) : Prop :=
  (exists b, p.2 = [b] /\ (byte_to_Z b < 128 -> p.1 = byte_to_Z b))
  \/ ((2 <= length p.2)%nat /\ Forall (fun b => 128 <= byte_to_Z b) p.2).

Lemma lit_runes bs : Forall lit_rune (Utf8.runes bs).
Proof.
  eapply Forall_impl; [apply runes_shape|]. intros p [(b & -> & _)|[(b & -> & Hb)|(b & c & raw & Hraw & Hhi & _)]].
  - left. by exists b.
  - left. exists b. split; [done|cbn; lia].
  - right. split; [rewrite Hraw; cbn; lia|done].
Qed.

Lemma hex_value_digit z : is_Some (hex_value (hex_digit z)).
Proof.
  unfold hex_digit. generalize (Z.to_nat z) as n. intros n.
  do 16 (destruct n as [|n]; [eexists; vm_compute; reflexivity|]).
  destruct n; eexists; vm_compute; reflexivity.
Qed.

Lemma hex_values_digits acc l : is_Some (hex_values acc (map hex_digit l)).
Proof.
  revert acc. induction l as [|z l IH]; intros acc; cbn; [by eexists|].
  destruct (hex_value_digit z) as [d ->]. apply IH.
Qed.

(** The steps of the lexer. *)
Definition plain_char (c : ascii) : bool :=
  negb (Ascii.eqb c "034" || Ascii.eqb c "010" || Ascii.eqb c "013" || Ascii.eqb c "092").

Lemma lit_body_plain c t :
  plain_char c = true -> lit_body (String c t) = lit_cons [byte_of_ascii c] (lit_body t).
Proof.
  unfold plain_char. intros H. apply negb_true_iff in H. repeat apply orb_false_iff in H as [H ?].
  cbn [lit_body]. by rewrite H, H0, H1, H2.
Qed.

Lemma lit_body_simple e z t :
  simple_escape e = Some z -> lit_body (String "092" (String e t)) = lit_cons [byte_of_Z z] (lit_body t).
Proof. intros H. cbn [lit_body]. by rewrite H. Qed.

Lemma lit_body_x h1 h2 t :
  lit_body (backslash +:+ "x" +:+ String h1 (String h2 t)) = lit_point [h1; h2] (lit_body t).
Proof. done. Qed.

Lemma lit_body_u h1 h2 h3 h4 t :
  lit_body (backslash +:+ "u" +:+ String h1 (String h2 (String h3 (String h4 t))))
  = lit_point [h1; h2; h3; h4] (lit_body t).
Proof. done. Qed.

Lemma lit_body_U h1 h2 h3 h4 h5 h6 h7 h8 t :
  lit_body (backslash +:+ "U" +:+ String h1 (String h2 (String h3 (String h4
    (String h5 (String h6 (String h7 (String h8 t))))))))
  = lit_point [h1; h2; h3; h4; h5; h6; h7; h8] (lit_body t).
Proof. done. Qed.

(** How [Quote] writes an ASCII byte: as itself, by a one-letter escape, or in hexadecimal. *)
Definition low_quote_ok (b : byte) : bool :=
  match quote_rune (byte_to_Z b, [b]) with
  | String c EmptyString => plain_char c && bool_decide (byte_of_ascii c = b)
  | String c (String e EmptyString) =>
      Ascii.eqb c "092" && bool_decide (simple_escape e = Some (byte_to_Z b))
  | String c (String x (String h1 (String h2 EmptyString))) =>
      Ascii.eqb c "092" && Ascii.eqb x "x" && bool_decide (hex_values 0 [h1; h2] = Some (byte_to_Z b))
  | _ => false
  end.

Lemma low_quote b : byte_to_Z b < 128 -> low_quote_ok b = true.
Proof. intros H. destruct b; solve [vm_compute; reflexivity | exfalso; revert H; vm_compute; congruence]. Qed.

Lemma lit_body_low b t : byte_to_Z b < 128 ->
  lit_body (quote_rune (byte_to_Z b, [b]) +:+ t) = lit_cons [b] (lit_body t).
Proof.
  intros Hb. pose proof (low_quote b Hb) as H. unfold low_quote_ok in H. pose proof (byte_to_Z_range b).
  destruct (quote_rune (byte_to_Z b, [b])) as [|c [|e [|h1 [|h2 [|]]]]]; try done; rewrite !append_cons, append_nil_l.
  - apply andb_true_iff in H as [Hc <-%bool_decide_eq_true]. by apply lit_body_plain.
  - apply andb_true_iff in H as [->%Ascii.eqb_eq H%bool_decide_eq_true].
    by rewrite (lit_body_simple _ _ _ H), byte_of_to_Z.
  - rewrite !andb_true_iff in H. destruct H as [[->%Ascii.eqb_eq ->%Ascii.eqb_eq] H%bool_decide_eq_true].
    etrans; [apply lit_body_x|]. unfold lit_point.
    by rewrite H, encode_ascii, byte_of_to_Z by lia.
Qed.

Lemma high_plain b : 128 <= byte_to_Z b -> plain_char (ascii_of_byte b) = true.
Proof. intros H. destruct b; solve [vm_compute; reflexivity | exfalso; revert H; vm_compute; congruence]. Qed.

Lemma lit_cons_nil r : lit_cons [] r = r.
Proof. by destruct r as [[? ?]|]. Qed.

Lemma lit_cons_app v w r : lit_cons v (lit_cons w r) = lit_cons (v ++ w) r.
Proof. destruct r as [[? ?]|]; [|done]. cbn. by rewrite (assoc_L (++)). Qed.

Lemma lit_body_high l t : Forall (fun b => 128 <= byte_to_Z b) l ->
  lit_body (bytes_string l +:+ t) = lit_cons l (lit_body t).
Proof.
  induction 1 as [|b l Hb _ IH]; [by rewrite lit_cons_nil|].
  change (bytes_string (b :: l)) with (String (ascii_of_byte b) (bytes_string l)).
  rewrite append_cons, lit_body_plain, IH, lit_cons_app, byte_of_ascii_of_byte by (by apply high_plain).
  done.
Qed.

Lemma lit_point_digits l r : exists v, lit_point (map hex_digit l) r = lit_cons v r.
Proof. unfold lit_point. destruct (hex_values_digits 0 l) as [z ->]. by eexists. Qed.

Lemma lit_body_escape r raw t :
  (exists b, raw = [b] /\ 128 <= byte_to_Z b) \/ (2 <= length raw)%nat /\ Forall (fun b => 128 <= byte_to_Z b) raw ->
  exists v, lit_body (quote_rune (r, raw) +:+ t) = lit_cons v (lit_body t).
Proof.
  intros [(b & -> & Hb)|[Hlen Hraw]].
  - unfold quote_rune. replace (128 <=? byte_to_Z b) with true by lia.
    rewrite !append_assoc. apply (lit_point_digits [byte_to_Z b / 16; byte_to_Z b mod 16]).
  - destruct raw as [|b0 [|b1 raw]]; [cbn in Hlen; lia..|]. cbn [quote_rune].
    case_match; [by exists (b0 :: b1 :: raw); apply lit_body_high|].
    case_match; rewrite !append_assoc.
    + apply (lit_point_digits [r / 16 / 16 / 16 mod 16; r / 16 / 16 mod 16; r / 16 mod 16; r mod 16]).
    + set (d := fun k : nat => (Nat.iter k (fun z => z / 16) r) mod 16).
      apply (lit_point_digits [d 7; d 6; d 5; d 4; d 3; d 2; d 1; d 0]%nat).
Qed.

Lemma lit_body_runes l t :
  Forall lit_rune l ->
  exists v, lit_body (fold_right (fun p acc => quote_rune p +:+ acc) EmptyString l +:+ t) = lit_cons v (lit_body t)
    /\ (Forall (fun p => exists b, p.2 = [b] /\ byte_to_Z b < 128) l -> v = flat_map snd l).
Proof.
  induction 1 as [|[r raw] l Hp _ (w & IH & IHa)]; cbn [fold_right].
  - exists []. split; [by rewrite lit_cons_nil, append_nil_l|done].
  - rewrite append_assoc.
    assert (Hcase : (exists b, raw = [b] /\ byte_to_Z b < 128 /\ r = byte_to_Z b)
      \/ ((exists b, raw = [b] /\ 128 <= byte_to_Z b)
          \/ (2 <= length raw)%nat /\ Forall (fun b => 128 <= byte_to_Z b) raw)).
    { destruct Hp as [(b & Hr & Hb)|?]; [|by right; right]. cbn in *.
      destruct (decide (byte_to_Z b < 128)); [left; eauto|right; left; exists b; split; [done|lia]]. }
    destruct Hcase as [(b & -> & Hb & ->)|Hesc].
    + exists (b :: w). rewrite lit_body_low, IH, lit_cons_app by done. split; [done|].
      intros [_ Hl]%Forall_cons. cbn. by rewrite IHa.
    + destruct (lit_body_escape r raw
        (fold_right (fun p acc => quote_rune p +:+ acc) EmptyString l +:+ t) Hesc) as [v Hv].
      exists (v ++ w). rewrite Hv, IH, lit_cons_app. split; [done|].
      intros [(b & Hb & Hlt) _]%Forall_cons. cbn in Hb. subst raw.
      destruct Hesc as [(b' & [= ->] & ?)|[? _]]; [lia|cbn in *; lia].
Qed.

Definition ascii_string (s : string) : Prop := forallb ascii_byte (string_bytes s) = true.

(** A quoted string followed by anything is read as one literal, and what follows is left
    alone; on ASCII text the value read is the string. *)
Lemma Quote_literal s rest :
  exists v, cel_literal (Quote s +:+ rest) = Some (v, rest) /\ (ascii_string s -> v = s).
Proof.
  unfold Quote. rewrite append_assoc.
  change (cel_literal (dquote +:+ ?x)) with
    (match lit_body x with Some (v, rest) => Some (bytes_string v, rest) | None => None end).
  rewrite append_assoc.
  destruct (lit_body_runes (Utf8.runes (string_bytes s)) (dquote +:+ rest) (lit_runes _)) as (v & Hv & Ha).
  rewrite Hv. exists (bytes_string v). change (lit_body (dquote +:+ rest)) with (Some (@nil byte, rest)).
  cbn [lit_cons]. rewrite app_nil_r. split; [done|]. intros Hs.
  rewrite Ha; rewrite runes_ascii by (by rewrite Hs).
  - rewrite <- (bytes_string_bytes s) at 2. f_equal. clear. induction (string_bytes s) as [|b l IH]; [done|].
    cbn. by rewrite IH.
  - apply Forall_map. rewrite List.Forall_forall. intros b Hb. exists b. split; [done|].
    unfold ascii_string in Hs. rewrite forallb_forall in Hs. specialize (Hs b Hb). unfold ascii_byte in Hs. lia.
Qed.

(** [n] literals separated by a comma and a space. *)
Fixpoint cel_literals (n : nat) (s : string) : option (list string * string) :=
  match n with
  | O => Some ([], s)
  | S n' =>
      match cel_literal s with
      | Some (v, rest) =>
          match n' with
          | O => Some ([v], rest)
          | S _ =>
              if HasPrefix rest ", " then
                match cel_literals n' (sdrop 2 rest) with
                | Some (vs, rest) => Some (v :: vs, rest)
                | None => None
                end
              else None
          end
      | None => None
      end
  end.

Lemma joinQuoted_literals ss rest :
  exists vs, cel_literals (length ss) (joinQuoted ss +:+ rest) = Some (vs, rest)
    /\ (Forall ascii_string ss -> vs = ss).
Proof.
  induction ss as [|s ss (ws & IH & IHa)]; [by exists []|].
  destruct ss as [|s' ss'].
  - destruct (Quote_literal s rest) as (v & Hv & Ha). exists [v]. cbn [length cel_literals].
    change (joinQuoted [s]) with (Quote s). rewrite Hv. split; [done|].
    intros [Hs _]%Forall_cons. by rewrite Ha.
  - change (joinQuoted (s :: s' :: ss')) with (Quote s +:+ (", " +:+ joinQuoted (s' :: ss'))).
    rewrite append_assoc. set (tail := (", " +:+ joinQuoted (s' :: ss')) +:+ rest).
    destruct (Quote_literal s tail) as (v & Hv & Ha). exists (v :: ws). cbn [length].
    change (cel_literals (S (S (length ss'))) (Quote s +:+ tail)) with
      (match cel_literal (Quote s +:+ tail) with
       | Some (v, rest) =>
           if HasPrefix rest ", " then
             match cel_literals (S (length ss')) (sdrop 2 rest) with
             | Some (vs, rest) => Some (v :: vs, rest) | None => None end
           else None
       | None => None end).
    rewrite Hv.
    unfold tail. rewrite append_assoc, HasPrefix_append.
    rewrite (sdrop_append ", "). cbn [length] in IH. rewrite IH.
    split; [done|]. intros [Hs Hss]%Forall_cons. by rewrite Ha, IHa.
Qed.

(** C9: no value of a [path], [path_prefix], [ip_category] or [ja3_in] match can break out of
    the string literal it is written into: the generated expression is the fixed text around
    literals that CEL's lexer reads to their end and no further, whatever bytes the value
    contains, and an ASCII value is read back unchanged. *)
Theorem match_values_quoted :
  (forall key pre post s rest,
    (key, pre, post) ∈ [("path", "request.path == ", ""); ("path_prefix", "request.path.startsWith(", ")");
                        ("ip_category", "ip.category == ", "")] ->
    exists lit v, keyValueToExpr key (AString s) = Ok (pre +:+ lit +:+ post)
      /\ cel_literal (lit +:+ rest) = Some (v, rest) /\ (ascii_string s -> v = s))
  /\ (forall ss rest, exists lits vs,
    keyValueToExpr "ja3_in" (AList (map AString ss)) = Ok ("ja3.matches_family([" +:+ lits +:+ "])")
      /\ cel_literals (length ss) (lits +:+ rest) = Some (vs, rest) /\ (Forall ascii_string ss -> vs = ss)).
Proof.
  split.
  - intros key pre post s rest Hin. destruct (Quote_literal s rest) as (v & Hv & Ha).
    rewrite !elem_of_cons, elem_of_nil in Hin.
    exists (Quote s), v. split; [|done].
    destruct Hin as [[= -> -> ->]|[[= -> -> ->]|[[= -> -> ->]|[]]]]; cbn; by rewrite ?append_nil_r.
  - intros ss rest. destruct (joinQuoted_literals ss rest) as (vs & Hv & Ha).
    exists (joinQuoted ss), vs. split; [|done]. cbn.
    assert (forall i, string_elements i (map AString ss) = Ok ss) as ->; [|done].
    clear. induction ss as [|s ss IH]; intros i; [done|]. cbn. by rewrite IH.
Qed.

(** ** Which match maps compile to an expression *)
Definition score_ok (s : string) : bool := is_ok (parseScoreExpr s).

Definition match_entry_ok (key : string) (value : any) : bool :=
  match value with
  | AString s =>
      bool_decide (key ∈ ["expr"; "path"; "path_prefix"; "ip_category"])
      || (String.eqb key "score" && score_ok s)
  | AList l => String.eqb key "ja3_in" && forallb (fun v => match v with AString _ => true | _ => false end) l
  | ABool _ => String.eqb key "has_valid_token"
  | _ => false
  end.

Lemma string_elements_ok i l :
  is_ok (string_elements i l) = forallb (fun v => match v with AString _ => true | _ => false end) l.
Proof.
  revert i. induction l as [|v l IH]; intros i; [done|]. destruct v; try done. cbn.
  rewrite <- (IH (i + 1)). by destruct (string_elements (i + 1) l).
Qed.

Lemma string_elements_no_panic i l : no_panic (string_elements i l).
Proof. revert i. induction l as [|[] l IH]; intros i; cbn; np. Qed.

Lemma Atoi_no_panic s : no_panic (Atoi s).
Proof. unfold Atoi. destruct (split_sign s). destruct (parse_digits _); np. Qed.

Lemma parseScoreOps_no_panic ops s : no_panic (parseScoreOps ops s).
Proof. induction ops as [|op ops IH]; cbn; np. apply Atoi_no_panic. Qed.

Lemma keyValueToExpr_no_panic key value : no_panic (keyValueToExpr key value).
Proof.
  unfold keyValueToExpr, want_string.
  repeat case_match; np; [|apply parseScoreOps_no_panic].
  unfold toStringSlice. case_match; auto using string_elements_no_panic, no_panic_err.
Qed.

Lemma keyValueToExpr_ok key value : is_ok (keyValueToExpr key value) = match_entry_ok key value.
Proof.
  unfold keyValueToExpr, want_string, match_entry_ok, score_ok.
  repeat match goal with
  | |- context [String.eqb key ?k] => destruct (String.eqb_spec key k) as [->|]; [destruct value; try done|]
  end.
  - cbn. rewrite <- (string_elements_ok 0). by destruct (string_elements 0 l).
  - destruct value; try done. rewrite bool_decide_false; [done|]. set_solver.
Qed.

Lemma exprs_of_spec mtch keys :
  no_panic (exprs_of mtch keys) /\
  (is_ok (exprs_of mtch keys) = forallb (fun k => match_entry_ok k (default ANil (mtch !! k))) keys).
Proof.
  induction keys as [|k keys [IH1 IH2]]; [done|]. cbn [exprs_of forallb].
  pose proof (keyValueToExpr_no_panic k (default ANil (mtch !! k))) as Hnp.
  rewrite <- keyValueToExpr_ok, <- IH2.
  destruct (keyValueToExpr k (default ANil (mtch !! k))), (exprs_of mtch keys); by split.
Qed.

Lemma sorted_keys_elem mtch k : k ∈ sorted_keys mtch <-> is_Some (mtch !! k).
Proof.
  unfold sorted_keys, sort_Strings. rewrite merge_sort_Permutation, list_elem_of_fmap.
  split.
  - intros ([k' v] & -> & H). apply elem_of_map_to_list in H. by eexists.
  - intros [v Hv]. exists (k, v). split; [done|]. by apply elem_of_map_to_list.
Qed.

(** A match map compiles to an expression exactly when every key is one of the seven known
    ones with a value of its type (a list of strings for [ja3_in], a comparison with an
    integer for [score]); it never panics, and an empty map is the expression [true]. *)
Theorem matchMapToExpr_ok_iff mtch :
  no_panic (matchMapToExpr mtch)
  /\ ((exists expr, matchMapToExpr mtch = Ok expr) <->
      map_Forall (fun k v => match_entry_ok k v = true) mtch).
Proof.
  unfold matchMapToExpr. case_match eqn:E.
  - assert (mtch = ∅) as -> by (apply map_size_empty_inv; lia).
    split; [done|]. split; [intros _; apply map_Forall_empty|by eexists].
  - destruct (exprs_of_spec mtch (sorted_keys mtch)) as [Hnp Hok]. split; [np|].
    transitivity (is_ok (exprs_of mtch (sorted_keys mtch)) = true).
    + destruct (exprs_of mtch (sorted_keys mtch)); cbn; naive_solver.
    + rewrite Hok, forallb_forall. split.
      * intros H k v Hkv. specialize (H k). rewrite Hkv in H. apply H, list_elem_of_In, sorted_keys_elem. by eexists.
      * intros H k Hk%list_elem_of_In%sorted_keys_elem. destruct Hk as [v Hv]. rewrite Hv. by apply H.
Qed.

(** ** Loading and compiling a policy do not panic *)
Class CELTotal `{CEL} : Prop := {
  cel_NewEnv_total : no_panic cel_NewEnv;
  cel_Compile_total env expr : no_panic (cel_Compile env expr);
  cel_Program_total env ast : no_panic (cel_Program env ast)
}.

Section loading.
Context `{CELTotal}.

Lemma compileRule_no_panic rule : no_panic (compileRule rule).
Proof.
  unfold compileRule. np; [apply cel_NewEnv_total| |apply cel_Compile_total|apply cel_Program_total].
  unfold matchMapToExpr. np. apply exprs_of_spec.
Qed.

Lemma NewEvaluator_no_panic cfg : no_panic (NewEvaluator cfg).
Proof.
  unfold NewEvaluator. np. generalize 0. induction (ps_Rules (pc_Policy cfg)) as [|r rules IH]; intros i; cbn; np; auto using compileRule_no_panic.
Qed.

Lemma validateConfig_no_panic cfg : no_panic (validateConfig cfg).
Proof.
  assert (Hr : forall i, no_panic (validate_rules i (ps_Rules (pc_Policy cfg)))).
  { induction (ps_Rules (pc_Policy cfg)) as [|r rules IH]; intros i; cbn; np; auto using compileRule_no_panic. }
  unfold validateConfig. np; auto using ParseDuration_no_panic.
Qed.

Lemma Load_no_panic yaml_Unmarshal path file :
  (forall data, no_panic (yaml_Unmarshal data)) -> no_panic file -> no_panic (Load yaml_Unmarshal path file).
Proof. intros Hy Hf. unfold Load, parse. np; auto using validateConfig_no_panic. Qed.
End loading.

Section evaluator_theorems.
Context {cel : CEL}.

(** The outcome of one rule for a request. *)
Definition rule_out (ctx : EvaluationContext) (cr : CompiledRule) : outcome cel_out :=
  cel_Eval (cr_Program cr) (buildActivation ctx).
Definition rule_false (ctx : EvaluationContext) (cr : CompiledRule) : Prop :=
  rule_out ctx cr = Ok (OutBool false).

(** C17: [Evaluate] answers with the action of the first rule that evaluates to true, all rules
    before it having evaluated to false, and with [policy.default] and no rule exactly when
    every rule evaluates to false. *)
Theorem Evaluate_first_match e ctx action rule :
  Evaluate e ctx = Ok (action, rule) <->
  (exists pre cr post, ev_rules e = pre ++ cr :: post /\ Forall (rule_false ctx) pre
     /\ rule_out ctx cr = Ok (OutBool true) /\ action = pr_Action (cr_Rule cr) /\ rule = Some (cr_Rule cr))
  \/ (Forall (rule_false ctx) (ev_rules e) /\ action = ps_Default (pc_Policy (ev_config e)) /\ rule = None).
Proof.
  unfold Evaluate, rule_false, rule_out. generalize (ps_Default (pc_Policy (ev_config e))) as dflt.
  intros dflt. induction (ev_rules e) as [|cr rules IH]; cbn [eval_rules].
  - split; [intros [= <- <-]; right; split_and!; constructor|].
    intros [(pre & cr & post & H & _)|(_ & -> & ->)]; [by destruct pre|done].
  - destruct (cel_Eval (cr_Program cr) (buildActivation ctx)) as [[[|]|t]|msg|] eqn:E;
      cbn [wrap_err mbind outcome_bind].
    3-5: split; [done|]; intros [(pre & cr' & post & H & Hpre & Ht & _)|([Hf _]%Forall_cons & _)]; [|congruence];
      destruct pre as [|c pre]; injection H as -> ->; [congruence|]; apply Forall_cons in Hpre as [? _]; congruence.
    + split.
      * intros [= <- <-]. left. exists [], cr, rules. by split_and!.
      * intros [(pre & cr' & post & H & Hpre & Ht & -> & ->)|([Hf _]%Forall_cons & _)]; [|congruence].
        destruct pre as [|c pre]; [by injection H as -> ->|]. injection H as -> ->.
        apply Forall_cons in Hpre as [Hc _]. congruence.
    + rewrite IH. split.
      * intros [(pre & cr' & post & -> & Hpre & ?)|(Hf & ?)]; [left|right; by rewrite Forall_cons].
        exists (cr :: pre), cr', post. by rewrite Forall_cons.
      * intros [(pre & cr' & post & H & Hpre & Ht & ?)|([_ Hf]%Forall_cons & ?)]; [left|by right].
        destruct pre as [|c pre]; [injection H as -> ->; congruence|]. injection H as -> ->.
        apply Forall_cons in Hpre as [_ ?]. by exists pre, cr', post.
Qed.

(** A rule that does not yield a bool. *)
Definition rule_fails (ctx : EvaluationContext) (cr : CompiledRule) : Prop :=
  (exists msg, rule_out ctx cr = Err msg) \/ (exists t, rule_out ctx cr = Ok (OutOther t)).

(** [Evaluate] returns an error exactly when some rule, reached after rules that all
    evaluated to false, fails to evaluate or yields a non-bool: such a rule hides every rule
    after it and the default action, whatever they are. *)
Theorem Evaluate_error_iff e ctx :
  (exists msg, Evaluate e ctx = Err msg) <->
  (exists pre cr post, ev_rules e = pre ++ cr :: post /\ Forall (rule_false ctx) pre /\ rule_fails ctx cr).
Proof.
  unfold Evaluate, rule_fails, rule_false, rule_out.
  generalize (ps_Default (pc_Policy (ev_config e))) as dflt.
  intros dflt. induction (ev_rules e) as [|cr rules IH]; cbn [eval_rules].
  - split; [by intros [? ?]|]. intros (pre & cr & post & H & _). by destruct pre.
  - destruct (cel_Eval (cr_Program cr) (buildActivation ctx)) as [[[|]|t]|msg|] eqn:E;
      cbn [wrap_err mbind outcome_bind].
    2: { rewrite IH. split.
      - intros (pre & cr' & post & -> & Hpre & ?). exists (cr :: pre), cr', post. by rewrite Forall_cons.
      - intros (pre & cr' & post & H & Hpre & Hf). destruct pre as [|c pre]; injection H as -> ->.
        + rewrite E in Hf. naive_solver.
        + apply Forall_cons in Hpre as [_ ?]. by exists pre, cr', post. }
    2,3: split; [|by eexists]; intros _; exists [], cr, rules; split_and!; [done|constructor|eauto].
    all: split; [by intros [? ?]|]; intros (pre & cr' & post & H & Hpre & Hf); exfalso;
      destruct pre as [|c pre]; injection H as -> ->;
      [rewrite E in Hf; naive_solver|apply Forall_cons in Hpre as [? _]; congruence].
Qed.

Lemma wrap_err_ok_eq {A} c1 c2 (m : outcome A) a : wrap_err c1 m = Ok a -> wrap_err c2 m = Ok a.
Proof. by destruct m. Qed.

Lemma compileRule_rule rule cr : compileRule rule = Ok cr -> cr_Rule cr = rule.
Proof. unfold compileRule. intros H. by inv_ok. Qed.

(** Rules that pass validation compile, in order. *)
Lemma validate_compiles i j rules :
  validate_rules i rules = Ok tt ->
  exists crs, compile_rules j rules = Ok crs /\ map cr_Rule crs = rules
    /\ Forall (fun r => validActions (pr_Action r) = true) rules.
Proof.
  revert i j. induction rules as [|rule rules IH]; intros i j; cbn; [by exists []|].
  case_match eqn:Ea; [done|]. intros H. inv_ok.
  destruct (IH _ (j + 1) H0) as (crs & Hc & Hm & Hf).
  match goal with H : compileRule _ = Ok ?c |- _ => rename H into Hr; exists (c :: crs) end.
  rewrite Hr. cbn [wrap_err mbind outcome_bind]. rewrite Hc. cbn.
  rewrite (compileRule_rule _ _ Hr), Hm. split_and!; [done..|]. constructor; [|done].
  by destruct (validActions (pr_Action rule)).
Qed.

Lemma validateConfig_parts cfg :
  validateConfig cfg = Ok tt ->
  pc_Version cfg <> 0 /\ validActions (ps_Default (pc_Policy cfg)) = true
  /\ (tc_TTL (pc_Token cfg) = EmptyString \/ exists d, ParseDuration (tc_TTL (pc_Token cfg)) = Ok d)
  /\ validate_rules 0 (ps_Rules (pc_Policy cfg)) = Ok tt.
Proof.
  unfold validateConfig. case_match eqn:Ev; [done|]. case_match eqn:Ea; [done|]. intros H.
  apply bind_ok in H as (d & Hd & Hr). split_and!; [lia|by destruct (validActions _)| |done].
  destruct (String.eqb_spec (tc_TTL (pc_Token cfg)) EmptyString) as [|]; [by left|right].
  cbn [negb] in Hd. inv_ok. eauto.
Qed.

(** C16: a configuration that passes validation can be evaluated: building the evaluator
    succeeds with exactly the configured rules in order, its token lifetime is empty or a
    duration, and every action [Evaluate] ever answers is allow, challenge or deny. *)
Theorem validated_config_evaluates cfg :
  validateConfig cfg = Ok tt ->
  (tc_TTL (pc_Token cfg) = EmptyString \/ exists d, ParseDuration (tc_TTL (pc_Token cfg)) = Ok d) /\
  exists e, NewEvaluator cfg = Ok e /\ ev_config e = cfg /\ map cr_Rule (ev_rules e) = ps_Rules (pc_Policy cfg)
    /\ forall ctx action rule, Evaluate e ctx = Ok (action, rule) ->
         action ∈ [ActionAllow; ActionChallenge; ActionDeny]
         /\ match rule with Some r => r ∈ ps_Rules (pc_Policy cfg) | None => True end.
Proof.
  intros (_ & Hd & Httl & Hv)%validateConfig_parts. split; [done|].
  destruct (validate_compiles 0 0 _ Hv) as (crs & Hc & Hm & Hf).
  exists (MkEvaluator cfg crs). unfold NewEvaluator. rewrite Hc. split_and!; [done..|].
  assert (Hin : forall a, validActions a = true -> a ∈ [ActionAllow; ActionChallenge; ActionDeny]).
  { unfold validActions, ActionAllow, ActionChallenge, ActionDeny. intros a.
    rewrite !orb_true_iff, !String.eqb_eq. set_solver. }
  assert (Hcr : forall cr, cr ∈ crs -> validActions (pr_Action (cr_Rule cr)) = true
                            /\ cr_Rule cr ∈ ps_Rules (pc_Policy cfg)).
  { intros cr Hcr. rewrite <- Hm in Hf |- *. rewrite Forall_forall in Hf.
    split; [apply Hf|]; by apply list_elem_of_fmap_2. }
  intros ctx action rule. unfold Evaluate. cbn [ev_rules ev_config]. clear Hc Hm Hf.
  induction crs as [|cr crs IH]; cbn [eval_rules]; [intros [= <- <-]; split; [by apply Hin|done]|].
  intros H. inv_ok. case_match; [case_match|done].
  - inv_ok. destruct (Hcr cr) as [? ?]; [set_solver|]. split; [by apply Hin|done].
  - apply IH; [|done]. intros c Hc. apply Hcr. set_solver.
Qed.
End evaluator_theorems.

(** ** A toy CEL for examples: it knows the expressions of the sample policy. *)
#[local] Instance toy_cel : CEL := {
  cel_env := unit; cel_ast := string; cel_program := string;
  cel_NewEnv := Ok tt;
  cel_Compile _ e := if String.eqb e "syntax error" then Err "bad" else Ok e;
  cel_Program _ e := Ok e;
  cel_Eval p act :=
    if String.eqb p "true" then Ok (OutBool true)
    else if String.eqb p "has_valid_token" then
      match act !! "has_valid_token" with Some (VBool b) => Ok (OutBool b) | _ => Err "no such attribute" end
    else if String.eqb p "signals['tor']" then
      match act !! "signals" with
      | Some (VIntMap m) => match m !! "tor" with Some _ => Ok (OutOther "int64") | None => Err "no such key: tor" end
      | _ => Err "no such attribute"
      end
    else Ok (OutBool false)
}.
#[local] Instance toy_cel_total : CELTotal.
Proof. split; [done| |done]. intros env expr. cbn. by destruct (String.eqb expr _). Qed.

Definition sample_rules : list PolicyRule := [
  MkPolicyRule "trusted" {["has_valid_token" := ABool true]} "allow" "";
  MkPolicyRule "scrapers" {["ja3_in" := AList [AString "@curl_*"]; "score" := AString ">= 50"]} "deny" "";
  MkPolicyRule "rest" ∅ "challenge" ""].

Definition sample_config : PolicyConfig := {|
  pc_Version := 1;
  pc_Listener := MkListenerConfig ":8080" "http://localhost:3000" None;
  pc_Token := MkTokenConfig "secret" "24h" ["ip"; "ua"];
  pc_Policy := MkPolicySection "challenge" sample_rules;
  pc_Scoring := MkScoringConfig ∅ 50 80;
  pc_Challenge := MkChallengeConfig 4 true;
  pc_Cache := MkCacheConfig "memory" None 60
|}.

Lemma validated_config_evaluates_witness :
  exists e, NewEvaluator sample_config = Ok e
    /\ map cr_Rule (ev_rules e) = sample_rules.
Proof.
  destruct (validated_config_evaluates sample_config) as (_ & e & He & _ & Hm & _);
    [vm_compute; reflexivity|]. exists e. exact (conj He Hm).
Defined.

Example sample_scraper_expr :
  matchMapToExpr {["ja3_in" := AList [AString "@curl_*"]; "score" := AString ">= 50"]}
  = Ok ("ja3.matches_family([" +:+ dquote +:+ "@curl_*" +:+ dquote +:+ "]) && score >= 50").
Proof. vm_compute. reflexivity. Qed.

(** ** JA3 families *)

(** A request's JA3 matches a list of literal family names exactly when it is one of them
    once a leading at sign is dropped; elements that are not strings never match. *)
Theorem matchesFamily_spec ja3 l :
  (forall v, v ∈ l -> match v with AString p => literal_pattern (string_bytes (TrimPrefix p "@")) | _ => True end) ->
  matchesFamilyBinding (AString ja3) (AList l) = true <->
  exists p, AString p ∈ l /\ TrimPrefix p "@" = ja3.
Proof.
  intros Hl. unfold matchesFamilyBinding, as_list. rewrite existsb_exists. split.
  - intros (v & Hv%list_elem_of_In & Hm). specialize (Hl v Hv). destruct v; try done.
    unfold family_pattern_matches in Hm. rewrite path_Match_literal in Hm by done. apply String.eqb_eq in Hm. eauto.
  - intros (p & Hp & Hj). exists (AString p). split; [by apply list_elem_of_In|].
    unfold family_pattern_matches. specialize (Hl _ Hp). cbn [string_bytes] in Hl. rewrite path_Match_literal by done. by apply String.eqb_eq.
Qed.

Lemma matchesFamily_spec_witness :
  matchesFamilyBinding (AString "curl_8") (AList [AInt 3; AString "@curl_8"]) = true.
Proof.
  apply matchesFamily_spec; [|exists "@curl_8"; split; [set_solver|reflexivity]].
  intros v Hv. rewrite !elem_of_cons, elem_of_nil in Hv. destruct Hv as [->|[->|[]]]; [done|].
  repeat constructor.
Defined.

(** A literal family name followed by a star. *)
Lemma matchesFamily_prefix ja3 p :
  HasPrefix p "@" = false -> literal_pattern (string_bytes p) -> p <> EmptyString ->
  matchesFamilyBinding (AString ja3) (AList [AString (p +:+ "*")]) =
  HasPrefix ja3 p && negb (existsb PathMatch.slash_b (drop (String.length p) (string_bytes ja3))).
Proof.
  intros Hat Hp Hne. unfold matchesFamilyBinding, as_list, existsb, family_pattern_matches, TrimPrefix.
  rewrite orb_false_r.
  assert (HasPrefix (p +:+ "*") "@" = false) as ->.
  { destruct p as [|c p]; [done|]. rewrite append_cons. unfold HasPrefix in *. cbn in *. by case_match; destruct p. }
  by rewrite path_Match_prefix.
Qed.
