(* ===== verification/Token.v ===== *)
(** * Package [internal/token]: pass tokens bound to a client

    The JWT library is a parameter (class [JWT]) with the laws the package relies on
    ([JWTLaws]); times are Unix nanoseconds. *)

From S2P Require Import Prelude GoStrings GoStd GoUrl Types GoHttp.
#[local] Open Scope Z_scope.

Definition Second : Z := 1000000000.

(** ** The JWT library *)

(** [t.Method] by its dynamic type, with [t.Header["alg"]]. *)
Inductive jwt_method := MethodHMAC (alg : string) | MethodOther (alg : string).

(** [jwt_ParseWithClaims now s keyfunc] parses, asks [keyfunc] for the key, checks the
    signature and the expiry, and returns the claims and [tok.Valid]. *)
Class JWT := {
  jwt_SignedString : list byte -> TokenClaims -> outcome string;
  jwt_ParseWithClaims : Z -> string -> (jwt_method -> outcome (list byte)) -> outcome (TokenClaims * bool)
}.

(** Claims are carried as JSON text, which holds valid UTF-8 only. *)
Definition valid_utf8 (s : string) : bool :=
  forallb (fun '(r, bs) => negb ((r =? Utf8.RuneError) && (length bs =? 1)%nat)) (Utf8.runes (string_bytes s)).
Definition claims_utf8 (c : TokenClaims) : bool :=
  valid_utf8 (cl_Sub c) && valid_utf8 (cl_IP c) && valid_utf8 (cl_UA c) && valid_utf8 (cl_JA3 c)
  && valid_utf8 (cl_JA4 c).

(** The bytes of a compact token: base64url text and dots. *)
Definition jwt_byte (c : ascii) : bool := is_alnum c || one_of "-_." c.

(** What the documentation of golang-jwt says: a token signed with HS256 is parsed back to its
    claims with the key it was signed with until its expiry time, and not from then on; it is
    a compact serialization; failures are errors. *)
Class JWTLaws `{JWT} := {
  jwt_parse_signed key claims s now keyfunc :
    jwt_SignedString key claims = Ok s -> claims_utf8 claims = true ->
    keyfunc (MethodHMAC "HS256") = Ok key -> now < cl_ExpiresAt claims * Second ->
    jwt_ParseWithClaims now s keyfunc = Ok (claims, true);
  jwt_parse_expired key claims s now keyfunc :
    jwt_SignedString key claims = Ok s -> keyfunc (MethodHMAC "HS256") = Ok key ->
    cl_ExpiresAt claims * Second <= now ->
    exists e, jwt_ParseWithClaims now s keyfunc = Err e;
  jwt_signed_text key claims s :
    jwt_SignedString key claims = Ok s -> s <> EmptyString /\ all_bytes jwt_byte s = true;
  jwt_sign_no_panic key claims : no_panic (jwt_SignedString key claims);
  jwt_parse_no_panic now s keyfunc :
    (forall m, no_panic (keyfunc m)) -> no_panic (jwt_ParseWithClaims now s keyfunc)
}.

(** ** binding.go *)
Record VerifyContext := MkVerifyContext { vc_IP : string; vc_UA : string; vc_JA3 : string; vc_JA4 : string }.

Definition mismatch_text (name claim current : string) : string :=
  name +:+ ": claim=" +:+ Quote claim +:+ " current=" +:+ Quote current.

Definition field_mismatch (claims : TokenClaims) (current : VerifyContext) (field : string) : list string :=
  if String.eqb field "ip" then
    if String.eqb (cl_IP claims) (vc_IP current) then [] else [mismatch_text "ip" (cl_IP claims) (vc_IP current)]
  else if String.eqb field "ua" then
    if EqualFold (cl_UA claims) (vc_UA current) then [] else [mismatch_text "ua" (cl_UA claims) (vc_UA current)]
  else if String.eqb field "ja3" then
    if String.eqb (cl_JA3 claims) (vc_JA3 current) then [] else [mismatch_text "ja3" (cl_JA3 claims) (vc_JA3 current)]
  else if String.eqb field "ja4" then
    if String.eqb (cl_JA4 claims) (vc_JA4 current) then [] else [mismatch_text "ja4" (cl_JA4 claims) (vc_JA4 current)]
  else [].

Definition BoundFields (claims : TokenClaims) (current : VerifyContext) (bindTo : list string) : outcome unit :=
  let mismatches := flat_map (field_mismatch claims current) bindTo in
  if 0 <? len mismatches then Err ("token: binding mismatch: " +:+ Join mismatches "; ") else Ok tt.

(** ** issuer.go *)
Record Issuer := MkIssuer { iss_key : list byte; iss_ttl : Z; iss_bindTo : list string }.
Definition NewIssuer (key : list byte) (ttl : Z) (bindTo : list string) : Issuer := MkIssuer key ttl bindTo.

Record IssueContext := MkIssueContext {
  ic_FingerprintHash : string; ic_IP : string; ic_UA : string; ic_JA3 : string; ic_JA4 : string; ic_Score : Z
}.

Definition bind_claim (ctx : IssueContext) (c : TokenClaims) (field : string) : TokenClaims :=
  let set ip ua ja3 ja4 :=
    MkTokenClaims (cl_Sub c) ip ua ja3 ja4 (cl_Score c) (cl_Ver c) (cl_IssuedAt c) (cl_ExpiresAt c) in
  if String.eqb field "ip" then set (ic_IP ctx) (cl_UA c) (cl_JA3 c) (cl_JA4 c)
  else if String.eqb field "ua" then set (cl_IP c) (ic_UA ctx) (cl_JA3 c) (cl_JA4 c)
  else if String.eqb field "ja3" then set (cl_IP c) (cl_UA c) (ic_JA3 ctx) (cl_JA4 c)
  else if String.eqb field "ja4" then set (cl_IP c) (cl_UA c) (cl_JA3 c) (ic_JA4 ctx)
  else c.

(** The claims [Issue] signs at time [now]; numeric dates are truncated to seconds. *)
Definition issue_claims (i : Issuer) (now : Z) (ctx : IssueContext) : TokenClaims :=
  let claims := MkTokenClaims (ic_FingerprintHash ctx) EmptyString EmptyString EmptyString EmptyString
                  (ic_Score ctx) 1 (now / Second) ((now + iss_ttl i) / Second) in
  fold_left (bind_claim ctx) (iss_bindTo i) claims.

Definition Issue `{JWT} (i : Issuer) (now : Z) (ctx : IssueContext) : outcome string :=
  wrap_err "token: sign" (jwt_SignedString (iss_key i) (issue_claims i now ctx)).

(** ** verifier.go *)
Record Verifier := MkVerifier { ver_key : list byte; ver_bindTo : list string }.
Definition NewVerifier (key : list byte) (bindTo : list string) : Verifier := MkVerifier key bindTo.

Definition keyfunc (v : Verifier) (m : jwt_method) : outcome (list byte) :=
  match m with
  | MethodHMAC _ => Ok (ver_key v)
  | MethodOther alg => Err ("token: unexpected signing method: " +:+ alg)
  end.

Definition Verify `{JWT} (v : Verifier) (now : Z) (tokenStr : string) (current : VerifyContext)
    : outcome TokenClaims :=
  '(claims, valid) ← wrap_err "token: parse" (jwt_ParseWithClaims now tokenStr (keyfunc v));
  if negb valid then Err "token: invalid"
  else
    _ ← BoundFields claims current (ver_bindTo v);
    Ok claims.

(** ** cookie.go *)
Definition DefaultCookieName : string := "__as_pass".

Inductive SameSite := SameSiteDefault | SameSiteLax | SameSiteStrict | SameSiteNone.
Record Cookie := MkCookie {
  ck_Name : string; ck_Value : string; ck_Path : string; ck_MaxAge : Z;
  ck_HttpOnly : bool; ck_SameSite : SameSite; ck_Secure : bool
}.

(** [int(ttl.Seconds())] *)
Definition duration_seconds (d : Z) : spec_float :=
  f64_add (f64_of_Z (Z.quot d Second)) (f64_div (f64_of_Z (Z.rem d Second)) (f64_of_Z Second)).

(** The cookie handed to [http.SetCookie]. *)
Definition SetCookie (name value : string) (ttl : Z) (secure : bool) : Cookie :=
  MkCookie name value "/" (f64_trunc (duration_seconds ttl)) true SameSiteLax secure.

Definition GetCookie (r : Request) (name : string) : string :=
  match request_Cookie r name with Some v => v | None => EmptyString end.

(** ** key.go

    A file system of whole files; [read_err] and [write_err] are failures other than a
    missing file, [random] the result of reading 32 random bytes. *)
Definition LoadKey (fs : gmap string (list byte)) (path : string) (read_err : option string)
    (random : outcome (list byte)) (write_err : option string) : outcome (list byte) * gmap string (list byte) :=
  match read_err with
  | Some e => (Err ("token: read key file: " +:+ e), fs)
  | None =>
      match fs !! path with
      | Some data => (if len data =? 0 then Err "token: key file is empty" else Ok data, fs)
      | None =>
          match random with
          | Ok key =>
              match write_err with
              | Some e => (Err ("token: write key file: " +:+ e), fs)
              | None => (Ok key, <[path := key]> fs)
              end
          | Err e => (Err ("token: generate key: " +:+ e), fs)
          | Panic => (Panic, fs)
          end
      end
  end.

(** ** Lemmas *)

(** A request agrees with the claims on one bound field; unknown names bind nothing. *)
Definition field_agrees (claims : TokenClaims) (current : VerifyContext) (field : string) : Prop :=
  (field = "ip" -> cl_IP claims = vc_IP current)
  /\ (field = "ua" -> EqualFold (cl_UA claims) (vc_UA current) = true)
  /\ (field = "ja3" -> cl_JA3 claims = vc_JA3 current)
  /\ (field = "ja4" -> cl_JA4 claims = vc_JA4 current).

Lemma field_mismatch_nil claims current field :
  field_mismatch claims current field = [] <-> field_agrees claims current field.
Proof.
  unfold field_mismatch, field_agrees.
  destruct (String.eqb_spec field "ip") as [->|Hip].
  { destruct (String.eqb_spec (cl_IP claims) (vc_IP current)); naive_solver. }
  destruct (String.eqb_spec field "ua") as [->|Hua].
  { destruct (EqualFold (cl_UA claims) (vc_UA current)); naive_solver. }
  destruct (String.eqb_spec field "ja3") as [->|Hja3].
  { destruct (String.eqb_spec (cl_JA3 claims) (vc_JA3 current)); naive_solver. }
  destruct (String.eqb_spec field "ja4") as [->|Hja4].
  { destruct (String.eqb_spec (cl_JA4 claims) (vc_JA4 current)); naive_solver. }
  naive_solver.
Qed.

Lemma flat_map_nil {A B} (f : A -> list B) l : flat_map f l = [] <-> Forall (fun x => f x = []) l.
Proof.
  induction l as [|x l IH]; cbn; [done|]. rewrite Forall_cons, <- IH.
  destruct (f x); naive_solver.
Qed.

Lemma BoundFields_ok claims current bindTo :
  BoundFields claims current bindTo = Ok tt <-> Forall (field_agrees claims current) bindTo.
Proof.
  unfold BoundFields.
  transitivity (flat_map (field_mismatch claims current) bindTo = []).
  - destruct (flat_map _ _); cbn; [done|]. rewrite len_cons. pose proof (len_nonneg l).
    replace (0 <? len l + 1) with true by lia. done.
  - rewrite flat_map_nil. apply Forall_iff. intros f. apply field_mismatch_nil.
Qed.

Lemma BoundFields_no_panic claims current bindTo : no_panic (BoundFields claims current bindTo).
Proof. unfold BoundFields. np. Qed.
#[export] Hint Resolve BoundFields_no_panic : go.

Lemma bool_decide_cons (k f : string) l :
  bool_decide (k ∈ f :: l) = (if String.eqb f k then true else bool_decide (k ∈ l)).
Proof.
  destruct (String.eqb_spec f k) as [->|Hne]; [apply bool_decide_true; set_solver|].
  apply bool_decide_ext. set_solver.
Qed.

(** The claims an issuer signs: the bound fields of the context, the others empty. *)
Lemma issue_claims_spec i now ctx :
  let c := issue_claims i now ctx in
  cl_Sub c = ic_FingerprintHash ctx /\ cl_Score c = ic_Score ctx /\ cl_Ver c = 1
  /\ cl_IssuedAt c = now / Second /\ cl_ExpiresAt c = (now + iss_ttl i) / Second
  /\ cl_IP c = (if bool_decide ("ip" ∈ iss_bindTo i) then ic_IP ctx else EmptyString)
  /\ cl_UA c = (if bool_decide ("ua" ∈ iss_bindTo i) then ic_UA ctx else EmptyString)
  /\ cl_JA3 c = (if bool_decide ("ja3" ∈ iss_bindTo i) then ic_JA3 ctx else EmptyString)
  /\ cl_JA4 c = (if bool_decide ("ja4" ∈ iss_bindTo i) then ic_JA4 ctx else EmptyString).
Proof.
  unfold issue_claims. set (c0 := MkTokenClaims _ _ _ _ _ _ _ _ _). cbn zeta.
  assert (H : forall l c, let r := fold_left (bind_claim ctx) l c in
    cl_Sub r = cl_Sub c /\ cl_Score r = cl_Score c /\ cl_Ver r = cl_Ver c
    /\ cl_IssuedAt r = cl_IssuedAt c /\ cl_ExpiresAt r = cl_ExpiresAt c
    /\ cl_IP r = (if bool_decide ("ip" ∈ l) then ic_IP ctx else cl_IP c)
    /\ cl_UA r = (if bool_decide ("ua" ∈ l) then ic_UA ctx else cl_UA c)
    /\ cl_JA3 r = (if bool_decide ("ja3" ∈ l) then ic_JA3 ctx else cl_JA3 c)
    /\ cl_JA4 r = (if bool_decide ("ja4" ∈ l) then ic_JA4 ctx else cl_JA4 c)).
  { induction l as [|f l IH]; intros c; [done|]. cbn [fold_left].
    destruct (IH (bind_claim ctx c f)) as (-> & -> & -> & -> & -> & -> & -> & -> & ->).
    unfold bind_claim. rewrite !bool_decide_cons.
    repeat match goal with |- context [String.eqb f ?k] => destruct (String.eqb_spec f k) as [->|?] end;
      cbn [String.eqb Ascii.eqb Bool.eqb andb cl_Sub cl_IP cl_UA cl_JA3 cl_JA4 cl_Score cl_Ver cl_IssuedAt cl_ExpiresAt];
      split_and!; try reflexivity; by match goal with |- context [bool_decide ?P] => destruct (bool_decide P) end. }
  apply (H (iss_bindTo i) c0).
Qed.

(** A request context agrees with the context a token was issued in. *)
Definition same_client (ic : IssueContext) (vc : VerifyContext) (field : string) : Prop :=
  (field = "ip" -> ic_IP ic = vc_IP vc) /\ (field = "ua" -> EqualFold (ic_UA ic) (vc_UA vc) = true)
  /\ (field = "ja3" -> ic_JA3 ic = vc_JA3 vc) /\ (field = "ja4" -> ic_JA4 ic = vc_JA4 vc).

Definition context_utf8 (c : IssueContext) : bool :=
  valid_utf8 (ic_FingerprintHash c) && valid_utf8 (ic_IP c) && valid_utf8 (ic_UA c)
  && valid_utf8 (ic_JA3 c) && valid_utf8 (ic_JA4 c).

Lemma issue_claims_utf8 i now ctx : context_utf8 ctx = true -> claims_utf8 (issue_claims i now ctx) = true.
Proof.
  destruct (issue_claims_spec i now ctx) as (Hs & _ & _ & _ & _ & Hip & Hua & Hj3 & Hj4).
  unfold context_utf8, claims_utf8. rewrite Hs, Hip, Hua, Hj3, Hj4, !andb_true_iff.
  intros [[[[? ?] ?] ?] ?]. split_and!; repeat case_bool_decide; done.
Qed.

Lemma issue_claims_agree i now ctx vc :
  Forall (field_agrees (issue_claims i now ctx) vc) (iss_bindTo i) <-> Forall (same_client ctx vc) (iss_bindTo i).
Proof.
  destruct (issue_claims_spec i now ctx) as (_ & _ & _ & _ & _ & Hip & Hua & Hj3 & Hj4).
  rewrite !Forall_forall. unfold field_agrees, same_client. rewrite Hip, Hua, Hj3, Hj4.
  split; intros H f Hf; specialize (H f Hf) as (H1 & H2 & H3 & H4);
    split_and!; intros ->; rewrite ?(bool_decide_true _ Hf) in *; auto.
Qed.

Section laws.
Context `{JWTLaws}.

Lemma Verify_accepts key ttl bindTo now ctx s now' vc :
  Issue (NewIssuer key ttl bindTo) now ctx = Ok s -> context_utf8 ctx = true ->
  now' < (now + ttl) / Second * Second ->
  Verify (NewVerifier key bindTo) now' s vc =
  (_ ← BoundFields (issue_claims (NewIssuer key ttl bindTo) now ctx) vc bindTo;
   Ok (issue_claims (NewIssuer key ttl bindTo) now ctx)).
Proof.
  set (i := NewIssuer key ttl bindTo). unfold Issue. intros Hs%wrap_err_ok Hu Hlt.
  destruct (issue_claims_spec i now ctx) as (_ & _ & _ & _ & Hexp & _). change (iss_ttl i) with ttl in Hexp.
  unfold Verify. rewrite (jwt_parse_signed (iss_key i) (issue_claims i now ctx) s now' (keyfunc (NewVerifier key bindTo)));
    [done|done|by apply issue_claims_utf8|done|by rewrite Hexp].
Qed.

(** The same client is accepted until the expiry. *)
Lemma Verify_same_client key ttl bindTo now ctx s now' vc :
  Issue (NewIssuer key ttl bindTo) now ctx = Ok s -> context_utf8 ctx = true ->
  now' < (now + ttl) / Second * Second -> Forall (same_client ctx vc) bindTo ->
  Verify (NewVerifier key bindTo) now' s vc = Ok (issue_claims (NewIssuer key ttl bindTo) now ctx).
Proof.
  intros Hs Hu Hlt Hc. rewrite (Verify_accepts key ttl bindTo now ctx s) by done.
  apply (issue_claims_agree (NewIssuer key ttl bindTo) now) in Hc. apply BoundFields_ok in Hc.
  cbn [NewIssuer iss_bindTo] in Hc. by rewrite Hc.
Qed.

Lemma Verify_no_panic v now s vc : no_panic (Verify v now s vc).
Proof.
  unfold Verify. apply no_panic_bind.
  - apply no_panic_wrap, jwt_parse_no_panic. intros []; done.
  - intros [claims valid] _. np.
Qed.

Lemma Issue_no_panic i now ctx : no_panic (Issue i now ctx).
Proof. apply no_panic_wrap, jwt_sign_no_panic. Qed.

(** What an accepted token says of its client. *)
Lemma Verify_claims key ttl bindTo now ctx s now' vc claims :
  Issue (NewIssuer key ttl bindTo) now ctx = Ok s -> context_utf8 ctx = true ->
  Verify (NewVerifier key bindTo) now' s vc = Ok claims ->
  now' < (now + ttl) / Second * Second /\ Forall (same_client ctx vc) bindTo
  /\ claims = issue_claims (NewIssuer key ttl bindTo) now ctx.
Proof.
  set (i := NewIssuer key ttl bindTo). intros Hs Hu.
  destruct (decide (now' < (now + ttl) / Second * Second)) as [Hlt|Hge].
  - rewrite (Verify_accepts key ttl bindTo now ctx s) by done. fold i.
    pose proof (issue_claims_agree i now ctx vc) as Hag. change (iss_bindTo i) with bindTo in Hag.
    rewrite <- Hag, <- BoundFields_ok.
    destruct (BoundFields _ vc bindTo) as [[]|e|] eqn:E; cbn; naive_solver.
  - unfold Issue in Hs. apply wrap_err_ok in Hs. unfold Verify.
    destruct (issue_claims_spec i now ctx) as (_ & _ & _ & _ & Hexp & _). change (iss_ttl i) with ttl in Hexp.
    destruct (jwt_parse_expired (iss_key i) (issue_claims i now ctx) s now' (keyfunc (NewVerifier key bindTo)))
      as [e ->]; [done|done|rewrite Hexp; lia|]. done.
Qed.

(** C15: a token issued at [now] is accepted by a verifier with the same key and binding list
    exactly until its expiry (the lifetime rounded down to whole seconds) and only from a
    client that agrees with the issuing one on every bound field: the address and the TLS
    fingerprints exactly, the user agent up to case.  The verifier then returns the claims
    that were issued. *)
Theorem Verify_issued_iff key ttl bindTo now ctx s now' vc claims :
  Issue (NewIssuer key ttl bindTo) now ctx = Ok s -> context_utf8 ctx = true ->
  Verify (NewVerifier key bindTo) now' s vc = Ok claims <->
  now' < (now + ttl) / Second * Second /\ Forall (same_client ctx vc) bindTo
  /\ claims = issue_claims (NewIssuer key ttl bindTo) now ctx.
Proof.
  intros Hs Hu. split; [by apply Verify_claims|]. intros (Hlt & Hc & ->). by apply Verify_same_client.
Qed.
End laws.

(** ** A concrete JWT for examples

    The token text is a numbering of the key and the claims; parsing asks for the key and
    compares it with the one in the text. *)
Definition claims_tuple (c : TokenClaims) :=
  ([cl_Sub c; cl_IP c; cl_UA c; cl_JA3 c; cl_JA4 c], [cl_Score c; cl_Ver c; cl_IssuedAt c; cl_ExpiresAt c]).
Definition tuple_claims (t : list string * list Z) : option TokenClaims :=
  match t with
  | ([sub; ip; ua; ja3; ja4], [score; ver; iat; exp]) => Some (MkTokenClaims sub ip ua ja3 ja4 score ver iat exp)
  | _ => None
  end.

#[local] Instance toy_jwt : JWT := {
  jwt_SignedString key c := Ok (String "J" (pos_text (encode (map byte_to_Z key, claims_tuple c))));
  jwt_ParseWithClaims now s kf :=
    match decode (A := list Z * (list string * list Z)) (text_pos (sdrop 1 s)) with
    | Some (key, t) =>
        match tuple_claims t with
        | Some c =>
            k ← kf (MethodHMAC "HS256");
            if bool_decide (map byte_to_Z k = key) && (now <? cl_ExpiresAt c * Second) then Ok (c, true)
            else Err "token has invalid claims: token is expired"
        | None => Err "token is malformed"
        end
    | None => Err "token is malformed"
    end
}.

#[local] Instance toy_jwt_laws : JWTLaws.
Proof.
  assert (Ht : forall c, tuple_claims (claims_tuple c) = Some c) by (by intros []).
  split.
  - intros key c s now kf [= <-] _ Hk Hlt. cbn [jwt_ParseWithClaims toy_jwt sdrop].
    rewrite text_pos_text, decode_encode, Ht, Hk. cbn.
    rewrite bool_decide_true by done. replace (now <? cl_ExpiresAt c * Second) with true by lia. done.
  - intros key c s now kf [= <-] Hk Hge. cbn [jwt_ParseWithClaims toy_jwt sdrop].
    rewrite text_pos_text, decode_encode, Ht, Hk. cbn.
    replace (now <? cl_ExpiresAt c * Second) with false by lia. rewrite andb_false_r. eauto.
  - intros key c s [= <-]. split; [done|]. cbn [all_bytes]. apply andb_true_iff. split; [done|].
    generalize (encode (map byte_to_Z key, claims_tuple c)) as p. induction p; cbn [pos_text all_bytes]; [by rewrite IHp..|done].
  - done.
  - intros now s kf Hk. cbn [jwt_ParseWithClaims toy_jwt]. destruct (decode _) as [[key t]|]; [|done].
    destruct (tuple_claims t); [|done]. apply no_panic_bind; [done|]. intros. by case_match.
Qed.

Definition sample_ctx : IssueContext := MkIssueContext "fp" "203.0.113.7" "Mozilla/5.0" "771,1" "t13" 12.

Lemma Verify_issued_iff_witness :
  exists s, Issue (NewIssuer [byte_of_Z 1] (3600 * Second) ["ip"; "ua"]) (1000 * Second) sample_ctx = Ok s
  /\ Verify (NewVerifier [byte_of_Z 1] ["ip"; "ua"]) (4599 * Second) s
       (MkVerifyContext "203.0.113.7" "MOZILLA/5.0" "other" "") =
     Ok (MkTokenClaims "fp" "203.0.113.7" "Mozilla/5.0" EmptyString EmptyString 12 1 1000 4600).
Proof.
  eexists. split; [reflexivity|].
  apply (Verify_issued_iff [byte_of_Z 1] (3600 * Second) ["ip"; "ua"] (1000 * Second) sample_ctx);
    [reflexivity|vm_compute; reflexivity|].
  split; [vm_compute; reflexivity|]. split; [|vm_compute; reflexivity].
  repeat constructor; try done; intros; vm_compute; reflexivity.
Defined.

(** Loading the key twice gives the same key: a generated key is persisted and read back,
    an existing one is returned unchanged, and an empty key is never returned. *)
Theorem LoadKey_idempotent fs path random write_err key fs' random' write_err' :
  (forall k, random = Ok k -> len k = 32) ->
  LoadKey fs path None random write_err = (Ok key, fs') ->
  key <> [] /\ LoadKey fs' path None random' write_err' = (Ok key, fs').
Proof.
  intros Hr. unfold LoadKey. destruct (fs !! path) as [data|] eqn:E.
  - case_match eqn:El; [done|]. intros [= <- <-]. rewrite E, El. split; [|done]. by intros ->.
  - destruct random as [k| |]; try done. destruct write_err; [done|]. intros [= <- <-].
    specialize (Hr k eq_refl). split; [by intros ->|]. rewrite lookup_insert_eq.
    by replace (len k =? 0) with false by lia.
Qed.

Lemma LoadKey_idempotent_witness :
  exists key fs', LoadKey ∅ "hmac.key" None (Ok (replicate 32 (byte_of_Z 9))) None = (Ok key, fs')
  /\ LoadKey fs' "hmac.key" None Panic None = (Ok key, fs').
Proof.
  eexists _, _. split; [reflexivity|].
  eapply (LoadKey_idempotent ∅ "hmac.key" (Ok (replicate 32 (byte_of_Z 9))) None); [|reflexivity].
  intros k [= <-]. reflexivity.
Defined.
