(* ===== verification/Cache.v ===== *)
(** * Package [internal/cache]: the cache interface, the memory and Redis caches, the factory

    [CacheIf] is the Go interface; [CacheSpec] states what its documentation promises, and is
    what the pipeline's theorems use.  The memory cache discharges it over the laws of the
    LRU library ([LRULaws]).  Times are Unix nanoseconds. *)

From stdpp Require Import relations.
From S2P Require Import Prelude Interleave GoStrings Types.
#[local] Open Scope Z_scope.

(** ** cache.go *)

(** [Get] returns [(value, hit, err)]. *)
Definition get_result : Type := list byte * bool * option string.

Class CacheIf := {
  cache_state : Type;
  cache_Get : Z -> string -> cache_state -> get_result * cache_state;
  cache_Set : Z -> string -> list byte -> Z -> cache_state -> option string * cache_state;
  cache_Delete : string -> cache_state -> option string * cache_state;
  cache_Close : cache_state -> option string * cache_state
}.

(** Still valid at [now]; no time means no expiry. *)
Definition live (now : Z) (expiresAt : option Z) : bool :=
  match expiresAt with Some t => now <=? t | None => true end.

(** [exp] of a [Set] with the given TTL: zero TTL means no expiry. *)
Definition expiry (now ttl : Z) : option Z := if 0 <? ttl then Some (now + ttl) else None.

(** What a cache promises, over a view of the entries it holds (value and expiry time):
    a lookup hits exactly on a live entry; a [Set] makes its entry visible and may evict
    others but never changes them; a [Delete] removes its key. *)
Class CacheSpec `{CacheIf} := {
  cache_ok : cache_state -> Prop;
  cache_view : cache_state -> gmap string (list byte * option Z);
  cache_Get_view now k st :
    cache_ok st ->
    let '(r, st') := cache_Get now k st in
    cache_ok st' /\ cache_view st' ⊆ cache_view st /\
    match cache_view st !! k with
    | Some (v, exp) =>
        if live now exp then r = (v, true, None) /\ cache_view st' = cache_view st else r = ([], false, None)
    | None => r = ([], false, None)
    end;
  cache_Set_view now k v ttl st :
    cache_ok st ->
    let '(e, st') := cache_Set now k v ttl st in
    e = None /\ cache_ok st' /\ cache_view st' !! k = Some (v, expiry now ttl)
    /\ forall k', k' <> k -> cache_view st' !! k' = None \/ cache_view st' !! k' = cache_view st !! k';
  cache_Delete_view k st :
    cache_ok st ->
    let '(e, st') := cache_Delete k st in
    e = None /\ cache_ok st' /\ cache_view st' = delete k (cache_view st)
}.

(** ** The LRU library *)
Class LRU (V : Type) := {
  lru_state : Type;
  lru_New : Z -> lru_state;
  lru_Get : string -> lru_state -> option V * lru_state;
  lru_Add : string -> V -> lru_state -> lru_state;
  lru_Remove : string -> lru_state -> lru_state;
  lru_Purge : lru_state -> lru_state
}.

Class LRULaws V `{LRU V} := {
  lru_wf : Z -> lru_state -> Prop;
  lru_map : lru_state -> gmap string V;
  lru_New_ok size : 0 < size -> lru_wf size (lru_New size) /\ lru_map (lru_New size) = ∅;
  lru_bounded size st : lru_wf size st -> Z.of_nat (base.size (lru_map st)) <= size;
  lru_Get_ok size k st :
    lru_wf size st -> (lru_Get k st).1 = lru_map st !! k
    /\ lru_wf size (lru_Get k st).2 /\ lru_map (lru_Get k st).2 = lru_map st;
  lru_Add_ok size k v st :
    lru_wf size st -> lru_wf size (lru_Add k v st) /\ lru_map (lru_Add k v st) !! k = Some v
    /\ forall k', k' <> k -> lru_map (lru_Add k v st) !! k' = None \/ lru_map (lru_Add k v st) !! k' = lru_map st !! k';
  lru_Remove_ok size k st :
    lru_wf size st -> lru_wf size (lru_Remove k st) /\ lru_map (lru_Remove k st) = delete k (lru_map st);
  lru_Purge_ok size st : lru_wf size st -> lru_wf size (lru_Purge st) /\ lru_map (lru_Purge st) = ∅;
  (** nothing is evicted while there is room *)
  lru_Add_room size k v st :
    lru_wf size st -> is_Some (lru_map st !! k) \/ Z.of_nat (base.size (lru_map st)) < size ->
    lru_map (lru_Add k v st) = <[k := v]> (lru_map st)
}.

(** ** memory.go *)
Definition defaultMemorySize : Z := 10000.

Record entry := MkEntry { e_value : list byte; e_expiresAt : option Z }.

Definition memory_size (size : Z) : Z := if size <=? 0 then defaultMemorySize else size.

Section memory.
Context `{LRU entry}.

Record memoryCache := MkMemoryCache { mc_lru : lru_state }.

Definition NewMemory (size : Z) : memoryCache := MkMemoryCache (lru_New (memory_size size)).

Definition memory_Get (now : Z) (key : string) (m : memoryCache) : get_result * memoryCache :=
  let '(e, l) := lru_Get key (mc_lru m) in
  match e with
  | None => (([], false, None), MkMemoryCache l)
  | Some e =>
      if match e_expiresAt e with Some t => t <? now | None => false end
      then (([], false, None), MkMemoryCache (lru_Remove key l))
      else ((e_value e, true, None), MkMemoryCache l)
  end.

Definition memory_Set (now : Z) (key : string) (value : list byte) (ttl : Z) (m : memoryCache)
    : option string * memoryCache :=
  let exp := if 0 <? ttl then Some (now + ttl) else None in
  (None, MkMemoryCache (lru_Add key (MkEntry value exp) (mc_lru m))).

Definition memory_Delete (key : string) (m : memoryCache) : option string * memoryCache :=
  (None, MkMemoryCache (lru_Remove key (mc_lru m))).

Definition memory_Close (m : memoryCache) : option string * memoryCache :=
  (None, MkMemoryCache (lru_Purge (mc_lru m))).

Definition memory_cache : CacheIf := {|
  cache_state := memoryCache;
  cache_Get := memory_Get;
  cache_Set := memory_Set;
  cache_Delete := memory_Delete;
  cache_Close := memory_Close
|}.
End memory.

(** ** redis.go

    The client is a parameter; a reply to GET is a value, [redis.Nil] or another error. *)
Inductive redis_reply := RedisValue (v : list byte) | RedisNil | RedisErr (e : string).

Class RedisClient := {
  redis_client : Type;
  redis_ParseURL : string -> outcome redis_client;   (** with [redis.NewClient] *)
  redis_GET : Z -> string -> redis_client -> redis_reply * redis_client;
  redis_SET : Z -> string -> list byte -> Z -> redis_client -> option string * redis_client;
  redis_DEL : string -> redis_client -> option string * redis_client;
  redis_CLOSE : redis_client -> option string * redis_client
}.

Section redis.
Context `{RedisClient}.

Definition NewRedis (url : string) : outcome redis_client := redis_ParseURL url.

Definition redis_Get (now : Z) (key : string) (c : redis_client) : get_result * redis_client :=
  let '(reply, c) := redis_GET now key c in
  (match reply with
   | RedisNil => ([], false, None)
   | RedisErr e => ([], false, Some e)
   | RedisValue v => (v, true, None)
   end, c).

Definition redis_cache : CacheIf := {|
  cache_state := redis_client;
  cache_Get := redis_Get;
  cache_Set := redis_SET;
  cache_Delete := redis_DEL;
  cache_Close := redis_CLOSE
|}.

(** ** factory.go *)
Inductive backend `{LRU entry} := BackendMemory (m : memoryCache) | BackendRedis (c : redis_client).

Definition redisURL (cfg : CacheConfig) : outcome string :=
  match cac_Redis cfg with
  | None => Err "cache: redis backend requires redis.addr"
  | Some r =>
      if String.eqb (rc_Addr r) EmptyString then Err "cache: redis.addr must not be empty"
      else Ok ("redis://" +:+ rc_Addr r +:+ "/" +:+ Itoa (rc_DB r))
  end.

Definition New `{LRU entry} (cfg : option CacheConfig) : outcome backend :=
  match cfg with
  | None => Ok (BackendMemory (NewMemory 0))
  | Some cfg =>
      if String.eqb (cac_Backend cfg) EmptyString || String.eqb (cac_Backend cfg) "memory"
      then Ok (BackendMemory (NewMemory 0))
      else if String.eqb (cac_Backend cfg) "redis" then
        url ← redisURL cfg;
        c ← wrap_err "cache: redis init" (NewRedis url);
        Ok (BackendRedis c)
      else Err ("cache: unknown backend " +:+ Quote (cac_Backend cfg))
  end.

(** Calls through the interface go to the backend the value holds. *)
Definition backend_lift `{LRU entry} {A} (b : backend) (fm : memoryCache -> A * memoryCache)
    (fr : redis_client -> A * redis_client) : A * backend :=
  match b with
  | BackendMemory m => let '(a, m) := fm m in (a, BackendMemory m)
  | BackendRedis c => let '(a, c) := fr c in (a, BackendRedis c)
  end.

Definition backend_cache `{LRU entry} : CacheIf := {|
  cache_state := backend;
  cache_Get now k b := backend_lift b (memory_Get now k) (redis_Get now k);
  cache_Set now k v ttl b := backend_lift b (memory_Set now k v ttl) (redis_SET now k v ttl);
  cache_Delete k b := backend_lift b (memory_Delete k) (redis_DEL k);
  cache_Close b := backend_lift b memory_Close redis_CLOSE
|}.
End redis.

(** ** The memory cache keeps the promise *)
Section memory_spec.
Context `{LRULaws entry}.

Definition entry_view (e : entry) : list byte * option Z := (e_value e, e_expiresAt e).
Definition memory_view (m : memoryCache) : gmap string (list byte * option Z) :=
  entry_view <$> lru_map (mc_lru m).
Definition memory_ok (m : memoryCache) : Prop := exists size, 0 < size /\ lru_wf size (mc_lru m).

Lemma not_live now e : live now (e_expiresAt e) = negb (match e_expiresAt e with Some t => t <? now | None => false end).
Proof. unfold live. destruct (e_expiresAt e); [|done]. lia. Qed.

Program Definition memory_spec : CacheSpec (H := memory_cache) :=
  {| cache_ok := memory_ok; cache_view := memory_view |}.
Next Obligation.
  intros now k m (size & Hs & Hwf). cbn. unfold memory_Get, memory_view, memory_ok. cbn [mc_lru].
  destruct (lru_Get_ok size k (mc_lru m) Hwf) as (He & Hwf' & Hm).
  destruct (lru_Get k (mc_lru m)) as [e l]. cbn in *. rewrite lookup_fmap, <- He.
  destruct e as [e|]; cbn; [|split_and!; eauto; by rewrite Hm].
  rewrite not_live. destruct (match e_expiresAt e with Some t => t <? now | None => false end); cbn.
  - destruct (lru_Remove_ok size k l Hwf') as [Hwf'' Hr]. split_and!; eauto.
    rewrite Hr, Hm, fmap_delete. apply delete_subseteq.
  - split_and!; eauto; by rewrite Hm.
Qed.
Next Obligation.
  intros now k v ttl m (size & Hs & Hwf). cbn. unfold memory_view, memory_ok. cbn [mc_lru].
  destruct (lru_Add_ok size k (MkEntry v (if 0 <? ttl then Some (now + ttl) else None)) (mc_lru m) Hwf)
    as (Hwf' & Hk & Hother).
  split_and!; [done|eauto|by rewrite lookup_fmap, Hk|].
  intros k' Hne. rewrite !lookup_fmap. destruct (Hother k' Hne) as [->| ->]; auto.
Qed.
Next Obligation.
  intros k m (size & Hs & Hwf). cbn. unfold memory_view, memory_ok. cbn [mc_lru].
  destruct (lru_Remove_ok size k (mc_lru m) Hwf) as (Hwf' & Hr).
  split_and!; [done|eauto|by rewrite Hr, fmap_delete].
Qed.

(** A lookup touches no entry but its own, and a store with room evicts nothing. *)
Lemma memory_Get_keeps size now k m : lru_wf size (mc_lru m) ->
  let m' := (memory_Get now k m).2 in
  lru_wf size (mc_lru m') /\ dom (memory_view m') ⊆ dom (memory_view m)
  /\ forall k', k' <> k -> memory_view m' !! k' = memory_view m !! k'.
Proof.
  intros Hwf. unfold memory_Get, memory_view. destruct (lru_Get_ok size k (mc_lru m) Hwf) as (_ & Hwf' & Hm).
  destruct (lru_Get k (mc_lru m)) as [[e|] l]; cbn in *; [|by rewrite Hm].
  destruct (match e_expiresAt e with Some t => t <? now | None => false end); cbn; [|by rewrite Hm].
  destruct (lru_Remove_ok size k l Hwf') as [Hwf'' Hr]. rewrite Hr, Hm, fmap_delete. split_and!; [done|set_solver|].
  intros k' Hne. by rewrite lookup_delete_ne.
Qed.

Lemma memory_Set_room size now k v ttl m :
  lru_wf size (mc_lru m) -> k ∈ dom (memory_view m) \/ Z.of_nat (base.size (dom (memory_view m))) < size ->
  let m' := (memory_Set now k v ttl m).2 in
  lru_wf size (mc_lru m') /\ memory_view m' = <[k := (v, expiry now ttl)]> (memory_view m).
Proof.
  intros Hwf Hroom. unfold memory_Set, memory_view. cbn [snd mc_lru].
  split; [by apply lru_Add_ok|]. rewrite (lru_Add_room size); [by rewrite fmap_insert|done|].
  unfold memory_view in Hroom. rewrite dom_fmap_L in Hroom. rewrite size_dom in Hroom.
  destruct Hroom as [Hk|Hl]; [left; by apply elem_of_dom in Hk|by right].
Qed.

Lemma NewMemory_ok size : memory_ok (NewMemory size) /\ memory_view (NewMemory size) = ∅.
Proof.
  unfold memory_ok, memory_view, NewMemory, memory_size, defaultMemorySize. cbn.
  destruct (lru_New_ok (if size <=? 0 then 10000 else size)) as [? ->]; [case_match; lia|].
  split; [|apply fmap_empty]. eexists; split; [|done]. case_match; lia.
Qed.
End memory_spec.

(** A cache value from the factory keeps the promise when it is a memory cache. *)
Section backend_spec.
Context `{RedisClient} `{LRULaws entry}.

Definition backend_ok (b : backend) : Prop := match b with BackendMemory m => memory_ok m | BackendRedis _ => False end.
Definition backend_view (b : backend) : gmap string (list byte * option Z) :=
  match b with BackendMemory m => memory_view m | BackendRedis _ => ∅ end.

Program Definition backend_spec : CacheSpec (H := backend_cache) :=
  {| cache_ok := backend_ok : cache_state (CacheIf := backend_cache) -> Prop; cache_view := backend_view |}.
Next Obligation.
  intros now k [m|c] Hok; [|done]. pose proof (cache_Get_view (CacheSpec := memory_spec) now k m Hok) as Hg. cbn in *.
  destruct (memory_Get now k m) as [r m']. cbn. destruct Hg as (? & ? & ?). split_and!; [done..|].
  by repeat case_match.
Qed.
Next Obligation.
  intros now k v ttl [m|c] Hok; [|done]. exact (cache_Set_view (CacheSpec := memory_spec) now k v ttl m Hok).
Qed.
Next Obligation. intros k [m|c] Hok; [|done]. exact (cache_Delete_view (CacheSpec := memory_spec) k m Hok). Qed.
End backend_spec.

(** ** Sequences of operations

    The abstract store keeps the last value written to each key and never evicts. *)
Inductive cache_op := OpGet (k : string) | OpSet (k : string) (v : list byte) (ttl : Z) | OpDelete (k : string).

Abbreviation store := (gmap string (list byte * option Z)).

Definition store_answer (now : Z) (k : string) (s : store) : option (list byte) :=
  match s !! k with
  | Some (v, exp) => if live now exp then Some v else None
  | None => None
  end.

Definition store_step (now : Z) (op : cache_op) (s : store) : option (list byte) * store :=
  match op with
  | OpGet k => (store_answer now k s, s)
  | OpSet k v ttl => (None, <[k := (v, expiry now ttl)]> s)
  | OpDelete k => (None, delete k s)
  end.

Definition hit_value (r : get_result) : option (list byte) :=
  match r with (v, true, _) => Some v | _ => None end.

Definition cache_step `{CacheIf} (now : Z) (op : cache_op) (st : cache_state) : option (list byte) * cache_state :=
  match op with
  | OpGet k => let '(r, st) := cache_Get now k st in (hit_value r, st)
  | OpSet k v ttl => let '(_, st) := cache_Set now k v ttl st in (None, st)
  | OpDelete k => let '(_, st) := cache_Delete k st in (None, st)
  end.

Fixpoint run_ops {S} (step : Z -> cache_op -> S -> option (list byte) * S) (ops : list (Z * cache_op)) (st : S)
    : list (option (list byte)) * S :=
  match ops with
  | [] => ([], st)
  | (now, op) :: ops =>
      let '(r, st) := step now op st in
      let '(rs, st) := run_ops step ops st in (r :: rs, st)
  end.

(** An answer of the cache is a miss or the store's answer. *)
Definition answer_ok (r a : option (list byte)) : Prop := r = None \/ r = a.

Section interface.
Context `{CacheSpec}.

(** One operation preserves that the cache holds part of the store. *)
Lemma cache_step_sim now op st s :
  cache_ok st -> cache_view st ⊆ s ->
  let '(r, st') := cache_step now op st in
  let '(a, s') := store_step now op s in
  answer_ok r a /\ cache_ok st' /\ cache_view st' ⊆ s'.
Proof.
  intros Hok Hsub. destruct op as [k|k v ttl|k]; cbn.
  - pose proof (cache_Get_view now k st Hok) as Hg. destruct (cache_Get now k st) as [r st'].
    destruct Hg as (Hok' & Hv & Hr). split_and!; [|done|by etrans].
    unfold store_answer, answer_ok. destruct (cache_view st !! k) as [[v exp]|] eqn:E; [|rewrite Hr; by left].
    rewrite (lookup_weaken _ _ _ _ E Hsub). destruct (live now exp); [|rewrite Hr; by left].
    destruct Hr as [-> _]. by right.
  - pose proof (cache_Set_view now k v ttl st Hok) as Hs. destruct (cache_Set now k v ttl st) as [e st'].
    destruct Hs as (_ & Hok' & Hk & Ho). split_and!; [by left|done|].
    apply map_subseteq_spec. intros k' x Hx. destruct (decide (k' = k)) as [->|Hne].
    + by rewrite lookup_insert_eq, <- Hk.
    + rewrite lookup_insert_ne by done. destruct (Ho k' Hne) as [E|E]; rewrite E in Hx; [done|].
      eapply lookup_weaken; eauto.
  - pose proof (cache_Delete_view k st Hok) as Hd. destruct (cache_Delete k st) as [e st'].
    destruct Hd as (_ & Hok' & ->). split_and!; [by left|done|by apply delete_mono].
Qed.

Lemma cache_run_sim ops st s :
  cache_ok st -> cache_view st ⊆ s ->
  Forall2 answer_ok (run_ops cache_step ops st).1 (run_ops store_step ops s).1
  /\ cache_ok (run_ops cache_step ops st).2.
Proof.
  revert st s. induction ops as [|[now op] ops IH]; intros st s Hok Hsub; [by split|].
  cbn [run_ops]. pose proof (cache_step_sim now op st s Hok Hsub) as Hstep.
  destruct (cache_step now op st) as [r st'], (store_step now op s) as [a s'].
  destruct Hstep as (Ha & Hok' & Hsub'). destruct (IH st' s' Hok' Hsub') as [IH1 IH2].
  destruct (run_ops cache_step ops st'), (run_ops store_step ops s'). by split; [constructor|].
Qed.
End interface.

Section memory_theorems.
Context `{LRULaws entry}.

Definition memory_step (now : Z) (op : cache_op) (m : memoryCache) : option (list byte) * memoryCache :=
  cache_step (H := memory_cache) now op m.

Lemma memory_step_wf size now op m :
  lru_wf size (mc_lru m) -> lru_wf size (mc_lru (memory_step now op m).2).
Proof.
  intros Hm. destruct op as [k|k v ttl|k]; cbn.
  - unfold memory_Get. destruct (lru_Get_ok _ k (mc_lru m) Hm) as (_ & Hg & _).
    destruct (lru_Get k (mc_lru m)) as [[e|] l]; [|done].
    destruct (match e_expiresAt e with Some t => t <? now | None => false end); [|done].
    by apply lru_Remove_ok.
  - by apply lru_Add_ok.
  - by apply lru_Remove_ok.
Qed.

Lemma memory_run_wf size ops m :
  lru_wf size (mc_lru m) -> lru_wf size (mc_lru (run_ops memory_step ops m).2).
Proof.
  revert m. induction ops as [|[now op] ops IH]; intros m Hm; [done|]. cbn [run_ops].
  pose proof (memory_step_wf size now op m Hm) as Hstep.
  destruct (memory_step now op m) as [r m']. specialize (IH m' Hstep).
  by destruct (run_ops memory_step ops m').
Qed.

(** Over any sequence of operations at any times, every lookup of the memory cache is a
    miss or answers the value last written to that key, not deleted since and not past its
    TTL; evictions never surface a wrong or stale value, and the number of entries never
    exceeds the configured size. *)
Theorem memory_cache_sound size ops :
  Forall2 answer_ok (run_ops memory_step ops (NewMemory size)).1 (run_ops store_step ops ∅).1
  /\ Z.of_nat (base.size (lru_map (mc_lru (run_ops memory_step ops (NewMemory size)).2))) <= memory_size size.
Proof.
  destruct (NewMemory_ok size) as [Hok Hv]. split.
  - destruct (@cache_run_sim memory_cache memory_spec ops (NewMemory size) ∅ Hok) as [? _]; [cbn; by rewrite Hv|done].
  - apply lru_bounded, memory_run_wf. apply lru_New_ok. unfold memory_size, defaultMemorySize. case_match; lia.
Qed.
(** *** Overlapping calls: a lookup of an expired entry calls the library twice *)
Definition expired (now : Z) (e : entry) : bool := match e_expiresAt e with Some t => t <? now | None => false end.

Definition memory_method (o : Z * cache_op) : method memoryCache (option (list byte)) :=
  match o.2 with
  | OpGet k =>
      Locked (fun m => let '(e, l) := lru_Get k (mc_lru m) in Ok (e, MkMemoryCache l)) (fun e =>
        match e with
        | None => Return None
        | Some e =>
            if expired o.1 e then Locked (fun m => Ok (memory_Delete k m)) (fun _ => Return None) else Return (Some (e_value e))
        end)
  | OpSet k v ttl => Locked (fun m => Ok (memory_Set o.1 k v ttl m)) (fun _ => Return None)
  | OpDelete k => Locked (fun m => Ok (memory_Delete k m)) (fun _ => Return None)
  end.

(** With nobody else using the cache a call is the operation. *)
Lemma memory_method_alone now op m : uninterrupted (memory_method (now, op)) m = Ok (memory_step now op m).
Proof.
  destruct op as [k|k v ttl|k]; [|done..]. cbn. unfold memory_Get, memory_step, cache_step. cbn. unfold memory_Get, expired.
  destruct (lru_Get k (mc_lru m)) as [[e|] l]; [|done]. cbn. by destruct (match e_expiresAt e with Some t => t <? now | None => false end).
Qed.

(** What the abstract store allows: a miss, or its answer. *)
Definition store_allows (o : Z * cache_op) (s : store) (r : option (list byte)) (s' : store) : Prop :=
  answer_ok r (store_step o.1 o.2 s).1 /\ s' = (store_step o.1 o.2 s).2.

Definition part_of (size : Z) (s : store) (m : memoryCache) : Prop := lru_wf size (mc_lru m) /\ memory_view m ⊆ s.

Lemma part_of_step size now op s m :
  0 < size -> part_of size s m -> store_allows (now, op) s (memory_step now op m).1 (store_step now op s).2
  /\ part_of size (store_step now op s).2 (memory_step now op m).2.
Proof.
  intros Hsize [Hwf Hv]. pose proof (memory_step_wf size now op m Hwf) as Hwf'.
  pose proof (@cache_step_sim memory_cache memory_spec now op m s (ex_intro _ size (conj Hsize Hwf)) Hv) as Hs.
  unfold store_allows. fold (memory_step now op m) in Hs. destruct (memory_step now op m) as [r m']. cbn [fst snd] in *.
  destruct (store_step now op s) as [a s']. destruct Hs as (Ha & _ & Hv'). by split.
Qed.

Lemma memory_sim size o m : 0 < size -> sim store_allows (part_of size) anything o (memory_method o) None m.
Proof.
  intros Hsize. destruct o as [now [k|k v ttl|k]]; cbn; intros s m1 Hm _.
  - destruct Hm as [Hwf Hv]. destruct (lru_Get_ok size k (mc_lru m1) Hwf) as (Hg & Hwf' & Hmap).
    destruct (lru_Get k (mc_lru m1)) as [e l]. cbn [fst snd] in Hg, Hwf', Hmap.
    assert (Hpart : part_of size s (MkMemoryCache l)) by (split; [done|]; unfold memory_view; cbn; by rewrite Hmap).
    eexists e, _. split; [done|]. split; [done|]. right. split; [done|].
    destruct e as [e|]; [|exists None, s; split_and!; [by split; [left|]|done..]].
    unfold expired. destruct (match e_expiresAt e with Some t => t <? now | None => false end) eqn:Ee.
    + exists None, s. split_and!; [by split; [left|]|done|]. intros s1 m2 [Hwf2 Hv2] _. destruct (lru_Remove_ok size k (mc_lru m2) Hwf2) as [Hwf3 Hr].
      eexists _, _. split; [done|]. split; [done|]. left. split; [|done]. split; [done|]. unfold memory_view. cbn. rewrite Hr, fmap_delete.
      etrans; [apply delete_subseteq|done].
    + exists (Some (e_value e)), s. split_and!; [|done..]. split; [|done]. right. cbn. unfold store_answer.
      rewrite (lookup_weaken (memory_view m1) s k (e_value e, e_expiresAt e)); [by rewrite not_live, Ee| |done].
      unfold memory_view. by rewrite lookup_fmap, <- Hg.
  - destruct (part_of_step size now (OpSet k v ttl) s m1 Hsize Hm) as [Ha Hp].
    eexists _, _. split; [reflexivity|]. split; [done|]. right. split; [done|]. eexists None, _. split_and!; [exact Ha|exact Hp|done].
  - destruct (part_of_step size now (OpDelete k) s m1 Hsize Hm) as [Ha Hp].
    eexists _, _. split; [reflexivity|]. split; [done|]. right. split; [done|]. eexists None, _. split_and!; [exact Ha|exact Hp|done].
Qed.

(** C14: the memory cache is linearizable: however calls overlap, each one's answer is a miss or the value last written to
    that key, not deleted since and not past its TTL, at one moment between the call and its return; evictions, and the
    removal of an expired entry in a second call of the library, never surface a wrong or stale value.  No call is ever
    stuck, and the number of entries never exceeds the configured size. *)
Theorem memory_cache_linearizable size w :
  rtc (ostep memory_method) (begin (NewMemory size)) w ->
  linearizable store_allows ∅ (w_hist w) /\ unblocked w
  /\ Z.of_nat (base.size (lru_map (mc_lru (w_state w)))) <= memory_size size.
Proof.
  assert (Hsize : 0 < memory_size size) by (unfold memory_size, defaultMemorySize; case_match; lia).
  destruct (lru_New_ok (memory_size size) Hsize) as [Hwf Hmap]. intros Hw.
  destruct (sim_linearizable memory_method store_allows (part_of (memory_size size)) anything (fun o m => memory_sim _ o m Hsize)
    ∅ (NewMemory size) w) as (Hl & Hu & s & Hp & _); [|done|].
  - split; [done|]. unfold memory_view. cbn. by rewrite Hmap, fmap_empty.
  - split_and!; [done..|]. by apply lru_bounded.
Qed.
End memory_theorems.

(** ** An LRU list for examples: most recently used first *)
Section list_lru.
Context {V : Type}.

Definition ll_remove (k : string) (l : list (string * V)) : list (string * V) :=
  List.filter (fun p => negb (String.eqb p.1 k)) l.
Definition ll_map (l : list (string * V)) : gmap string V := list_to_map l.

#[local] Arguments ll_map : simpl never.
#[local] Arguments ll_remove : simpl never.

#[local] Instance list_lru : LRU V := {
  lru_state := Z * list (string * V);
  lru_New size := (size, []);
  lru_Get k st :=
    match ll_map st.2 !! k with
    | Some v => (Some v, (st.1, (k, v) :: ll_remove k st.2))
    | None => (None, st)
    end;
  lru_Add k v st := (st.1, take (Z.to_nat st.1) ((k, v) :: ll_remove k st.2));
  lru_Remove k st := (st.1, ll_remove k st.2);
  lru_Purge st := (st.1, [])
}.

Lemma ll_remove_map k l : ll_map (ll_remove k l) = delete k (ll_map l).
Proof.
  unfold ll_map, ll_remove. induction l as [|[k' v] l IH]; cbn; [by rewrite delete_empty|].
  destruct (String.eqb_spec k' k) as [->|Hne]; cbn; rewrite IH.
  - by rewrite delete_insert_eq.
  - by rewrite delete_insert_ne.
Qed.

Lemma ll_remove_nodup k l :
  NoDup l.*1 -> NoDup (ll_remove k l).*1 /\ k ∉ (ll_remove k l).*1.
Proof.
  unfold ll_remove.
  induction l as [|[k' v] l IH]; cbn; [by split; [constructor|set_solver]|].
  intros [Hk' Hl]%NoDup_cons. destruct (IH Hl) as [IH1 IH2].
  destruct (String.eqb_spec k' k) as [->|Hne]; cbn; [done|]. split; [|set_solver].
  constructor; [|done]. intros Hin. apply Hk'. clear -Hin.
  induction l as [|[k'' v'] l IHl]; cbn in *; [done|].
  destruct (String.eqb_spec k'' k); cbn in *; set_solver.
Qed.

Lemma ll_remove_len k v l : ll_map l !! k = Some v -> len (ll_remove k l) < len l.
Proof.
  unfold ll_map, ll_remove. induction l as [|[k' v'] l IH]; cbn; [by rewrite lookup_empty|].
  pose proof (List.filter_length_le (fun p : string * V => negb (String.eqb p.1 k)) l) as Hle.
  destruct (String.eqb_spec k' k) as [->|Hne]; cbn; rewrite ?len_cons; unfold ll_remove, len in *; [lia|].
  rewrite lookup_insert_ne by done. intros ?%IH. lia.
Qed.

Lemma ll_take_map n (l : list (string * V)) k :
  NoDup l.*1 -> ll_map (take n l) !! k = None \/ ll_map (take n l) !! k = ll_map l !! k.
Proof.
  intros Hnd. destruct (ll_map (take n l) !! k) as [v|] eqn:E; [right|by left]. symmetry. unfold ll_map in *.
  apply elem_of_list_to_map_2 in E. apply elem_of_list_to_map_1; [done|].
  apply list_elem_of_In. rewrite <- (take_drop n l). apply List.in_or_app. left. by apply list_elem_of_In.
Qed.

#[local] Program Instance list_lru_laws : LRULaws V := {|
  lru_wf size st := 0 < size /\ st.1 = size /\ NoDup st.2.*1 /\ len st.2 <= size;
  lru_map st := ll_map st.2
|}.
Next Obligation. cbn. intros size Hs. split_and!; [done..|constructor|unfold len; cbn; lia|done]. Qed.
Next Obligation.
  cbn. intros size [cap l] (Hs & Hc & Hnd & Hlen). cbn in *. etrans; [|exact Hlen].
  unfold ll_map, len. apply Nat2Z.inj_le.
  clear. induction l as [|[k v] l IH]; cbn; [by rewrite map_size_empty|].
  rewrite map_size_insert. case_match; unfold id; lia.
Qed.
Next Obligation.
  cbn. intros size k [cap l] (Hs & Hc & Hnd & Hlen). cbn in *. subst cap.
  destruct (ll_map l !! k) as [v|] eqn:E; cbn; [|by split_and!].
  destruct (ll_remove_nodup k l Hnd) as [Hnd' Hk]. split_and!; [done..| | |].
  - by constructor.
  - rewrite len_cons. pose proof (ll_remove_len k v l E). lia.
  - change (ll_map ((k, v) :: ll_remove k l)) with (<[k := v]> (ll_map (ll_remove k l))).
    rewrite ll_remove_map. by rewrite insert_delete_id.
Qed.
Next Obligation.
  cbn. intros size k v [cap l] (Hs & Hc & Hnd & Hlen). cbn in *. subst cap.
  destruct (ll_remove_nodup k l Hnd) as [Hnd' Hk].
  assert (Hnd2 : NoDup ((k, v) :: ll_remove k l).*1) by (by constructor).
  assert (exists n, Z.to_nat size = S n) as [n Hn] by (exists (Nat.pred (Z.to_nat size)); lia).
  split_and!; [done..| | | |].
  - rewrite fmap_take. eapply sublist_NoDup; [done|apply sublist_take].
  - unfold len. rewrite length_take. lia.
  - rewrite Hn. cbn. apply lookup_insert_eq.
  - intros k' Hne. destruct (ll_take_map (Z.to_nat size) ((k, v) :: ll_remove k l) k' Hnd2) as [->| ->]; [by left|].
    right. change (ll_map ((k, v) :: ll_remove k l)) with (<[k := v]> (ll_map (ll_remove k l))).
    by rewrite ll_remove_map, lookup_insert_ne, lookup_delete_ne.
Qed.
Next Obligation.
  cbn. intros size k [cap l] (Hs & Hc & Hnd & Hlen). cbn in *. subst cap.
  destruct (ll_remove_nodup k l Hnd) as [Hnd' _]. split_and!; [done..| |apply ll_remove_map].
  etrans; [|exact Hlen]. unfold len, ll_remove. pose proof (List.filter_length_le (fun p => negb (String.eqb p.1 k)) l). lia.
Qed.
Next Obligation. cbn. intros size [cap l] (Hs & Hc & Hnd & Hlen). cbn in *. split_and!; [done..|constructor|unfold len; cbn; lia|done]. Qed.
Next Obligation.
  cbn. intros size k v [cap l] (Hs & Hc & Hnd & Hlen) Hroom. cbn in *. subst cap.
  rewrite take_ge.
  { change (ll_map ((k, v) :: ll_remove k l)) with (<[k := v]> (ll_map (ll_remove k l))). by rewrite ll_remove_map, insert_delete_eq. }
  cbn [length]. destruct Hroom as [[w Hw]|Hl]; [pose proof (ll_remove_len k w l Hw); unfold len in *; lia|].
  unfold ll_map in Hl. rewrite map_size_list_to_map in Hl by done.
  pose proof (List.filter_length_le (fun p : string * V => negb (String.eqb p.1 k)) l). unfold ll_remove. lia.
Qed.
End list_lru.

(** A trace with an expiry and an eviction, on a cache of two entries. *)
Definition sample_trace : list (Z * cache_op) := [
  (0, OpSet "a" [byte_of_Z 1] 10); (5, OpGet "a"); (11, OpGet "a");
  (12, OpSet "b" [byte_of_Z 2] 0); (13, OpSet "c" [byte_of_Z 3] 0); (14, OpSet "d" [byte_of_Z 4] 0);
  (99, OpGet "b"); (99, OpGet "c")].

Lemma memory_cache_sound_witness :
  Forall2 answer_ok
    [None; Some [byte_of_Z 1]; None; None; None; None; None; Some [byte_of_Z 3]]
    (run_ops store_step sample_trace ∅).1.
Proof.
  exact (proj1 (@memory_cache_sound (list_lru (V := entry)) (list_lru_laws (V := entry)) 2 sample_trace)).
Defined.

(** A lookup finds an expired entry; the key is written again before the lookup removes it. *)
Definition overlapping_calls : list (obj_move (C := Z * cache_op)) :=
  [Invoke (0, OpSet "a" [byte_of_Z 1] 10); Step 0; Step 0; Invoke (11, OpGet "a"); Step 1; Invoke (12, OpSet "a" [byte_of_Z 2] 10);
   Step 2; Step 2; Invoke (13, OpGet "a"); Step 3; Step 3; Step 1; Step 1; Invoke (14, OpGet "a"); Step 4; Step 4].

Definition overlapped : world memoryCache (Z * cache_op) (option (list byte)) :=
  reached (memory_method (H := list_lru (V := entry))) overlapping_calls (begin (NewMemory 2)).

Lemma memory_cache_linearizable_witness :
  linearizable store_allows ∅ (w_hist overlapped)
  /\ answers (w_hist overlapped) = [(0%nat, None); (2%nat, None); (3%nat, Some [byte_of_Z 2]); (1%nat, None); (4%nat, None)].
Proof.
  split; [|vm_compute; reflexivity].
  exact (proj1 (@memory_cache_linearizable (list_lru (V := entry)) (list_lru_laws (V := entry)) 2 overlapped (reached_steps _ _ _))).
Defined.
