(* ===== verification/Json.v ===== *)
(** * Decisions as JSON ([encoding/json] with the struct tags of [internal/types])

    A decision is turned into a JSON tree and back by the rules of [encoding/json], and the tree into text by
    [JsonText]. *)

From S2P Require Import Prelude GoStrings GoStd JsonText GoNumber Types.
#[local] Open Scope Z_scope.

(** ** Marshal *)
(** [None]: [json.UnsupportedValueError]. *)
Fixpoint any_json (v : any) : option json :=
  match v with
  | ANil => Some JNull
  | AString s => Some (JStr s)
  | AInt z | AUint z => Some (JNum (Itoa z))
  | ABool b => Some (JBool b)
  | AFloat f => match float_literal f with Some lit => Some (JNum lit) | None => None end
  | AList l =>
      (fix go l acc :=
         match l with
         | [] => Some (JArr (reverse acc))
         | v :: l => match any_json v with Some j => go l (j :: acc) | None => None end
         end) l []
  | AMap l =>
      (fix go l acc :=
         match l with
         | [] => Some (JObj (reverse acc))
         | (k, v) :: l => match any_json v with Some j => go l ((k, j) :: acc) | None => None end
         end) l []
  | AStrings l => Some (JArr (map JStr l))
  | AInts l => Some (JArr (map (fun z => JNum (Itoa z)) l))
  end.

(** The entries of a map in the order of its sorted keys. *)
Definition map_entries {V} (m : gmap string V) : list (string * V) :=
  omap (fun k => match m !! k with Some v => Some (k, v) | None => None end) (sort_Strings (map_to_list m).*1).

Definition entry_json (p : string * any) : option (string * json) :=
  match any_json p.2 with Some j => Some (p.1, j) | None => None end.

Definition detail_json (m : gmap string any) : option (list (string * json)) :=
  mapM entry_json (map_entries m).

(** [detail,omitempty]: an empty map is left out. *)
Definition signal_json (s : Signal) : option json :=
  d ← detail_json (sig_Detail s);
  Some (JObj ([("name", JStr (sig_Name s)); ("score", JNum (Itoa (sig_Score s))); ("reason", JStr (sig_Reason s))]
              ++ match d with [] => [] | _ => [("detail", JObj d)] end)).

Definition verdict_text (v : Verdict) : string :=
  match v with VerdictAllow => "ALLOW" | VerdictChallenge => "CHALLENGE" | VerdictDeny => "DENY" end.

(** A decision without reasons has a nil slice, which is [null]. *)
Definition reasons_json (l : list string) : json :=
  match l with [] => JNull | _ => JArr (map JStr l) end.

Definition decision_json (d : Decision) : option json :=
  sigs ← mapM signal_json (d_Signals d);
  Some (JObj [("verdict", JStr (verdict_text (d_Verdict d))); ("score", JNum (Itoa (d_Score d)));
              ("signals", JArr sigs);
              ("reasons", reasons_json (d_Reasons d));
              ("policy_name", JStr (d_PolicyName d)); ("timestamp", JNum (Itoa (d_Timestamp d)));
              ("request_id", JStr (d_RequestID d))]).

(** [json.Marshal(d)] *)
Definition Marshal (d : Decision) : option (list byte) :=
  j ← decision_json d; Some (json_print j).

(** ** Unmarshal *)
(** A value decoded into [any]: numbers become [float64], objects maps, where the last of equal keys wins. *)
Fixpoint json_any (j : json) : option any :=
  match j with
  | JNull => Some ANil
  | JBool b => Some (ABool b)
  | JNum lit => match ParseFloat lit with Some f => Some (AFloat f) | None => None end
  | JStr s => Some (AString s)
  | JArr l =>
      (fix go l acc :=
         match l with
         | [] => Some (AList (reverse acc))
         | j :: l => match json_any j with Some v => go l (v :: acc) | None => None end
         end) l []
  | JObj l =>
      (fix go l acc :=
         match l with
         | [] => Some (AMap (map_entries (list_to_map acc)))
         | (k, j) :: l => match json_any j with Some v => go l ((k, v) :: acc) | None => None end
         end) l []
  end.

(** The struct field a key names: an exact match first, then up to case. *)
Definition field_named (names : list string) (k : string) : option string :=
  match List.find (String.eqb k) names with
  | Some n => Some n
  | None => List.find (fun n => EqualFold n k) names
  end.

(** Decoding into a variable: [null] leaves it as it is, a value of another type is an error. *)
Definition into_string (old : string) (j : json) : option string :=
  match j with JNull => Some old | JStr s => Some s | _ => None end.
Definition into_int (old : Z) (j : json) : option Z :=
  match j with
  | JNull => Some old
  | JNum lit => ParseInt lit
  | _ => None
  end.
Definition into_list {A} (elem : json -> option A) (j : json) : option (list A) :=
  match j with JNull => Some [] | JArr l => mapM elem l | _ => None end.
Definition member_any (p : string * json) : option (string * any) := v ← json_any p.2; Some (p.1, v).
(** An object is decoded into the map the variable holds. *)
Definition into_detail (old : gmap string any) (j : json) : option (gmap string any) :=
  match j with
  | JNull => Some ∅
  | JObj l => kvs ← mapM member_any l; Some (list_to_map (reverse kvs) ∪ old)
  | _ => None
  end.

(** Verdicts are strings in Go; the model knows the three the program writes. *)
Definition verdict_of_text (s : string) : option Verdict :=
  if String.eqb s "ALLOW" then Some VerdictAllow
  else if String.eqb s "CHALLENGE" then Some VerdictChallenge
  else if String.eqb s "DENY" then Some VerdictDeny
  else None.
Definition into_verdict (old : Verdict) (j : json) : option Verdict :=
  match j with JNull => Some old | JStr s => verdict_of_text s | _ => None end.

Fixpoint decode_fields {A} (names : list string) (set : string -> json -> A -> option A)
    (l : list (string * json)) (a : A) : option A :=
  match l with
  | [] => Some a
  | (k, j) :: l =>
      a ← match field_named names k with Some n => set n j a | None => Some a end;
      decode_fields names set l a
  end.

Definition set_signal_field (n : string) (j : json) (s : Signal) : option Signal :=
  if String.eqb n "name" then
    x ← into_string (sig_Name s) j; Some (MkSignal x (sig_Score s) (sig_Reason s) (sig_Detail s))
  else if String.eqb n "score" then
    x ← into_int (sig_Score s) j; Some (MkSignal (sig_Name s) x (sig_Reason s) (sig_Detail s))
  else if String.eqb n "reason" then
    x ← into_string (sig_Reason s) j; Some (MkSignal (sig_Name s) (sig_Score s) x (sig_Detail s))
  else
    x ← into_detail (sig_Detail s) j; Some (MkSignal (sig_Name s) (sig_Score s) (sig_Reason s) x).

Definition json_signal (j : json) : option Signal :=
  let zero := MkSignal EmptyString 0 EmptyString ∅ in
  match j with
  | JNull => Some zero
  | JObj l => decode_fields ["name"; "score"; "reason"; "detail"] set_signal_field l zero
  | _ => None
  end.

Definition set_decision_field (n : string) (j : json) (d : Decision) : option Decision :=
  let mk v sc sg rs pn ts id := MkDecision v sc sg rs pn ts id in
  if String.eqb n "verdict" then
    x ← into_verdict (d_Verdict d) j;
    Some (mk x (d_Score d) (d_Signals d) (d_Reasons d) (d_PolicyName d) (d_Timestamp d) (d_RequestID d))
  else if String.eqb n "score" then
    x ← into_int (d_Score d) j;
    Some (mk (d_Verdict d) x (d_Signals d) (d_Reasons d) (d_PolicyName d) (d_Timestamp d) (d_RequestID d))
  else if String.eqb n "signals" then
    x ← into_list json_signal j;
    Some (mk (d_Verdict d) (d_Score d) x (d_Reasons d) (d_PolicyName d) (d_Timestamp d) (d_RequestID d))
  else if String.eqb n "reasons" then
    x ← into_list (into_string EmptyString) j;
    Some (mk (d_Verdict d) (d_Score d) (d_Signals d) x (d_PolicyName d) (d_Timestamp d) (d_RequestID d))
  else if String.eqb n "policy_name" then
    x ← into_string (d_PolicyName d) j;
    Some (mk (d_Verdict d) (d_Score d) (d_Signals d) (d_Reasons d) x (d_Timestamp d) (d_RequestID d))
  else if String.eqb n "timestamp" then
    x ← into_int (d_Timestamp d) j;
    Some (mk (d_Verdict d) (d_Score d) (d_Signals d) (d_Reasons d) (d_PolicyName d) x (d_RequestID d))
  else
    x ← into_string (d_RequestID d) j;
    Some (mk (d_Verdict d) (d_Score d) (d_Signals d) (d_Reasons d) (d_PolicyName d) (d_Timestamp d) x).

Definition decision_fields : list string :=
  ["verdict"; "score"; "signals"; "reasons"; "policy_name"; "timestamp"; "request_id"].

(** [json.Unmarshal(data, &d)] of a zero [d]; the zero verdict is the empty string, which the
    program never writes, so an object without a verdict is rejected. *)
Definition json_decision (j : json) : option Decision :=
  match j with
  | JObj l =>
      if existsb (fun p => bool_decide (field_named decision_fields p.1 = Some "verdict")) l
      then decode_fields decision_fields set_decision_field l
             (MkDecision VerdictAllow 0 [] [] EmptyString 0 EmptyString)
      else None
  | _ => None
  end.

Definition Unmarshal (data : list byte) : option Decision :=
  j ← json_parse data; json_decision j.
#[global] Strategy 900 [Unmarshal].

(** ** Round trip *)

(** What a decision becomes by way of JSON: its texts as valid UTF-8, numbers in the details
    as [float64]. *)
Definition coerce_detail (m : gmap string any) : option (gmap string any) :=
  l ← detail_json m;
  kvs ← mapM member_any (map coerce_member l);
  Some (list_to_map (reverse kvs)).

Definition coerce_signal (s : Signal) : option Signal :=
  d ← coerce_detail (sig_Detail s);
  Some (MkSignal (utf8_coerce (sig_Name s)) (sig_Score s) (utf8_coerce (sig_Reason s)) d).

Definition coerce_decision (d : Decision) : option Decision :=
  sigs ← mapM coerce_signal (d_Signals d);
  Some (MkDecision (d_Verdict d) (d_Score d) sigs (map utf8_coerce (d_Reasons d))
          (utf8_coerce (d_PolicyName d)) (d_Timestamp d) (utf8_coerce (d_RequestID d))).

Lemma json_coerce_obj l : json_coerce (JObj l) = JObj (map (fun p => (utf8_coerce p.1, json_coerce p.2)) l).
Proof. done. Qed.

(** The field names are ASCII, so they survive as they are. *)
Lemma coerce_names :
  Forall (fun n => utf8_coerce n = n) ("name" :: "reason" :: "detail" :: decision_fields).
Proof. repeat constructor. Qed.

Ltac coerce_names :=
  let H := fresh in pose proof coerce_names as H; unfold decision_fields in H;
  rewrite !Forall_cons in H; destruct_and! H;
  repeat match goal with E : utf8_coerce ?n = ?n |- _ => rewrite !E; clear E end.

(** Decoding steps over fields named exactly. *)
Lemma decode_fields_step {A} names (set : string -> json -> A -> option A) n j l a a' :
  field_named names n = Some n -> set n j a = Some a' ->
  decode_fields names set ((n, j) :: l) a = decode_fields names set l a'.
Proof. intros Hn Hs. cbn. by rewrite Hn, Hs. Qed.

Lemma into_int_ok old z : in_int z -> into_int old (JNum (Itoa z)) = Some z.
Proof. apply ParseInt_Itoa. Qed.

Lemma json_signal_json s j :
  in_int (sig_Score s) -> signal_json s = Some j -> json_signal (json_coerce j) = coerce_signal s.
Proof.
  intros Hs. unfold signal_json, coerce_signal, coerce_detail.
  destruct (detail_json (sig_Detail s)) as [l|]; [|done]. cbn [mbind option_bind]. intros [= <-].
  rewrite json_coerce_obj. cbn [map fst snd json_coerce app]. unfold json_signal.
  assert (Hd : forall x, decode_fields ["name"; "score"; "reason"; "detail"] set_signal_field
    (map (fun p : string * json => (utf8_coerce p.1, json_coerce p.2))
       match l with [] => [] | _ :: _ => [("detail", JObj l)] end) (MkSignal (utf8_coerce (sig_Name s)) (sig_Score s) x ∅)
    = (d ← (kvs ← mapM member_any (map coerce_member l); Some (list_to_map (reverse kvs)));
       Some (MkSignal (utf8_coerce (sig_Name s)) (sig_Score s) x d))).
  { intros x. destruct l as [|p l]; [done|]. cbn [map fst snd]. coerce_names.
    cbn [decode_fields]. change (field_named _ _) with (Some "detail"). cbn [mbind option_bind].
    change (set_signal_field "detail" ?j ?s) with
      (x ← into_detail (sig_Detail s) j; Some (MkSignal (sig_Name s) (sig_Score s) (sig_Reason s) x)).
    rewrite json_coerce_obj. unfold into_detail. fold coerce_member.
    change (map (fun p0 : string * json => (utf8_coerce p0.1, json_coerce p0.2)) (p :: l)) with (map coerce_member (p :: l)).
    cbn [map]. destruct (mapM member_any (coerce_member p :: map coerce_member l)) as [kvs|]; [|done]. cbn [mbind option_bind sig_Detail].
    by rewrite (right_id_L ∅ (∪)). }
  coerce_names.
  erewrite decode_fields_step; [|reflexivity|reflexivity].
  erewrite decode_fields_step; [|reflexivity|cbn -[into_int]; rewrite into_int_ok by done; reflexivity].
  erewrite decode_fields_step; [|reflexivity|reflexivity]. cbn [sig_Name sig_Score]. apply Hd.
Qed.

Lemma mapM_json sigs js :
  Forall (fun s => in_int (sig_Score s)) sigs -> mapM signal_json sigs = Some js ->
  mapM json_signal (map json_coerce js) = mapM coerce_signal sigs.
Proof.
  intros Hs. revert js. induction Hs as [|s sigs Hs _ IH]; intros js; cbn; [by intros [= <-]|].
  destruct (signal_json s) as [j|] eqn:Ej; [|done]. cbn.
  destruct (mapM signal_json sigs) as [js'|]; [|done]. cbn. intros [= <-]. cbn.
  rewrite (json_signal_json s j Hs Ej), (IH js' eq_refl). done.
Qed.

Lemma into_reasons l :
  into_list (into_string EmptyString) (json_coerce (reasons_json l))
  = Some (map utf8_coerce l).
Proof.
  destruct l as [|x l]; [done|]. cbn [reasons_json json_coerce into_list]. rewrite map_map.
  generalize (x :: l) as k. clear. induction k as [|x l IH]; [done|]. cbn in *. by rewrite IH.
Qed.

Lemma into_verdict_ok old v : into_verdict old (JStr (utf8_coerce (verdict_text v))) = Some v.
Proof. by destruct v; vm_compute. Qed.

(** Marshalling a decision with scores and time in [int] range and reading it back. *)
Lemma json_decision_json d j :
  in_int (d_Score d) -> in_int (d_Timestamp d) -> Forall (fun s => in_int (sig_Score s)) (d_Signals d) ->
  decision_json d = Some j -> json_decision (json_coerce j) = coerce_decision d.
Proof.
  intros Hsc Hts Hsig. unfold decision_json, coerce_decision.
  destruct (mapM signal_json (d_Signals d)) as [js|] eqn:Ejs; [|done]. cbn [mbind option_bind]. intros [= <-].
  pose proof (mapM_json _ _ Hsig Ejs) as Hm. pose proof (into_reasons (d_Reasons d)) as Hr.
  rewrite json_coerce_obj. cbn [map fst snd]. coerce_names. unfold json_decision.
  match type of Hr with into_list _ ?r = _ => generalize dependent r; intros rj Hr end.
  change (existsb _ _) with true. cbn iota.
  erewrite decode_fields_step; [|reflexivity|cbn -[into_verdict]; rewrite into_verdict_ok; reflexivity].
  erewrite decode_fields_step; [|reflexivity|cbn -[into_int]; rewrite into_int_ok by done; reflexivity].
  cbn [d_Verdict d_Score d_Signals d_Reasons d_PolicyName d_Timestamp d_RequestID json_coerce].
  destruct (mapM coerce_signal (d_Signals d)) as [sigs|]; cbn [mbind option_bind].
  - erewrite decode_fields_step; [|reflexivity|cbn -[json_signal]; rewrite Hm; reflexivity].
    erewrite decode_fields_step; [|reflexivity|unfold set_decision_field; cbn -[into_list into_string]; rewrite Hr; reflexivity].
    erewrite decode_fields_step; [|reflexivity|reflexivity].
    erewrite decode_fields_step; [|reflexivity|cbn -[into_int]; rewrite into_int_ok by done; reflexivity].
    erewrite decode_fields_step; [|reflexivity|reflexivity]. done.
  - cbn -[json_signal json_coerce]. by rewrite Hm.
Qed.

(** ** Values of a detail map *)
Lemma any_json_list l : any_json (AList l) = (js ← mapM any_json l; Some (JArr js)).
Proof.
  cbn [any_json]. enough (H : forall acc,
    (fix go l acc := match l with [] => Some (JArr (reverse acc))
       | v :: l => match any_json v with Some j => go l (j :: acc) | None => None end end) l acc
    = (js ← mapM any_json l; Some (JArr (reverse acc ++ js)))) by apply (H []).
  induction l as [|v l IH]; intros acc; cbn [mapM]; [cbn; by rewrite app_nil_r|].
  destruct (any_json v) as [j|]; [|done]. cbn [mbind option_bind]. rewrite IH. destruct (mapM any_json l); [|done].
  cbn [mbind option_bind mret option_ret]. by rewrite reverse_cons, <- app_assoc.
Qed.

Lemma any_json_map l : any_json (AMap l) = (js ← mapM entry_json l; Some (JObj js)).
Proof.
  cbn [any_json]. enough (H : forall acc,
    (fix go l acc := match l with [] => Some (JObj (reverse acc))
       | (k, v) :: l => match any_json v with Some j => go l ((k, j) :: acc) | None => None end end) l acc
    = (js ← mapM entry_json l; Some (JObj (reverse acc ++ js)))) by apply (H []).
  induction l as [|[k v] l IH]; intros acc; cbn [mapM]; [cbn; by rewrite app_nil_r|]. change (entry_json (k, v)) with (match any_json v with Some j => Some (k, j) | None => None end).
  destruct (any_json v) as [j|]; [|done]. cbn [mbind option_bind]. rewrite IH. destruct (mapM entry_json l); [|done].
  cbn [mbind option_bind mret option_ret]. by rewrite reverse_cons, <- app_assoc.
Qed.

Lemma json_any_arr l vs : mapM json_any l = Some vs -> json_any (JArr l) = Some (AList vs).
Proof.
  cbn [json_any]. enough (H : forall acc vs, mapM json_any l = Some vs ->
    (fix go l acc := match l with [] => Some (AList (reverse acc))
       | j :: l => match json_any j with Some v => go l (v :: acc) | None => None end end) l acc
    = Some (AList (reverse acc ++ vs))) by apply (H []).
  induction l as [|j l IH]; intros acc vs'; cbn [mapM]; [intros [= <-]; by rewrite app_nil_r|].
  destruct (json_any j) as [v|]; [|done]. cbn [mbind option_bind]. destruct (mapM json_any l) as [vs''|]; [|done].
  intros [= <-]. rewrite (IH _ _ eq_refl). by rewrite reverse_cons, <- app_assoc.
Qed.

Lemma json_any_obj l kvs : mapM member_any l = Some kvs -> json_any (JObj l) = Some (AMap (map_entries (list_to_map (reverse kvs)))).
Proof.
  cbn [json_any]. enough (H : forall acc kvs, mapM member_any l = Some kvs ->
    (fix go l acc := match l with [] => Some (AMap (map_entries (list_to_map acc)))
       | (k, j) :: l => match json_any j with Some v => go l ((k, v) :: acc) | None => None end end) l acc
    = Some (AMap (map_entries (list_to_map (reverse kvs ++ acc))))) by (intros Hl; rewrite (H [] _ Hl); by rewrite app_nil_r).
  induction l as [|[k j] l IH]; intros acc vs'; cbn [mapM]; [intros [= <-]; done|]. change (member_any (k, j)) with (match json_any j with Some v => Some (k, v) | None => None end).
  destruct (json_any j) as [v|]; [|done]. cbn [mbind option_bind]. destruct (mapM member_any l) as [vs''|]; [|done].
  intros [= <-]. rewrite (IH _ _ eq_refl). by rewrite reverse_cons, <- app_assoc.
Qed.

(** The integers fit an [int] and at most [n] lists and maps are nested. *)
Definition int_ok (z : Z) : bool := (int_min <=? z) && (z <=? int_max).
Fixpoint plain_any (n : nat) (v : any) {struct v} : bool :=
  match v with
  | AInt z | AUint z => int_ok z
  | AList l => match n with O => false | S n => forallb (plain_any n) l end
  | AMap l => match n with O => false | S n => forallb (fun p => plain_any n p.2) l end
  | AStrings _ => negb (n =? 0)%nat
  | AInts l => negb (n =? 0)%nat && forallb int_ok l
  | _ => true
  end.

(** Lists of values, entry by entry. *)
Lemma mapM_carried {A B C} (enc : A -> option B) (dec : B -> option C) (fits : B -> bool) l js :
  (forall a b, a ∈ l -> enc a = Some b -> fits b = true /\ is_Some (dec b)) -> mapM enc l = Some js ->
  forallb fits js = true /\ is_Some (mapM dec js).
Proof.
  intros Hl Hm. apply mapM_Some_1 in Hm. induction Hm as [|a b l js Hab _ IH]; [by split; [|eexists]|].
  destruct (Hl a b ltac:(by left) Hab) as [Hf [c Hc]]. destruct IH as [Hfs [cs Hcs]]; [intros a' b' Ha'; apply Hl; by right|].
  cbn. rewrite Hf, Hfs. split; [done|]. rewrite Hc, Hcs. by eexists.
Qed.

Lemma int_carried z : int_ok z = true -> number_ok (Itoa z) = true /\ is_Some (json_any (JNum (Itoa z))).
Proof.
  intros Hz. split; [apply Itoa_number|]. cbn. rewrite ParseFloat_Itoa by (unfold int_ok in Hz; split; lia). by eexists.
Qed.

Lemma mapM_map_carried {A B C} (f : A -> B) (dec : B -> option C) (fits : B -> bool) l :
  (forall a, a ∈ l -> fits (f a) = true /\ is_Some (dec (f a))) -> forallb fits (map f l) = true /\ is_Some (mapM dec (map f l)).
Proof.
  intros Hl. apply (mapM_carried (fun a => Some (f a)) dec fits l).
  - intros a b Ha [= <-]. by apply Hl.
  - clear Hl. induction l as [|a l IH]; [done|]. cbn. by rewrite IH.
Qed.

Definition carried (n : nat) (v : any) : Prop := forall j, any_json v = Some j ->
  json_fits n j = true /\ is_Some (json_any (json_coerce j)).

Lemma list_carried n l js : (forall v, v ∈ l -> carried n v) -> mapM any_json l = Some js ->
  forallb (json_fits n) js = true /\ is_Some (mapM json_any (map json_coerce js)).
Proof.
  intros Hl Hm. destruct (mapM_carried any_json (fun j => json_any (json_coerce j)) (json_fits n) l js) as [Hf [vs Hv]]; [|done|].
  { intros v j Hv Hj. by apply (Hl v Hv). }
  split; [done|]. exists vs. clear -Hv. revert vs Hv. induction js as [|j js IH]; intros vs; [done|]. cbn.
  destruct (json_any (json_coerce j)); [|done]. cbn. destruct (mapM _ js) as [ws|]; [|done]. cbn. intros [= <-].
  by rewrite (IH ws eq_refl).
Qed.

Lemma entries_carried n (l : list (string * any)) js : (forall p, p ∈ l -> carried n p.2) -> mapM entry_json l = Some js ->
  forallb (fun p => json_fits n p.2) js = true /\ is_Some (mapM member_any (map coerce_member js)).
Proof.
  intros Hl Hm.
  destruct (mapM_carried entry_json (fun p => member_any (coerce_member p)) (fun p => json_fits n p.2) l js) as [Hf [vs Hv]]; [|done|].
  { intros [k v] [k' j] Hv. unfold entry_json. cbn [fst snd]. destruct (any_json v) as [j'|] eqn:E; [|done]. intros [= <- <-].
    destruct (Hl _ Hv _ E) as [Hf [w Hw]]. split; [done|]. unfold member_any, coerce_member. cbn [fst snd]. rewrite Hw. by eexists. }
  split; [done|]. exists vs. clear -Hv. revert vs Hv. induction js as [|j js IH]; intros vs; [done|]. cbn [map mapM].
  destruct (member_any (coerce_member j)); [|done]. cbn. destruct (mapM _ js) as [ws|]; [|done]. cbn. intros [= <-].
  by rewrite (IH ws eq_refl).
Qed.

Lemma plain_carried : forall v n, plain_any n v = true -> carried n v.
Proof.
  fix IH 1. intros [|s|z|z|b|f|l|l|l|l] n Hp j; cbn [plain_any] in Hp.
  - intros [= <-]. by split; [|eexists].
  - intros [= <-]. by split; [|eexists].
  - intros [= <-]. by apply int_carried.
  - intros [= <-]. by apply int_carried.
  - intros [= <-]. by split; [|eexists].
  - cbn [any_json]. destruct (float_literal f) as [lit|] eqn:E; [|done]. intros [= <-]. apply float_literal_spec in E as [H1 H2].
    split; [done|]. cbn. rewrite H2. by eexists.
  - destruct n as [|n]; [done|]. rewrite any_json_list. destruct (mapM any_json l) as [js|] eqn:E; [|done]. intros [= <-].
    apply (list_carried n) in E as [H1 [vs H2]]; [split; [done|]; cbn [json_coerce]; rewrite (json_any_arr _ _ H2); by eexists|].
    clear E. induction l as [|v l IHl]; intros w Hw; [by apply elem_of_nil in Hw|]. cbn in Hp. apply andb_true_iff in Hp as [Hv Hl].
    apply elem_of_cons in Hw as [->|Hw]; [by apply IH|by apply IHl].
  - destruct n as [|n]; [done|]. rewrite any_json_map. destruct (mapM entry_json l) as [js|] eqn:E; [|done]. intros [= <-].
    apply (entries_carried n) in E as [H1 [vs H2]]; [split; [done|]; rewrite json_coerce_obj; by erewrite json_any_obj by exact H2|].
    clear E. induction l as [|[k v] l IHl]; intros w Hw; [by apply elem_of_nil in Hw|]. cbn in Hp. apply andb_true_iff in Hp as [Hv Hl].
    apply elem_of_cons in Hw as [->|Hw]; [by apply IH|by apply IHl].
  - destruct n as [|n]; [done|]. intros [= <-].
    destruct (mapM_map_carried (fun s => JStr (utf8_coerce s)) json_any (json_fits n) l) as [_ [vs H2]]; [by intros; split; [|eexists]|].
    split; [cbn; clear; by induction l|]. cbn [json_coerce]. rewrite map_map. eexists. exact (json_any_arr _ _ H2).
  - apply andb_true_iff in Hp as [Hn Hl]. destruct n as [|n]; [done|]. intros [= <-]. rewrite forallb_forall in Hl.
    destruct (mapM_map_carried (fun z => JNum (Itoa z)) json_any (json_fits n) l) as [H1 [vs H2]].
    { intros z Hz. by apply int_carried, Hl, list_elem_of_In. }
    split; [done|]. cbn [json_coerce]. rewrite map_map. eexists. exact (json_any_arr _ _ H2).
Qed.

(** Every encoded value has number literals only, whatever its depth. *)
Lemma fits_all {A} (f : A -> json) l : (forall a, a ∈ l -> exists n, json_fits n (f a) = true) ->
  exists n, forallb (fun a => json_fits n (f a)) l = true.
Proof.
  induction l as [|a l IH]; intros Hl; [by exists O|]. destruct (Hl a ltac:(by left)) as [n Hn].
  destruct IH as [m Hm]; [intros b Hb; apply Hl; by right|]. exists (Nat.max n m). cbn.
  rewrite (json_fits_mono n) by (done || lia). cbn. rewrite forallb_forall in Hm |- *. intros x Hx.
  apply (json_fits_mono m); [lia|by apply Hm].
Qed.

Lemma mapM_elem {A B} (f : A -> option B) l js b : mapM f l = Some js -> b ∈ js -> exists a, a ∈ l /\ f a = Some b.
Proof.
  intros Hm%mapM_Some_1. induction Hm as [|a b' l js Hab _ IH]; intros Hb; [by apply elem_of_nil in Hb|].
  apply elem_of_cons in Hb as [->|Hb]; [exists a; split; [by left|done]|].
  destruct (IH Hb) as (a' & Ha & Hf). exists a'. split; [by right|done].
Qed.

Lemma any_json_fits : forall v j, any_json v = Some j -> exists n, json_fits n j = true.
Proof.
  fix IH 1. intros [|s|z|z|b|f|l|l|l|l] j.
  1, 2, 5: intros [= <-]; by exists O.
  1, 2: intros [= <-]; exists O; apply Itoa_number.
  - cbn [any_json]. destruct (float_literal f) as [lit|] eqn:E; [|done]. intros [= <-]. apply float_literal_spec in E as [H1 _]. by exists O.
  - rewrite any_json_list. destruct (mapM any_json l) as [js|] eqn:E; [|done]. intros [= <-].
    destruct (fits_all id js) as [n Hn]; [|by exists (S n)]. intros j Hj. destruct (mapM_elem _ _ _ _ E Hj) as (v & Hv & Ej).
    clear E. revert v Hv Ej. induction l as [|v l IHl]; intros w Hw Ej; [by apply elem_of_nil in Hw|].
    apply elem_of_cons in Hw as [->|Hw]; [by apply (IH v)|by apply (IHl w)].
  - rewrite any_json_map. destruct (mapM entry_json l) as [js|] eqn:E; [|done]. intros [= <-].
    destruct (fits_all snd js) as [n Hn]; [|by exists (S n)]. intros j Hj. destruct (mapM_elem _ _ _ _ E Hj) as (v & Hv & Ej).
    clear E. revert v Hv Ej. induction l as [|[k v] l IHl]; intros w Hw Ej; [by apply elem_of_nil in Hw|].
    apply elem_of_cons in Hw as [->|Hw]; [|by apply (IHl w)]. unfold entry_json in Ej. cbn [fst snd] in Ej.
    destruct (any_json v) as [j'|] eqn:Ev; [|done]. injection Ej as <-. by apply (IH v).
  - intros [= <-]. exists 1%nat. cbn. by induction l.
  - intros [= <-]. exists 1%nat. cbn. apply forallb_forall. intros x (z & <- & _)%in_map_iff. apply Itoa_number.
Qed.

Lemma signal_json_fits n s l j : detail_json (sig_Detail s) = Some l -> forallb (fun p => json_fits n p.2) l = true ->
  signal_json s = Some j -> json_fits (S (S n)) j = true.
Proof.
  intros Hl Hn. unfold signal_json. rewrite Hl. cbn [mbind option_bind]. intros [= <-]. cbn [json_fits app].
  cbn [forallb snd json_fits]. rewrite Itoa_number. destruct l as [|p l]; [done|].
  cbn [forallb snd json_fits andb] in *. by rewrite Hn.
Qed.

Lemma decision_json_fits n d j sigs : mapM signal_json (d_Signals d) = Some sigs -> forallb (json_fits n) sigs = true ->
  decision_json d = Some j -> json_fits (S (S n)) j = true.
Proof.
  intros Hs Hn. unfold decision_json. rewrite Hs. cbn [mbind option_bind]. intros [= <-]. cbn [json_fits forallb snd].
  rewrite Hn, !Itoa_number. cbn. destruct (d_Reasons d) as [|r rs]; [done|]. cbn. rewrite andb_true_r. by induction rs.
Qed.

(** A decision read from the text of another is that decision in valid UTF-8. *)
Lemma Unmarshal_sound d data d' :
  in_int (d_Score d) -> in_int (d_Timestamp d) -> Forall (fun s => in_int (sig_Score s)) (d_Signals d) ->
  Marshal d = Some data -> 0 < len data /\ (Unmarshal data = Some d' -> coerce_decision d = Some d').
Proof.
  intros Hsc Hts Hsig. unfold Marshal, Unmarshal. destruct (decision_json d) as [j|] eqn:Ej; [|done].
  cbn [mbind option_bind]. intros [= <-].
  assert (exists n, json_fits n j = true) as [n Hn].
  { pose proof Ej as Ej'. unfold decision_json in Ej. destruct (mapM signal_json (d_Signals d)) as [sigs|] eqn:Es; [|done].
    destruct (fits_all id sigs) as [n Hn]; [|exists (S (S n)); by eapply decision_json_fits].
    intros js Hjs. destruct (mapM_elem _ _ _ _ Es Hjs) as (s & _ & Hs). pose proof Hs as Hs'. unfold signal_json in Hs.
    destruct (detail_json (sig_Detail s)) as [l|] eqn:El; [|done].
    destruct (fits_all snd l) as [m Hm]; [|exists (S (S m)); by eapply signal_json_fits].
    intros p Hp. destruct (mapM_elem _ _ _ _ El Hp) as ([k v] & _ & Hv). unfold entry_json in Hv. cbn [fst snd] in Hv.
    destruct (any_json v) as [jv|] eqn:Ev; [|done]. injection Hv as <-. by apply any_json_fits in Ev. }
  split; [by eapply json_print_nonempty|]. destruct (json_parse (json_print j)) as [j'|] eqn:Ep; [|done].
  apply (json_parse_sound n) in Ep as ->; [|done]. cbn [mbind option_bind]. by rewrite (json_decision_json d j).
Qed.

(** ** What JSON carries *)
Definition detail_depth : nat := Nat.pred (Nat.pred (Nat.pred (Nat.pred maxNestingDepth))).
Definition plain_detail (m : gmap string any) : Prop := forall k v, m !! k = Some v -> plain_any detail_depth v = true.

Lemma map_entries_elem {V} (m : gmap string V) k v : (k, v) ∈ map_entries m -> m !! k = Some v.
Proof.
  unfold map_entries. intros (k' & _ & Hk)%list_elem_of_omap. destruct (m !! k') eqn:E; [|done]. by injection Hk as <- <-.
Qed.

Lemma elem_of_map_entries {V} (m : gmap string V) k v : m !! k = Some v -> (k, v) ∈ map_entries m.
Proof.
  intros Hk. unfold map_entries. apply list_elem_of_omap. exists k. rewrite Hk. split; [|done]. unfold sort_Strings.
  rewrite merge_sort_Permutation. apply list_elem_of_fmap. exists (k, v). split; [done|]. by apply elem_of_map_to_list.
Qed.

Lemma omap_keys {V} (m : gmap string V) ks : NoDup ks ->
  NoDup (omap (fun k => match m !! k with Some v => Some (k, v) | None => None end) ks).*1.
Proof.
  induction 1 as [|k ks Hk _ IH]; cbn; [constructor|]. destruct (m !! k) as [v|]; [|done]. cbn. constructor; [|done].
  intros ((k' & v') & -> & Hin)%list_elem_of_fmap. apply list_elem_of_omap in Hin as (k2 & Hk2 & E). cbn in Hk.
  destruct (m !! k2); [|done]. by injection E as <- _.
Qed.

Lemma map_entries_NoDup {V} (m : gmap string V) : NoDup (map_entries m).*1.
Proof. apply omap_keys. unfold sort_Strings. rewrite merge_sort_Permutation. apply NoDup_fst_map_to_list. Qed.

Lemma coerce_detail_plain m l : plain_detail m -> detail_json m = Some l ->
  forallb (fun p => json_fits detail_depth p.2) l = true /\ is_Some (coerce_detail m).
Proof.
  intros Hp Hl. destruct (entries_carried detail_depth (map_entries m) l) as [H1 [kvs H2]]; [|done|].
  { intros [k v] Hkv%map_entries_elem. by apply plain_carried, (Hp k). }
  split; [done|]. unfold coerce_detail. rewrite Hl. cbn [mbind option_bind]. rewrite H2. by eexists.
Qed.

Lemma depth_eq : S (S (S (S detail_depth))) = maxNestingDepth.
Proof. vm_compute. reflexivity. Qed.

(** A decision whose numbers fit an [int] comes back from its text. *)
Lemma Unmarshal_Marshal d data :
  in_int (d_Score d) -> in_int (d_Timestamp d) -> Forall (fun s => in_int (sig_Score s)) (d_Signals d) ->
  Forall (fun s => plain_detail (sig_Detail s)) (d_Signals d) -> Marshal d = Some data ->
  0 < len data /\ exists d', Unmarshal data = Some d' /\ coerce_decision d = Some d'.
Proof.
  intros Hsc Hts Hsig Hdet Hm. destruct (coerce_decision d) as [d'|] eqn:Ec.
  - split; [by apply (Unmarshal_sound d data d')|]. exists d'. split; [|done]. unfold Marshal, Unmarshal in *.
    destruct (decision_json d) as [j|] eqn:Ej; [|done]. injection Hm as <-. rewrite json_parse_print; [by rewrite <- Ec; apply json_decision_json|].
    pose proof Ej as Ej'. unfold decision_json in Ej. destruct (mapM signal_json (d_Signals d)) as [sigs|] eqn:Es; [|done].
    rewrite <- depth_eq. eapply decision_json_fits; [done| |done]. apply forallb_forall. intros js Hjs%list_elem_of_In.
    destruct (mapM_elem _ _ _ _ Es Hjs) as (s & Hin & Hs). pose proof Hs as Hs'. unfold signal_json in Hs.
    destruct (detail_json (sig_Detail s)) as [l|] eqn:El; [|done]. rewrite Forall_forall in Hdet.
    eapply signal_json_fits; [done|apply (coerce_detail_plain _ _ (Hdet s Hin) El)|done].
  - exfalso. unfold Marshal, decision_json in Hm. unfold coerce_decision in Ec.
    destruct (mapM signal_json (d_Signals d)) as [sigs|] eqn:Es; [|done].
    enough (is_Some (mapM coerce_signal (d_Signals d))) as [x Hx] by by rewrite Hx in Ec. clear Hm Ec Hsig.
    apply mapM_is_Some_2. apply mapM_Some_1 in Es. clear -Es Hdet. induction Es as [|s j l js Hs _ IH]; [constructor|].
    rewrite Forall_cons in Hdet. destruct Hdet as [Hd Hl]. constructor; [|by apply IH]. unfold signal_json in Hs.
    destruct (detail_json (sig_Detail s)) as [kl|] eqn:El; [|done]. change (is_Some (coerce_signal s)).
    unfold coerce_signal. destruct (coerce_detail_plain _ _ Hd El) as [_ [x ->]]. by eexists.
Qed.

Lemma plain_detail_check m : forallb (fun p => plain_any detail_depth p.2) (map_to_list m) = true -> plain_detail m.
Proof.
  intros Hm k v Hk. rewrite forallb_forall in Hm. apply (Hm (k, v)), list_elem_of_In. by apply elem_of_map_to_list.
Qed.
