(* ===== verification/Utf8Valid.v ===== *)
(** * Valid UTF-8 survives JSON

    Encoding the runes of a valid text gives the text back, so that [utf8_coerce] leaves it as it is. *)

From S2P Require Import Prelude GoStrings Types Token JsonText Json.
#[local] Open Scope Z_scope.

Lemma shiftr_div z k : 0 <= k -> Z.shiftr z k = z / 2 ^ k.
Proof. intros. by apply Z.shiftr_div_pow2. Qed.

Lemma land_mod z k : 0 <= k -> Z.land z (Z.ones k) = z mod 2 ^ k.
Proof. intros. by apply Z.land_ones. Qed.

Lemma bits6_cont b : 128 <= byte_to_Z b <= 191 -> Utf8.bits6 b = byte_to_Z b - 128.
Proof.
  intros Hb. unfold Utf8.bits6. change 63 with (Z.ones 6). rewrite land_mod by lia. change (2 ^ 6) with 64.
  symmetry. apply Z.mod_unique with 2; lia.
Qed.

Lemma byte_of_eq b z : z = byte_to_Z b -> byte_of_Z z = b.
Proof. intros ->. apply byte_of_to_Z. Qed.

Ltac Zify.zify_post_hook ::= Z.div_mod_to_equations.

(** The encoder on the numbers of two, three and four bytes. *)
Ltac encode_bytes :=
  repeat match goal with |- _ :: _ = _ :: _ => f_equal end; try reflexivity; apply byte_of_eq;
  change 63 with (Z.ones 6); rewrite ?land_mod by lia; rewrite ?shiftr_div by lia;
  change (2 ^ 0) with 1; change (2 ^ 6) with 64; change (2 ^ 12) with 4096; change (2 ^ 18) with 262144; lia.

Lemma encode2 a b :
  194 <= byte_to_Z a <= 223 -> 128 <= byte_to_Z b <= 191 ->
  Utf8.encode ((byte_to_Z a - 192) * 64 + (byte_to_Z b - 128)) = [a; b].
Proof.
  intros Ha Hb. set (r := (byte_to_Z a - 192) * 64 + (byte_to_Z b - 128)). unfold Utf8.encode.
  replace ((r <? 0) || (1114111 <? r) || ((55296 <=? r) && (r <=? 57343))) with false by lia.
  replace (r <? 128) with false by lia. replace (r <? 2048) with true by lia. subst r. encode_bytes.
Qed.

Lemma encode3 a b c :
  224 <= byte_to_Z a <= 239 -> Utf8.second_ok a b = true -> 128 <= byte_to_Z c <= 191 ->
  Utf8.encode ((byte_to_Z a - 224) * 4096 + (byte_to_Z b - 128) * 64 + (byte_to_Z c - 128)) = [a; b; c].
Proof.
  intros Ha Hs Hc. unfold Utf8.second_ok, Utf8.cont in Hs.
  set (r := (byte_to_Z a - 224) * 4096 + (byte_to_Z b - 128) * 64 + (byte_to_Z c - 128)).
  assert (128 <= byte_to_Z b <= 191 /\ 2048 <= r < 65536 /\ ~ (55296 <= r <= 57343)) as (Hb & Hr & Hsur).
  { repeat case_match; lia. }
  unfold Utf8.encode. replace ((r <? 0) || (1114111 <? r) || ((55296 <=? r) && (r <=? 57343))) with false by lia.
  replace (r <? 128) with false by lia. replace (r <? 2048) with false by lia. replace (r <? 65536) with true by lia.
  subst r. encode_bytes.
Qed.

Lemma encode4 a b c d :
  240 <= byte_to_Z a <= 244 -> Utf8.second_ok a b = true -> 128 <= byte_to_Z c <= 191 -> 128 <= byte_to_Z d <= 191 ->
  Utf8.encode ((byte_to_Z a - 240) * 262144 + (byte_to_Z b - 128) * 4096 + (byte_to_Z c - 128) * 64 + (byte_to_Z d - 128))
  = [a; b; c; d].
Proof.
  intros Ha Hs Hc Hd. unfold Utf8.second_ok, Utf8.cont in Hs.
  set (r := (byte_to_Z a - 240) * 262144 + (byte_to_Z b - 128) * 4096 + (byte_to_Z c - 128) * 64 + (byte_to_Z d - 128)).
  assert (128 <= byte_to_Z b <= 191 /\ 65536 <= r <= 1114111) as (Hb & Hr).
  { repeat case_match; lia. }
  unfold Utf8.encode. replace ((r <? 0) || (1114111 <? r) || ((55296 <=? r) && (r <=? 57343))) with false by lia.
  replace (r <? 128) with false by lia. replace (r <? 2048) with false by lia. replace (r <? 65536) with false by lia.
  subst r. encode_bytes.
Qed.

Definition rune_ok (p : Z * list byte) : bool := negb ((p.1 =? Utf8.RuneError) && (length p.2 =? 1)%nat).

Lemma second_ok_range a b : Utf8.second_ok a b = true -> 128 <= byte_to_Z b <= 191.
Proof. unfold Utf8.second_ok, Utf8.cont. repeat case_match; lia. Qed.

Lemma lead_bits a k n :
  0 <= k -> 0 <= n -> n <= byte_to_Z a < n + 2 ^ k -> n mod 2 ^ k = 0 -> Z.land (byte_to_Z a) (Z.ones k) = byte_to_Z a - n.
Proof.
  intros Hk Hn Ha Hm. rewrite land_mod by done. symmetry. apply Z.mod_unique with (n / 2 ^ k); [lia|].
  pose proof (Z.div_mod n (2 ^ k) ltac:(lia)). lia.
Qed.

Lemma rune2 a b :
  194 <= byte_to_Z a <= 223 -> 128 <= byte_to_Z b <= 191 ->
  Utf8.encode (Z.lor (Z.shiftl (Z.land (byte_to_Z a) 31) 6) (Utf8.bits6 b)) = [a; b].
Proof.
  intros Ha Hb. change 31 with (Z.ones 5). rewrite (lead_bits a 5 192), bits6_cont by (done || lia).
  rewrite lor_shiftl' by lia. rewrite <- (encode2 a b) by lia. f_equal. lia.
Qed.

Lemma rune3 a b c :
  224 <= byte_to_Z a <= 239 -> Utf8.second_ok a b = true -> 128 <= byte_to_Z c <= 191 ->
  Utf8.encode (Z.lor (Z.lor (Z.shiftl (Z.land (byte_to_Z a) 15) 12) (Z.shiftl (Utf8.bits6 b) 6)) (Utf8.bits6 c)) = [a; b; c].
Proof.
  intros Ha Hs Hc. pose proof (second_ok_range a b Hs) as Hb.
  change 15 with (Z.ones 4). rewrite (lead_bits a 4 224), !bits6_cont by (done || lia).
  rewrite <- Z.lor_assoc, (lor_shiftl' (byte_to_Z c - 128)) by lia. rewrite lor_shiftl' by lia.
  rewrite <- (encode3 a b c) by done. f_equal. lia.
Qed.

Lemma rune4 a b c d :
  240 <= byte_to_Z a <= 244 -> Utf8.second_ok a b = true -> 128 <= byte_to_Z c <= 191 -> 128 <= byte_to_Z d <= 191 ->
  Utf8.encode (Z.lor (Z.lor (Z.shiftl (Z.land (byte_to_Z a) 7) 18) (Z.shiftl (Utf8.bits6 b) 12))
                     (Z.lor (Z.shiftl (Utf8.bits6 c) 6) (Utf8.bits6 d))) = [a; b; c; d].
Proof.
  intros Ha Hs Hc Hd. pose proof (second_ok_range a b Hs) as Hb.
  change 7 with (Z.ones 3). rewrite (lead_bits a 3 240), !bits6_cont by (done || lia).
  rewrite (lor_shiftl' (byte_to_Z d - 128)) by lia. rewrite <- Z.lor_assoc, (lor_shiftl' _ (byte_to_Z b - 128)) by lia.
  rewrite lor_shiftl' by lia. rewrite <- (encode4 a b c d) by done. f_equal. lia.
Qed.

Lemma encode_runes_n n : forall bs, (length bs <= n)%nat -> forallb rune_ok (Utf8.runes bs) = true ->
  flat_map (fun p => Utf8.encode p.1) (Utf8.runes bs) = bs.
Proof.
  induction n as [|n IH]; intros bs Hn; [destruct bs; [done|cbn in Hn; lia]|].
  destruct bs as [|a s1]; [done|]. cbn [length] in Hn. cbn [Utf8.runes].
  assert (Hbad : forall (l : list (Z * list byte)), forallb rune_ok ((Utf8.RuneError, [a]) :: l) = true -> False) by done.
  assert (Hcont : forall b, Utf8.cont 128 191 b = true -> 128 <= byte_to_Z b <= 191) by (unfold Utf8.cont; intros; lia).
  destruct (byte_to_Z a <? 128) eqn:E1.
  { cbn [forallb flat_map fst]. intros [_ Hr]%andb_true_iff. rewrite IH by (done || lia).
    pose proof (byte_to_Z_range a). rewrite encode_ascii, byte_of_to_Z by lia. done. }
  destruct ((194 <=? byte_to_Z a) && (byte_to_Z a <=? 223)) eqn:E2.
  { destruct s1 as [|b s2]; [by intros ?%Hbad|]. destruct (Utf8.second_ok a b) eqn:Es; [|by intros ?%Hbad].
    cbn [forallb flat_map fst length] in *. intros [_ Hr]%andb_true_iff. rewrite IH by (done || lia).
    pose proof (second_ok_range a b Es). by rewrite rune2 by lia. }
  destruct ((224 <=? byte_to_Z a) && (byte_to_Z a <=? 239)) eqn:E3.
  { destruct s1 as [|b [|c s3]]; [by intros ?%Hbad..|].
    destruct (Utf8.second_ok a b && Utf8.cont 128 191 c) eqn:Es; [|by intros ?%Hbad]. apply andb_true_iff in Es as [Es Ec].
    cbn [forallb flat_map fst length] in *. intros [_ Hr]%andb_true_iff. rewrite IH by (done || lia).
    rewrite rune3; [done|lia|done|by apply Hcont]. }
  destruct ((240 <=? byte_to_Z a) && (byte_to_Z a <=? 244)) eqn:E4; [|by intros ?%Hbad].
  destruct s1 as [|b [|c [|d s4]]]; [by intros ?%Hbad..|].
  destruct (Utf8.second_ok a b && Utf8.cont 128 191 c && Utf8.cont 128 191 d) eqn:Es; [|by intros ?%Hbad].
  rewrite !andb_true_iff in Es. destruct Es as [[Es Ec] Ed].
  cbn [forallb flat_map fst length] in *. intros [_ Hr]%andb_true_iff. rewrite IH by (done || lia).
  rewrite rune4; [done|lia|done|by apply Hcont..].
Qed.

Lemma utf8_coerce_valid s : valid_utf8 s = true -> utf8_coerce s = s.
Proof.
  intros Hs. unfold utf8_coerce. rewrite <- (bytes_string_bytes s) at 2. f_equal.
  rewrite <- (encode_runes_n (length (string_bytes s)) (string_bytes s)) at 2; [|done|].
  - apply flat_map_ext. by intros [].
  - rewrite <- Hs. unfold valid_utf8. induction (Utf8.runes (string_bytes s)) as [|[r bs] l IH]; [done|]. cbn. by rewrite IH.
Qed.

(** ** Decoded strings are valid UTF-8 *)
Lemma encode_cases r : exists r0, Utf8.encode r = Utf8.encode r0 /\ 0 <= r0 <= 1114111 /\ ~ (55296 <= r0 <= 57343).
Proof.
  destruct ((r <? 0) || (1114111 <? r) || ((55296 <=? r) && (r <=? 57343))) eqn:E.
  - exists Utf8.RuneError. split; [|unfold Utf8.RuneError; lia]. unfold Utf8.encode. by rewrite E.
  - exists r. split; [done|lia].
Qed.

Lemma low6_cont r k : 128 <= 128 + Z.land (Z.shiftr r k) 63 <= 191.
Proof. change 63 with (Z.ones 6). rewrite Z.land_ones by lia. pose proof (Z.mod_pos_bound (Z.shiftr r k) (2 ^ 6)). lia. Qed.

Lemma long_ok (r : Z) (raw : list byte) : (1 < length raw)%nat -> rune_ok (r, raw) = true.
Proof. intros Hl. unfold rune_ok. cbn [fst snd]. rewrite (proj2 (Nat.eqb_neq _ _)) by lia. by rewrite andb_false_r. Qed.

Lemma runes2 a b t : 194 <= byte_to_Z a <= 223 -> Utf8.second_ok a b = true ->
  exists r, Utf8.runes (a :: b :: t) = (r, [a; b]) :: Utf8.runes t.
Proof.
  intros Ha Hb. eexists. cbn [Utf8.runes]. replace (byte_to_Z a <? 128) with false by lia.
  replace ((194 <=? byte_to_Z a) && (byte_to_Z a <=? 223)) with true by lia. by rewrite Hb.
Qed.

Lemma runes3 a b c t : 224 <= byte_to_Z a <= 239 -> Utf8.second_ok a b = true -> Utf8.cont 128 191 c = true ->
  exists r, Utf8.runes (a :: b :: c :: t) = (r, [a; b; c]) :: Utf8.runes t.
Proof.
  intros Ha Hb Hc. eexists. cbn [Utf8.runes]. replace (byte_to_Z a <? 128) with false by lia.
  replace ((194 <=? byte_to_Z a) && (byte_to_Z a <=? 223)) with false by lia.
  replace ((224 <=? byte_to_Z a) && (byte_to_Z a <=? 239)) with true by lia. by rewrite Hb, Hc.
Qed.

Lemma runes4 a b c d t : 240 <= byte_to_Z a <= 244 -> Utf8.second_ok a b = true -> Utf8.cont 128 191 c = true ->
  Utf8.cont 128 191 d = true -> exists r, Utf8.runes (a :: b :: c :: d :: t) = (r, [a; b; c; d]) :: Utf8.runes t.
Proof.
  intros Ha Hb Hc Hd. eexists. cbn [Utf8.runes]. replace (byte_to_Z a <? 128) with false by lia.
  replace ((194 <=? byte_to_Z a) && (byte_to_Z a <=? 223)) with false by lia.
  replace ((224 <=? byte_to_Z a) && (byte_to_Z a <=? 239)) with false by lia.
  replace ((240 <=? byte_to_Z a) && (byte_to_Z a <=? 244)) with true by lia. by rewrite Hb, Hc, Hd.
Qed.

(** What the encoder writes is read as one rune. *)
Lemma runes_encode r t : exists r', Utf8.runes (Utf8.encode r ++ t) = (r', Utf8.encode r) :: Utf8.runes t
  /\ rune_ok (r', Utf8.encode r) = true.
Proof.
  destruct (encode_cases r) as (r0 & -> & Hr & Hs). clear r. rename r0 into r. unfold Utf8.encode.
  replace ((r <? 0) || (1114111 <? r) || ((55296 <=? r) && (r <=? 57343))) with false by lia.
  set (low k := byte_of_Z (128 + Z.land (Z.shiftr r k) 63)).
  assert (Hlow : forall k, 0 <= k -> byte_to_Z (low k) = 128 + r / 2 ^ k mod 64).
  { intros k Hk. unfold low. rewrite byte_to_of_Z_small by (pose proof (low6_cont r k); lia).
    change 63 with (Z.ones 6). by rewrite land_mod, shiftr_div by lia. }
  assert (Hc : forall k, 0 <= k -> Utf8.cont 128 191 (low k) = true).
  { intros k Hk. unfold Utf8.cont. rewrite Hlow by done. pose proof (Z.mod_pos_bound (r / 2 ^ k) 64). lia. }
  change (byte_of_Z (128 + Z.land (Z.shiftr r 0) 63)) with (low 0). change (byte_of_Z (128 + Z.land (Z.shiftr r 6) 63)) with (low 6).
  change (byte_of_Z (128 + Z.land (Z.shiftr r 12) 63)) with (low 12). rewrite !shiftr_div by lia.
  pose proof (Hlow 0 ltac:(lia)) as L0. pose proof (Hlow 6 ltac:(lia)) as L6. pose proof (Hlow 12 ltac:(lia)) as L12.
  change (2 ^ 0) with 1 in *. change (2 ^ 6) with 64 in *. change (2 ^ 12) with 4096 in *. change (2 ^ 18) with 262144 in *.
  destruct (r <? 128) eqn:E1.
  { eexists. cbn [app Utf8.runes]. rewrite byte_to_of_Z_small by lia. rewrite E1. split; [reflexivity|].
    unfold rune_ok, Utf8.RuneError. cbn [fst]. by replace (r =? 65533) with false by lia. }
  assert (Hsec : forall a b, byte_to_Z b = 128 + byte_to_Z b mod 64 -> byte_to_Z b <= 191 ->
    (byte_to_Z a = 224 -> 160 <= byte_to_Z b) -> (byte_to_Z a = 237 -> byte_to_Z b <= 159) ->
    (byte_to_Z a = 240 -> 144 <= byte_to_Z b) -> (byte_to_Z a = 244 -> byte_to_Z b <= 143) -> Utf8.second_ok a b = true).
  { intros a b Hb Hb2 H1 H2 H3 H4. unfold Utf8.second_ok, Utf8.cont.
    assert (128 <= byte_to_Z b) by (pose proof (Z.mod_pos_bound (byte_to_Z b) 64); lia). repeat case_match; lia. }
  destruct (r <? 2048) eqn:E2; [|destruct (r <? 65536) eqn:E3].
  - destruct (runes2 (byte_of_Z (192 + r / 64)) (low 0) t) as [r' H];
      [rewrite byte_to_of_Z_small by lia; lia|apply Hsec; rewrite ?L0, ?byte_to_of_Z_small by lia; lia|].
    exists r'. split; [exact H|apply long_ok; cbn; lia].
  - destruct (runes3 (byte_of_Z (224 + r / 4096)) (low 6) (low 0) t) as [r' H];
      [rewrite byte_to_of_Z_small by lia; lia|apply Hsec; rewrite ?L6, ?byte_to_of_Z_small by lia; lia|by apply Hc|].
    exists r'. split; [exact H|apply long_ok; cbn; lia].
  - destruct (runes4 (byte_of_Z (240 + r / 262144)) (low 12) (low 6) (low 0) t) as [r' H];
      [rewrite byte_to_of_Z_small by lia; lia|apply Hsec; rewrite ?L12, ?byte_to_of_Z_small by lia; lia|by apply Hc|by apply Hc|].
    exists r'. split; [exact H|apply long_ok; cbn; lia].
Qed.

Definition bytes_valid (bs : list byte) : bool := forallb rune_ok (Utf8.runes bs).

Lemma valid_utf8_bytes s : valid_utf8 s = bytes_valid (string_bytes s).
Proof. unfold valid_utf8, bytes_valid. induction (Utf8.runes (string_bytes s)) as [|[r bs] l IH]; [done|]. cbn. by rewrite IH. Qed.

Lemma valid_encode r bs : bytes_valid bs = true -> bytes_valid (Utf8.encode r ++ bs) = true.
Proof. intros Hb. unfold bytes_valid. destruct (runes_encode r bs) as (r' & -> & Hr). cbn [forallb]. by rewrite Hr. Qed.

Lemma escape_char_small e c : escape_char e = Some c -> 0 <= c < 128.
Proof. unfold escape_char. repeat case_match; intros [= <-]; lia. Qed.

Lemma unquote_valid n : forall rs, (length rs <= n)%nat -> bytes_valid (unquote rs) = true.
Proof.
  induction n as [|n IH]; intros rs Hn; (destruct rs as [|r rs]; [done|]); cbn [length] in Hn; [lia|]. cbn [unquote].
  destruct (r =? 92); [|apply valid_encode, IH; lia]. destruct rs as [|e rs]; [done|]. cbn [length] in Hn.
  destruct (e =? 117).
  - destruct rs as [|a [|b [|c [|d rs]]]]; try done. cbn [length] in Hn. destruct (getu4 a b c d) as [rr|]; [|done].
    destruct (IsSurrogate rr); [|apply valid_encode, IH; lia].
    destruct rs as [|s1 [|s2 [|a' [|b' [|c' [|d' rs]]]]]]; try (apply valid_encode, IH; cbn in *; lia).
    match goal with |- context [if ?x =? Utf8.RuneError then _ else _] => destruct (x =? Utf8.RuneError) end;
      apply valid_encode, IH; cbn in *; lia.
  - destruct (escape_char e) as [c|] eqn:Ee; [|done]. apply escape_char_small in Ee.
    change (byte_of_Z c :: unquote rs) with ([byte_of_Z c] ++ unquote rs). rewrite <- encode_ascii by done. apply valid_encode, IH. lia.
Qed.

Lemma unquote_string_valid raw : valid_utf8 (unquote_string raw) = true.
Proof. rewrite valid_utf8_bytes. unfold unquote_string. rewrite string_bytes_string. by eapply unquote_valid. Qed.

(** Every string of a parsed tree. *)
Fixpoint json_valid (j : json) : bool :=
  match j with
  | JStr s => valid_utf8 s
  | JArr l => forallb json_valid l
  | JObj l => forallb (fun p => valid_utf8 p.1 && json_valid p.2) l
  | _ => true
  end.

Section containers.
Context (value : list byte -> option (json * list byte)) (Hv : forall bs j r, value bs = Some (j, r) -> json_valid j = true).

Lemma parse_elements_valid fuel : forall bs l r, parse_elements value fuel bs = Some (l, r) -> forallb json_valid l = true.
Proof using Hv.
  induction fuel as [|fuel IH]; intros bs l r; cbn [parse_elements]; [done|].
  destruct (value bs) as [[j t]|] eqn:E; [|done]. apply Hv in E. cbn [mbind option_bind].
  destruct (skip_ws t) as [|b u]; [done|]. destruct (bz 44 b); [|destruct (bz 93 b); [intros [= <- _]; cbn; by rewrite E|done]].
  destruct (parse_elements value fuel u) as [[l' r']|] eqn:E'; [|done]. intros [= <- _]. cbn. rewrite E. by eapply IH.
Qed.

Lemma parse_key_valid bs k r : parse_key bs = Some (k, r) -> valid_utf8 k = true.
Proof.
  unfold parse_key. destruct (skip_ws bs) as [|b t]; [done|]. destruct (bz 34 b); [|done].
  destruct (scan_string t) as [[raw u]|]; [|done]. cbn [mbind option_bind]. destruct (skip_ws u) as [|c w]; [done|].
  destruct (bz 58 c); [|done]. intros [= <- _]. apply unquote_string_valid.
Qed.

Lemma parse_members_valid fuel : forall bs l r,
  parse_members value fuel bs = Some (l, r) -> forallb (fun p => valid_utf8 p.1 && json_valid p.2) l = true.
Proof using Hv.
  induction fuel as [|fuel IH]; intros bs l r; cbn [parse_members]; [done|].
  destruct (parse_key bs) as [[k s]|] eqn:Ek; [|done]. apply parse_key_valid in Ek. cbn [mbind option_bind].
  destruct (value s) as [[j t]|] eqn:E; [|done]. apply Hv in E. cbn [mbind option_bind].
  destruct (skip_ws t) as [|b u]; [done|]. destruct (bz 44 b); [|destruct (bz 125 b); [intros [= <- _]; cbn [forallb fst snd]; by rewrite Ek, E|done]].
  destruct (parse_members value fuel u) as [[l' r']|] eqn:E'; [|done]. intros [= <- _]. cbn [forallb fst snd]. rewrite Ek, E. by eapply IH.
Qed.
End containers.

Lemma parse_value_valid n : forall bs j r, parse_value n bs = Some (j, r) -> json_valid j = true.
Proof.
  assert (Hk : forall w x bs j r, json_valid x = true -> keyword w x bs = Some (j, r) -> json_valid j = true).
  { intros w x bs j r Hx. unfold keyword. destruct (strip_prefix _ _); [|done]. by intros [= <- _]. }
  assert (Hcont : forall v, (forall bs j r, v bs = Some (j, r) -> json_valid j = true) ->
    (forall bs j r, parse_array v bs = Some (j, r) -> json_valid j = true)
    /\ (forall bs j r, parse_object v bs = Some (j, r) -> json_valid j = true)).
  { intros v Hv. split; intros bs j r; unfold parse_array, parse_object; (destruct (skip_ws bs) as [|b t]; [done|]).
    - destruct (bz 93 b); [by intros [= <- _]|]. destruct (parse_elements v _ bs) as [[l u]|] eqn:E; [|done]. intros [= <- _].
      by apply parse_elements_valid in E.
    - destruct (bz 125 b); [by intros [= <- _]|]. destruct (parse_members v _ bs) as [[l u]|] eqn:E; [|done]. intros [= <- _].
      by apply parse_members_valid in E. }
  induction n as [|n IH]; intros bs j r; cbn [parse_value]; (destruct (skip_ws bs) as [|b t]; [done|]);
    (destruct (bz 34 b); [destruct (scan_string t) as [[raw u]|]; [|done]; intros [= <- _]; apply unquote_string_valid|]);
    (destruct (bz 91 b); [try done; apply (Hcont _ IH)|]); (destruct (bz 123 b); [try done; apply (Hcont _ IH)|]);
    repeat (match goal with |- (if ?c then keyword _ _ _ else _) = _ -> _ => destruct c; [by apply Hk|] end);
    (destruct (lex_number (b :: t)) as [[lit u]|]; [|done]; by intros [= <- _]).
Qed.

Lemma json_first_valid body j : json_first body = Some j -> json_valid j = true.
Proof. unfold json_first. destruct (parse_value _ body) as [[j' r]|] eqn:E; [|done]. intros [= <-]. by apply parse_value_valid in E. Qed.

(** A property of the variable that decoding any field keeps. *)
Lemma decode_fields_inv {A} names (set : string -> json -> A -> option A) (P : A -> Prop) l : forall a a',
  (forall n j a a', json_valid j = true -> P a -> set n j a = Some a' -> P a') ->
  forallb (fun p => valid_utf8 p.1 && json_valid p.2) l = true -> P a -> decode_fields names set l a = Some a' -> P a'.
Proof.
  induction l as [|[k j] l IH]; intros a a' Hset Hl Ha; cbn [decode_fields]; [by intros [= <-]|].
  cbn [forallb fst snd] in Hl. rewrite !andb_true_iff in Hl. destruct Hl as [[_ Hj] Hl]. destruct (field_named names k) as [n|]; [|by apply IH].
  destruct (set n j a) as [a1|] eqn:E; [|done]. cbn [mbind option_bind]. apply IH; [done..|]. by eapply Hset.
Qed.
