(* ===== verification/Codec.v ===== *)
(** * Struct tags: decoding JSON into Go structs and encoding them ([encoding/json] by reflection)

    A codec says how a Go type is encoded and decoded, and carries the proof that what is encoded decodes to
    the same value.  Codecs of structs are built from the list of their tags. *)

From S2P Require Import Prelude GoStrings GoStd JsonText GoNumber Types Token Json Utf8Valid.
#[local] Open Scope Z_scope.

(** [dec] decodes into a variable that holds a value; a variable starts as [zero].  [empty] is the notion of
    [omitempty], [good] the values JSON can carry: valid UTF-8, integers of [int] range, finite floats. *)
Record codec (A : Type) := MkCodec {
  enc : A -> option json;
  dec : A -> json -> option A;
  zero : A;
  empty : A -> bool;
  good : A -> Prop;
  depth : nat;
  enc_dec : forall a, good a -> exists j, enc a = Some j /\ json_fits depth j = true /\ dec zero (json_coerce j) = Some a;
  empty_zero : forall a, good a -> empty a = true -> a = zero
}.
Arguments enc {A}. Arguments dec {A}. Arguments zero {A}. Arguments empty {A}. Arguments good {A}.
Arguments depth {A}. Arguments enc_dec {A}. Arguments empty_zero {A}.

(** ** Basic types *)
Lemma string_law s : valid_utf8 s = true ->
  exists j, Some (JStr s) = Some j /\ json_fits 0 j = true /\ into_string EmptyString (json_coerce j) = Some s.
Proof. intros Hs. eexists. split_and!; [done..|]. cbn. by rewrite utf8_coerce_valid. Qed.

Definition string_codec : codec string :=
  MkCodec string (fun s => Some (JStr s)) into_string EmptyString (fun s => String.eqb s EmptyString)
    (fun s => valid_utf8 s = true) 0 string_law (fun s _ E => proj1 (String.eqb_eq s EmptyString) E).

Lemma int_law z : in_int z -> exists j, Some (JNum (Itoa z)) = Some j /\ json_fits 0 j = true /\ into_int 0 (json_coerce j) = Some z.
Proof. intros Hz. eexists. split; [done|]. split; [apply Itoa_number|]. by apply into_int_ok. Qed.

Definition int_codec : codec Z :=
  MkCodec Z (fun z => Some (JNum (Itoa z))) into_int 0 (fun z => z =? 0) in_int 0 int_law
    (fun z _ E => proj1 (Z.eqb_eq z 0) E).

Definition into_bool (old : bool) (j : json) : option bool :=
  match j with JNull => Some old | JBool b => Some b | _ => None end.

Lemma bool_law b : exists j, Some (JBool b) = Some j /\ json_fits 0 j = true /\ into_bool false (json_coerce j) = Some b.
Proof. by eexists. Qed.

Definition bool_codec : codec bool :=
  MkCodec bool (fun b => Some (JBool b)) into_bool false negb (fun _ => True) 0 (fun b _ => bool_law b)
    (fun b _ E => proj1 (negb_true_iff b) E).

Definition into_float (old : spec_float) (j : json) : option spec_float :=
  match j with JNull => Some old | JNum lit => ParseFloat lit | _ => None end.

Definition f0 : spec_float := S754_zero false.
Definition float_json (f : spec_float) : option json :=
  match float_literal f with Some lit => Some (JNum lit) | None => None end.

Lemma float_law f : is_Some (float_literal f) ->
  exists j, float_json f = Some j /\ json_fits 0 j = true /\ into_float f0 (json_coerce j) = Some f.
Proof.
  intros [lit Hl]. unfold float_json. rewrite Hl. apply float_literal_spec in Hl as [H1 H2]. eexists. by split_and!.
Qed.

(** [omitempty] is not used on a [float64], and the two zeros differ, so no value counts as empty. *)
Definition float_codec : codec spec_float :=
  MkCodec spec_float float_json into_float f0 (fun _ => false) (fun f => is_Some (float_literal f)) 0 float_law
    (fun f _ E => match Bool.diff_false_true E with end).

(** ** Slices *)

(** The elements are decoded into those the slice already has. *)
Fixpoint into_elements {A} (c : codec A) (old : list A) (l : list json) : option (list A) :=
  match l with
  | [] => Some []
  | j :: l =>
      x ← dec c (match old with o :: _ => o | [] => zero c end) j;
      xs ← into_elements c (drop 1 old) l;
      Some (x :: xs)
  end.

Definition into_slice {A} (c : codec A) (old : list A) (j : json) : option (list A) :=
  match j with JNull => Some [] | JArr l => into_elements c old l | _ => None end.

Definition slice_json {A} (c : codec A) (l : list A) : option json := js ← mapM (enc c) l; Some (JArr js).

Lemma slice_law {A} (c : codec A) l : Forall (good c) l ->
  exists j, slice_json c l = Some j /\ json_fits (S (depth c)) j = true /\ into_slice c [] (json_coerce j) = Some l.
Proof.
  intros Hl. enough (exists js, mapM (enc c) l = Some js /\ forallb (json_fits (depth c)) js = true
    /\ into_elements c [] (map json_coerce js) = Some l) as (js & H1 & H2 & H3).
  { exists (JArr js). unfold slice_json. rewrite H1. by split_and!. }
  induction Hl as [|a l Ha _ (js & H1 & H2 & H3)]; [by exists []|]. destruct (enc_dec c a Ha) as (j & E1 & E2 & E3).
  exists (j :: js). cbn. rewrite E1, H1, E2, E3. cbn. by rewrite H3.
Qed.

Lemma slice_empty {A} (c : codec A) l : Forall (good c) l -> (match l with [] => true | _ => false end) = true -> l = [].
Proof. by destruct l. Qed.

Definition slice_codec {A} (c : codec A) : codec (list A) :=
  MkCodec (list A) (slice_json c) (into_slice c) [] (fun l => match l with [] => true | _ => false end) (Forall (good c))
    (S (depth c)) (slice_law c) (slice_empty c).

(** ** Maps with string keys *)
Definition into_member {A} (c : codec A) (p : string * json) : option (string * A) := x ← dec c (zero c) p.2; Some (p.1, x).
Definition into_map {A} (c : codec A) (old : gmap string A) (j : json) : option (gmap string A) :=
  match j with
  | JNull => Some ∅
  | JObj l => kvs ← mapM (into_member c) l; Some (list_to_map (reverse kvs) ∪ old)
  | _ => None
  end.

Definition member_json {A} (c : codec A) (p : string * A) : option (string * json) := j ← enc c p.2; Some (p.1, j).
Definition map_json {A} (c : codec A) (m : gmap string A) : option json := l ← mapM (member_json c) (map_entries m); Some (JObj l).

Lemma map_entries_map {A} (m : gmap string A) : list_to_map (reverse (map_entries m)) = m.
Proof.
  apply map_eq. intros k. destruct (m !! k) as [v|] eqn:E.
  - apply elem_of_list_to_map_1; [rewrite reverse_Permutation; apply map_entries_NoDup|]. by apply elem_of_reverse, elem_of_map_entries.
  - apply not_elem_of_list_to_map_1. intros ((k' & v) & -> & Hk)%list_elem_of_fmap. apply elem_of_reverse, map_entries_elem in Hk.
    cbn in E. congruence.
Qed.

Definition good_map {A} (c : codec A) (m : gmap string A) : Prop := map_Forall (fun k v => valid_utf8 k = true /\ good c v) m.

Lemma map_law {A} (c : codec A) m : good_map c m ->
  exists j, map_json c m = Some j /\ json_fits (S (depth c)) j = true /\ into_map c ∅ (json_coerce j) = Some m.
Proof.
  intros Hm. assert (Hl : Forall (fun p => valid_utf8 p.1 = true /\ good c p.2) (map_entries m)).
  { apply Forall_forall. intros [k v] Hkv%map_entries_elem. exact (Hm _ _ Hkv). }
  enough (exists js, mapM (member_json c) (map_entries m) = Some js /\ forallb (fun p => json_fits (depth c) p.2) js = true
    /\ mapM (into_member c) (map coerce_member js) = Some (map_entries m)) as (js & H1 & H2 & H3).
  { exists (JObj js). unfold map_json. rewrite H1. split_and!; [done..|]. rewrite json_coerce_obj. unfold into_map.
    change (map _ js) with (map coerce_member js). rewrite H3. cbn [mbind option_bind].
    by rewrite (right_id_L ∅ (∪)), map_entries_map. }
  induction Hl as [|[k a] l [Hk Ha] _ (js & H1 & H2 & H3)]; [by exists []|]. cbn [fst snd] in Hk, Ha.
  destruct (enc_dec c a Ha) as (j & E1 & E2 & E3). exists ((k, j) :: js). cbn [mapM map forallb snd].
  change (member_json c (k, a)) with (j ← enc c a; Some (k, j)). rewrite E1, H1, E2, H2. split_and!; [done..|].
  change (into_member c (coerce_member (k, j))) with (x ← dec c (zero c) (json_coerce j); Some (utf8_coerce k, x)).
  by rewrite E3, H3, utf8_coerce_valid.
Qed.

Lemma map_empty_zero {A} (c : codec A) m : good_map c m -> (size m =? 0)%nat = true -> m = ∅.
Proof. by intros _ Hs%Nat.eqb_eq%map_size_empty_inv. Qed.

Definition map_codec {A} (c : codec A) : codec (gmap string A) :=
  MkCodec (gmap string A) (map_json c) (into_map c) ∅ (fun m => (size m =? 0)%nat) (good_map c) (S (depth c)) (map_law c)
    (map_empty_zero c).

(** ** Structs *)

(** The exported fields with their tags: name, [omitempty], type. *)
Inductive fields : Type -> Type :=
| FNil : fields unit
| FCons {T R} (name : string) (omitempty : bool) (c : codec T) (rest : fields R) : fields (T * R).

Fixpoint field_names {P} (fs : fields P) : list string :=
  match fs with FNil => [] | FCons name _ _ rest => name :: field_names rest end.

Fixpoint set_field {P} (fs : fields P) (n : string) (j : json) : P -> option P :=
  match fs with
  | FNil => fun p => Some p
  | FCons name _ c rest => fun p =>
      if String.eqb n name then x ← dec c p.1 j; Some (x, p.2) else r ← set_field rest n j p.2; Some (p.1, r)
  end.

Fixpoint fields_json {P} (fs : fields P) : P -> option (list (string * json)) :=
  match fs with
  | FNil => fun _ => Some []
  | FCons name omitempty c rest => fun p =>
      l ← fields_json rest p.2;
      if omitempty && empty c p.1 then Some l else j ← enc c p.1; Some ((name, j) :: l)
  end.

Fixpoint zeros {P} (fs : fields P) : P :=
  match fs with FNil => tt | FCons _ _ c rest => (zero c, zeros rest) end.
Fixpoint good_fields {P} (fs : fields P) : P -> Prop :=
  match fs with FNil => fun _ => True | FCons _ _ c rest => fun p => good c p.1 /\ good_fields rest p.2 end.
Fixpoint fields_depth {P} (fs : fields P) : nat :=
  match fs with FNil => O | FCons _ _ c rest => Nat.max (depth c) (fields_depth rest) end.

Definition into_struct {A P} (fs : fields P) (to : A -> P) (mk : P -> A) (old : A) (j : json) : option A :=
  match j with
  | JNull => Some old
  | JObj l => p ← decode_fields (field_names fs) (set_field fs) l (to old); Some (mk p)
  | _ => None
  end.

Definition struct_json {A P} (fs : fields P) (to : A -> P) (a : A) : option json := l ← fields_json fs (to a); Some (JObj l).

(** Distinct names of ASCII letters. *)
Definition tags_ok (names : list string) : bool :=
  bool_decide (NoDup names) && forallb (fun n => bool_decide (utf8_coerce n = n)) names.

(** Fields of the rest of a struct leave the first field alone. *)
Lemma decode_rest {T R} names name o (c : codec T) (rest : fields R) l : forall x r,
  Forall (fun p => p.1 <> name /\ field_named names p.1 = Some p.1) l ->
  decode_fields names (set_field (FCons name o c rest)) l (x, r) = (r ← decode_fields names (set_field rest) l r; Some (x, r)).
Proof.
  induction l as [|[k j] l IH]; intros x r Hl; [done|]. rewrite Forall_cons in Hl. destruct Hl as [[Hk Hn] Hl]. cbn [fst] in *.
  cbn [decode_fields]. rewrite Hn. cbn [set_field fst snd]. destruct (String.eqb_spec k name); [done|].
  destruct (set_field rest k j r) as [r'|]; [|done]. cbn [mbind option_bind]. by apply IH.
Qed.

Lemma field_named_exact names n : n ∈ names -> field_named names n = Some n.
Proof.
  intros Hn. unfold field_named. destruct (List.find (String.eqb n) names) as [m|] eqn:E.
  - apply List.find_some in E as [_ E%String.eqb_eq]. by subst.
  - exfalso. apply list_elem_of_In, (List.find_none _ _ E n) in Hn. by rewrite String.eqb_refl in Hn.
Qed.

Lemma fields_law names {P} (fs : fields P) p :
  NoDup (field_names fs) -> Forall (fun n => n ∈ names /\ utf8_coerce n = n) (field_names fs) -> good_fields fs p ->
  exists l, fields_json fs p = Some l /\ forallb (fun p => json_fits (fields_depth fs) p.2) l = true
  /\ Forall (fun q => q.1 ∈ field_names fs) l
  /\ decode_fields names (set_field fs) (map coerce_member l) (zeros fs) = Some p.
Proof.
  induction fs as [|T R name o c rest IH]; [by destruct p; exists []|]. destruct p as [x r]. cbn [field_names].
  rewrite NoDup_cons, Forall_cons. intros [Hnot Hnd] [[Hin Hco] Hall] [Hx Hr]. cbn [fst snd] in *.
  destruct (IH r Hnd Hall Hr) as (l & H1 & H2 & H3 & H4). cbn [fields_json fst snd fields_depth zeros].
  assert (Hf : forallb (fun p => json_fits (Nat.max (depth c) (fields_depth rest)) p.2) l = true).
  { rewrite forallb_forall in H2 |- *. intros q Hq. apply (json_fits_mono (fields_depth rest)); [lia|by apply H2]. }
  assert (Hrest : forall y, decode_fields names (set_field (FCons name o c rest)) (map coerce_member l) (y, zeros rest)
    = Some (y, r)).
  { intros y. rewrite decode_rest; [by rewrite H4|]. apply Forall_map, Forall_forall.
    intros q Hq. pose proof (proj1 (Forall_forall _ _) H3 q Hq) as Hq3. destruct (proj1 (Forall_forall _ _) Hall _ Hq3) as [Hm Hc]. unfold coerce_member. cbn [fst]. rewrite Hc.
    split; [by intros E; rewrite <- E in Hnot|by apply field_named_exact]. }
  rewrite H1. cbn [mbind option_bind]. destruct (o && empty c x) eqn:Eo.
  - exists l. split_and!; [done..| |].
    + eapply Forall_impl; [exact H3|]. intros q Hq. by right.
    + rewrite Hrest. apply andb_true_iff in Eo as [_ Eo]. by rewrite <- (empty_zero c x Hx Eo).
  - destruct (enc_dec c x Hx) as (j & E1 & E2 & E3). exists ((name, j) :: l). rewrite E1. split_and!; [done|..].
    + cbn [forallb snd]. rewrite Hf, andb_true_r. apply (json_fits_mono (depth c)); [lia|done].
    + constructor; [by left|]. eapply Forall_impl; [exact H3|]. intros q Hq. by right.
    + cbn [map decode_fields]. unfold coerce_member at 1. cbn [fst snd]. rewrite Hco, field_named_exact by done.
      cbn [set_field]. rewrite String.eqb_refl. cbn [fst snd]. rewrite E3. cbn [mbind option_bind]. apply Hrest.
Qed.

Section struct.
Context {A P} (fs : fields P) (to : A -> P) (mk : P -> A) (Htags : tags_ok (field_names fs) = true) (Hto : forall p, to (mk p) = p) (Hmk : forall a, mk (to a) = a).

Lemma struct_law a : good_fields fs (to a) ->
  exists j, struct_json fs to a = Some j /\ json_fits (S (fields_depth fs)) j = true
  /\ into_struct fs to mk (mk (zeros fs)) (json_coerce j) = Some a.
Proof.
  intros Ha. apply andb_true_iff in Htags as [H1%bool_decide_eq_true H2]. rewrite forallb_forall in H2.
  destruct (fields_law (field_names fs) fs (to a) H1) as (l & E1 & E2 & _ & E3); [|done|].
  { apply Forall_forall. intros n Hn. split; [done|]. apply (bool_decide_eq_true (utf8_coerce n = n)), H2. by apply list_elem_of_In. }
  exists (JObj l). unfold struct_json. rewrite E1. split_and!; [done..|]. rewrite json_coerce_obj. cbn [into_struct].
  change (map _ l) with (map coerce_member l). rewrite Hto, E3. cbn. by rewrite Hmk.
Qed.

Definition struct_codec : codec A :=
  MkCodec A (struct_json fs to) (into_struct fs to mk) (mk (zeros fs)) (fun _ => false) (fun a => good_fields fs (to a))
    (S (fields_depth fs)) struct_law (fun _ _ E => match Bool.diff_false_true E with end).
End struct.

Definition tag {T R} (name : string) (c : codec T) (rest : fields R) : fields (T * R) := FCons name false c rest.
Definition tag_omitempty {T R} (name : string) (c : codec T) (rest : fields R) : fields (T * R) := FCons name true c rest.

(** The side conditions of a struct codec. *)
Ltac tags_ok := vm_compute; reflexivity.
Ltac record_eta := by intros [].
Ltac tuple_eta := intros p; repeat match goal with p : _ * _ |- _ => destruct p | p : unit |- _ => destruct p end; reflexivity.

(** ** Texts *)
Section text.
Context {A} (c : codec A) (Hdepth : (depth c <= maxNestingDepth)%nat).

(** [json.NewDecoder(r).Decode(&v)] of a zero [v]; [body] is what can be read. *)
Definition Decode (body : list byte) : option A := j ← json_first body; dec c (zero c) j.

(** [json.Unmarshal(data, &v)] of a zero [v]. *)
Definition Unmarshal_into (data : list byte) : option A := j ← json_parse data; dec c (zero c) j.

#[global] Strategy 900 [Decode Unmarshal_into].

Definition Encode (a : A) : option (list byte) := j ← enc c a; Some (json_print j).

Lemma Encode_Decode a rest : good c a -> stops rest ->
  exists body, Encode a = Some body /\ Decode (body ++ rest) = Some a /\ Unmarshal_into body = Some a.
Proof using Hdepth.
  intros Ha Hr. destruct (enc_dec c a Ha) as (j & E1 & E2 & E3). unfold Encode. rewrite E1. eexists. split; [done|].
  assert (json_fits maxNestingDepth j = true) by by eapply json_fits_mono.
  unfold Decode, Unmarshal_into. by rewrite json_first_print, json_parse_print.
Qed.
End text.
