(* ===== verification/Bodies.v ===== *)
(** * The tags of the structs clients send ([internal/types]: fingerprint.go, beacon.go, decision_request.go) *)

From S2P Require Import Prelude GoStrings GoStd JsonText GoNumber Types Token Json Codec.
#[local] Open Scope Z_scope.

(** ** fingerprint.go *)
Definition NavigatorProbe_tags :=
  tag "user_agent" string_codec $ tag "platform" string_codec $ tag "vendor" string_codec $
  tag "languages" (slice_codec string_codec) $ tag "language" string_codec $ tag "hardware_concurrency" int_codec $
  tag "device_memory" float_codec $ tag "webdriver" bool_codec $ tag "plugins" (slice_codec string_codec) $
  tag "mime_types" (slice_codec string_codec) $ tag_omitempty "oscpu" string_codec $ tag "product" string_codec $
  tag "product_sub" string_codec $ FNil.
Definition NavigatorProbe_codec : codec NavigatorProbe := struct_codec NavigatorProbe_tags
  (fun a => (nv_UserAgent a, (nv_Platform a, (nv_Vendor a, (nv_Languages a, (nv_Language a, (nv_HardwareConcurrency
    a, (nv_DeviceMemory a, (nv_Webdriver a, (nv_Plugins a, (nv_MimeTypes a, (nv_Oscpu a, (nv_Product a,
    (nv_ProductSub a, tt))))))))))))))
  (fun '(v0, (v1, (v2, (v3, (v4, (v5, (v6, (v7, (v8, (v9, (v10, (v11, (v12, tt))))))))))))) => MkNavigatorProbe v0 v1
    v2 v3 v4 v5 v6 v7 v8 v9 v10 v11 v12)
  ltac:(tags_ok) ltac:(tuple_eta) ltac:(record_eta).

Definition WebGLProbe_tags :=
  tag "vendor" string_codec $ tag "renderer" string_codec $ tag "unmasked_vendor" string_codec $
  tag "unmasked_renderer" string_codec $ tag "version" string_codec $ tag "shading_language_ver" string_codec $
  tag "extensions" (slice_codec string_codec) $ tag "max_texture_size" int_codec $ tag "max_anisotropy" float_codec $
  FNil.
Definition WebGLProbe_codec : codec WebGLProbe := struct_codec WebGLProbe_tags
  (fun a => (wg_Vendor a, (wg_Renderer a, (wg_UnmaskedVendor a, (wg_UnmaskedRenderer a, (wg_Version a,
    (wg_ShadingLanguageVer a, (wg_Extensions a, (wg_MaxTextureSize a, (wg_MaxAnisotropy a, tt))))))))))
  (fun '(v0, (v1, (v2, (v3, (v4, (v5, (v6, (v7, (v8, tt))))))))) => MkWebGLProbe v0 v1 v2 v3 v4 v5 v6 v7 v8)
  ltac:(tags_ok) ltac:(tuple_eta) ltac:(record_eta).

Definition CanvasProbe_tags :=
  tag "hashes" (slice_codec string_codec) $ tag "variance" int_codec $ FNil.
Definition CanvasProbe_codec : codec CanvasProbe := struct_codec CanvasProbe_tags
  (fun a => (cv_Hashes a, (cv_Variance a, tt)))
  (fun '(v0, (v1, tt)) => MkCanvasProbe v0 v1)
  ltac:(tags_ok) ltac:(tuple_eta) ltac:(record_eta).

Definition AudioProbe_tags :=
  tag "hashes" (slice_codec string_codec) $ tag "variance" int_codec $ FNil.
Definition AudioProbe_codec : codec AudioProbe := struct_codec AudioProbe_tags
  (fun a => (au_Hashes a, (au_Variance a, tt)))
  (fun '(v0, (v1, tt)) => MkAudioProbe v0 v1)
  ltac:(tags_ok) ltac:(tuple_eta) ltac:(record_eta).

Definition CodecsProbe_tags :=
  tag "common" (map_codec string_codec) $ tag "rare" (map_codec string_codec) $ FNil.
Definition CodecsProbe_codec : codec CodecsProbe := struct_codec CodecsProbe_tags
  (fun a => (cd_Common a, (cd_Rare a, tt)))
  (fun '(v0, (v1, tt)) => MkCodecsProbe v0 v1)
  ltac:(tags_ok) ltac:(tuple_eta) ltac:(record_eta).

Definition FontsProbe_tags :=
  tag "detected_count" int_codec $ tag "detected" (slice_codec string_codec) $
  tag "missing_os_bundled" (slice_codec string_codec) $ FNil.
Definition FontsProbe_codec : codec FontsProbe := struct_codec FontsProbe_tags
  (fun a => (fo_DetectedCount a, (fo_Detected a, (fo_MissingOSBundled a, tt))))
  (fun '(v0, (v1, (v2, tt))) => MkFontsProbe v0 v1 v2)
  ltac:(tags_ok) ltac:(tuple_eta) ltac:(record_eta).

Definition WindowProbe_tags :=
  tag "inner_width" int_codec $ tag "inner_height" int_codec $ tag "outer_width" int_codec $
  tag "outer_height" int_codec $ tag "screen_width" int_codec $ tag "screen_height" int_codec $
  tag "device_pixel_ratio" float_codec $ tag "color_depth" int_codec $ tag "pixel_depth" int_codec $ FNil.
Definition WindowProbe_codec : codec WindowProbe := struct_codec WindowProbe_tags
  (fun a => (wi_InnerWidth a, (wi_InnerHeight a, (wi_OuterWidth a, (wi_OuterHeight a, (wi_ScreenWidth a,
    (wi_ScreenHeight a, (wi_DevicePixelRatio a, (wi_ColorDepth a, (wi_PixelDepth a, tt))))))))))
  (fun '(v0, (v1, (v2, (v3, (v4, (v5, (v6, (v7, (v8, tt))))))))) => MkWindowProbe v0 v1 v2 v3 v4 v5 v6 v7 v8)
  ltac:(tags_ok) ltac:(tuple_eta) ltac:(record_eta).

Definition ChromeProbe_tags :=
  tag "present" bool_codec $ tag "runtime_present" bool_codec $ tag "app_present" bool_codec $
  tag "load_times_present" bool_codec $ tag "csi_present" bool_codec $
  tag_omitempty "runtime_connect_error" string_codec $ FNil.
Definition ChromeProbe_codec : codec ChromeProbe := struct_codec ChromeProbe_tags
  (fun a => (ch_Present a, (ch_RuntimePresent a, (ch_AppPresent a, (ch_LoadTimesPresent a, (ch_CsiPresent a,
    (ch_RuntimeConnectError a, tt)))))))
  (fun '(v0, (v1, (v2, (v3, (v4, (v5, tt)))))) => MkChromeProbe v0 v1 v2 v3 v4 v5)
  ltac:(tags_ok) ltac:(tuple_eta) ltac:(record_eta).

Definition PermissionsProbe_tags :=
  tag "notifications_state" string_codec $ tag "midi_state" string_codec $ tag "camera_state" string_codec $ FNil.
Definition PermissionsProbe_codec : codec PermissionsProbe := struct_codec PermissionsProbe_tags
  (fun a => (pe_NotificationsState a, (pe_MidiState a, (pe_CameraState a, tt))))
  (fun '(v0, (v1, (v2, tt))) => MkPermissionsProbe v0 v1 v2)
  ltac:(tags_ok) ltac:(tuple_eta) ltac:(record_eta).

Definition WebRTCProbe_tags :=
  tag "local_ips" (slice_codec string_codec) $ tag "public_ip" string_codec $ FNil.
Definition WebRTCProbe_codec : codec WebRTCProbe := struct_codec WebRTCProbe_tags
  (fun a => (wr_LocalIPs a, (wr_PublicIP a, tt)))
  (fun '(v0, (v1, tt)) => MkWebRTCProbe v0 v1)
  ltac:(tags_ok) ltac:(tuple_eta) ltac:(record_eta).

Definition DOMProbe_tags :=
  tag "iframe_content_window_identity" bool_codec $ tag "closed_shadow_root_accessible" bool_codec $
  tag "document_element_keys" (slice_codec string_codec) $ FNil.
Definition DOMProbe_codec : codec DOMProbe := struct_codec DOMProbe_tags
  (fun a => (do_IframeContentWindowIdentity a, (do_ClosedShadowRootAccessible a, (do_DocumentElementKeys a, tt))))
  (fun '(v0, (v1, (v2, tt))) => MkDOMProbe v0 v1 v2)
  ltac:(tags_ok) ltac:(tuple_eta) ltac:(record_eta).

Definition RuntimeProbe_tags :=
  tag "function_to_string_native" bool_codec $ tag "console_debug_arity" int_codec $
  tag "console_debug_to_string" string_codec $ tag "eval_length" int_codec $
  tag "error_stack_contains_pw_sig" bool_codec $ FNil.
Definition RuntimeProbe_codec : codec RuntimeProbe := struct_codec RuntimeProbe_tags
  (fun a => (ru_FunctionToStringNative a, (ru_ConsoleDebugArity a, (ru_ConsoleDebugToString a, (ru_EvalLength a,
    (ru_ErrorStackContainsPwSig a, tt))))))
  (fun '(v0, (v1, (v2, (v3, (v4, tt))))) => MkRuntimeProbe v0 v1 v2 v3 v4)
  ltac:(tags_ok) ltac:(tuple_eta) ltac:(record_eta).

Definition SpeechProbe_tags :=
  tag "voices_count" int_codec $ tag "voices" (slice_codec string_codec) $ FNil.
Definition SpeechProbe_codec : codec SpeechProbe := struct_codec SpeechProbe_tags
  (fun a => (sp_VoicesCount a, (sp_Voices a, tt)))
  (fun '(v0, (v1, tt)) => MkSpeechProbe v0 v1)
  ltac:(tags_ok) ltac:(tuple_eta) ltac:(record_eta).

Definition ServiceWorkerProbe_tags :=
  tag "registered" bool_codec $ tag "controller" bool_codec $ tag_omitempty "error" string_codec $ FNil.
Definition ServiceWorkerProbe_codec : codec ServiceWorkerProbe := struct_codec ServiceWorkerProbe_tags
  (fun a => (sw_Registered a, (sw_Controller a, (sw_Error a, tt))))
  (fun '(v0, (v1, (v2, tt))) => MkServiceWorkerProbe v0 v1 v2)
  ltac:(tags_ok) ltac:(tuple_eta) ltac:(record_eta).

Definition HairlineProbe_tags :=
  tag "non_modernizr_result" int_codec $ FNil.
Definition HairlineProbe_codec : codec HairlineProbe := struct_codec HairlineProbe_tags
  (fun a => (ha_NonModernizrResult a, tt))
  (fun '(v0, tt) => MkHairlineProbe v0)
  ltac:(tags_ok) ltac:(tuple_eta) ltac:(record_eta).

Definition TimingProbe_tags :=
  tag "collection_duration_ms" int_codec $ tag "navigation_start" int_codec $ tag "dom_content_loaded" int_codec $
  FNil.
Definition TimingProbe_codec : codec TimingProbe := struct_codec TimingProbe_tags
  (fun a => (ti_CollectionDurationMs a, (ti_NavigationStart a, (ti_DomContentLoaded a, tt))))
  (fun '(v0, (v1, (v2, tt))) => MkTimingProbe v0 v1 v2)
  ltac:(tags_ok) ltac:(tuple_eta) ltac:(record_eta).

Definition FingerprintReport_tags :=
  tag "version" int_codec $ tag "navigator" NavigatorProbe_codec $ tag "webgl" WebGLProbe_codec $
  tag "canvas" CanvasProbe_codec $ tag "audio" AudioProbe_codec $ tag "codecs" CodecsProbe_codec $
  tag "fonts" FontsProbe_codec $ tag "window" WindowProbe_codec $ tag "chrome" ChromeProbe_codec $
  tag "permissions" PermissionsProbe_codec $ tag "webrtc" WebRTCProbe_codec $ tag "dom" DOMProbe_codec $
  tag "runtime" RuntimeProbe_codec $ tag "speech" SpeechProbe_codec $ tag "service_worker" ServiceWorkerProbe_codec $
  tag "hairline" HairlineProbe_codec $ tag "timing" TimingProbe_codec $ FNil.
Definition FingerprintReport_codec : codec FingerprintReport := struct_codec FingerprintReport_tags
  (fun a => (fr_Version a, (fr_Navigator a, (fr_WebGL a, (fr_Canvas a, (fr_Audio a, (fr_Codecs a, (fr_Fonts a,
    (fr_Window a, (fr_Chrome a, (fr_Permissions a, (fr_WebRTC a, (fr_DOM a, (fr_Runtime a, (fr_Speech a,
    (fr_ServiceWorker a, (fr_Hairline a, (fr_Timing a, tt))))))))))))))))))
  (fun '(v0, (v1, (v2, (v3, (v4, (v5, (v6, (v7, (v8, (v9, (v10, (v11, (v12, (v13, (v14, (v15, (v16,
    tt))))))))))))))))) => MkFingerprintReport v0 v1 v2 v3 v4 v5 v6 v7 v8 v9 v10 v11 v12 v13 v14 v15 v16)
  ltac:(tags_ok) ltac:(tuple_eta) ltac:(record_eta).

(** ** beacon.go *)
Definition MouseMetrics_tags :=
  tag "move_count" int_codec $ tag "path_length" float_codec $ tag "avg_velocity" float_codec $
  tag "jitter_index" float_codec $ tag "clicks" int_codec $ tag "click_intervals_ms" (slice_codec int_codec) $ FNil.
Definition MouseMetrics_codec : codec MouseMetrics := struct_codec MouseMetrics_tags
  (fun a => (mm_MoveCount a, (mm_PathLength a, (mm_AvgVelocity a, (mm_JitterIndex a, (mm_Clicks a,
    (mm_ClickIntervalsMs a, tt)))))))
  (fun '(v0, (v1, (v2, (v3, (v4, (v5, tt)))))) => MkMouseMetrics v0 v1 v2 v3 v4 v5)
  ltac:(tags_ok) ltac:(tuple_eta) ltac:(record_eta).

Definition ScrollMetrics_tags :=
  tag "events" int_codec $ tag "max_y" int_codec $ FNil.
Definition ScrollMetrics_codec : codec ScrollMetrics := struct_codec ScrollMetrics_tags
  (fun a => (sm_Events a, (sm_MaxY a, tt)))
  (fun '(v0, (v1, tt)) => MkScrollMetrics v0 v1)
  ltac:(tags_ok) ltac:(tuple_eta) ltac:(record_eta).

Definition VisibilityMetrics_tags :=
  tag "hidden_ms" int_codec $ tag "visible_ms" int_codec $ FNil.
Definition VisibilityMetrics_codec : codec VisibilityMetrics := struct_codec VisibilityMetrics_tags
  (fun a => (vm_HiddenMs a, (vm_VisibleMs a, tt)))
  (fun '(v0, (v1, tt)) => MkVisibilityMetrics v0 v1)
  ltac:(tags_ok) ltac:(tuple_eta) ltac:(record_eta).

Definition ResourceMetrics_tags :=
  tag "css" int_codec $ tag "image" int_codec $ tag "font" int_codec $ tag "script" int_codec $ tag "xhr" int_codec $
  FNil.
Definition ResourceMetrics_codec : codec ResourceMetrics := struct_codec ResourceMetrics_tags
  (fun a => (rm_CSS a, (rm_Image a, (rm_Font a, (rm_Script a, (rm_XHR a, tt))))))
  (fun '(v0, (v1, (v2, (v3, (v4, tt))))) => MkResourceMetrics v0 v1 v2 v3 v4)
  ltac:(tags_ok) ltac:(tuple_eta) ltac:(record_eta).

Definition BehaviorBeacon_tags :=
  tag "session_id" string_codec $ tag "timestamp" int_codec $ tag "mouse" MouseMetrics_codec $
  tag "scroll" ScrollMetrics_codec $ tag "visibility" VisibilityMetrics_codec $
  tag "resource_fetches" ResourceMetrics_codec $ FNil.
Definition BehaviorBeacon_codec : codec BehaviorBeacon := struct_codec BehaviorBeacon_tags
  (fun a => (bb_SessionID a, (bb_Timestamp a, (bb_Mouse a, (bb_Scroll a, (bb_Visibility a, (bb_ResourceFetches a,
    tt)))))))
  (fun '(v0, (v1, (v2, (v3, (v4, (v5, tt)))))) => MkBehaviorBeacon v0 v1 v2 v3 v4 v5)
  ltac:(tags_ok) ltac:(tuple_eta) ltac:(record_eta).

(** ** decision_request.go *)
Definition DecisionRequest_tags :=
  tag "method" string_codec $ tag "path" string_codec $ tag "host" string_codec $ tag "remote_ip" string_codec $
  tag "headers" (map_codec string_codec) $ tag "header_order" (slice_codec string_codec) $
  tag_omitempty "ja3" string_codec $ tag_omitempty "ja4" string_codec $ tag_omitempty "token" string_codec $ FNil.
Definition DecisionRequest_codec : codec DecisionRequest := struct_codec DecisionRequest_tags
  (fun a => (dr_Method a, (dr_Path a, (dr_Host a, (dr_RemoteIP a, (dr_Headers a, (dr_HeaderOrder a, (dr_JA3 a,
    (dr_JA4 a, (dr_Token a, tt))))))))))
  (fun '(v0, (v1, (v2, (v3, (v4, (v5, (v6, (v7, (v8, tt))))))))) => MkDecisionRequest v0 v1 v2 v3 v4 v5 v6 v7 v8)
  ltac:(tags_ok) ltac:(tuple_eta) ltac:(record_eta).

