(* ===== verification/Ip.v ===== *)
(** * Package [internal/signal/ip]: ASN lookup, datacenter categories, Tor exits and their cache

    The MaxMind reader is a parameter ([asn_db]: [None] when the embedded file is empty or does not load);
    the embedded list of Tor exits is an argument of [loadTorExits].  The collector keeps what it found per
    address in an LRU cache keyed by the address's text. *)

From stdpp Require Import relations.
From S2P Require Import Prelude Interleave GoStrings GoStd GoNet Types Cache.
#[local] Open Scope Z_scope.

(** ** asn.go *)
Record asnRecord := MkAsnRecord { AutonomousSystemNumber : Z; AutonomousSystemOrganization : string }.
Record ASNResult := MkASNResult { asn_ASN : Z; asn_Org : string }.
Definition asn_db : Type := option (IP -> option asnRecord).

(** [init]: the embedded database, if it is not empty and the reader accepts it. *)
Definition asn_init (FromBytes : list byte -> outcome (IP -> option asnRecord)) (embeddedASNDB : list byte) : asn_db :=
  if len embeddedASNDB =? 0 then None
  else match FromBytes embeddedASNDB with Ok r => Some r | _ => None end.

Record fallbackEntry := MkFallbackEntry { fe_prefix : Prefix; fe_asn : Z; fe_org : string }.

Definition fallback_raw : list (string * Z * string) := [
  ("3.0.0.0/8", 16509, "Amazon.com Inc.");
  ("18.0.0.0/8", 14618, "Amazon Technologies Inc.");
  ("52.0.0.0/8", 16509, "Amazon.com Inc.");
  ("54.0.0.0/8", 16509, "Amazon.com Inc.");
  ("100.24.0.0/13", 39111, "Amazon Data Services NoVa");
  ("34.0.0.0/8", 15169, "Google LLC");
  ("35.0.0.0/8", 15169, "Google LLC");
  ("104.196.0.0/14", 396982, "Google LLC");
  ("20.0.0.0/8", 8075, "Microsoft Corporation");
  ("40.0.0.0/8", 8075, "Microsoft Corporation");
  ("67.205.0.0/16", 14061, "DigitalOcean LLC");
  ("68.183.0.0/16", 14061, "DigitalOcean LLC");
  ("157.245.0.0/16", 14061, "DigitalOcean LLC");
  ("45.33.0.0/17", 63949, "Akamai Connected Cloud");
  ("139.162.0.0/16", 63949, "Akamai Connected Cloud");
  ("5.9.0.0/16", 24940, "Hetzner Online GmbH");
  ("88.99.0.0/16", 24940, "Hetzner Online GmbH");
  ("195.201.0.0/16", 24940, "Hetzner Online GmbH");
  ("5.135.0.0/16", 16276, "OVH SAS");
  ("91.121.0.0/16", 16276, "OVH SAS");
  ("45.63.0.0/16", 20473, "Vultr Holdings LLC");
  ("45.77.0.0/16", 20473, "Vultr Holdings LLC");
  ("1.1.1.0/24", 13335, "Cloudflare Inc.");
  ("104.16.0.0/13", 13335, "Cloudflare Inc.")].

(** The loop of [buildFallbackTable]: entries whose prefix does not parse are skipped. *)
Fixpoint fallback_loop (raw : list (string * Z * string)) : list fallbackEntry :=
  match raw with
  | [] => []
  | (cidr, asn, org) :: raw =>
      match ParsePrefix cidr with
      | None => fallback_loop raw
      | Some p => MkFallbackEntry (Masked p) asn org :: fallback_loop raw
      end
  end.
Definition buildFallbackTable : list fallbackEntry := fallback_loop fallback_raw.

Fixpoint fallback_search (addr : Addr) (table : list fallbackEntry) : ASNResult :=
  match table with
  | [] => MkASNResult 0 EmptyString
  | e :: table =>
      if prefix_Contains (fe_prefix e) addr then MkASNResult (fe_asn e) (fe_org e) else fallback_search addr table
  end.

Definition lookupFallback (ip : IP) : outcome ASNResult :=
  match AddrFromSlice ip with
  | None => Err ("ip: cannot parse address " +:+ IP_String ip)
  | Some addr => Ok (fallback_search (Unmap addr) buildFallbackTable)
  end.

Definition LookupASN (db : asn_db) (ip : IP) : outcome ASNResult :=
  if bool_decide (ip = []) then Err "ip: nil IP address"
  else
    match db with
    | Some lookup =>
        match lookup ip with
        | Some rec =>
            if AutonomousSystemNumber rec =? 0 then lookupFallback ip
            else Ok (MkASNResult (AutonomousSystemNumber rec) (AutonomousSystemOrganization rec))
        | None => lookupFallback ip
        end
    | None => lookupFallback ip
    end.

(** ** datacenter.go *)
Inductive Category :=
  CategoryDatacenter | CategoryResidential | CategoryMobile | CategoryHosting | CategoryUnknown.

#[export] Instance Category_eq_dec : EqDecision Category.
Proof. solve_decision. Defined.

Definition category_text (c : Category) : string :=
  match c with
  | CategoryDatacenter => "datacenter" | CategoryResidential => "residential" | CategoryMobile => "mobile"
  | CategoryHosting => "hosting" | CategoryUnknown => "unknown"
  end.

Definition knownASNCategories : gmap Z Category := list_to_map [
  (16509, CategoryDatacenter); (14618, CategoryDatacenter); (39111, CategoryDatacenter);
  (15169, CategoryDatacenter); (396982, CategoryDatacenter);
  (8075, CategoryDatacenter);
  (14061, CategoryDatacenter);
  (63949, CategoryDatacenter);
  (24940, CategoryDatacenter);
  (16276, CategoryDatacenter);
  (20473, CategoryDatacenter);
  (13335, CategoryHosting);
  (54113, CategoryHosting);
  (20940, CategoryHosting)].

Definition Categorize (asn : Z) : Category :=
  if asn =? 0 then CategoryUnknown
  else match knownASNCategories !! asn with Some cat => cat | None => CategoryUnknown end.

(** ** tor.go *)

(** [bufio.ScanLines]: a carriage return at the end of a line is dropped, a last empty line is no line, and a
    line that does not fit the scanner's buffer of 64 KiB ends the scan. *)
Definition maxScanTokenSize : Z := 65536.
Definition cr : ascii := "013".
Definition dropCR (s : string) : string :=
  if HasSuffix s (String cr EmptyString) then stake (String.length s - 1) s else s.

Fixpoint scan_lines (lines : list string) : list string :=
  match lines with
  | [] => []
  | [l] => if String.eqb l EmptyString || (maxScanTokenSize <=? slen l) then [] else [dropCR l]
  | l :: lines => if maxScanTokenSize <=? slen l then [] else dropCR l :: scan_lines lines
  end.
Definition newline : ascii := "010".
Definition Scanner_lines (data : string) : list string := scan_lines (Split newline data).

(** The address a line of the list names, if any. *)
Definition tor_line (line : string) : IP :=
  let line := TrimSpace line in
  if String.eqb line EmptyString || HasPrefix line "#" then [] else ParseIP line.

Definition load_line (torExitSet : gset string) (line : string) : gset string :=
  let ip := tor_line line in
  if bool_decide (ip = []) then torExitSet else {[ IP_String ip ]} ∪ torExitSet.

Definition loadTorExits (data : string) (torExitSet : gset string) : gset string :=
  fold_left load_line (Scanner_lines data) torExitSet.

(** [init] *)
Definition tor_init (embeddedTorExits : string) : gset string :=
  if 0 <? slen embeddedTorExits then loadTorExits embeddedTorExits ∅ else ∅.

Definition IsTorExit (torExitSet : gset string) (ip : IP) : bool :=
  if bool_decide (ip = []) then false else bool_decide (IP_String ip ∈ torExitSet).

Definition TorExitCount (torExitSet : gset string) : Z := Z.of_nat (size torExitSet).

(** ** reputation.go *)
Definition defaultCacheSize : Z := 4096.

Record Entry := MkIPEntry { en_ASN : ASNResult; en_Category : Category; en_IsTor : bool }.

(** The package's variables: the reader and the exit set. *)
Record ip_env := MkIPEnv { env_db : asn_db; env_tor : gset string }.

(** The result is the zero [ASNResult] where [LookupASN] fails. *)
Definition compute (env : ip_env) (ip : IP) : Entry :=
  let asnResult := match LookupASN (env_db env) ip with Ok r => r | _ => MkASNResult 0 EmptyString end in
  MkIPEntry asnResult (Categorize (asn_ASN asnResult)) (IsTorExit (env_tor env) ip).

(** ** collector.go *)
Definition parseRemoteIP (addr : string) : IP :=
  if String.eqb addr EmptyString then []
  else
    let host := match SplitHostPort addr with Some (host, _) => host | None => addr end in
    ParseIP host.

Definition asn_signal (name : string) (score : Z) (e : Entry) : Signal :=
  MkSignal name score ("ASN " +:+ Itoa (asn_ASN (en_ASN e)) +:+ " (" +:+ asn_Org (en_ASN e) +:+ ")")
    (list_to_map [("asn", AUint (asn_ASN (en_ASN e))); ("org", AString (asn_Org (en_ASN e)));
                  ("category", AString (category_text (en_Category e)))]).

Definition tor_signal (ip : IP) : Signal :=
  MkSignal "tor_exit" 50 "IP is a known Tor exit node" (list_to_map [("ip", AString (IP_String ip))]).

Definition entry_signals (ip : IP) (e : Entry) : list Signal :=
  (if en_IsTor e then [tor_signal ip] else [])
  ++ match en_Category e with
     | CategoryDatacenter => [asn_signal "datacenter_ip" 30 e]
     | CategoryMobile => [asn_signal "mobile_ip" (-5) e]
     | CategoryResidential => [asn_signal "residential_ip" 0 e]
     | _ => []
     end.

Definition is_local (ip : IP) : bool := IsLoopback ip || IsPrivate ip || IsLinkLocalUnicast ip.

Section collector.
Context `{LRU Entry} (env : ip_env).

Record ip_Cache := MkIPCache { ipc_inner : lru_state }.

Definition NewCache (size : Z) : ip_Cache :=
  MkIPCache (lru_New (if size <=? 0 then defaultCacheSize else size)).

Definition GetOrCompute (ip : IP) (c : ip_Cache) : Entry * ip_Cache :=
  let key := IP_String ip in
  let '(hit, l) := lru_Get key (ipc_inner c) in
  match hit with
  | Some entry => (entry, MkIPCache l)
  | None => let entry := compute env ip in (entry, MkIPCache (lru_Add key entry l))
  end.

Definition ip_New (cacheSize : Z) : ip_Cache := NewCache cacheSize.

Definition ip_Collect (ctx : RequestContext) (c : ip_Cache) : collect_out * ip_Cache :=
  let ip := parseRemoteIP (rq_RemoteIP ctx) in
  if bool_decide (ip = []) then (Ok ([], None), c)
  else if is_local ip then (Ok ([], None), c)
  else
    let '(entry, c) := GetOrCompute ip c in (Ok (entry_signals ip entry, None), c).

Definition ip_Collector : SignalCollector := MkCollector "ip" ip_Cache ip_Collect.
End collector.

(** ** The cache never changes an answer *)
Section cache_theorems.
Context `{LRULaws Entry} (env : ip_env).

(** Every entry was computed for the address its key is the text of. *)
Definition ip_cache_ok (size : Z) (c : ip_Cache) : Prop :=
  lru_wf size (ipc_inner c)
  /\ map_Forall (fun k e => exists ip, valid_ip ip /\ k = IP_String ip /\ e = compute env ip) (lru_map (ipc_inner c)).

Lemma NewCache_ok size : exists size', ip_cache_ok size' (NewCache size).
Proof.
  exists (if size <=? 0 then defaultCacheSize else size). unfold ip_cache_ok, NewCache. cbn [ipc_inner].
  destruct (lru_New_ok (if size <=? 0 then defaultCacheSize else size)) as [Hw ->].
  - destruct (size <=? 0) eqn:E; unfold defaultCacheSize; lia.
  - split; [exact Hw|]. apply map_Forall_empty.
Qed.

(** [GetOrCompute] looks the entry up and adds it in two calls of the library. *)
Definition cache_Get_entry (key : string) (c : ip_Cache) : outcome (option Entry * ip_Cache) :=
  let '(hit, l) := lru_Get key (ipc_inner c) in Ok (hit, MkIPCache l).
Definition cache_Add_entry (key : string) (entry : Entry) (c : ip_Cache) : outcome (unit * ip_Cache) :=
  Ok (tt, MkIPCache (lru_Add key entry (ipc_inner c))).

Lemma cache_Get_ok size ip c : valid_ip ip -> ip_cache_ok size c ->
  exists hit c', cache_Get_entry (IP_String ip) c = Ok (hit, c') /\ ip_cache_ok size c' /\ forall e, hit = Some e -> e = compute env ip.
Proof.
  intros Hip [Hw Hall]. unfold cache_Get_entry. destruct (lru_Get_ok size (IP_String ip) (ipc_inner c) Hw) as (Hg & Hw' & Hm).
  destruct (lru_Get (IP_String ip) (ipc_inner c)) as [hit l]. cbn [fst snd] in *. eexists _, _. split; [done|].
  split; [split; cbn [ipc_inner]; [done|by rewrite Hm]|]. intros e ->. destruct (Hall _ e (eq_sym Hg)) as (ip' & Hip' & Hs & ->).
  by apply IP_String_inj in Hs as <-.
Qed.

Lemma cache_Add_ok size ip c : valid_ip ip -> ip_cache_ok size c ->
  exists c', cache_Add_entry (IP_String ip) (compute env ip) c = Ok (tt, c') /\ ip_cache_ok size c'.
Proof.
  intros Hip [Hw Hall]. eexists. split; [done|]. destruct (lru_Add_ok size (IP_String ip) (compute env ip) (ipc_inner c) Hw) as (Hw' & Hk & Hne).
  split; cbn [ipc_inner]; [done|]. intros k e Hl. destruct (decide (k = IP_String ip)) as [->|Hkk].
  - rewrite Hk in Hl. injection Hl as <-. by exists ip.
  - destruct (Hne k Hkk) as [Hx|Hx]; rewrite Hx in Hl; [done|by apply Hall].
Qed.

Lemma GetOrCompute_spec size ip c :
  valid_ip ip -> ip_cache_ok size c ->
  (GetOrCompute env ip c).1 = compute env ip /\ ip_cache_ok size (GetOrCompute env ip c).2.
Proof.
  intros Hip Hc. destruct (cache_Get_ok size ip c Hip Hc) as (hit & c' & E & Hc' & Hhit). unfold GetOrCompute. unfold cache_Get_entry in E.
  destruct (lru_Get (IP_String ip) (ipc_inner c)) as [o l]. injection E as -> <-. destruct hit as [e|]; [by rewrite (Hhit e)|].
  destruct (cache_Add_ok size ip _ Hip Hc') as (c2 & E2 & Hc2). injection E2 as <-. done.
Qed.

Lemma Categorize_cases asn :
  Categorize asn = CategoryDatacenter \/ Categorize asn = CategoryHosting \/ Categorize asn = CategoryUnknown.
Proof.
  unfold Categorize. destruct (asn =? 0); [tauto|].
  destruct (knownASNCategories !! asn) as [c|] eqn:E; [|tauto]. unfold knownASNCategories in E.
  apply elem_of_list_to_map_2 in E. rewrite !elem_of_cons, elem_of_nil in E.
  repeat (destruct E as [[= _ ->]|E]; [tauto|]). done.
Qed.
End cache_theorems.

Section collector_theorems.
Context `{LRULaws Entry} (env : ip_env).

(** The collector on a sequence of requests, one after the other. *)
Fixpoint ip_run (reqs : list RequestContext) (c : ip_Cache) : list collect_out :=
  match reqs with
  | [] => []
  | r :: reqs => let '(out, c) := ip_Collect env r c in out :: ip_run reqs c
  end.

(** The signals of an address, without the cache. *)
Definition ip_signals (addr : string) : list Signal :=
  let ip := parseRemoteIP addr in
  if bool_decide (ip = []) || is_local ip then []
  else
    let e := compute env ip in
    (if IsTorExit (env_tor env) ip then [tor_signal ip] else [])
    ++ (if decide (Categorize (asn_ASN (en_ASN e)) = CategoryDatacenter) then [asn_signal "datacenter_ip" 30 e] else []).

Lemma entry_signals_compute ip :
  entry_signals ip (compute env ip) =
  (if IsTorExit (env_tor env) ip then [tor_signal ip] else [])
  ++ (if decide (Categorize (asn_ASN (en_ASN (compute env ip))) = CategoryDatacenter)
      then [asn_signal "datacenter_ip" 30 (compute env ip)] else []).
Proof.
  unfold entry_signals. change (en_IsTor (compute env ip)) with (IsTorExit (env_tor env) ip). f_equal.
  change (en_Category (compute env ip)) with (Categorize (asn_ASN (en_ASN (compute env ip)))).
  destruct (Categorize_cases (asn_ASN (en_ASN (compute env ip)))) as [->|[->| ->]]; by destruct (decide _).
Qed.

Lemma parseRemoteIP_valid addr : parseRemoteIP addr = [] \/ valid_ip (parseRemoteIP addr).
Proof. unfold parseRemoteIP. destruct (String.eqb addr EmptyString); [by left|]. apply ParseIP_valid. Qed.

Lemma ip_Collect_spec size r c :
  ip_cache_ok env size c ->
  (ip_Collect env r c).1 = Ok (ip_signals (rq_RemoteIP r), None) /\ ip_cache_ok env size (ip_Collect env r c).2.
Proof.
  intros Hc. unfold ip_Collect, ip_signals.
  destruct (bool_decide_reflect (parseRemoteIP (rq_RemoteIP r) = [])) as [|Hne]; [done|]. cbn [orb].
  destruct (is_local _); [done|]. destruct (parseRemoteIP_valid (rq_RemoteIP r)) as [|Hip]; [done|].
  destruct (GetOrCompute_spec env size _ c Hip Hc) as [He Hc'].
  destruct (GetOrCompute env (parseRemoteIP (rq_RemoteIP r)) c) as [e c']. cbn [fst snd] in *. subst e.
  split; [by rewrite entry_signals_compute|done].
Qed.

(** One after the other: whatever its size and whatever requests came before, each request gets
    the signals computed afresh from its address, [tor_exit] for a listed exit and [datacenter_ip] for an address
    whose ASN is in a datacenter, and no others: [mobile_ip] and [residential_ip] are never reported. *)
Theorem ip_collector_spec size reqs :
  ip_run reqs (ip_New size) = map (fun r => Ok (ip_signals (rq_RemoteIP r), None)) reqs.
Proof.
  destruct (NewCache_ok env size) as [n Hn]. unfold ip_New. revert Hn. generalize (NewCache size) as c.
  induction reqs as [|r reqs IH]; intros c Hc; [done|]. cbn [ip_run map].
  destruct (ip_Collect_spec n r c Hc) as [Hr Hc']. destruct (ip_Collect env r c) as [out c']. cbn [fst snd] in *.
  by rewrite Hr, IH.
Qed.
(** *** Overlapping calls *)
Definition ip_Collect_method (ctx : RequestContext) : method ip_Cache collect_out :=
  let ip := parseRemoteIP (rq_RemoteIP ctx) in
  if bool_decide (ip = []) then Return (Ok ([], None))
  else if is_local ip then Return (Ok ([], None))
  else
    Locked (cache_Get_entry (IP_String ip)) (fun hit =>
      match hit with
      | Some entry => Return (Ok (entry_signals ip entry, None))
      | None =>
          let entry := compute env ip in
          Locked (cache_Add_entry (IP_String ip) entry) (fun _ => Return (Ok (entry_signals ip entry, None)))
      end).

Lemma ip_Collect_method_alone ctx c : uninterrupted (ip_Collect_method ctx) c = Ok (ip_Collect env ctx c).
Proof.
  unfold ip_Collect_method, ip_Collect. destruct (bool_decide _); [done|]. destruct (is_local _); [done|]. cbn.
  unfold cache_Get_entry, GetOrCompute. by destruct (lru_Get _ (ipc_inner c)) as [[e|] l].
Qed.

(** The abstract collector has no state. *)
Definition fresh_answer (ctx : RequestContext) (u : unit) (out : collect_out) (u' : unit) : Prop :=
  out = Ok (ip_signals (rq_RemoteIP ctx), None).

Lemma ip_sim size ctx c : sim fresh_answer (fun _ => ip_cache_ok env size) anything ctx (ip_Collect_method ctx) None c.
Proof.
  unfold ip_Collect_method. assert (Hfresh : fresh_answer ctx tt (Ok (ip_signals (rq_RemoteIP ctx), None)) tt) by done.
  revert Hfresh. unfold fresh_answer, ip_signals at 1. set (ip := parseRemoteIP (rq_RemoteIP ctx)). intros Hfresh.
  destruct (bool_decide_reflect (ip = [])) as [|Hne]; [by intros u s _ _|]. cbn [orb] in Hfresh.
  destruct (is_local ip) eqn:El; [by intros u s _ _|]. destruct (parseRemoteIP_valid (rq_RemoteIP ctx)) as [|Hip]; [done|]. fold ip in Hip.
  assert (Hans : forall e, e = compute env ip -> fresh_answer ctx tt (Ok (entry_signals ip e, None)) tt).
  { intros e ->. by rewrite entry_signals_compute. }
  intros u s Hs _. destruct (cache_Get_ok env size ip s Hip Hs) as (hit & s' & E & Hs' & Hhit). exists hit, s'. split; [done|]. split; [done|].
  destruct hit as [e|].
  - right. split; [done|]. eexists _, tt. split; [apply (Hans e), Hhit; done|]. by split.
  - left. split; [done|]. intros u1 s1 Hs1 _. destruct (cache_Add_ok env size ip s1 Hip Hs1) as (s2 & E2 & Hs2). exists tt, s2.
    split; [done|]. split; [done|]. right. split; [done|]. eexists _, tt. split; [by apply Hans|]. by split.
Qed.

(** C32: the address cache is invisible: whatever its size and however calls overlap, each call is answered with the
    signals computed afresh from its address, [tor_exit] for a listed exit and [datacenter_ip] for an address whose ASN
    is in a datacenter, and no others: [mobile_ip] and [residential_ip] are never reported.  No call is ever stuck. *)
Theorem ip_collector_linearizable size w :
  rtc (ostep ip_Collect_method) (begin (ip_New size)) w -> linearizable fresh_answer tt (w_hist w) /\ unblocked w.
Proof.
  intros Hw. destruct (NewCache_ok env size) as [n Hn].
  destruct (sim_linearizable ip_Collect_method fresh_answer (fun _ => ip_cache_ok env n) anything (ip_sim n) tt (ip_New size) w Hn Hw)
    as (Hl & Hu & _). by split.
Qed.
End collector_theorems.

(** ** The Tor list *)
Lemma load_lines_spec lines : forall set ip,
  valid_ip ip ->
  (IP_String ip ∈ fold_left load_line lines set <-> IP_String ip ∈ set \/ Exists (fun l => tor_line l = ip) lines).
Proof.
  induction lines as [|l lines IH]; intros set ip Hip; cbn [fold_left]; [rewrite Exists_nil; tauto|].
  rewrite IH, Exists_cons by done. unfold load_line.
  destruct (bool_decide_reflect (tor_line l = [])) as [Hnil|Hne].
  - assert (tor_line l <> ip) by (intros <-; unfold valid_ip in Hip; by rewrite Hnil in Hip). tauto.
  - rewrite elem_of_union, elem_of_singleton.
    assert (valid_ip (tor_line l)) as Hv.
    { unfold tor_line in *. destruct (_ || _); [done|]. by destruct (ParseIP_valid (TrimSpace l)). }
    assert (IP_String ip = IP_String (tor_line l) <-> tor_line l = ip) as ->; [|tauto].
    split; [|by intros ->]. intros Heq. symmetry. by apply IP_String_inj.
Qed.

(** An address is taken for a Tor exit exactly when a line of the embedded list, trimmed and not a comment,
    denotes that address, in whatever spelling the list has it. *)
Theorem tor_exit_iff data ip :
  valid_ip ip ->
  IsTorExit (tor_init data) ip = true <-> Exists (fun l => tor_line l = ip) (Scanner_lines data).
Proof.
  intros Hip. unfold IsTorExit. rewrite bool_decide_false by (intros ->; done). rewrite bool_decide_eq_true.
  unfold tor_init. destruct (0 <? slen data) eqn:E.
  - unfold loadTorExits. rewrite load_lines_spec by done. set_solver.
  - apply Z.ltb_ge in E. unfold slen in E. destruct data as [|c data]; [|cbn [String.length] in E; lia].
    cbn. rewrite Exists_nil. set_solver.
Qed.

(** ** The fallback table *)

(** The addresses of an IPv4 prefix, as a range of numbers. *)
Definition range_lo (e : fallbackEntry) : Z := addr_bits (pfx_addr (fe_prefix e)).
Definition range_size (e : fallbackEntry) : Z := 2 ^ (32 - pfx_bits (fe_prefix e)).
Definition in_range (e : fallbackEntry) (n : Z) : Prop := range_lo e <= n < range_lo e + range_size e.

Definition entry_v4 (e : fallbackEntry) : bool :=
  (BitLen (pfx_addr (fe_prefix e)) =? 32) && (0 <=? pfx_bits (fe_prefix e)) && (pfx_bits (fe_prefix e) <=? 32)
  && (range_lo e mod range_size e =? 0).
Definition disjoint_ranges (e f : fallbackEntry) : bool :=
  (range_lo e + range_size e <=? range_lo f) || (range_lo f + range_size f <=? range_lo e).
Fixpoint pairwise_disjoint (l : list fallbackEntry) : bool :=
  match l with [] => true | e :: l => forallb (disjoint_ranges e) l && pairwise_disjoint l end.

Lemma Contains_range e b :
  entry_v4 e = true ->
  prefix_Contains (fe_prefix e) (Addr4 b) = true <-> in_range e (addr_bits (Addr4 b)).
Proof.
  unfold entry_v4. rewrite !andb_true_iff, !Z.leb_le, !Z.eqb_eq. intros [[[Hb Hlo] Hhi] Hm].
  unfold prefix_Contains, in_range. rewrite Hb. cbn [hasZone negb andb BitLen]. rewrite Z.eqb_refl. cbn [andb].
  fold (range_lo e). set (n := addr_bits (Addr4 b)). unfold range_size in *.
  set (k := 32 - pfx_bits (fe_prefix e)) in *. assert (0 <= k) as Hk by lia.
  assert (0 < 2 ^ k) as Hp by (apply Z.pow_pos_nonneg; lia).
  rewrite Z.eqb_eq, Z.shiftr_lxor, Z.lxor_eq_0_iff, !Z.shiftr_div_pow2 by done.
  pose proof (Z.div_mod (range_lo e) (2 ^ k) ltac:(lia)) as Hd. rewrite Hm in Hd.
  pose proof (Z.div_mod n (2 ^ k) ltac:(lia)) as Hn. pose proof (Z.mod_pos_bound n (2 ^ k) Hp). split; [intros; nia|].
  intros Hr. symmetry. apply (Z.div_unique n (2 ^ k) _ (n - range_lo e)); lia.
Qed.

Lemma fallback_search_found table b e :
  forallb entry_v4 table = true -> pairwise_disjoint table = true -> e ∈ table -> in_range e (addr_bits (Addr4 b)) ->
  fallback_search (Addr4 b) table = MkASNResult (fe_asn e) (fe_org e).
Proof.
  induction table as [|f table IH]; [set_solver|]. cbn [forallb pairwise_disjoint fallback_search].
  rewrite !andb_true_iff. intros [Hf Ht] [Hd Hp] He Hr. apply elem_of_cons in He as [->|He].
  - by rewrite (proj2 (Contains_range f b Hf) Hr).
  - destruct (prefix_Contains (fe_prefix f) (Addr4 b)) eqn:E; [|by apply IH].
    apply Contains_range in E; [|done]. rewrite forallb_forall in Hd. specialize (Hd e ltac:(by apply list_elem_of_In)).
    unfold disjoint_ranges, in_range in *. lia.
Qed.

Lemma fallback_search_none table b :
  forallb entry_v4 table = true -> Forall (fun e => ~ in_range e (addr_bits (Addr4 b))) table ->
  fallback_search (Addr4 b) table = MkASNResult 0 EmptyString.
Proof.
  induction table as [|f table IH]; [done|]. cbn [forallb fallback_search].
  rewrite andb_true_iff, Forall_cons. intros [Hf Ht] [Hr Hall].
  destruct (prefix_Contains (fe_prefix f) (Addr4 b)) eqn:E; [by apply Contains_range in E|by apply IH].
Qed.

Lemma fallback_table_shape :
  length buildFallbackTable = 24%nat /\ forallb entry_v4 buildFallbackTable = true
  /\ pairwise_disjoint buildFallbackTable = true.
Proof. vm_compute. done. Qed.

Lemma lookupFallback_v4 b :
  length b = 4%nat ->
  lookupFallback b = Ok (fallback_search (Addr4 b) buildFallbackTable)
  /\ lookupFallback (v4InV6Prefix ++ b) = lookupFallback b.
Proof.
  intros Hb. unfold lookupFallback, AddrFromSlice.
  replace (len b =? 4) with true by (unfold len; lia).
  replace (len (v4InV6Prefix ++ b) =? 4) with false by (rewrite len_app; unfold len; rewrite Hb; reflexivity).
  replace (len (v4InV6Prefix ++ b) =? 16) with true by (rewrite len_app; unfold len; rewrite Hb; reflexivity).
  split; [done|]. cbn [Unmap]. unfold is_4in6. rewrite bool_decide_true by done. done.
Qed.

(** The built-in provider table is exact: each of its 24 prefixes parses, an IPv4 address inside a prefix's
    range of numbers gets that provider, whichever place it has in the table, an address outside all of them
    gets none, and the IPv4-mapped form of an address gets the same answer. *)
Theorem fallback_table_exact b :
  length b = 4%nat ->
  length buildFallbackTable = length fallback_raw
  /\ lookupFallback (v4InV6Prefix ++ b) = lookupFallback b
  /\ (forall e, e ∈ buildFallbackTable -> in_range e (addr_bits (Addr4 b)) ->
        lookupFallback b = Ok (MkASNResult (fe_asn e) (fe_org e)))
  /\ ((forall e, e ∈ buildFallbackTable -> ~ in_range e (addr_bits (Addr4 b))) ->
        lookupFallback b = Ok (MkASNResult 0 EmptyString)).
Proof.
  intros Hb. destruct fallback_table_shape as (Hl & Hv & Hd), (lookupFallback_v4 b Hb) as [-> ->].
  split; [exact Hl|]. split; [done|]. split.
  - intros e He Hr. f_equal. by apply fallback_search_found.
  - intros Hn. f_equal. apply fallback_search_none; [done|]. by apply Forall_forall.
Qed.

(** ** Examples *)
Definition embedded_tor_exits : string :=
  Join ["# Tor exit node sample list"; "185.220.101.19"; "185.220.101.20"; "  2001:DB8:0::1 "; "45.142.212.100"; ""]
    (String newline EmptyString).

Lemma tor_exit_iff_witness :
  IsTorExit (tor_init embedded_tor_exits) (ParseIP "2001:db8::1") = true.
Proof.
  apply (tor_exit_iff embedded_tor_exits (ParseIP "2001:db8::1")); [reflexivity|].
  do 3 apply Exists_cons_tl. apply Exists_cons_hd. vm_compute. reflexivity.
Defined.

Lemma fallback_table_exact_witness :
  lookupFallback (ParseIP "54.1.2.3") = Ok (MkASNResult 16509 "Amazon.com Inc.").
Proof.
  destruct (fallback_table_exact [byte_of_Z 54; byte_of_Z 1; byte_of_Z 2; byte_of_Z 3] eq_refl) as (_ & Hm & Hin & _).
  change (ParseIP "54.1.2.3") with (v4InV6Prefix ++ [byte_of_Z 54; byte_of_Z 1; byte_of_Z 2; byte_of_Z 3]).
  rewrite Hm. apply (Hin (MkFallbackEntry (MkPrefix (Addr4 [byte_of_Z 54; x00; x00; x00]) 8) 16509 "Amazon.com Inc.")).
  - apply list_elem_of_lookup_2 with 3%nat. vm_compute. reflexivity.
  - vm_compute. split; [discriminate|reflexivity].
Defined.

#[local] Existing Instance list_lru.
#[local] Existing Instance list_lru_laws.

Lemma ip_collector_spec_witness :
  let env := MkIPEnv None (tor_init embedded_tor_exits) in
  let req a := MkRequestContext None None a [] "" "" ∅ [] in
  map (fun o => match o with Ok (s, _) => map sig_Name s | _ => [] end)
    (ip_run env (map req ["54.1.2.3:443"; "185.220.101.19"; "10.0.0.1"; "1.1.1.1"; "54.1.2.3"; "[2001:db8::1]:80"]) (ip_New 2))
  = [["datacenter_ip"]; ["tor_exit"]; []; []; ["datacenter_ip"]; ["tor_exit"]].
Proof. cbn zeta. rewrite ip_collector_spec. vm_compute. reflexivity. Defined.

(** The embedded database is an empty file. *)
Definition collect_env : ip_env := MkIPEnv (asn_init (fun _ => Err "invalid database") []) (tor_init embedded_tor_exits).
Definition from_addr (a : string) : RequestContext := MkRequestContext None None a [] "" "" ∅ [].
(** Two lookups of one address miss, and both add it. *)
Definition collected : world (ip_Cache (H := list_lru (V := Entry))) RequestContext collect_out :=
  reached (ip_Collect_method (H := list_lru (V := Entry)) collect_env)
    [Invoke (from_addr "54.1.2.3:443"); Invoke (from_addr "54.1.2.3:444"); Invoke (from_addr "10.0.0.1"); Step 0; Step 1; Step 0; Step 1; Step 2;
     Step 1; Step 0; Invoke (from_addr "54.1.2.3:445"); Step 3; Step 3]
    (begin (ip_New 2)).

Lemma ip_collector_linearizable_witness :
  linearizable (fresh_answer collect_env) tt (w_hist collected)
  /\ map (fun '(i, o) => (i, match o with Ok (s, _) => map sig_Name s | _ => [] end)) (answers (w_hist collected))
     = [(2%nat, []); (1%nat, ["datacenter_ip"]); (0%nat, ["datacenter_ip"]); (3%nat, ["datacenter_ip"])].
Proof.
  split; [exact (proj1 (ip_collector_linearizable collect_env 2 collected (reached_steps _ _ _)))|vm_compute; reflexivity].
Defined.
