(* ===== verification/Pipeline.v ===== *)
(** * Package [internal/pipeline]: cache lookup, parallel collection, combination, cache store *)

From stdpp Require Import relations.
From S2P Require Import Prelude GoStrings GoStd Crypto Types Decision Policy Cache JsonText Json.
#[local] Open Scope Z_scope.

Definition defaultCacheTTL : Z := 60 * 1000000000.

(** A collector together with its current state. *)
Record collector := MkLive { live_col : SignalCollector; live_state : col_State live_col }.

(** One call of [Collect]: the signals ([sigs, _ := c.Collect(req)]; [None] is a panic) and
    the collector afterwards. *)
Definition collect1 (req : RequestContext) (c : collector) : option (list Signal) * collector :=
  let '(out, st) := col_Collect (live_col c) req (live_state c) in
  (match out with
   | Ok (sigs, _) => Some sigs
   | Err _ => Some []
   | Panic => None
   end, MkLive (live_col c) st).

(** ** collectParallel

    The result of running the collectors one after the other; the theorems below show that
    every interleaving of the goroutines gives it. *)
Fixpoint collect_slots (req : RequestContext) (cs : list collector) : option (list (list Signal)) * list collector :=
  match cs with
  | [] => (Some [], [])
  | c :: cs =>
      let '(o, c') := collect1 req c in
      let '(os, cs') := collect_slots req cs in
      (match o, os with Some s, Some ss => Some (s :: ss) | _, _ => None end, c' :: cs')
  end.

Definition collectParallel (req : RequestContext) (cs : list collector) : outcome (list Signal) * list collector :=
  let '(os, cs') := collect_slots req cs in
  (match os with Some ss => Ok (concat ss) | None => Panic end, cs').

(** ** computeCacheKey *)
Definition request_ua (req : RequestContext) : string :=
  match rq_Request req with Some r => UserAgent r | None => EmptyString end.
Definition request_path (req : RequestContext) : string :=
  match rq_Request req with
  | Some r => match r_URL r with Some u => url_Path u | None => EmptyString end
  | None => EmptyString
  end.

Definition nul : string := String "000" EmptyString.
Definition bool_text (b : bool) : string := if b then "true" else "false".

Definition raw_key (req : RequestContext) (hasValidToken : bool) : string :=
  rq_RemoteIP req +:+ nul +:+ rq_JA3 req +:+ nul
  +:+ hex (take 8 (sha256 (string_bytes (request_ua req)))) +:+ nul
  +:+ request_path req +:+ nul +:+ bool_text hasValidToken.

Definition computeCacheKey (req : RequestContext) (hasValidToken : bool) : string :=
  hex (sha256 (string_bytes (raw_key req hasValidToken))).

(** ** buildRequestInfo *)
Definition buildRequestInfo (req : RequestContext) : Decision.RequestInfo :=
  match rq_Request req with
  | None => MkRequestInfo EmptyString EmptyString EmptyString EmptyString (rq_RemoteIP req) (rq_JA3 req) (rq_JA4 req) EmptyString
  | Some r =>
      MkRequestInfo (r_Method r)
        (match r_URL r with Some u => url_Path u | None => EmptyString end)
        (r_Host r) (UserAgent r) (rq_RemoteIP req) (rq_JA3 req) (rq_JA4 req) EmptyString
  end.

Section pipeline.
Context `{CEL} `{CacheIf}.

Record PipelineConfig := MkPipelineConfig {
  pcf_Collectors : list collector;
  pcf_Evaluator : option Evaluator;
  pcf_Cache : option cache_state;
  pcf_CacheTTL : Z;
  pcf_Policy : option PolicyConfig
}.

Record Pipeline := MkPipeline {
  p_collectors : list collector;
  p_evaluator : option Evaluator;
  p_cache : option cache_state;
  p_cacheTTL : Z;
  p_policy : option PolicyConfig
}.

Definition New (cfg : PipelineConfig) : Pipeline :=
  let ttl := if pcf_CacheTTL cfg <=? 0 then defaultCacheTTL else pcf_CacheTTL cfg in
  MkPipeline (pcf_Collectors cfg) (pcf_Evaluator cfg) (pcf_Cache cfg) ttl (pcf_Policy cfg).

(** ** buildEvalFn *)
Definition policy_context (ec : EvalCtx) : EvaluationContext :=
  let i := ec_RequestInfo ec in
  MkEvaluationContext (MkPolicyRequestInfo (ri_Method i) (ri_Path i) (ri_Host i) (ri_UserAgent i))
    (MkIPInfo (ri_RemoteIP i) (ri_IPCategory i) EmptyString)
    (ri_JA3 i) (ri_JA4 i) (ec_Score ec) (ec_HasValidToken ec) (sig_Score <$> ec_Signals ec).

Definition buildEvalFn (p : Pipeline) : option (EvalCtx -> EvalResult) :=
  match p_evaluator p with
  | None => None
  | Some eval => Some (fun ec =>
      match Evaluate eval (policy_context ec) with
      | Ok (action, rule) =>
          MkEvalResult action (match rule with Some r => pr_Name r | None => EmptyString end)
      | _ => MkEvalResult ActionNone EmptyString
      end)
  end.

(** ** Decide

    [t_get], [t_now] and [t_set] are the times at which the cache looks up, the decision is
    stamped and the cache stores. *)
Definition cache_lookup (t_get : Z) (key : string) (p : Pipeline) : option Decision * option cache_state :=
  match p_cache p with
  | None => (None, None)
  | Some c =>
      let '((data, hit, _), c') := cache_Get t_get key c in
      (if hit && (0 <? len data) then Unmarshal data else None, Some c')
  end.

Definition cache_store (t_set : Z) (key : string) (d : Decision) (ttl : Z) (cache : option cache_state)
    : option cache_state :=
  match cache with
  | None => None
  | Some c =>
      match Marshal d with
      | Some data => Some (cache_Set t_set key data ttl c).2
      | None => Some c
      end
  end.

Definition Decide (t_get t_now t_set : Z) (req : RequestContext) (hasValidToken : bool) (p : Pipeline)
    : outcome Decision * Pipeline :=
  let key := computeCacheKey req hasValidToken in
  let '(hit, cache) := cache_lookup t_get key p in
  match hit with
  | Some d => (Ok d, MkPipeline (p_collectors p) (p_evaluator p) cache (p_cacheTTL p) (p_policy p))
  | None =>
      let '(signals, cs) := collectParallel req (p_collectors p) in
      match signals with
      | Ok signals =>
          let d := Combine t_now signals (p_policy p) (buildRequestInfo req) hasValidToken (buildEvalFn p) in
          (Ok d, MkPipeline cs (p_evaluator p) (cache_store t_set key d (p_cacheTTL p) cache) (p_cacheTTL p) (p_policy p))
      | Err e => (Err e, MkPipeline cs (p_evaluator p) cache (p_cacheTTL p) (p_policy p))
      | Panic => (Panic, MkPipeline cs (p_evaluator p) cache (p_cacheTTL p) (p_policy p))
      end
  end.
End pipeline.

(** ** The goroutines of collectParallel

    Goroutine [i] calls its collector, then writes slot [i], then is done; the scheduler picks
    any goroutine that can move. *)
Inductive status := Running | Collected (sigs : list Signal) | Done.

Record gstate := MkG { g_procs : list (collector * status); g_slots : list (list Signal) }.

Definition g_init (cs : list collector) : gstate :=
  MkG (map (fun c => (c, Running)) cs) (replicate (length cs) []).

Inductive gstep (req : RequestContext) : gstate -> gstate -> Prop :=
| g_collect i c c' sigs procs slots :
    procs !! i = Some (c, Running) -> collect1 req c = (Some sigs, c') ->
    gstep req (MkG procs slots) (MkG (<[i := (c', Collected sigs)]> procs) slots)
| g_write i c sigs procs slots :
    procs !! i = Some (c, Collected sigs) ->
    gstep req (MkG procs slots) (MkG (<[i := (c, Done)]> procs) (<[i := sigs]> slots)).

(** [wg.Wait()] returns when every goroutine is done. *)
Definition g_finished (g : gstate) : Prop := Forall (fun p => p.2 = Done) (g_procs g).

(** Steps left to run. *)
Definition weight (p : collector * status) : nat :=
  match p.2 with Running => 2 | Collected _ => 1 | Done => 0 end.
Fixpoint total_weight (l : list (collector * status)) : nat :=
  match l with [] => 0 | p :: l => weight p + total_weight l end.
Definition work (g : gstate) : nat := total_weight (g_procs g).

Lemma total_weight_insert (l : list (collector * status)) i p q :
  l !! i = Some p -> (total_weight (<[i := q]> l) + weight p = total_weight l + weight q)%nat.
Proof.
  revert i. induction l as [|x l IH]; intros [|i]; cbn; try done.
  - intros [= ->]. lia.
  - intros Hi. specialize (IH i Hi).
    change (weight x + total_weight (<[i := q]> l) + weight p = weight x + total_weight l + weight q)%nat. lia.
Qed.

Lemma gstep_work req g g' : gstep req g g' -> (work g' < work g)%nat.
Proof.
  destruct 1 as [i c c' sigs procs slots Hi Hc|i c sigs procs slots Hi]; unfold work; cbn.
  - pose proof (total_weight_insert procs i _ (c', Collected sigs) Hi). unfold weight in *. cbn in *. lia.
  - pose proof (total_weight_insert procs i _ (c, Done) Hi). unfold weight in *. cbn in *. lia.
Qed.

(** What a goroutine and its slot look like, given the collector it started with. *)
Definition proc_ok (req : RequestContext) (c : collector) (p : collector * status) (slot : list Signal) : Prop :=
  match p.2 with
  | Running => p.1 = c
  | Collected sigs => collect1 req c = (Some sigs, p.1)
  | Done => collect1 req c = (Some slot, p.1)
  end.

Definition g_inv (req : RequestContext) (cs : list collector) (g : gstate) : Prop :=
  length (g_procs g) = length cs /\ length (g_slots g) = length cs
  /\ forall i c p s, cs !! i = Some c -> g_procs g !! i = Some p -> g_slots g !! i = Some s -> proc_ok req c p s.

Lemma g_inv_init req cs : g_inv req cs (g_init cs).
Proof.
  unfold g_inv, g_init. cbn. rewrite length_map, length_replicate. split_and!; [done..|].
  intros i c p s Hc Hp _. rewrite (list_lookup_fmap (fun c => (c, Running))), Hc in Hp. by injection Hp as <-.
Qed.

Lemma g_inv_step req cs g g' : g_inv req cs g -> gstep req g g' -> g_inv req cs g'.
Proof.
  intros (Hlp & Hls & Hinv). destruct 1 as [i c c' sigs procs slots Hi Hc|i c sigs procs slots Hi]; cbn in *.
  - unfold g_inv; cbn. rewrite length_insert. split_and!; [done..|].
    intros j cj p s Hcj Hp Hs. destruct (decide (i = j)) as [<-|Hne].
    + rewrite list_lookup_insert_eq in Hp by (by eapply lookup_lt_Some). injection Hp as <-.
      specialize (Hinv i cj _ s Hcj Hi Hs). cbn in Hinv. subst. done.
    + rewrite list_lookup_insert_ne in Hp by done. by eapply Hinv.
  - unfold g_inv; cbn. rewrite !length_insert. split_and!; [done..|].
    intros j cj p s Hcj Hp Hs. destruct (decide (i = j)) as [<-|Hne].
    + assert (i < length cs)%nat by (by eapply lookup_lt_Some).
      rewrite list_lookup_insert_eq in Hp by lia. rewrite list_lookup_insert_eq in Hs by lia.
      injection Hp as <-. injection Hs as <-.
      destruct (lookup_lt_is_Some_2 slots i) as [s0 Hs0]; [lia|].
      exact (Hinv i cj _ s0 Hcj Hi Hs0).
    + rewrite list_lookup_insert_ne in Hp by done. rewrite list_lookup_insert_ne in Hs by done. by eapply Hinv.
Qed.

Lemma g_inv_reachable req cs g : rtc (gstep req) (g_init cs) g -> g_inv req cs g.
Proof.
  intros Hr. assert (H : g_inv req cs (g_init cs)) by apply g_inv_init. revert H.
  induction Hr as [|x y z Hs _ IH]; [done|]. intros Hx. by apply IH, (g_inv_step _ _ x).
Qed.

Lemma collect_slots_cons req cs procs slots :
  length procs = length cs -> length slots = length cs ->
  (forall i c p s, cs !! i = Some c -> procs !! i = Some p -> slots !! i = Some s ->
     collect1 req c = (Some s, p.1)) ->
  collect_slots req cs = (Some slots, map fst (procs : list (collector * status))).
Proof.
  revert procs slots. induction cs as [|c cs IH]; intros [|p procs] [|s slots] Hp Hs H; try done.
  cbn. rewrite (H 0%nat c p s) by done. rewrite (IH procs slots); [done| | |].
  - by injection Hp.
  - by injection Hs.
  - intros i. exact (H (S i)).
Qed.

(** The parallel collection is deterministic.  Under every scheduling of the collector
    goroutines the run ends after a bounded number of steps; where no collector panics, a
    state in which nothing can move is one where all goroutines are done, and then the slots
    and the collectors' states are those of running the collectors one after the other. *)
Theorem collect_interleaving req cs :
  (forall g g', gstep req g g' -> (work g' < work g)%nat)
  /\ (forall g, rtc (gstep req) (g_init cs) g -> g_finished g ->
        collect_slots req cs = (Some (g_slots g), map fst (g_procs g)))
  /\ (Forall (fun c => is_Some (collect1 req c).1) cs ->
      forall g, rtc (gstep req) (g_init cs) g -> ~ (exists g', gstep req g g') -> g_finished g).
Proof.
  split_and!; [apply gstep_work| |].
  - intros g Hr Hf. destruct (g_inv_reachable _ _ _ Hr) as (Hlp & Hls & Hinv).
    apply collect_slots_cons; [done..|]. intros i c p s Hc Hp Hs.
    specialize (Hinv i c p s Hc Hp Hs). unfold g_finished in Hf. rewrite Forall_lookup in Hf.
    specialize (Hf i p Hp). unfold proc_ok in Hinv. by rewrite Hf in Hinv.
  - intros Hcs g Hr Hstuck. destruct (g_inv_reachable _ _ _ Hr) as (Hlp & Hls & Hinv).
    unfold g_finished. rewrite Forall_lookup. intros i [c st] Hp.
    destruct g as [procs slots]; cbn in *.
    destruct (lookup_lt_is_Some_2 cs i) as [c0 Hc0]; [rewrite <- Hlp; by eapply lookup_lt_Some|].
    destruct (lookup_lt_is_Some_2 slots i) as [s Hs]; [rewrite Hls, <- Hlp; by eapply lookup_lt_Some|].
    specialize (Hinv i c0 _ s Hc0 Hp Hs). destruct st as [|sigs|]; [| |done]; destruct Hstuck.
    + cbn in Hinv. subst c0. rewrite Forall_lookup in Hcs. destruct (Hcs i c Hc0) as [sigs Hsig].
      destruct (collect1 req c) as [o c'] eqn:E. cbn in Hsig. subst o.
      eexists. eapply g_collect; [exact Hp|exact E].
    + eexists. eapply g_write, Hp.
Qed.

(** ** The cache key *)

Lemma true_false_suffix p q : p +:+ nul +:+ "true" = q +:+ nul +:+ "false" -> False.
Proof.
  replace (p +:+ nul +:+ "true") with ((p +:+ nul) +:+ "true") by (by rewrite append_assoc).
  replace (q +:+ nul +:+ "false") with ((q +:+ nul +:+ "f") +:+ "alse") by (by rewrite !append_assoc).
  intros H. by apply append_inj_r in H as [_ ?].
Qed.

Lemma bool_text_suffix p q b c : p +:+ nul +:+ bool_text b = q +:+ nul +:+ bool_text c -> p = q /\ b = c.
Proof.
  destruct b, c; intros H; try (by apply (append_inj_r p _ q) in H as [-> _]).
  - by apply true_false_suffix in H.
  - symmetry in H. by apply true_false_suffix in H.
Qed.

Definition key_parts (req : RequestContext) (tok : bool) :=
  (rq_RemoteIP req, rq_JA3 req, take 8 (sha256 (string_bytes (request_ua req))), request_path req, tok).

Lemma raw_key_inj r1 r2 t1 t2 :
  no_byte "000" (rq_RemoteIP r1) -> no_byte "000" (rq_RemoteIP r2) ->
  no_byte "000" (rq_JA3 r1) -> no_byte "000" (rq_JA3 r2) ->
  raw_key r1 t1 = raw_key r2 t2 -> key_parts r1 t1 = key_parts r2 t2.
Proof.
  unfold raw_key, key_parts. intros Hi1 Hi2 Hj1 Hj2 H.
  apply append_sep_inj in H as [-> H]; [|done..]. apply append_sep_inj in H as [-> H]; [|done..].
  apply append_inj in H as [Hua%(inj hex) H].
  2:{ rewrite !length_hex, !length_take, !length_sha256. done. }
  apply (append_inj nul _ nul) in H as [_ H]; [|done]. apply bool_text_suffix in H as [-> ->]. by rewrite Hua.
Qed.

(** The texts hashed into the two keys differ and yet have the same SHA-256. *)
Definition keys_collide (r1 : RequestContext) (t1 : bool) (r2 : RequestContext) (t2 : bool) : Prop :=
  raw_key r1 t1 <> raw_key r2 t2 /\ sha256 (string_bytes (raw_key r1 t1)) = sha256 (string_bytes (raw_key r2 t2)).

Lemma key_text_or_collision r1 t1 r2 t2 :
  computeCacheKey r1 t1 = computeCacheKey r2 t2 -> raw_key r1 t1 = raw_key r2 t2 \/ keys_collide r1 t1 r2 t2.
Proof. intros H%(inj hex). destruct (decide (raw_key r1 t1 = raw_key r2 t2)); [by left|by right]. Qed.

Lemma key_token req req' tok tok' :
  computeCacheKey req tok = computeCacheKey req' tok' -> tok = tok' \/ keys_collide req tok req' tok'.
Proof.
  intros [E|Hc]%key_text_or_collision; [left|by right]. unfold raw_key in E. rewrite <- !append_assoc in E.
  rewrite !(append_assoc _ nul (bool_text _)) in E. by apply bool_text_suffix in E as [_ ?].
Qed.

(** C12: two requests share a cache entry only if they agree on the client address, the JA3, the
    first eight bytes of the user agent's SHA-256, the path and the token state, unless the two
    different texts built from these very requests have the same SHA-256; no field can spill into
    the next, whatever bytes the path contains. *)
Theorem cache_key_separates r1 r2 t1 t2 :
  no_byte "000" (rq_RemoteIP r1) -> no_byte "000" (rq_RemoteIP r2) ->
  no_byte "000" (rq_JA3 r1) -> no_byte "000" (rq_JA3 r2) ->
  computeCacheKey r1 t1 = computeCacheKey r2 t2 ->
  key_parts r1 t1 = key_parts r2 t2 \/ keys_collide r1 t1 r2 t2.
Proof. intros Hi1 Hi2 Hj1 Hj2 [E|Hc]%key_text_or_collision; [left; by apply raw_key_inj|by right]. Qed.

Definition get_request (path ua : string) : Request :=
  MkRequest "GET" (Some (MkURL "https" "example.org" path "")) 1 1 {["User-Agent" := [ua]]} "example.org"
    "203.0.113.7:4000" [].
Definition get_context (path ua : string) : RequestContext :=
  MkRequestContext None (Some (get_request path ua)) "203.0.113.7" [] "" "" {["User-Agent" := [ua]]} [].

(** The query is not part of the key: two requests that differ only there share their entry. *)
Definition query_context (query : string) : RequestContext :=
  MkRequestContext None (Some (MkRequest "GET" (Some (MkURL "https" "example.org" "/a" query)) 1 1 {["User-Agent" := ["curl"]]}
    "example.org" "203.0.113.7:4000" [])) "203.0.113.7" [] "" "" {["User-Agent" := ["curl"]]} [].

Lemma cache_key_separates_witness :
  query_context "q=1" <> query_context "q=2"
  /\ (key_parts (query_context "q=1") true = key_parts (query_context "q=2") true
      \/ keys_collide (query_context "q=1") true (query_context "q=2") true).
Proof. split; [done|]. apply (cache_key_separates (query_context "q=1") (query_context "q=2")); done. Defined.

(** ** Decisions and the cache *)
Section cached.
Context `{CEL} `{CacheSpec}.

Definition decision_in_range (d : Decision) : Prop :=
  in_int (d_Score d) /\ in_int (d_Timestamp d) /\ Forall (fun s => in_int (sig_Score s)) (d_Signals d).
(** The details hold integers of [int] range and are not nested more deeply than a decoder accepts. *)
Definition details_plain (d : Decision) : Prop := Forall (fun s => plain_detail (sig_Detail s)) (d_Signals d).

(** What two decisions have in common across the cache: everything but the signals' details, whose numbers come back as
    [float64]. *)
Definition same_decision (d d' : Decision) : Prop :=
  d_Verdict d' = d_Verdict d /\ d_Score d' = d_Score d /\ d_Timestamp d' = d_Timestamp d
  /\ d_PolicyName d' = utf8_coerce (d_PolicyName d) /\ d_Reasons d' = map utf8_coerce (d_Reasons d)
  /\ map sig_Name (d_Signals d') = map utf8_coerce (map sig_Name (d_Signals d))
  /\ map sig_Score (d_Signals d') = map sig_Score (d_Signals d)
  /\ map sig_Reason (d_Signals d') = map utf8_coerce (map sig_Reason (d_Signals d))
  /\ d_RequestID d' = utf8_coerce (d_RequestID d).

Lemma coerce_signal_fields s s' :
  coerce_signal s = Some s' ->
  sig_Name s' = utf8_coerce (sig_Name s) /\ sig_Score s' = sig_Score s /\ sig_Reason s' = utf8_coerce (sig_Reason s).
Proof. unfold coerce_signal. destruct (coerce_detail (sig_Detail s)); [|done]. by intros [= <-]. Qed.

Lemma coerce_same_decision d d' : coerce_decision d = Some d' -> same_decision d d'.
Proof.
  unfold coerce_decision, same_decision. destruct (mapM coerce_signal (d_Signals d)) as [sigs|] eqn:E; [|done].
  cbn [mbind option_bind]. intros [= <-]. cbn. apply mapM_Some_1 in E. split_and!; [done..| | | |done];
    (induction E as [|s s' l l' Hs _ IH]; [done|]; cbn; rewrite IH;
     destruct (coerce_signal_fields s s' Hs) as (Hn & Hsc & Hre); by rewrite ?Hn, ?Hsc, ?Hre).
Qed.

End cached.

(** ** A decision and the requests after it, over the memory cache *)
Section memory_cached.
Context `{CEL} `{LRULaws entry}.
#[local] Existing Instance memory_cache | 0.
#[local] Existing Instance memory_spec | 0.

(** A call of [Decide], with the times at which it looks up, decides and stores. *)
Record call := MkCall { cl_get : Z; cl_now : Z; cl_set : Z; cl_req : RequestContext; cl_tok : bool }.
Definition call_key (q : call) : string := computeCacheKey (cl_req q) (cl_tok q).
Definition Decide_call (q : call) (p : Pipeline) : outcome Decision * Pipeline :=
  Decide (cl_get q) (cl_now q) (cl_set q) (cl_req q) (cl_tok q) p.
Fixpoint Decide_calls (qs : list call) (p : Pipeline) : Pipeline :=
  match qs with [] => p | q :: qs => Decide_calls qs (Decide_call q p).2 end.

(** The keys the cache holds. *)
Definition held (p : Pipeline) : gset string := match p_cache p with Some m => dom (memory_view m) | None => ∅ end.

(** The cache holds [data] under [key] until [exp], and only keys of [ks]. *)
Definition holds (size : Z) (ks : gset string) (key : string) (data : list byte) (exp : Z) (p : Pipeline) : Prop :=
  exists m, p_cache p = Some m /\ lru_wf size (mc_lru m) /\ dom (memory_view m) ⊆ ks /\ memory_view m !! key = Some (data, Some exp).

Lemma holds_hit size ks key data exp d q p :
  0 < size -> holds size ks key data exp p -> 0 < len data -> Unmarshal data = Some d -> call_key q = key -> cl_get q <= exp ->
  exists p', Decide_call q p = (Ok d, p') /\ p_collectors p' = p_collectors p /\ holds size ks key data exp p'.
Proof.
  intros Hpos (m & Hc & Hwf & Hks & Hm) Hlen Hun Hkey Ht. unfold Decide_call, Decide, cache_lookup. fold (call_key q). rewrite Hkey, Hc.
  pose proof (cache_Get_view (cl_get q) key m (ex_intro _ size (conj Hpos Hwf))) as Hg.
  pose proof (memory_Get_keeps size (cl_get q) key m Hwf) as [Hwf' _].
  cbn [cache_view memory_spec] in Hg. rewrite Hm in Hg. unfold live in Hg. replace (cl_get q <=? exp) with true in Hg by lia.
  change (memory_Get (cl_get q) key m) with (cache_Get (cl_get q) key m) in Hwf'.
  destruct (cache_Get (cl_get q) key m) as [r m']. destruct Hg as (_ & _ & -> & Hv). cbn in Hv, Hwf'. cbn.
  replace (0 <? len data) with true by lia. rewrite Hun. eexists. split; [reflexivity|]. split; [done|].
  exists m'. cbn. by rewrite Hv.
Qed.

Lemma room_for {ks held : gset string} {k : string} {size : Z} :
  held ⊆ ks -> k ∈ ks -> Z.of_nat (base.size ks) <= size -> k ∈ held \/ Z.of_nat (base.size held) < size.
Proof.
  intros Hh Hk Hs. destruct (decide (k ∈ held)); [by left|right].
  pose proof (subseteq_size ({[k]} ∪ held) ks ltac:(set_solver)) as Hle. rewrite size_union, size_singleton in Hle by set_solver. lia.
Qed.

Lemma holds_other size ks key data exp q p :
  holds size ks key data exp p -> call_key q ∈ ks -> Z.of_nat (base.size ks) <= size -> call_key q <> key ->
  holds size ks key data exp (Decide_call q p).2.
Proof.
  intros (m & Hc & Hwf & Hks & Hm) Hq Hsize Hne. unfold Decide_call, Decide, cache_lookup. fold (call_key q). rewrite Hc.
  destruct (memory_Get_keeps size (cl_get q) (call_key q) m Hwf) as (Hwf' & Hdom & Hsame).
  cbn [cache_Get memory_cache]. destruct (memory_Get (cl_get q) (call_key q) m) as [[[gd hit] ge] m1]. cbn [snd] in *.
  assert (Hm1 : memory_view m1 !! key = Some (data, Some exp)) by (rewrite Hsame; [done|congruence]).
  assert (Hks1 : dom (memory_view m1) ⊆ ks) by set_solver.
  destruct (if hit && (0 <? len gd) then Unmarshal gd else None) as [d|]; [by exists m1|].
  destruct (collectParallel (cl_req q) (p_collectors p)) as [[sigs|e|] cs]; [|by exists m1..]. cbn [snd cache_store].
  destruct (Marshal _) as [data'|]; [|by exists m1].
  destruct (memory_Set_room size (cl_set q) (call_key q) data' (p_cacheTTL p) m1 Hwf') as [Hwf2 Hv]; [by apply (room_for Hks1)|].
  exists (memory_Set (cl_set q) (call_key q) data' (p_cacheTTL p) m1).2. cbn [p_cache]. split_and!; [done..| |].
  - rewrite Hv. set_solver.
  - rewrite Hv. by rewrite lookup_insert_ne.
Qed.

Lemma holds_calls size ks key data exp d qs : 0 < size -> 0 < len data -> Unmarshal data = Some d -> Z.of_nat (base.size ks) <= size -> forall p,
  holds size ks key data exp p -> Forall (fun q => call_key q ∈ ks /\ cl_get q <= exp) qs -> holds size ks key data exp (Decide_calls qs p).
Proof.
  intros Hpos Hlen Hun Hsize. induction qs as [|q qs IH]; intros p Hp Hqs; [done|]. apply Forall_cons in Hqs as [[Hk Ht] Hqs].
  cbn [Decide_calls]. apply IH; [|done]. destruct (decide (call_key q = key)) as [E|E]; [|by apply holds_other].
  by destruct (holds_hit size ks key data exp d q p Hpos Hp Hlen Hun E Ht) as (p' & -> & _ & Hp').
Qed.

(** The entry a miss leaves behind. *)
Lemma miss_holds size p c q d p1 data :
  0 < size -> p_cache p = Some c -> lru_wf size (mc_lru c) -> 0 < p_cacheTTL p ->
  (cache_lookup (cl_get q) (call_key q) p).1 = None -> Decide_call q p = (Ok d, p1) -> Marshal d = Some data ->
  holds size (held p1) (call_key q) data (cl_set q + p_cacheTTL p) p1.
Proof.
  intros Hpos Hc Hwf Httl Hmiss Hd Hdata. unfold Decide_call, Decide in Hd. unfold cache_lookup in Hmiss, Hd. fold (call_key q) in Hd.
  rewrite Hc in Hmiss, Hd. destruct (memory_Get_keeps size (cl_get q) (call_key q) c Hwf) as (Hwf1 & _).
  change (memory_Get (cl_get q) (call_key q) c) with (cache_Get (cl_get q) (call_key q) c) in Hwf1.
  destruct (cache_Get (cl_get q) (call_key q) c) as [[[gd hit] ge] c1]. cbn in Hmiss, Hwf1. rewrite Hmiss in Hd.
  destruct (collectParallel (cl_req q) (p_collectors p)) as [[sigs| |] cs]; try done. injection Hd as Hd <-.
  rewrite Hd. unfold cache_store. rewrite Hdata.
  pose proof (cache_Set_view (cl_set q) (call_key q) data (p_cacheTTL p) c1 (ex_intro _ size (conj Hpos Hwf1))) as Hs.
  cbn in Hs. destruct Hs as (_ & _ & Hv & _). eexists. split; [reflexivity|]. split; [by apply lru_Add_ok|]. split; [done|].
  cbn [snd]. unfold expiry in Hv. replace (0 <? p_cacheTTL p) with true in * by lia. exact Hv.
Qed.

(** C13: a decision computed on a cache miss is served to every later request with the same cache key until it expires,
    whatever other requests are decided in between: after any sequence of calls looked up before the expiry, in which
    the keys seen fit in the memory cache (so nothing is evicted), a call with the key runs no collector, evaluates no
    rule and answers one decision, the first one as it comes back from JSON: the same verdict, score, timestamp and
    scores of the signals, the same texts made valid UTF-8, and details whose numbers are [float64]. *)
Theorem Decide_cached size p c q d p1 :
  0 < size -> p_cache p = Some c -> lru_wf size (mc_lru c) -> 0 < p_cacheTTL p ->
  (cache_lookup (cl_get q) (call_key q) p).1 = None -> Decide_call q p = (Ok d, p1) -> is_Some (Marshal d) ->
  decision_in_range d -> details_plain d ->
  exists d', coerce_decision d = Some d' /\ same_decision d d' /\
    forall qs q', call_key q' = call_key q -> Forall (fun x => cl_get x <= cl_set q + p_cacheTTL p) (qs ++ [q']) ->
      Z.of_nat (base.size (held p1 ∪ list_to_set (map call_key qs))) <= size ->
      exists p3, Decide_call q' (Decide_calls qs p1) = (Ok d', p3) /\ p_collectors p3 = p_collectors (Decide_calls qs p1).
Proof.
  intros Hpos Hc Hwf Httl Hmiss Hd [data Hdata] (Hr1 & Hr2 & Hr3) Hdet.
  destruct (Unmarshal_Marshal d data Hr1 Hr2 Hr3 Hdet Hdata) as (Hlen & d' & Hun & Hco).
  exists d'. split; [done|]. split; [by apply coerce_same_decision|]. intros qs q' Hkey [Hts Ht]%Forall_app Hsize.
  rewrite Forall_singleton in Ht. pose proof (miss_holds size p c q d p1 data Hpos Hc Hwf Httl Hmiss Hd Hdata) as (m & Hm & Hmw & Hk & Hv).
  set (ks := held p1 ∪ list_to_set (map call_key qs)) in Hsize.
  assert (Hh : holds size ks (call_key q) data (cl_set q + p_cacheTTL p) (Decide_calls qs p1)).
  { apply (holds_calls size ks (call_key q) data _ d'); [done..| |]; [exists m; split_and!; [done..| |done]; unfold ks; set_solver|].
    apply Forall_forall. intros x Hx. split; [|exact (proj1 (Forall_forall _ _) Hts x Hx)].
    unfold ks. apply elem_of_union. right. apply elem_of_list_to_set, list_elem_of_In, in_map, list_elem_of_In, Hx. }
  destruct (holds_hit size ks (call_key q) data _ d' q' _ Hpos Hh Hlen Hun Hkey Ht) as (p3 & E1 & E2 & _). by exists p3.
Qed.
End memory_cached.

Section policy_errors.
Context `{CEL} `{CacheIf}.

(** When the policy engine fails on a request (see [Evaluate_error_iff]), neither the other
    rules nor [policy.default] decide: without a token bypass the verdict is the one of the
    score thresholds, so a low-scoring request is allowed even if the default is to challenge. *)
Theorem Decide_policy_error p e req tok t1 t2 t3 sigs cs msg :
  p_cache p = None -> p_evaluator p = Some e ->
  collectParallel req (p_collectors p) = (Ok sigs, cs) ->
  let weighted := weigh (p_policy p) sigs in
  let total := clamp (sum_scores weighted) in
  Evaluate e (policy_context (MkEvalCtx total (signal_map weighted) (buildRequestInfo req) tok)) = Err msg ->
  tok = false ->
  (Decide t1 t2 t3 req tok p).1 =
  Ok (threshold_decision t2 (deny_threshold (p_policy p)) (challenge_threshold (p_policy p)) total weighted).
Proof.
  intros Hc He Hcol weighted total Herr ->. unfold Decide, cache_lookup. rewrite Hc, Hcol.
  unfold buildEvalFn. rewrite He. cbn. unfold Combine. cbn. fold weighted total. rewrite Herr. done.
Qed.
End policy_errors.

(** ** Examples *)

(** A collector that counts its calls and reports one signal. *)
Definition counting_collector : SignalCollector :=
  MkCollector "count" nat (fun _ n => (Ok ([MkSignal "seen" 20 "seen" {["calls" := AInt (Z.of_nat n)]}], None), S n)).

#[local] Existing Instance list_lru.
#[local] Existing Instance list_lru_laws.
#[local] Instance sample_cache : CacheIf := memory_cache (H := list_lru (V := entry)).
#[local] Instance sample_spec : CacheSpec := memory_spec (H0 := list_lru_laws (V := entry)).
#[local] Existing Instance toy_cel.

(** The rule reads a signal that is absent, so its evaluation fails. *)
Definition failing_config : PolicyConfig := {|
  pc_Version := 1;
  pc_Listener := MkListenerConfig ":8080" "http://localhost:3000" None;
  pc_Token := MkTokenConfig "secret" "24h" ["ip"; "ua"];
  pc_Policy := MkPolicySection "challenge" [MkPolicyRule "tor" {["expr" := AString "signals['tor']"]} "deny" ""];
  pc_Scoring := MkScoringConfig ∅ 50 80;
  pc_Challenge := MkChallengeConfig 4 true;
  pc_Cache := MkCacheConfig "memory" None 60
|}.

Definition failing_evaluator : Evaluator := MkEvaluator failing_config
  [MkCompiledRule (MkPolicyRule "tor" {["expr" := AString "signals['tor']"]} "deny" "") "signals['tor']"].

Definition sample_pipeline (cache : option cache_state) : Pipeline :=
  New (MkPipelineConfig [MkLive counting_collector 0%nat] (Some failing_evaluator) cache 0 (Some failing_config)).

Definition visit (path : string) (t : Z) : call := MkCall t (t + 1) (t + 2) (get_context path "ua") false.

(** Two other pages are decided in between, one of them twice. *)
Lemma Decide_cached_witness :
  exists d d' p1 p3, Decide_call (visit "/" 0) (sample_pipeline (Some (NewMemory 4))) = (Ok d, p1)
    /\ coerce_decision d = Some d'
    /\ Decide_call (visit "/" 100) (Decide_calls [visit "/b" 10; visit "/c" 20; visit "/b" 30] p1) = (Ok d', p3).
Proof.
  set (r := Decide_call (visit "/" 0) (sample_pipeline (Some (NewMemory 4)))).
  assert (Hok : is_ok r.1 = true) by (vm_compute; reflexivity).
  destruct r as [[d|e|] p1] eqn:Hr; [|discriminate Hok..]. clear Hok. subst r. exists d.
  pose proof (f_equal fst Hr) as Hd. cbn [fst] in Hd. assert (Hp : held p1 = {[call_key (visit "/" 0)]}).
  { replace p1 with (Decide_call (visit "/" 0) (sample_pipeline (Some (NewMemory 4)))).2 by (by rewrite Hr). vm_compute. reflexivity. }
  destruct (Decide_cached 4 (sample_pipeline (Some (NewMemory 4))) (NewMemory 4) (visit "/" 0) d p1) as (d' & Hco & _ & Hall);
    [reflexivity|reflexivity| |vm_compute; reflexivity|vm_compute; reflexivity|exact Hr| | | |].
  - exact (proj1 (lru_New_ok 4 eq_refl)).
  - vm_compute in Hd. injection Hd as <-. eexists. vm_compute. reflexivity.
  - vm_compute in Hd. injection Hd as <-. unfold decision_in_range, in_int, int_min, int_max. cbn.
    split_and!; try lia. repeat constructor; cbn; lia.
  - vm_compute in Hd. injection Hd as <-. repeat constructor. intros k v Hk. cbn [sig_Detail] in Hk.
    revert k v Hk. refine (plain_detail_check _ _). vm_compute. reflexivity.
  - destruct (Hall [visit "/b" 10; visit "/c" 20; visit "/b" 30] (visit "/" 100) eq_refl) as (p3 & H3 & _).
    + repeat (constructor; [vm_compute; discriminate|]). constructor.
    + rewrite Hp. vm_compute. discriminate.
    + exact (ex_intro _ d' (ex_intro _ p1 (ex_intro _ p3 (conj eq_refl (conj Hco H3))))).
Defined.

Lemma Decide_policy_error_witness :
  exists d, (Decide 0 1 2 (get_context "/" "ua") false (sample_pipeline None)).1 = Ok d /\ d_Verdict d = VerdictAllow.
Proof.
  eexists. split.
  - eapply (Decide_policy_error (sample_pipeline None) failing_evaluator); [reflexivity..| |reflexivity].
    vm_compute. reflexivity.
  - vm_compute. reflexivity.
Defined.
