(* ===== verification/Fingerprint.v ===== *)
(** * Packages [internal/signal/fingerprint] and [probes]: scoring a browser fingerprint report *)

From S2P Require Import Prelude GoStrings GoStd Types.
#[local] Open Scope Z_scope.

(** ** probes/navigator.go: helpers *)
Definition newSignal (name : string) (score : Z) (reason : string) (detail : list (string * any)) : Signal :=
  MkSignal name score reason (list_to_map detail).

(** [if cond { signals = append(signals, s) }] *)
Definition when (cond : bool) (s : Signal) : list Signal := if cond then [s] else [].

Definition isChromeUA (userAgent : string) : bool :=
  let ua := ToLower userAgent in
  if Contains ua "firefox/" || Contains ua "fxios/" then false
  else if Contains ua "edg/" || Contains ua "opr/" then false
  else Contains ua "chrome/" || Contains ua "chromium/" || Contains ua "crios/".

Definition isFirefoxUA (userAgent : string) : bool :=
  let ua := ToLower userAgent in Contains ua "firefox/" || Contains ua "fxios/".

Definition isSafariUA (userAgent : string) : bool :=
  let ua := ToLower userAgent in
  Contains ua "safari/" && Contains ua "version/" && negb (isChromeUA userAgent) && negb (isFirefoxUA userAgent).

Definition osFromUA (userAgent : string) : string :=
  let ua := ToLower userAgent in
  if Contains ua "windows nt" then "windows"
  else if Contains ua "linux" || Contains ua "x11" then "linux"
  else if Contains ua "mac os x" || Contains ua "macintosh" then "mac"
  else if Contains ua "iphone" || Contains ua "ipad" then "ios"
  else "".

Definition osFromPlatform (platform : string) : string :=
  let value := ToLower platform in
  if Contains value "win" then "windows"
  else if Contains value "linux" || Contains value "x11" then "linux"
  else if Contains value "mac" then "mac"
  else if Contains value "iphone" || Contains value "ipad" then "ios"
  else "".

Definition hasExactString (values : list string) (want : string) : bool :=
  existsb (fun value => EqualFold (TrimSpace value) want) values.

Definition hasCanonicalChromePlugins (plugins : list string) : bool :=
  let hasPDFViewer := hasExactString plugins "PDF Viewer" in
  let hasChromePDFViewer := hasExactString plugins "Chrome PDF Viewer" in
  let hasChromiumPDFViewer := hasExactString plugins "Chromium PDF Viewer" in
  let hasNativeClient := hasExactString plugins "Native Client" in
  hasPDFViewer && (hasChromePDFViewer || hasChromiumPDFViewer)
  && (hasNativeClient || (hasChromePDFViewer && hasChromiumPDFViewer)).

Definition containsFold (value substr : string) : bool := Contains (ToLower value) (ToLower substr).

Definition mediaSupportPresent (value : string) : bool :=
  let v := ToLower (TrimSpace value) in String.eqb v "maybe" || String.eqb v "probably".

(** ** The probe families *)
Definition Navigator (report : FingerprintReport) : list Signal :=
  let nav := fr_Navigator report in
  let ua := nv_UserAgent nav in
  let uaOS := osFromUA ua in
  let platformOS := osFromPlatform (nv_Platform nav) in
  when (negb (String.eqb uaOS "") && negb (String.eqb platformOS "") && negb (String.eqb uaOS platformOS))
    (newSignal "nav_platform_ua_mismatch" 50
       "navigator.platform does not match the operating system in user_agent"
       [("user_agent", AString ua); ("platform", AString (nv_Platform nav)); ("ua_os", AString uaOS);
        ("platform_os", AString platformOS)]) ++
  when (nv_HardwareConcurrency nav =? 4)
    (newSignal "nav_hardware_concurrency_trap" 30
       "navigator.hardwareConcurrency is exactly the common stealth default of 4"
       [("hardware_concurrency", AInt (nv_HardwareConcurrency nav))]) ++
  when (nv_Webdriver nav)
    (newSignal "nav_webdriver_set" 60 "navigator.webdriver is true" [("webdriver", ABool (nv_Webdriver nav))]) ++
  when (isChromeUA ua && negb (hasCanonicalChromePlugins (nv_Plugins nav)))
    (newSignal "nav_plugins_anomaly" 20 "Chrome plugin list is missing the canonical PDF viewer plugin names"
       [("plugins", AStrings (nv_Plugins nav))]) ++
  when (isFirefoxUA ua && (0 <? len (nv_Plugins nav)))
    (newSignal "nav_plugins_anomaly" 20 "Firefox should expose an empty navigator.plugins list"
       [("plugins", AStrings (nv_Plugins nav))]) ++
  when (isChromeUA ua && negb (String.eqb (nv_Vendor nav) "Google Inc."))
    (newSignal "nav_vendor_ua_mismatch" 25 "Chrome user agent must report navigator.vendor as Google Inc."
       [("user_agent", AString ua); ("vendor", AString (nv_Vendor nav))]) ++
  when (isFirefoxUA ua && negb (String.eqb (nv_Vendor nav) ""))
    (newSignal "nav_vendor_ua_mismatch" 25 "Firefox user agent must report an empty navigator.vendor"
       [("user_agent", AString ua); ("vendor", AString (nv_Vendor nav))]) ++
  when (negb (isFirefoxUA ua) && negb (String.eqb (TrimSpace (nv_Oscpu nav)) ""))
    (newSignal "nav_oscpu_firefox_only" 15 "navigator.oscpu is Firefox-only but is present for this user agent"
       [("user_agent", AString ua); ("oscpu", AString (nv_Oscpu nav))]).

Definition webGLExtensionsAnomalous (extensions : list string) : bool :=
  if len extensions <? 10 then true
  else (len extensions <=? 12) && hasExactString extensions "WEBGL_debug_renderer_info"
       && negb (hasExactString extensions "OES_texture_float").

Definition WebGL (report : FingerprintReport) : list Signal :=
  let webgl := fr_WebGL report in
  let gpu := [("unmasked_vendor", AString (wg_UnmaskedVendor webgl));
              ("unmasked_renderer", AString (wg_UnmaskedRenderer webgl))] in
  when (containsFold (wg_UnmaskedVendor webgl) "Intel" && containsFold (wg_UnmaskedRenderer webgl) "Apple GPU")
    (newSignal "webgl_vendor_renderer_impossible" 40
       "WebGL unmasked vendor and renderer describe an impossible GPU combination" gpu) ++
  when (String.eqb (wg_UnmaskedVendor webgl) "" || String.eqb (wg_UnmaskedRenderer webgl) "")
    (newSignal "webgl_unmasked_missing" 20
       "WEBGL_debug_renderer_info did not expose unmasked vendor and renderer" gpu) ++
  when (webGLExtensionsAnomalous (wg_Extensions webgl))
    (newSignal "webgl_extensions_anomaly" 15
       "WebGL extension surface is too small or matches a fake extension set"
       [("extensions", AStrings (wg_Extensions webgl)); ("extension_count", AInt (len (wg_Extensions webgl)))]).

Definition Canvas (report : FingerprintReport) : list Signal :=
  let c := fr_Canvas report in
  if cv_Variance c <? 2 then []
  else [newSignal "canvas_seeded_noise" 50
          "repeated canvas renders produced multiple hashes in the same session"
          [("variance", AInt (cv_Variance c)); ("hashes", AStrings (cv_Hashes c))]].

Definition Audio (report : FingerprintReport) : list Signal :=
  let a := fr_Audio report in
  if au_Variance a <? 2 then []
  else [newSignal "audio_seeded_noise" 40
          "repeated AudioContext renders produced multiple hashes in the same session"
          [("variance", AInt (au_Variance a)); ("hashes", AStrings (au_Hashes a))]].

Definition Codecs (report : FingerprintReport) : list Signal :=
  let ua := nv_UserAgent (fr_Navigator report) in
  if negb (isChromeUA ua) && negb (isSafariUA ua) then []
  else
    let hevc := default "" (cd_Rare (fr_Codecs report) !! "hevc") in
    let av1 := default "" (cd_Rare (fr_Codecs report) !! "av1_p1") in
    if mediaSupportPresent hevc && mediaSupportPresent av1 then []
    else [newSignal "codec_rare_missing" 20
            "modern Chrome/Safari user agent is missing HEVC or AV1 rare codec support"
            [("hevc", AString hevc); ("av1_p1", AString av1)]].

Definition Fonts (report : FingerprintReport) : list Signal :=
  let missing := fo_MissingOSBundled (fr_Fonts report) in
  if len missing =? 0 then []
  else [newSignal "font_os_bundled_missing" 25 "claimed platform is missing OS-bundled fonts"
          [("missing_os_bundled", AStrings missing)]].

Definition Window (report : FingerprintReport) : list Signal :=
  let w := fr_Window report in
  let delta := wrap64 (wi_OuterHeight w - wi_InnerHeight w) in
  if negb (delta =? 85) then []
  else [newSignal "window_outer_height_85_trap" 50
          "window.outerHeight - window.innerHeight is the playwright-stealth constant 85"
          [("inner_height", AInt (wi_InnerHeight w)); ("outer_height", AInt (wi_OuterHeight w));
           ("delta", AInt delta)]].

Definition isRealChromeRuntimeConnectError (value : string) : bool :=
  containsFold value "Could not establish connection" && negb (containsFold value "TypeError").

Definition ChromeRuntime (report : FingerprintReport) : list Signal :=
  let chrome := fr_Chrome report in
  let ua := nv_UserAgent (fr_Navigator report) in
  when (isChromeUA ua && negb (String.eqb (ch_RuntimeConnectError chrome) "")
        && negb (isRealChromeRuntimeConnectError (ch_RuntimeConnectError chrome)))
    (newSignal "chrome_runtime_connect_failure" 40 "chrome.runtime.connect failed with a mock-specific error"
       [("runtime_connect_error", AString (ch_RuntimeConnectError chrome))]) ++
  when (isFirefoxUA ua && ch_Present chrome)
    (newSignal "chrome_present_for_firefox" 60 "window.chrome is present for a Firefox user agent"
       [("chrome_present", ABool (ch_Present chrome)); ("user_agent", AString ua)]).

Definition Permissions (report : FingerprintReport) : list Signal :=
  let p := fr_Permissions report in
  if negb (String.eqb (pe_NotificationsState p) "granted") then []
  else if negb (String.eqb (pe_MidiState p) "denied") && negb (String.eqb (pe_MidiState p) "prompt") then []
  else [newSignal "permissions_midi_inconsistent" 35
          "notifications permission is granted while midi remains denied or prompt"
          [("notifications_state", AString (pe_NotificationsState p)); ("midi_state", AString (pe_MidiState p))]].

Definition WebRTC (report : FingerprintReport) : list Signal :=
  if 0 <? len (wr_LocalIPs (fr_WebRTC report)) then []
  else [newSignal "webrtc_no_local_ips" 15 "WebRTC STUN probe did not expose any local IP candidates"
          [("public_ip", AString (wr_PublicIP (fr_WebRTC report)))]].

Definition DOM (report : FingerprintReport) : list Signal :=
  let dom := fr_DOM report in
  when (do_IframeContentWindowIdentity dom)
    (newSignal "dom_iframe_contentwindow_anomaly" 40
       "iframe.contentWindow identity probe matched a stealth patch signature"
       [("iframe_content_window_identity", ABool (do_IframeContentWindowIdentity dom))]) ++
  when (do_ClosedShadowRootAccessible dom)
    (newSignal "dom_closed_shadow_root_accessible" 50 "closed shadow root was accessible from page JavaScript"
       [("closed_shadow_root_accessible", ABool (do_ClosedShadowRootAccessible dom))]).

Definition Runtime (report : FingerprintReport) : list Signal :=
  let runtime := fr_Runtime report in
  when (ru_ConsoleDebugArity runtime =? 0)
    (newSignal "runtime_console_debug_disabled" 60
       "console.debug.length is zero, matching the patchright Console API patch"
       [("console_debug_arity", AInt (ru_ConsoleDebugArity runtime))]) ++
  when (negb (ru_FunctionToStringNative runtime))
    (newSignal "runtime_to_string_proxy" 35 "Function.prototype.toString failed the native reflection probe"
       [("function_to_string_native", ABool (ru_FunctionToStringNative runtime))]) ++
  when (ru_ErrorStackContainsPwSig runtime)
    (newSignal "runtime_error_stack_pw_signature" 70 "error stack contains a Playwright init-script signature"
       [("error_stack_contains_pw_sig", ABool (ru_ErrorStackContainsPwSig runtime))]).

Definition browserBundlesVoices (userAgent : string) : bool :=
  isChromeUA userAgent || isFirefoxUA userAgent || isSafariUA userAgent.

Definition Speech (report : FingerprintReport) : list Signal :=
  let s := fr_Speech report in
  if negb (browserBundlesVoices (nv_UserAgent (fr_Navigator report))) then []
  else if negb (sp_VoicesCount s =? 0) || negb (len (sp_Voices s) =? 0) then []
  else [newSignal "speech_voices_empty" 15
          "speechSynthesis voice list is empty for a browser/OS that bundles default voices"
          [("voices_count", AInt (sp_VoicesCount s))]].

Definition ServiceWorker (report : FingerprintReport) : list Signal :=
  let sw := fr_ServiceWorker report in
  if negb (sw_Registered sw && negb (sw_Controller sw))
     && negb (negb (String.eqb (sw_Error sw) "") && containsFold (sw_Error sw) "no-op") then []
  else [newSignal "sw_register_noop" 45 "service worker registration did not produce a controller after wait"
          [("registered", ABool (sw_Registered sw)); ("controller", ABool (sw_Controller sw));
           ("error", AString (sw_Error sw))]].

Definition Hairline (report : FingerprintReport) : list Signal :=
  let r := ha_NonModernizrResult (fr_Hairline report) in
  if r <=? 0 then []
  else [newSignal "hairline_non_modernizr_anomaly" 20 "non-Modernizr hairline probe returned a positive result"
          [("non_modernizr_result", AInt r)]].

(** ** scorer.go *)
Definition probeFamilies : list (FingerprintReport -> list Signal) :=
  [Navigator; WebGL; Canvas; Audio; Codecs; Fonts; Window; ChromeRuntime; Permissions; WebRTC; DOM; Runtime;
   Speech; ServiceWorker; Hairline].

Definition Score (report : FingerprintReport) : outcome (list Signal) :=
  Ok (flat_map (fun family => family report) probeFamilies).

(** ** What the scorer can report

    Every signal of the probes with its score, in the order of the families. *)
Definition score_table : list (string * Z) := [
  ("nav_platform_ua_mismatch", 50); ("nav_hardware_concurrency_trap", 30); ("nav_webdriver_set", 60);
  ("nav_plugins_anomaly", 20); ("nav_vendor_ua_mismatch", 25); ("nav_oscpu_firefox_only", 15);
  ("webgl_vendor_renderer_impossible", 40); ("webgl_unmasked_missing", 20); ("webgl_extensions_anomaly", 15);
  ("canvas_seeded_noise", 50); ("audio_seeded_noise", 40); ("codec_rare_missing", 20);
  ("font_os_bundled_missing", 25); ("window_outer_height_85_trap", 50);
  ("chrome_runtime_connect_failure", 40); ("chrome_present_for_firefox", 60);
  ("permissions_midi_inconsistent", 35); ("webrtc_no_local_ips", 15);
  ("dom_iframe_contentwindow_anomaly", 40); ("dom_closed_shadow_root_accessible", 50);
  ("runtime_console_debug_disabled", 60); ("runtime_to_string_proxy", 35);
  ("runtime_error_stack_pw_signature", 70); ("speech_voices_empty", 15); ("sw_register_noop", 45);
  ("hairline_non_modernizr_anomaly", 20)].

Definition sig_entry (s : Signal) : string * Z := (sig_Name s, sig_Score s).

Lemma chrome_not_firefox ua : isChromeUA ua = true -> isFirefoxUA ua = false.
Proof.
  unfold isChromeUA, isFirefoxUA. cbv zeta.
  by destruct (Contains (ToLower ua) "firefox/" || Contains (ToLower ua) "fxios/").
Qed.

Lemma when_entry c n sc r d : map sig_entry (when c (newSignal n sc r d)) `sublist_of` [(n, sc)].
Proof. destruct c; cbn; [done|]. apply sublist_nil_l. Qed.

(** Two signals of one name of which at most one is reported. *)
Lemma when_entry2 c1 c2 n sc r1 d1 r2 d2 :
  (c1 = true -> c2 = false) ->
  map sig_entry (when c1 (newSignal n sc r1 d1)) ++ map sig_entry (when c2 (newSignal n sc r2 d2))
  `sublist_of` [(n, sc)].
Proof.
  intros Hc. destruct c1; [rewrite Hc by done|destruct c2]; cbn; [done..|]. apply sublist_nil_l.
Qed.

Lemma single_entry (c : bool) n sc r d : map sig_entry (if c then [] else [newSignal n sc r d]) `sublist_of` [(n, sc)].
Proof. destruct c; cbn; [apply sublist_nil_l|done]. Qed.

#[local] Hint Resolve when_entry single_entry sublist_nil_l : go.

Lemma sublist_app_cons (l1 l2 : list (string * Z)) e k :
  l1 `sublist_of` [e] -> l2 `sublist_of` k -> l1 ++ l2 `sublist_of` e :: k.
Proof. intros. change (e :: k) with ([e] ++ k). by apply sublist_app. Qed.

Lemma Navigator_entries r : map sig_entry (Navigator r) `sublist_of` take 6 score_table.
Proof.
  unfold Navigator. rewrite !map_app. cbv zeta.
  do 3 (apply sublist_app_cons; [auto with go|]).
  rewrite (assoc_L (++)). apply sublist_app_cons.
  { apply when_entry2. intros [Hc _]%andb_true_iff. by rewrite (chrome_not_firefox _ Hc). }
  rewrite (assoc_L (++)). apply sublist_app_cons.
  { apply when_entry2. intros [Hc _]%andb_true_iff. by rewrite (chrome_not_firefox _ Hc). }
  auto with go.
Qed.

Lemma families_entries r :
  Forall2 (fun f k => map sig_entry (f r) `sublist_of` k) probeFamilies
    [take 6 score_table; take 3 (drop 6 score_table); take 1 (drop 9 score_table); take 1 (drop 10 score_table);
     take 1 (drop 11 score_table); take 1 (drop 12 score_table); take 1 (drop 13 score_table);
     take 2 (drop 14 score_table); take 1 (drop 16 score_table); take 1 (drop 17 score_table);
     take 2 (drop 18 score_table); take 3 (drop 20 score_table); take 1 (drop 23 score_table);
     take 1 (drop 24 score_table); take 1 (drop 25 score_table)].
Proof.
  repeat apply Forall2_cons_2; try apply Forall2_nil_2; [apply Navigator_entries|..];
    unfold WebGL, Canvas, Audio, Codecs, Fonts, Window, ChromeRuntime, Permissions, WebRTC, DOM, Runtime, Speech,
      ServiceWorker, Hairline; cbv zeta; cbn [take drop score_table]; rewrite ?map_app;
    repeat (apply sublist_app_cons; [auto with go|]); auto with go.
  - case_match; auto with go.
  - case_match; auto with go.
  - case_match; auto with go.
Qed.

Lemma Score_entries r : exists sigs, Score r = Ok sigs /\ map sig_entry sigs `sublist_of` score_table.
Proof.
  eexists. split; [reflexivity|].
  pose proof (families_entries r) as H.
  match type of H with Forall2 _ _ ?k => change score_table with (concat k) end.
  induction H as [|f k fs ks Hf _ IH]; [done|]. cbn [flat_map concat]. rewrite map_app. by apply sublist_app.
Qed.

Lemma sublist_zsum (l k : list (string * Z)) :
  l `sublist_of` k -> Forall (fun e => 0 <= e.2) k -> 0 <= fold_right Z.add 0 (map snd l) <= fold_right Z.add 0 (map snd k).
Proof.
  induction 1 as [|x l k _ IH|x l k _ IH]; cbn; [lia|..]; intros [Hx Hk]%Forall_cons; specialize (IH Hk); lia.
Qed.

(** C33: the scorer reports each of its 26 signals at most once, with that signal's fixed score
    and in the order of the probe families, so that the total never exceeds 945 and no sum over
    it can overflow; it never fails. *)
Theorem Score_bounds r :
  exists sigs, Score r = Ok sigs /\ map sig_entry sigs `sublist_of` score_table
    /\ NoDup (map sig_Name sigs) /\ 0 <= fold_right Z.add 0 (map sig_Score sigs) <= 945.
Proof.
  destruct (Score_entries r) as (sigs & Hs & Hsub). exists sigs. split_and!; [done..| | |].
  - assert (Hnd : NoDup (map fst score_table)) by (apply (bool_decide_unpack _); vm_compute; exact I).
    replace (map sig_Name sigs) with (map fst (map sig_entry sigs)) by (by rewrite map_map).
    eapply sublist_NoDup; [exact Hnd|]. by apply (fmap_sublist fst).
  - replace (map sig_Score sigs) with (map snd (map sig_entry sigs)) by (by rewrite map_map).
    apply (sublist_zsum _ _ Hsub). repeat constructor; cbn; lia.
  - replace (map sig_Score sigs) with (map snd (map sig_entry sigs)) by (by rewrite map_map).
    apply (sublist_zsum _ _ Hsub). repeat constructor; cbn; lia.
Qed.

(** ** iPhones

    The user agent of every iPhone says [like Mac OS X], and [osFromUA] looks for that before it
    looks for [iPhone]. *)
Definition iphone_ua : string :=
  "Mozilla/5.0 (iPhone; CPU iPhone OS 17_5 like Mac OS X) AppleWebKit/605.1.15 (KHTML, like Gecko) Version/17.5 Mobile/15E148 Safari/604.1".

(** A genuine iPhone report, whose platform is [iPhone], is charged 50 points for a mismatch
    between its user agent and its platform, whatever the rest of the report says. *)
Theorem iphone_flagged r :
  nv_UserAgent (fr_Navigator r) = iphone_ua -> nv_Platform (fr_Navigator r) = "iPhone" ->
  exists sigs, Score r = Ok sigs /\ ("nav_platform_ua_mismatch", 50) ∈ map sig_entry sigs.
Proof.
  intros Hua Hp. eexists. split; [reflexivity|]. unfold probeFamilies. cbn [flat_map]. rewrite map_app.
  apply elem_of_app. left. unfold Navigator. cbv zeta. rewrite Hua, Hp.
  replace (negb (String.eqb (osFromUA iphone_ua) "") && _ && _) with true by (vm_compute; reflexivity).
  cbn [when app map]. apply elem_of_cons. by left.
Qed.

Definition zero_float : spec_float := S754_zero false.
Definition iphone_report : FingerprintReport := {|
  fr_Version := 1;
  fr_Navigator := MkNavigatorProbe iphone_ua "iPhone" "Apple Computer, Inc." ["en"] "en" 6 zero_float false
                    ["PDF Viewer"] [] "" "Gecko" "20030107";
  fr_WebGL := MkWebGLProbe "WebKit" "WebKit WebGL" "Apple Inc." "Apple GPU" "WebGL 1.0" "1.0"
                (replicate 30 "EXT_x") 4096 zero_float;
  fr_Canvas := MkCanvasProbe ["h"] 1;
  fr_Audio := MkAudioProbe ["h"] 1;
  fr_Codecs := MkCodecsProbe ∅ {["hevc" := "probably"; "av1_p1" := "maybe"]};
  fr_Fonts := MkFontsProbe 10 [] [];
  fr_Window := MkWindowProbe 390 664 390 844 390 844 zero_float 24 24;
  fr_Chrome := MkChromeProbe false false false false false "";
  fr_Permissions := MkPermissionsProbe "prompt" "prompt" "prompt";
  fr_WebRTC := MkWebRTCProbe ["192.168.1.5"] "203.0.113.9";
  fr_DOM := MkDOMProbe false false [];
  fr_Runtime := MkRuntimeProbe true 1 "" 1 false;
  fr_Speech := MkSpeechProbe 20 ["Samantha"];
  fr_ServiceWorker := MkServiceWorkerProbe true true "";
  fr_Hairline := MkHairlineProbe 0;
  fr_Timing := MkTimingProbe 100 0 50
|}.

Lemma iphone_flagged_witness :
  exists sigs, Score iphone_report = Ok sigs /\ ("nav_platform_ua_mismatch", 50) ∈ map sig_entry sigs.
Proof. apply (iphone_flagged iphone_report); reflexivity. Defined.

(** Nothing else is wrong with that report. *)
Example iphone_only_signal : match Score iphone_report with Ok sigs => map sig_Name sigs | _ => [] end = ["nav_platform_ua_mismatch"].
Proof. vm_compute. reflexivity. Qed.
