(* ===== verification/Behavior.v ===== *)
(** * Package [internal/signal/behavior]: telemetry beacons and their scoring *)

From S2P Require Import Prelude GoStrings GoStd JsonText GoNumber Types Json Codec Bodies.
#[local] Open Scope Z_scope.

(** ** resource_block.go, mouse_jitter.go, click_timing.go, visibility.go *)
Definition checkResourceBlock (b : BehaviorBeacon) : option Signal :=
  let rf := bb_ResourceFetches b in
  if (rm_CSS rf =? 0) && (rm_Font rf =? 0) && (rm_Image rf =? 0) then
    Some (MkSignal "behavior_resource_block" 40
      (bytes_string (string_bytes "zero CSS/font/image fetches " ++ Utf8.encode 8212
                     ++ string_bytes " Scrapling resource-type blocking (L5.1)")) ∅)
  else None.

(** The constant 0.05, rounded to [float64]. *)
Definition jitterThreshold : spec_float := f64_div (f64_of_Z 5) (f64_of_Z 100).
Definition minMoveCountBot : Z := 10.

Definition checkMouseJitter (b : BehaviorBeacon) : option Signal :=
  let m := bb_Mouse b in
  if f64_lt (mm_JitterIndex m) jitterThreshold && (minMoveCountBot <? mm_MoveCount m) then
    Some (MkSignal "behavior_smooth_path" 30
      (bytes_string (string_bytes "mouse jitter index below human floor with significant move count "
                     ++ Utf8.encode 8212 ++ string_bytes " synthetic Bezier path"))
      {["jitter_index" := AFloat (mm_JitterIndex m); "move_count" := AInt (mm_MoveCount m)]})
  else None.

Definition turnstileMin : Z := 100.
Definition turnstileMax : Z := 200.

Definition checkClickTiming (b : BehaviorBeacon) : option Signal :=
  let intervals := mm_ClickIntervalsMs (bb_Mouse b) in
  if len intervals =? 0 then None
  else if existsb (fun iv => (iv <? turnstileMin) || (turnstileMax <? iv)) intervals then None
  else Some (MkSignal "behavior_turnstile_clicker" 60
      (bytes_string (string_bytes "all click intervals within Scrapling randint(100,200) band "
                     ++ Utf8.encode 8212 ++ string_bytes " Turnstile auto-solver (L5.3)"))
      {["intervals" := AInts intervals]}).

Definition checkVisibility (b : BehaviorBeacon) : option Signal :=
  let hidden := vm_HiddenMs (bb_Visibility b) in
  let visible := vm_VisibleMs (bb_Visibility b) in
  if hidden =? 0 then None
  else if wrap64 (visible * 5) <? hidden then
    Some (MkSignal "behavior_hidden_dominant" 20
      (bytes_string (string_bytes "hidden time dominates visible time " ++ Utf8.encode 8212
                     ++ string_bytes " headless or non-interactive session"))
      {["hidden_ms" := AInt hidden; "visible_ms" := AInt visible]})
  else None.

(** ** collector.go *)
Definition checkers : list (BehaviorBeacon -> option Signal) :=
  [checkResourceBlock; checkMouseJitter; checkClickTiming; checkVisibility].

Definition behavior_Score (b : BehaviorBeacon) : list Signal := omap (fun check => check b) checkers.

(** ** ingest.go *)
Record rawScroll := MkRawScroll { rs_Events : Z; rs_MaxDepthPx : Z }.
Record rawMouse := MkRawMouse { rmo_MoveEvents : Z; rmo_ClickEvents : Z; rmo_JitterMeanPx : spec_float }.
Record rawClick := MkRawClick { rcl_X : Z; rcl_Y : Z; rcl_TimestampMs : Z; rcl_TargetTag : string; rcl_DelaySincePrev : Z }.
Record rawResources := MkRawResources { rr_CSS : Z; rr_Fonts : Z; rr_Images : Z; rr_Scripts : Z; rr_Beacons : Z }.
Record rawAttention := MkRawAttention {
  ra_FocusEvents : Z; ra_BlurEvents : Z; ra_VisibilityChanges : Z; ra_HiddenDurationMs : Z
}.
Record rawBeacon := MkRawBeacon {
  rb_SessionID : string; rb_PageURL : string; rb_PageVisible : bool; rb_VisitDurationMs : Z;
  rb_Scroll : rawScroll; rb_Mouse : rawMouse; rb_Clicks : list rawClick; rb_KeyEvents : Z;
  rb_ResourceReqs : rawResources; rb_Attention : rawAttention
}.

(** *** The struct tags *)
Definition rawScroll_tags :=
  tag "events" int_codec $ tag "max_depth_px" int_codec $ FNil.
Definition rawScroll_codec : codec rawScroll := struct_codec rawScroll_tags
  (fun a => (rs_Events a, (rs_MaxDepthPx a, tt)))
  (fun '(v0, (v1, tt)) => MkRawScroll v0 v1)
  ltac:(tags_ok) ltac:(tuple_eta) ltac:(record_eta).

Definition rawMouse_tags :=
  tag "move_events" int_codec $ tag "click_events" int_codec $ tag "jitter_mean_px" float_codec $ FNil.
Definition rawMouse_codec : codec rawMouse := struct_codec rawMouse_tags
  (fun a => (rmo_MoveEvents a, (rmo_ClickEvents a, (rmo_JitterMeanPx a, tt))))
  (fun '(v0, (v1, (v2, tt))) => MkRawMouse v0 v1 v2)
  ltac:(tags_ok) ltac:(tuple_eta) ltac:(record_eta).

Definition rawClick_tags :=
  tag "x" int_codec $ tag "y" int_codec $ tag "timestamp_ms" int_codec $ tag "target_tag" string_codec $
  tag "delay_since_prev_ms" int_codec $ FNil.
Definition rawClick_codec : codec rawClick := struct_codec rawClick_tags
  (fun a => (rcl_X a, (rcl_Y a, (rcl_TimestampMs a, (rcl_TargetTag a, (rcl_DelaySincePrev a, tt))))))
  (fun '(v0, (v1, (v2, (v3, (v4, tt))))) => MkRawClick v0 v1 v2 v3 v4)
  ltac:(tags_ok) ltac:(tuple_eta) ltac:(record_eta).

Definition rawResources_tags :=
  tag "css" int_codec $ tag "fonts" int_codec $ tag "images" int_codec $ tag "scripts" int_codec $
  tag "beacons" int_codec $ FNil.
Definition rawResources_codec : codec rawResources := struct_codec rawResources_tags
  (fun a => (rr_CSS a, (rr_Fonts a, (rr_Images a, (rr_Scripts a, (rr_Beacons a, tt))))))
  (fun '(v0, (v1, (v2, (v3, (v4, tt))))) => MkRawResources v0 v1 v2 v3 v4)
  ltac:(tags_ok) ltac:(tuple_eta) ltac:(record_eta).

Definition rawAttention_tags :=
  tag "focus_events" int_codec $ tag "blur_events" int_codec $ tag "visibility_changes" int_codec $
  tag "hidden_duration_ms" int_codec $ FNil.
Definition rawAttention_codec : codec rawAttention := struct_codec rawAttention_tags
  (fun a => (ra_FocusEvents a, (ra_BlurEvents a, (ra_VisibilityChanges a, (ra_HiddenDurationMs a, tt)))))
  (fun '(v0, (v1, (v2, (v3, tt)))) => MkRawAttention v0 v1 v2 v3)
  ltac:(tags_ok) ltac:(tuple_eta) ltac:(record_eta).

Definition rawBeacon_tags :=
  tag "session_id" string_codec $ tag "page_url" string_codec $ tag "page_visible" bool_codec $
  tag "visit_duration_ms" int_codec $ tag "scroll" rawScroll_codec $ tag "mouse" rawMouse_codec $
  tag "clicks" (slice_codec rawClick_codec) $ tag "key_events" int_codec $
  tag "resource_requests" rawResources_codec $ tag "attention" rawAttention_codec $ FNil.
Definition rawBeacon_codec : codec rawBeacon := struct_codec rawBeacon_tags
  (fun a => (rb_SessionID a, (rb_PageURL a, (rb_PageVisible a, (rb_VisitDurationMs a, (rb_Scroll a, (rb_Mouse a,
    (rb_Clicks a, (rb_KeyEvents a, (rb_ResourceReqs a, (rb_Attention a, tt)))))))))))
  (fun '(v0, (v1, (v2, (v3, (v4, (v5, (v6, (v7, (v8, (v9, tt)))))))))) => MkRawBeacon v0 v1 v2 v3 v4 v5 v6 v7 v8 v9)
  ltac:(tags_ok) ltac:(tuple_eta) ltac:(record_eta).

(** The beacon built from a decoded payload at [nowMs]. *)
Definition beacon_of_raw (nowMs : Z) (raw : rawBeacon) : BehaviorBeacon :=
  let visible := wrap64 (rb_VisitDurationMs raw - ra_HiddenDurationMs (rb_Attention raw)) in
  let visibleMs := if visible <? 0 then 0 else visible in
  {| bb_SessionID := rb_SessionID raw;
     bb_Timestamp := nowMs;
     bb_Mouse := MkMouseMetrics (rmo_MoveEvents (rb_Mouse raw)) f0 f0 (rmo_JitterMeanPx (rb_Mouse raw))
                   (rmo_ClickEvents (rb_Mouse raw)) (map rcl_DelaySincePrev (rb_Clicks raw));
     bb_Scroll := MkScrollMetrics (rs_Events (rb_Scroll raw)) (rs_MaxDepthPx (rb_Scroll raw));
     bb_Visibility := MkVisibilityMetrics (ra_HiddenDurationMs (rb_Attention raw)) visibleMs;
     bb_ResourceFetches := MkResourceMetrics (rr_CSS (rb_ResourceReqs raw)) (rr_Images (rb_ResourceReqs raw))
                             (rr_Fonts (rb_ResourceReqs raw)) (rr_Scripts (rb_ResourceReqs raw)) 0 |}.

(** The text of a decoding error is left open ([json_error]). *)
Definition Ingest (json_error : string) (nowMs : Z) (data : list byte) : outcome BehaviorBeacon :=
  if len data =? 0 then Err "behavior/ingest: empty payload"
  else
    match Unmarshal_into rawBeacon_codec data with
    | None => Err json_error
    | Some raw =>
        if String.eqb (rb_SessionID raw) EmptyString then Err "behavior/ingest: missing session_id"
        else Ok (beacon_of_raw nowMs raw)
    end.

(** The collector that reads a beacon from the request's body; [body] is what reading it yields. *)
Definition behavior_Collect (json_error : string) (nowMs : Z) (body : outcome (list byte)) (ctx : RequestContext)
    : collect_out :=
  match rq_Request ctx with
  | None => Panic
  | Some _ =>
      match body with
      | Err e => Ok ([], Some e)
      | Panic => Panic
      | Ok data =>
          match Ingest json_error nowMs data with
          | Ok beacon => Ok (behavior_Score beacon, None)
          | Err e => Ok ([], Some e)
          | Panic => Panic
          end
      end
  end.

(** ** Facts *)

Definition click_uniform (l : list Z) : Prop := l <> [] /\ Forall (fun iv => 100 <= iv <= 200) l.

Lemma checkClickTiming_iff b :
  is_Some (checkClickTiming b) <-> click_uniform (mm_ClickIntervalsMs (bb_Mouse b)).
Proof.
  unfold checkClickTiming, click_uniform. generalize (mm_ClickIntervalsMs (bb_Mouse b)) as l. intros l.
  destruct (len l =? 0) eqn:E0.
  { assert (l = []) as -> by (apply len_0_nil; lia). split; [by intros [? ?]|by intros [? _]]. }
  assert (l <> []) by (intros ->; done).
  destruct (existsb _ l) eqn:Ex.
  - split; [by intros [? ?]|]. intros [_ Hf]. exfalso.
    apply existsb_exists in Ex as (iv & Hin%list_elem_of_In & Hb). rewrite Forall_forall in Hf. specialize (Hf iv Hin).
    unfold turnstileMin, turnstileMax in Hb. lia.
  - split; [|by eexists]. intros _. split; [done|]. rewrite Forall_forall. intros iv Hin%list_elem_of_In.
    destruct (decide (100 <= iv <= 200)) as [|Hn]; [done|].
    assert (existsb (fun iv => (iv <? turnstileMin) || (turnstileMax <? iv)) l = true); [|congruence].
    apply existsb_exists. exists iv. split; [done|]. unfold turnstileMin, turnstileMax. lia.
Qed.

Definition behavior_table : list (string * Z) :=
  [("behavior_resource_block", 40); ("behavior_smooth_path", 30); ("behavior_turnstile_clicker", 60);
   ("behavior_hidden_dominant", 20)].

Lemma checkers_named b :
  Forall2 (fun check e => forall s, check b = Some s -> (sig_Name s, sig_Score s) = e) checkers behavior_table.
Proof.
  unfold checkers, behavior_table.
  repeat apply Forall2_cons_2; try apply Forall2_nil_2; intros s;
    unfold checkResourceBlock, checkMouseJitter, checkClickTiming, checkVisibility; repeat case_match;
    intros Hs; try discriminate Hs; by injection Hs as <-.
Qed.

Lemma omap_sublist b (cs : list (BehaviorBeacon -> option Signal)) es :
  Forall2 (fun check e => forall s, check b = Some s -> (sig_Name s, sig_Score s) = e) cs es ->
  map (fun s => (sig_Name s, sig_Score s)) (omap (fun check => check b) cs) `sublist_of` es.
Proof.
  induction 1 as [|c e cs es Hc _ IH]; cbn; [done|].
  destruct (c b) as [s|] eqn:E; cbn; [rewrite (Hc s eq_refl); by apply sublist_skip|by apply sublist_cons].
Qed.

Lemma checker_reported b n :
  n ∈ map sig_Name (behavior_Score b) <-> exists check s, check ∈ checkers /\ check b = Some s /\ sig_Name s = n.
Proof.
  unfold behavior_Score. rewrite list_elem_of_fmap. setoid_rewrite list_elem_of_omap. naive_solver.
Qed.

(** The signal of one checker, told by its name. *)
Lemma checker_reported_nth b i check e :
  checkers !! i = Some check -> behavior_table !! i = Some e ->
  e.1 ∈ map sig_Name (behavior_Score b) <-> is_Some (check b).
Proof.
  intros Hi He. pose proof (checkers_named b) as Hall. rewrite checker_reported. split.
  - intros (check' & s & [j Hj]%list_elem_of_lookup & Hs & Hn).
    destruct (Forall2_lookup_l _ _ _ _ _ Hall Hj) as (e' & He' & Hcheck'). specialize (Hcheck' s Hs).
    assert (j = i) as ->.
    { assert (Hnd : NoDup (map fst behavior_table)) by (apply (bool_decide_unpack _); vm_compute; exact I).
      apply (NoDup_lookup (map fst behavior_table) j i e.1 Hnd);
        rewrite (list_lookup_fmap fst); [rewrite He'|by rewrite He]. cbn. by rewrite <- Hcheck', <- Hn. }
    rewrite Hi in Hj. injection Hj as ->. by eexists.
  - intros [s Hs]. exists check, s. split; [by eapply list_elem_of_lookup_2|]. split; [done|].
    destruct (Forall2_lookup_lr _ _ _ _ _ _ Hall Hi He s Hs). done.
Qed.

Lemma checkResourceBlock_iff b :
  is_Some (checkResourceBlock b) <-> rm_CSS (bb_ResourceFetches b) = 0
    /\ rm_Font (bb_ResourceFetches b) = 0 /\ rm_Image (bb_ResourceFetches b) = 0.
Proof.
  unfold checkResourceBlock. case_match eqn:E; [split; [intros _; lia|by eexists]|].
  split; [by intros [? ?]|]. lia.
Qed.

(** Behaviour scoring reports at most the four signals, each once, in a fixed order and with a
    fixed score; the auto-solver signal is reported exactly when there is a click
    interval and all of them lie in 100..200 ms, and the resource signal exactly when no
    stylesheet, font or image was fetched. *)
Theorem behavior_Score_spec b :
  map (fun s => (sig_Name s, sig_Score s)) (behavior_Score b) `sublist_of` behavior_table
  /\ ("behavior_turnstile_clicker" ∈ map sig_Name (behavior_Score b) <->
        click_uniform (mm_ClickIntervalsMs (bb_Mouse b)))
  /\ ("behavior_resource_block" ∈ map sig_Name (behavior_Score b) <->
        rm_CSS (bb_ResourceFetches b) = 0 /\ rm_Font (bb_ResourceFetches b) = 0 /\ rm_Image (bb_ResourceFetches b) = 0).
Proof.
  split_and!.
  - apply omap_sublist, checkers_named.
  - rewrite <- checkClickTiming_iff. by apply (checker_reported_nth b 2 checkClickTiming (_, 60)).
  - rewrite <- checkResourceBlock_iff. by apply (checker_reported_nth b 0 checkResourceBlock (_, 40)).
Qed.
