(* ===== verification/Challenge.v ===== *)
(** * Package [internal/challenge]: challenge issuing, proof of work, beacon store, handlers *)

From S2P Require Import Prelude GoStrings GoStd Crypto JsonText Types Token Cache Codec Bodies Fingerprint Behavior.
#[local] Open Scope Z_scope.

Definition Minute : Z := 60 * Second.

(** ** issuer.go

    Identifiers come from the UUID library and are an argument of the operations. *)
Definition challengeTTL : Z := 10 * Minute.
Definition issuerCapacity : Z := 4096.

Section issuer.
Context `{LRU Z}.

Record ChallengeIssuer := MkChallengeIssuer { ci_powDifficulty : Z; ci_ids : lru_state }.

Definition NewChallengeIssuer (powDifficulty : Z) : ChallengeIssuer :=
  MkChallengeIssuer powDifficulty (lru_New issuerCapacity).

Definition NewChallengeID (now : Z) (uuid : string) (ci : ChallengeIssuer) : string * ChallengeIssuer :=
  (uuid, MkChallengeIssuer (ci_powDifficulty ci) (lru_Add uuid now (ci_ids ci))).

Definition ValidateChallengeID (now : Z) (id : string) (ci : ChallengeIssuer) : bool * ChallengeIssuer :=
  let '(issued, ids) := lru_Get id (ci_ids ci) in
  match issued with
  | None => (false, MkChallengeIssuer (ci_powDifficulty ci) ids)
  | Some issued =>
      if challengeTTL <? now - issued then (false, MkChallengeIssuer (ci_powDifficulty ci) (lru_Remove id ids))
      else (true, MkChallengeIssuer (ci_powDifficulty ci) (lru_Remove id ids))
  end.
End issuer.

(** ** Proof of work (service.go) *)

(** [bits.LeadingZeros8] *)
Definition LeadingZeros8 (b : byte) : Z :=
  let z := byte_to_Z b in if z =? 0 then 8 else 7 - Z.log2 z.

Fixpoint leadingZeroBits (b : list byte) : Z :=
  match b with
  | [] => 0
  | byt :: b =>
      let z := LeadingZeros8 byt in
      if z <? 8 then z else z + leadingZeroBits b
  end.

Definition verifyPoW (challengeID solution : string) (difficulty : Z) : bool :=
  difficulty <=? leadingZeroBits (sha256 (string_bytes (challengeID +:+ solution))).

(** ** beacon_store.go *)
Definition beaconMaxPerKey : Z := 100.
Definition beaconMaxAge : Z := 5 * Minute.

Record beaconEntry := MkBeaconEntry { be_beacon : BehaviorBeacon; be_storedAt : Z }.
Record BeaconStore := MkBeaconStore {
  bs_bySession : gmap string (list beaconEntry);
  bs_byIP : gmap string (list beaconEntry)
}.

Definition NewBeaconStore : BeaconStore := MkBeaconStore ∅ ∅.

Definition pruneBeaconMap (m : gmap string (list beaconEntry)) (cutoff : Z) : gmap string (list beaconEntry) :=
  omap (fun entries =>
    match List.filter (fun e => cutoff <? be_storedAt e) entries with
    | [] => None
    | kept => Some kept
    end) m.

Definition pruneExpired (now : Z) (s : BeaconStore) : BeaconStore :=
  let cutoff := now - beaconMaxAge in
  MkBeaconStore (pruneBeaconMap (bs_bySession s) cutoff) (pruneBeaconMap (bs_byIP s) cutoff).

Definition push (now : Z) (m : gmap string (list beaconEntry)) (key : string) (beacon : BehaviorBeacon)
    : gmap string (list beaconEntry) :=
  let entries := default [] (m !! key) ++ [MkBeaconEntry beacon now] in
  let entries := if beaconMaxPerKey <? len entries
                 then drop (Z.to_nat (len entries - beaconMaxPerKey)) entries else entries in
  <[key := entries]> m.

(** The clock is read at the pruning and at every push. *)
Definition store_Ingest (t0 t1 : Z) (beacon : BehaviorBeacon) (s : BeaconStore) : BeaconStore :=
  let s := pruneExpired t0 s in
  MkBeaconStore (push t1 (bs_bySession s) (bb_SessionID beacon) beacon) (bs_byIP s).

(** [net.SplitHostPort] with the whole address as fallback. *)
Definition host_of (remoteAddr : string) : string :=
  match SplitHostPort remoteAddr with Some (h, _) => h | None => remoteAddr end.

Definition IngestFromRequest (t0 t1 t2 : Z) (r : Request) (beacon : BehaviorBeacon) (s : BeaconStore) : BeaconStore :=
  let ip := host_of (r_RemoteAddr r) in
  let s := pruneExpired t0 s in
  MkBeaconStore (push t1 (bs_bySession s) (bb_SessionID beacon) beacon) (push t2 (bs_byIP s) ip beacon).

Definition newest (entries : list beaconEntry) : option BehaviorBeacon := be_beacon <$> last entries.
Definition GetBySession (sessionID : string) (s : BeaconStore) : option BehaviorBeacon :=
  newest (default [] (bs_bySession s !! sessionID)).
Definition GetByIP (ip : string) (s : BeaconStore) : option BehaviorBeacon :=
  newest (default [] (bs_byIP s !! ip)).
Definition ScoreSession (sessionID : string) (s : BeaconStore) : list Signal :=
  match GetBySession sessionID s with Some b => behavior_Score b | None => [] end.

(** [StoreBehaviorCollector] *)
Definition store_Collect (ctx : RequestContext) (s : BeaconStore) : collect_out :=
  match GetByIP (rq_RemoteIP ctx) s with
  | None => Ok ([], None)
  | Some b => Ok (behavior_Score b, None)
  end.
Definition store_collector : SignalCollector :=
  MkCollector "behavior" BeaconStore (fun ctx s => (store_Collect ctx s, s)).

(** ** service.go *)

(** Double quotes are written as backquotes here. *)
Definition quoted (s : string) : string := ReplaceAll s "`" dquote.
Definition newline : string := String "010" EmptyString.

Definition metaPlaceholder : string :=
  quoted "<meta name=`__as_challenge` content='{`challenge_id`:``,`difficulty`:0,`beacon_interval_ms`:5000}'>".

(** The embedded page (assets/index.html). *)
Definition page_head : string := quoted (
  "<!doctype html>" +:+ newline +:+ "<html lang=`en`>" +:+ newline +:+ "  <head>" +:+ newline +:+
  "    <meta charset=`utf-8`>" +:+ newline +:+
  "    <meta name=`viewport` content=`width=device-width, initial-scale=1`>" +:+ newline +:+ "    ").
Definition page_tail : string := quoted (newline +:+
  "    <title>Verifying you're human</title>" +:+ newline +:+ "  </head>" +:+ newline +:+ "  <body>" +:+ newline +:+
  "    <noscript>JavaScript is required to complete this verification.</noscript>" +:+ newline +:+
  "    <script type=`module` src=`/__as/challenge.bundle.js`></script>" +:+ newline +:+ "  </body>" +:+ newline +:+
  "</html>" +:+ newline).
Definition ChallengeHTML : string := page_head +:+ metaPlaceholder +:+ page_tail.

Definition challenge_meta (id : string) (difficulty : Z) (origin : string) : string :=
  quoted "<meta name=`__as_challenge` data-id=`" +:+ id +:+ quoted "` data-difficulty=`" +:+ Itoa difficulty
  +:+ quoted "` data-origin=`" +:+ origin +:+ quoted "`>".

(** What a handler writes: [http.Error], a page with its headers, the JSON refusal, the redirect
    with its cookie, or an empty answer. *)
Inductive reply :=
| ReplyError (code : Z) (msg : string)
| ReplyPage (code : Z) (headers : list (string * string)) (body : string)
| ReplyScore (code : Z) (error : string) (score : Z) (reasons : list string)
| ReplyRedirect (code : Z) (cookie : Cookie) (target : string)
| ReplyEmpty (code : Z).

Record verifyRequest := MkVerifyRequest {
  vr_PowSolution : string;
  vr_FingerprintReport : FingerprintReport;
  vr_ChallengeID : string;
  vr_OriginURL : string
}.
Definition verifyRequest_tags :=
  tag "pow_solution" string_codec $ tag "fingerprint_report" FingerprintReport_codec $
  tag "challenge_id" string_codec $ tag "origin_url" string_codec $ FNil.
Definition verifyRequest_codec : codec verifyRequest := struct_codec verifyRequest_tags
  (fun a => (vr_PowSolution a, (vr_FingerprintReport a, (vr_ChallengeID a, (vr_OriginURL a, tt)))))
  (fun '(v0, (v1, (v2, (v3, tt)))) => MkVerifyRequest v0 v1 v2 v3)
  ltac:(tags_ok) ltac:(tuple_eta) ltac:(record_eta).

Section service.
Context `{LRU Z} `{JWT}.

Record Service := MkService {
  s_issuer : ChallengeIssuer;
  s_tokenIssuer : Issuer;
  s_denyThreshold : Z;
  s_cookieTTL : Z;
  s_beacon : option BeaconStore
}.

Definition NewService (issuer : ChallengeIssuer) (tokenIssuer : Issuer) (denyThreshold cookieTTL : Z)
    (beacon : option BeaconStore) : Service :=
  MkService issuer tokenIssuer denyThreshold cookieTTL beacon.

Definition set_issuer (s : Service) (ci : ChallengeIssuer) : Service :=
  MkService ci (s_tokenIssuer s) (s_denyThreshold s) (s_cookieTTL s) (s_beacon s).

Definition HandleChallenge (now : Z) (uuid : string) (r : Request) (s : Service) : outcome reply * Service :=
  let '(id, ci) := NewChallengeID now uuid (s_issuer s) in
  match r_URL r with
  | None => (Panic, set_issuer s ci)
  | Some u =>
      let origin := query_Get (url_RawQuery u) "origin" in
      let origin := if String.eqb origin EmptyString then "/" else origin in
      let meta := challenge_meta id (ci_powDifficulty (s_issuer s)) origin in
      (Ok (ReplyPage 200 [("Content-Type", "text/html; charset=utf-8"); ("Cache-Control", "no-store")]
             (bytes_ReplaceAll ChallengeHTML metaPlaceholder meta)), set_issuer s ci)
  end.

(** The loop over the signals: the total and the reasons of the positive ones. *)
Definition total_step (acc : Z * list string) (sig : Signal) : Z * list string :=
  (wrap64 (acc.1 + sig_Score sig), if 0 <? sig_Score sig then acc.2 ++ [sig_Reason sig] else acc.2).

(** [body] is what can be read of the request's body. *)
Definition HandleVerify (now : Z) (r : Request) (body : list byte) (s : Service) : outcome reply * Service :=
  if negb (String.eqb (r_Method r) "POST") then (Ok (ReplyError 405 "method not allowed"), s)
  else
    match Decode verifyRequest_codec body with
    | None => (Ok (ReplyError 400 "bad request"), s)
    | Some req =>
        let '(valid, ci) := ValidateChallengeID now (vr_ChallengeID req) (s_issuer s) in
        let s := set_issuer s ci in
        if negb valid then (Ok (ReplyError 400 "invalid or expired challenge_id"), s)
        else if negb (verifyPoW (vr_ChallengeID req) (vr_PowSolution req) (ci_powDifficulty (s_issuer s)))
        then (Ok (ReplyError 400 "invalid proof of work"), s)
        else
          match Score (vr_FingerprintReport req) with
          | Err _ => (Ok (ReplyError 500 "fingerprint scoring error"), s)
          | Panic => (Panic, s)
          | Ok signals =>
              let '(total, reasons) := fold_left total_step signals (0, []) in
              if s_denyThreshold s <=? total
              then (Ok (ReplyScore 403 "fingerprint score too high" total reasons), s)
              else
                match Issue (s_tokenIssuer s) now
                        (MkIssueContext (vr_ChallengeID req) (host_of (r_RemoteAddr r))
                           (header_Get (r_Header r) "User-Agent") EmptyString EmptyString total) with
                | Err _ => (Ok (ReplyError 500 "token issuance failed"), s)
                | Panic => (Panic, s)
                | Ok tok =>
                    let target := if String.eqb (vr_OriginURL req) EmptyString then "/" else vr_OriginURL req in
                    (Ok (ReplyRedirect 302 (SetCookie DefaultCookieName tok (s_cookieTTL s) false) target), s)
                end
          end
    end.

Definition HandleBeacon (t0 t1 t2 : Z) (r : Request) (body : list byte) (s : Service) : reply * Service :=
  if negb (String.eqb (r_Method r) "POST") then (ReplyError 405 "method not allowed", s)
  else
    match Decode BehaviorBeacon_codec body with
    | None => (ReplyError 400 "bad request", s)
    | Some b =>
        (ReplyEmpty 204,
         MkService (s_issuer s) (s_tokenIssuer s) (s_denyThreshold s) (s_cookieTTL s)
           (IngestFromRequest t0 t1 t2 r b <$> s_beacon s))
    end.

Definition HandleSW : reply :=
  ReplyPage 200 [("Content-Type", "text/javascript; charset=utf-8"); ("Cache-Control", "no-cache")]
    "self.addEventListener('fetch',()=>{});".

Definition HandleBundle (ChallengeBundle : string) : reply :=
  ReplyPage 200 [("Content-Type", "text/javascript; charset=utf-8");
                 ("Cache-Control", "public, max-age=31536000, immutable")] ChallengeBundle.
End service.

(** ** Proof of work as a bound on the hash *)
Lemma le_value_app a b : le_value (a ++ b) = le_value a + 256 ^ len a * le_value b.
Proof.
  induction a as [|x a IH]; cbn [app le_value]; [rewrite len_nil, Z.pow_0_r; lia|].
  rewrite IH, len_cons, Z.pow_add_r, Z.pow_1_r by (pose proof (len_nonneg a); lia). ring.
Qed.

Lemma len_rev {A} (l : list A) : len (rev l) = len l.
Proof. unfold len. by rewrite length_rev. Qed.

Lemma be_value_cons b bs : be_value (b :: bs) = byte_to_Z b * 2 ^ (8 * len bs) + be_value bs.
Proof.
  unfold be_value. cbn [rev]. rewrite le_value_app, len_rev. cbn [le_value].
  replace (2 ^ (8 * len bs)) with (256 ^ len bs); [lia|].
  rewrite Z.pow_mul_r by (pose proof (len_nonneg bs); lia). done.
Qed.

Lemma be_value_range bs : 0 <= be_value bs < 2 ^ (8 * len bs).
Proof.
  induction bs as [|b bs IH]; [by vm_compute|]. rewrite be_value_cons, len_cons.
  replace (8 * (len bs + 1)) with (8 * len bs + 8) by lia. pose proof (len_nonneg bs).
  rewrite Z.pow_add_r by lia. pose proof (byte_to_Z_range b).
  change (2 ^ 8) with 256. nia.
Qed.

Lemma leadingZeroBits_nonneg bs : 0 <= leadingZeroBits bs.
Proof.
  induction bs as [|b bs IH]; cbn; [lia|]. unfold LeadingZeros8. pose proof (byte_to_Z_range b).
  assert (Z.log2 (byte_to_Z b) <= 7).
  { destruct (Z.eq_dec (byte_to_Z b) 0) as [->|]; [done|]. apply Z.lt_succ_r, Z.log2_lt_pow2; lia. }
  repeat case_match; lia.
Qed.

Lemma leadingZeroBits_spec bs d :
  0 <= d <= 8 * len bs -> d <= leadingZeroBits bs <-> be_value bs < 2 ^ (8 * len bs - d).
Proof.
  revert d. induction bs as [|b bs IH]; intros d Hd; [change (len []) with 0 in *; cbn; replace d with 0 by lia; done|].
  rewrite be_value_cons, len_cons in *. pose proof (be_value_range bs) as Hv. pose proof (len_nonneg bs) as Hn.
  pose proof (leadingZeroBits_nonneg bs) as Hz. pose proof (byte_to_Z_range b) as Hb.
  cbn [leadingZeroBits]. unfold LeadingZeros8.
  destruct (byte_to_Z b =? 0) eqn:E0.
  - replace (byte_to_Z b) with 0 by lia. replace (8 <? 8) with false by done. rewrite Z.mul_0_l, Z.add_0_l. destruct (decide (d <= 8)) as [Hle|Hgt].
    + split; [intros _|lia]. apply Z.lt_le_trans with (2 ^ (8 * len bs)); [lia|]. apply Z.pow_le_mono_r; lia.
    + replace (8 * (len bs + 1) - d) with (8 * len bs - (d - 8)) by lia. rewrite <- (IH (d - 8)) by lia. lia.
  - assert (Hlog : 0 <= Z.log2 (byte_to_Z b) <= 7).
    { split; [apply Z.log2_nonneg|]. apply Z.lt_succ_r, Z.log2_lt_pow2; lia. }
    replace (7 - Z.log2 (byte_to_Z b) <? 8) with true by lia.
    destruct (decide (d <= 8)) as [Hle|Hgt].
    + replace (8 * (len bs + 1) - d) with (8 * len bs + (8 - d)) by lia. rewrite Z.pow_add_r by lia.
      transitivity (byte_to_Z b < 2 ^ (8 - d)); [|nia].
      rewrite Z.log2_lt_pow2 by lia. lia.
    + split; [lia|]. intros H. exfalso.
      assert (2 ^ (8 * (len bs + 1) - d) <= 2 ^ (8 * len bs)) by (apply Z.pow_le_mono_r; lia). nia.
Qed.

(** C22: a proof of work is accepted exactly when the SHA-256 of the challenge and the solution,
    read as a 256-bit number, is below 2^(256 - difficulty). *)
Theorem verifyPoW_iff id solution difficulty :
  0 <= difficulty <= 256 ->
  verifyPoW id solution difficulty = true <->
  be_value (sha256 (string_bytes (id +:+ solution))) < 2 ^ (256 - difficulty).
Proof.
  intros Hd. unfold verifyPoW. assert (Hlen : 8 * len (sha256 (string_bytes (id +:+ solution))) = 256).
  { unfold len. by rewrite length_sha256. }
  rewrite Z.leb_le, leadingZeroBits_spec, Hlen by lia. done.
Qed.

Lemma verifyPoW_iff_witness : verifyPoW "abc" "252" 8 = true.
Proof. apply (verifyPoW_iff "abc" "252" 8); [lia|]. vm_compute. reflexivity. Defined.

(** ** Challenge identifiers are used once

    Operations on the issuer, and the abstract set of pending identifiers. *)
Inductive id_op := IdNew (uuid : string) | IdValidate (id : string).

Definition pending_step (now : Z) (op : id_op) (m : gmap string Z) : bool * gmap string Z :=
  match op with
  | IdNew uuid => (false, <[uuid := now]> m)
  | IdValidate id =>
      (match m !! id with Some issued => now - issued <=? challengeTTL | None => false end, delete id m)
  end.

Fixpoint run_ids {S} (step : Z -> id_op -> S -> bool * S) (ops : list (Z * id_op)) (st : S) : list bool * S :=
  match ops with
  | [] => ([], st)
  | (now, op) :: ops =>
      let '(b, st) := step now op st in
      let '(bs, st) := run_ids step ops st in (b :: bs, st)
  end.

Section issuer_theorems.
Context `{LRULaws Z}.

Definition issuer_step (now : Z) (op : id_op) (ci : ChallengeIssuer) : bool * ChallengeIssuer :=
  match op with
  | IdNew uuid => (false, (NewChallengeID now uuid ci).2)
  | IdValidate id => ValidateChallengeID now id ci
  end.

Definition issuer_ok (ci : ChallengeIssuer) (m : gmap string Z) : Prop :=
  lru_wf issuerCapacity (ci_ids ci) /\ lru_map (ci_ids ci) ⊆ m.

Lemma issuer_step_sim now op ci m :
  issuer_ok ci m ->
  let '(b, ci') := issuer_step now op ci in
  let '(a, m') := pending_step now op m in
  (b = true -> a = true) /\ issuer_ok ci' m'.
Proof.
  intros [Hwf Hsub]. destruct op as [uuid|id]; cbn.
  - destruct (lru_Add_ok issuerCapacity uuid now (ci_ids ci) Hwf) as (Hwf' & Hk & Ho).
    split; [done|]. split; [done|]. cbn. apply map_subseteq_spec. intros k v Hv.
    destruct (decide (k = uuid)) as [->|Hne]; [by rewrite lookup_insert_eq, <- Hk|].
    rewrite lookup_insert_ne by done. destruct (Ho k Hne) as [E|E]; rewrite E in Hv; [done|].
    by eapply lookup_weaken.
  - unfold ValidateChallengeID. destruct (lru_Get_ok issuerCapacity id (ci_ids ci) Hwf) as (Hg & Hwf' & Hm).
    destruct (lru_Get id (ci_ids ci)) as [issued ids]. cbn in *.
    destruct (lru_Remove_ok issuerCapacity id ids Hwf') as [Hwf'' Hr].
    destruct issued as [issued|].
    + symmetry in Hg. rewrite (lookup_weaken _ _ _ _ Hg Hsub).
      assert (issuer_ok (MkChallengeIssuer (ci_powDifficulty ci) (lru_Remove id ids)) (delete id m)).
      { split; [done|]. cbn. rewrite Hr, Hm. by apply delete_mono. }
      destruct (challengeTTL <? now - issued) eqn:E; (split; [|done]); intros ?; [done|lia].
    + split; [done|]. split; [done|]. cbn. rewrite Hm. apply map_subseteq_spec. intros k v Hv.
      rewrite lookup_delete_ne by (by intros ->; rewrite <- Hg in Hv). by eapply lookup_weaken.
Qed.

Lemma run_ids_sim ops ci m :
  issuer_ok ci m ->
  Forall2 (fun b a => b = true -> a = true) (run_ids issuer_step ops ci).1 (run_ids pending_step ops m).1.
Proof.
  revert ci m. induction ops as [|[now op] ops IH]; intros ci m Hok; [constructor|]. cbn [run_ids].
  pose proof (issuer_step_sim now op ci m Hok) as Hs.
  destruct (issuer_step now op ci) as [b ci'], (pending_step now op m) as [a m']. destruct Hs as [Hb Hok'].
  specialize (IH ci' m' Hok'). destruct (run_ids issuer_step ops ci'), (run_ids pending_step ops m').
  by constructor.
Qed.

(** C20: an identifier is accepted only if it was issued at most ten minutes ago and has not been
    presented since: over any sequence of calls that do not overlap, every acceptance is one of the abstract
    set of pending identifiers, from which presenting an identifier removes it. *)
Theorem challenge_ids_one_time difficulty ops :
  Forall2 (fun b a => b = true -> a = true)
    (run_ids issuer_step ops (NewChallengeIssuer difficulty)).1 (run_ids pending_step ops ∅).1.
Proof.
  apply run_ids_sim. unfold issuer_ok, NewChallengeIssuer. cbn.
  destruct (lru_New_ok issuerCapacity) as [Hwf Hm]; [done|]. by rewrite Hm.
Qed.
End issuer_theorems.

(** A replayed identifier and an expired one, on a concrete LRU. *)
Lemma challenge_ids_one_time_witness :
  Forall2 (fun b a => b = true -> a = true) [false; true; false; false; false]
    (run_ids pending_step
       [(0, IdNew "u1"); (Minute, IdValidate "u1"); (Minute, IdValidate "u1");
        (Minute, IdNew "u2"); (12 * Minute, IdValidate "u2")] ∅).1.
Proof.
  exact (@challenge_ids_one_time (list_lru (V := Z)) (list_lru_laws (V := Z)) 4
    [(0, IdNew "u1"); (Minute, IdValidate "u1"); (Minute, IdValidate "u1");
     (Minute, IdNew "u2"); (12 * Minute, IdValidate "u2")]).
Defined.

(** ** The verify handler *)
Section verify_theorems.
Context `{LRU Z} `{JWT}.

Definition score_total (r : FingerprintReport) : Z :=
  match Score r with Ok sigs => fold_right Z.add 0 (map sig_Score sigs) | _ => 0 end.

(** The handler's running total does not overflow. *)
Lemma total_step_sum sigs t rs :
  0 <= t -> Forall (fun s => 0 <= sig_Score s) sigs -> in_int (t + fold_right Z.add 0 (map sig_Score sigs)) ->
  (fold_left total_step sigs (t, rs)).1 = t + fold_right Z.add 0 (map sig_Score sigs).
Proof.
  intros Ht Hf. revert t rs Ht. induction Hf as [|s sigs Hs Hf IH]; intros t rs Ht Hin; cbn in *; [lia|].
  assert (0 <= fold_right Z.add 0 (map sig_Score sigs)).
  { clear -Hf. induction Hf as [|s sigs ? _ IH]; cbn; lia. }
  unfold total_step at 2. cbn. rewrite wrap64_small by (unfold in_int, int_min, int_max in *; lia).
  rewrite IH; [lia|lia|]. unfold in_int in *. lia.
Qed.

Lemma verify_total r sigs rs :
  Score r = Ok sigs -> (fold_left total_step sigs (0, rs)).1 = score_total r.
Proof.
  intros Hs. unfold score_total. rewrite Hs.
  destruct (Score_entries r) as (sigs' & Hs' & Hsub). rewrite Hs in Hs'. injection Hs' as <-.
  assert (Hpos : Forall (fun e : string * Z => 0 <= e.2) score_table) by (repeat constructor; cbn; lia).
  pose proof (sublist_zsum _ _ Hsub Hpos) as Hsum. rewrite map_map in Hsum.
  change (fold_right Z.add 0 (map snd score_table)) with 945 in Hsum.
  change (map (fun x => (sig_entry x).2) sigs) with (map sig_Score sigs) in Hsum.
  rewrite total_step_sum; [lia|lia| |].
  - apply Forall_forall. intros s Hin.
    assert (He : sig_entry s ∈ score_table).
    { eapply elem_of_sublist; [|exact Hsub]. by apply list_elem_of_fmap_2. }
    rewrite Forall_forall in Hpos. exact (Hpos _ He).
  - unfold in_int, int_min, int_max. lia.
Qed.

(** C24: the verify handler hands out a pass cookie exactly to a POST whose payload decodes, whose
    challenge identifier is accepted by the issuer, whose solution has the required leading
    zero bits and whose fingerprint score is below the deny threshold; the cookie holds a token
    issued for the request's address and user agent, without TLS fingerprints.  This is so for every policy: the
    documentation (docs/05-policy-reference.md, [challenge]) describes a mode without fingerprint scoring for
    [collect_fingerprint: false], but no code reads that field. *)
Theorem HandleVerify_redirect_iff now r body s cookie target :
  (HandleVerify now r body s).1 = Ok (ReplyRedirect 302 cookie target) <->
  exists req tok,
    r_Method r = "POST" /\ Decode verifyRequest_codec body = Some req
    /\ (ValidateChallengeID now (vr_ChallengeID req) (s_issuer s)).1 = true
    /\ verifyPoW (vr_ChallengeID req) (vr_PowSolution req) (ci_powDifficulty (s_issuer s)) = true
    /\ score_total (vr_FingerprintReport req) < s_denyThreshold s
    /\ Issue (s_tokenIssuer s) now
         (MkIssueContext (vr_ChallengeID req) (host_of (r_RemoteAddr r)) (header_Get (r_Header r) "User-Agent")
            EmptyString EmptyString (score_total (vr_FingerprintReport req))) = Ok tok
    /\ cookie = SetCookie DefaultCookieName tok (s_cookieTTL s) false
    /\ target = (if String.eqb (vr_OriginURL req) EmptyString then "/" else vr_OriginURL req).
Proof.
  unfold HandleVerify. destruct (String.eqb_spec (r_Method r) "POST") as [Hm|Hm]; cbn [negb]; [|naive_solver].
  destruct (Decode verifyRequest_codec body) as [req|]; [|naive_solver].
  assert (Hdiff : ci_powDifficulty (ValidateChallengeID now (vr_ChallengeID req) (s_issuer s)).2
                  = ci_powDifficulty (s_issuer s)).
  { unfold ValidateChallengeID. destruct (lru_Get _ _) as [[issued|] ids]; [case_match|]; done. }
  destruct (ValidateChallengeID now (vr_ChallengeID req) (s_issuer s)) as [valid ci] eqn:Ev.
  cbn [set_issuer s_issuer s_denyThreshold s_tokenIssuer s_cookieTTL]. cbn in Hdiff. rewrite Hdiff.
  assert (Hv : forall req', Some req = Some req' -> req' = req) by naive_solver.
  destruct valid; cbn [negb]; [|split; [done|]; intros (req' & tok & _ & ->%Hv & Hf & _); by rewrite Ev in Hf].
  destruct (verifyPoW _ _ _) eqn:Ep; cbn [negb];
    [|split; [done|]; intros (req' & tok & _ & ->%Hv & _ & Hf & _); congruence].
  destruct (Score (vr_FingerprintReport req)) as [sigs|e|] eqn:Es; [|by destruct (Score_entries (vr_FingerprintReport req)) as (? & ? & _); congruence..].
  pose proof (verify_total _ sigs [] Es) as Ht. destruct (fold_left total_step sigs (0, [])) as [total reasons].
  cbn [fst] in Ht. subst total.
  destruct (s_denyThreshold s <=? score_total (vr_FingerprintReport req)) eqn:Ed;
    [split; [done|]; intros (req' & tok & _ & ->%Hv & _ & _ & Hf & _); lia|].
  destruct (Issue _ _ _) as [tok|e|] eqn:Ei.
  - split.
    + intros [= <- <-]. exists req, tok. rewrite Ev. split_and!; try done. lia.
    + intros (req' & tok' & _ & ->%Hv & _ & _ & _ & Hi & -> & ->). rewrite Ei in Hi. by injection Hi as ->.
  - split; [done|]. intros (req' & tok & _ & ->%Hv & _ & _ & _ & Hi & _). congruence.
  - split; [done|]. intros (req' & tok & _ & ->%Hv & _ & _ & _ & Hi & _). congruence.
Qed.

(** ** The challenge page *)
Lemma page_around new : bytes_ReplaceAll ChallengeHTML metaPlaceholder new = page_head +:+ new +:+ page_tail.
Proof. vm_compute. reflexivity. Qed.

(** The challenge page carries the [origin] query parameter verbatim inside a double-quoted
    HTML attribute, whatever characters it contains: nothing is escaped, so a value with a
    quote and a bracket leaves the attribute and puts markup of the requester's choice on the
    page. *)
Theorem challenge_page_origin now uuid r u s :
  r_URL r = Some u ->
  let origin := query_Get (url_RawQuery u) "origin" in
  origin <> EmptyString ->
  exists headers pre post,
    (HandleChallenge now uuid r s).1 =
      Ok (ReplyPage 200 headers (pre +:+ quoted "data-origin=`" +:+ origin +:+ quoted "`>" +:+ post)).
Proof.
  intros Hu origin Ho. unfold HandleChallenge. cbn [NewChallengeID]. rewrite Hu. fold origin.
  destruct (String.eqb_spec origin EmptyString) as [|_]; [done|].
  rewrite page_around. unfold challenge_meta.
  eexists _, (page_head +:+ quoted "<meta name=`__as_challenge` data-id=`" +:+ uuid
    +:+ quoted "` data-difficulty=`" +:+ Itoa (ci_powDifficulty (s_issuer s)) +:+ quoted "` "), page_tail.
  cbn [fst].
  replace (quoted "` data-origin=`") with (quoted "` " +:+ quoted "data-origin=`") by (vm_compute; reflexivity).
  rewrite !append_assoc. reflexivity.
Qed.
End verify_theorems.

(** A request whose origin closes the attribute. *)
Definition xss_request : Request :=
  MkRequest "GET" (Some (MkURL "" "" "/__as/challenge" "origin=%22%3E%3Cscript%3Ealert(1)%3C%2Fscript%3E")) 1 1 ∅
    "example.org" "203.0.113.7:4000" [].

Lemma challenge_page_origin_witness :
  exists headers pre post,
    (HandleChallenge (H := list_lru (V := Z)) 0 "u1" xss_request
       (MkService (H := list_lru (V := Z)) (NewChallengeIssuer (H := list_lru (V := Z)) 4)
          (NewIssuer [] 0 []) 80 0 None)).1 =
      Ok (ReplyPage 200 headers
            (pre +:+ quoted "data-origin=`" +:+ quoted "`><script>alert(1)</script>" +:+ quoted "`>" +:+ post)).
Proof.
  exact (challenge_page_origin (H := list_lru (V := Z)) 0 "u1" xss_request
    (MkURL "" "" "/__as/challenge" "origin=%22%3E%3Cscript%3Ealert(1)%3C%2Fscript%3E")
    (MkService (H := list_lru (V := Z)) (NewChallengeIssuer (H := list_lru (V := Z)) 4) (NewIssuer [] 0 []) 80 0 None)
    eq_refl ltac:(vm_compute; discriminate)).
Defined.

(** ** The beacon store's window *)
Definition window_ok (m : gmap string (list beaconEntry)) : Prop :=
  map_Forall (fun _ es => es <> [] /\ len es <= beaconMaxPerKey) m.
Definition window_fresh (cutoff : Z) (m : gmap string (list beaconEntry)) : Prop :=
  map_Forall (fun _ es => Forall (fun e => cutoff < be_storedAt e) es) m.
Definition store_ok (s : BeaconStore) : Prop := window_ok (bs_bySession s) /\ window_ok (bs_byIP s).
Definition store_fresh (cutoff : Z) (s : BeaconStore) : Prop :=
  window_fresh cutoff (bs_bySession s) /\ window_fresh cutoff (bs_byIP s).

Lemma prune_lookup m cutoff k es :
  pruneBeaconMap m cutoff !! k = Some es ->
  es <> [] /\ exists es0, m !! k = Some es0 /\ es = List.filter (fun e => cutoff <? be_storedAt e) es0.
Proof.
  unfold pruneBeaconMap. rewrite lookup_omap. destruct (m !! k) as [es0|]; [|done]. cbn.
  case_match eqn:E; [done|]. intros [= <-]. split; [done|]. eauto.
Qed.

Lemma prune_ok m cutoff :
  window_ok m -> window_ok (pruneBeaconMap m cutoff) /\ window_fresh cutoff (pruneBeaconMap m cutoff).
Proof.
  intros Hm. split; intros k es (Hne & es0 & H0 & ->)%prune_lookup.
  - split; [done|]. destruct (Hm k es0 H0) as [_ Hlen]. etrans; [|exact Hlen].
    pose proof (List.filter_length_le (fun e => cutoff <? be_storedAt e) es0). unfold len. lia.
  - apply List.Forall_forall. intros e [_ He]%filter_In. lia.
Qed.

Lemma push_ok now m key b cutoff :
  cutoff < now -> window_ok m -> window_fresh cutoff m ->
  window_ok (push now m key b) /\ window_fresh cutoff (push now m key b)
  /\ newest (default [] (push now m key b !! key)) = Some b
  /\ forall k, k <> key -> push now m key b !! k = m !! k.
Proof.
  intros Hnow Hok Hfr. unfold push. set (es := default [] (m !! key) ++ [MkBeaconEntry b now]).
  set (n := Z.to_nat (len es - beaconMaxPerKey)).
  assert (Hes : Forall (fun e => cutoff < be_storedAt e) es).
  { unfold es. apply Forall_app. split; [|by apply Forall_singleton].
    destruct (m !! key) as [es0|] eqn:E; [exact (Hfr key es0 E)|constructor]. }
  assert (Hlast : last es = Some (MkBeaconEntry b now)) by (unfold es; apply last_snoc).
  assert (Hdrop : 0 < len es <= beaconMaxPerKey + 1).
  { unfold es. rewrite len_app. change (len [MkBeaconEntry b now]) with 1.
    destruct (m !! key) as [es0|] eqn:E; cbn [default from_option id];
      [destruct (Hok key es0 E) as [_ ?]; unfold id; pose proof (len_nonneg es0); lia|].
    unfold beaconMaxPerKey. rewrite len_nil. lia. }
  set (kept := if beaconMaxPerKey <? len es then drop n es else es).
  assert (Hkept : kept <> [] /\ len kept <= beaconMaxPerKey
    /\ Forall (fun e => cutoff < be_storedAt e) kept /\ last kept = Some (MkBeaconEntry b now)).
  { unfold kept. case_match eqn:E.
    - assert (Hl : last (drop n es) = Some (MkBeaconEntry b now)).
      { unfold es. rewrite drop_app_le; [apply last_snoc|].
        unfold n, es, len, beaconMaxPerKey in *. rewrite length_app in *. cbn in *. lia. }
      split_and!; [by intros Hd; rewrite Hd in Hl| |by apply Forall_drop|done].
      unfold len. rewrite length_drop. unfold n, len in *. lia.
    - split_and!; [by intros Hd; rewrite Hd in Hlast|lia|done|done]. }
  destruct Hkept as (Hne & Hlen & Hall & Hl).
  split_and!.
  - intros k l. destruct (decide (k = key)) as [->|Hk]; [rewrite lookup_insert_eq; by intros [= <-]|].
    rewrite lookup_insert_ne by done. apply Hok.
  - intros k l. destruct (decide (k = key)) as [->|Hk]; [rewrite lookup_insert_eq; by intros [= <-]|].
    rewrite lookup_insert_ne by done. apply Hfr.
  - rewrite lookup_insert_eq. cbn [default from_option id]. unfold newest, id. by rewrite Hl.
  - intros k Hk. by rewrite lookup_insert_ne.
Qed.

Lemma ingest_window t0 t1 t2 r b s :
  store_ok s -> t0 <= t1 -> t0 <= t2 ->
  let s' := IngestFromRequest t0 t1 t2 r b s in
  store_ok s' /\ store_fresh (t0 - beaconMaxAge) s'
  /\ GetBySession (bb_SessionID b) s' = Some b /\ GetByIP (host_of (r_RemoteAddr r)) s' = Some b
  /\ forall ip, ip <> host_of (r_RemoteAddr r) ->
       bs_byIP s' !! ip = pruneBeaconMap (bs_byIP s) (t0 - beaconMaxAge) !! ip.
Proof.
  intros [Hs Hi] Ht1 Ht2 s'. set (c := t0 - beaconMaxAge).
  assert (Hc : c < t1 /\ c < t2) by (unfold c, beaconMaxAge, Minute, Second; lia). destruct Hc as [Hc1 Hc2].
  destruct (prune_ok _ c Hs) as [Hs1 Hs2]. destruct (prune_ok _ c Hi) as [Hi1 Hi2].
  destruct (push_ok t1 _ (bb_SessionID b) b c Hc1 Hs1 Hs2) as (Hps1 & Hps2 & Hps3 & _).
  destruct (push_ok t2 _ (host_of (r_RemoteAddr r)) b c Hc2 Hi1 Hi2) as (Hpi1 & Hpi2 & Hpi3 & Hpi4).
  split_and!; [by split|by split|done|exact Hpi3|exact Hpi4].
Qed.

(** Storing a beacon keeps the window: every key holds between 1 and 100 beacons, none older
    than five minutes at the time of the write, the new beacon is the one found by its session
    and by the client's address, and the beacons of other addresses are only pruned. *)
Theorem beacon_store_window t0 t1 t2 r b s :
  store_ok s -> t0 <= t1 -> t0 <= t2 ->
  let s' := IngestFromRequest t0 t1 t2 r b s in
  store_ok s' /\ store_fresh (t0 - beaconMaxAge) s'
  /\ GetBySession (bb_SessionID b) s' = Some b /\ GetByIP (host_of (r_RemoteAddr r)) s' = Some b
  /\ forall ip, ip <> host_of (r_RemoteAddr r) ->
       bs_byIP s' !! ip = pruneBeaconMap (bs_byIP s) (t0 - beaconMaxAge) !! ip.
Proof. apply ingest_window. Qed.

Definition sample_beacon : BehaviorBeacon :=
  MkBehaviorBeacon "s1" 0 (MkMouseMetrics 3 f0 f0 f0 0 []) (MkScrollMetrics 0 0) (MkVisibilityMetrics 0 10)
    (MkResourceMetrics 1 1 1 1 0).

Lemma beacon_store_window_witness :
  GetByIP "203.0.113.7" (IngestFromRequest 5 5 6 xss_request sample_beacon NewBeaconStore) = Some sample_beacon.
Proof.
  apply (beacon_store_window 5 5 6 xss_request sample_beacon NewBeaconStore); [|lia|lia].
  split; apply map_Forall_empty.
Defined.
