(* ===== verification/Client.v ===== *)
(** * What clients send ([web/challenge/src], the SDKs) and how the handlers read it

    The solver of the proof of work against the server's check, a beacon from its text to the store, and what the
    bundled challenge client posts compared with what the verification handler expects. *)

From S2P Require Import Prelude GoStrings GoStd JsonText GoNumber Types Token Cache Json Utf8Valid Codec Bodies.
From S2P Require Import Crypto Fingerprint Behavior Challenge.
#[local] Open Scope Z_scope.

(** ** The bundled challenge client (main.ts, types.ts)

    A number of the client is given by the text [JSON.stringify] writes for it. *)
Record PowSolution := MkPowSolution { po_nonce : string; po_hash : string; po_difficulty : string; po_duration_ms : string }.

Definition PowSolution_json (p : PowSolution) : json :=
  JObj [("nonce", JNum (po_nonce p)); ("hash", JStr (po_hash p)); ("difficulty", JNum (po_difficulty p));
        ("duration_ms", JNum (po_duration_ms p))].

(** The payload of [runChallenge], before [JSON.stringify]. *)
Definition VerifyPayload (p : PowSolution) (fingerprint_report : json) (challenge_id : string) : json :=
  JObj [("pow_solution", PowSolution_json p); ("fingerprint_report", fingerprint_report); ("challenge_id", JStr challenge_id)].

(** ** The proof of work of the bundled client (hash.ts, pow.ts) *)
Definition clz32 (z : Z) : Z := if z =? 0 then 32 else 31 - Z.log2 z.

Fixpoint js_leadingZeroBits (bits : Z) (bytes : list byte) : Z :=
  match bytes with
  | [] => bits
  | b :: bytes => if byte_to_Z b =? 0 then js_leadingZeroBits (bits + 8) bytes else bits + clz32 (byte_to_Z b) - 24
  end.

Definition DEFAULT_MAX_NONCE : Z := 20000000.

(** The loop, from [nonce]; [None]: the nonces are exhausted.  Yielding to the browser in between changes nothing.  The
    source counts with a float, which is exact up to 2^53, far beyond the largest nonce it is called with (by default
    20,000,000). *)
Fixpoint solve_loop (challenge_id : string) (difficulty : Z) (fuel : nat) (nonce : Z) : option (Z * list byte) :=
  match fuel with
  | O => None
  | S fuel =>
      let digest := sha256 (string_bytes (challenge_id +:+ Itoa nonce)) in
      if difficulty <=? js_leadingZeroBits 0 digest then Some (nonce, digest)
      else solve_loop challenge_id difficulty fuel (nonce + 1)
  end.

(** [difficulty] is [None] when it is not an integer; [duration_ms] is the text of the time it took.  The fuel is the number
    of nonces up to [max_nonce]. *)
Definition solvePow (challenge_id : string) (difficulty : option Z) (max_nonce : option Z) (duration_ms : string) : string + PowSolution :=
  match difficulty with
  | None => inl "invalid_pow_difficulty"
  | Some difficulty =>
      if (difficulty <? 0) || (256 <? difficulty) then inl "invalid_pow_difficulty"
      else
        match solve_loop challenge_id difficulty (Z.to_nat (default DEFAULT_MAX_NONCE max_nonce + 1)) 0 with
        | Some (nonce, digest) => inr (MkPowSolution (Itoa nonce) (hex digest) (Itoa difficulty) duration_ms)
        | None => inl "pow_nonce_exhausted"
        end
  end.

(** [verifyPow] of the client *)
Definition js_verifyPow (challenge_id : string) (nonce difficulty : Z) : bool :=
  difficulty <=? js_leadingZeroBits 0 (sha256 (string_bytes (challenge_id +:+ Itoa nonce))).

Lemma leading_bits_agree bytes : forall bits, js_leadingZeroBits bits bytes = bits + leadingZeroBits bytes.
Proof.
  induction bytes as [|b bytes IH]; intros bits; cbn [js_leadingZeroBits leadingZeroBits]; [lia|]. rewrite IH.
  unfold LeadingZeros8, clz32. pose proof (Z.log2_nonneg (byte_to_Z b)).
  destruct (byte_to_Z b =? 0); [cbn; lia|]. replace (7 - Z.log2 (byte_to_Z b) <? 8) with true by lia. lia.
Qed.

(** The client's check is the server's. *)
Lemma verifyPow_agree id nonce d : js_verifyPow id nonce d = verifyPoW id (Itoa nonce) d.
Proof. unfold js_verifyPow, verifyPoW. by rewrite leading_bits_agree. Qed.

Lemma solve_loop_spec id d fuel : forall n,
  match solve_loop id d fuel n with
  | Some (m, digest) => n <= m < n + Z.of_nat fuel /\ digest = sha256 (string_bytes (id +:+ Itoa m)) /\ verifyPoW id (Itoa m) d = true
      /\ forall k, n <= k < m -> verifyPoW id (Itoa k) d = false
  | None => forall k, n <= k < n + Z.of_nat fuel -> verifyPoW id (Itoa k) d = false
  end.
Proof.
  induction fuel as [|fuel IH]; intros n; cbn [solve_loop]; [intros k Hk; lia|]. fold (js_verifyPow id n d). rewrite verifyPow_agree.
  destruct (verifyPoW id (Itoa n) d) eqn:E; [split_and!; [lia|lia|done|done|intros k Hk; lia]|]. specialize (IH (n + 1)).
  assert (Hstep : forall k hi, n <= k < hi -> (n + 1 <= k < hi -> verifyPoW id (Itoa k) d = false) -> verifyPoW id (Itoa k) d = false).
  { intros k hi Hk Hr. destruct (decide (k = n)) as [->|]; [done|]. apply Hr. lia. }
  destruct (solve_loop id d fuel (n + 1)) as [[m digest]|].
  - destruct IH as (H1 & H2 & H3 & H4). split_and!; [lia|lia|done|done|]. intros k Hk. apply (Hstep k m Hk). intros. by apply H4.
  - intros k Hk. apply (Hstep k (n + 1 + Z.of_nat fuel)); [lia|]. intros. by apply IH.
Qed.

(** C23: the bundled client's solver and the server agree: for every challenge, difficulty from 0 to 256 and bound on the
    nonces, the solver ends, with the least nonce whose text the server accepts as a proof of work and the hash of that
    attempt, or, when no nonce up to the bound is one, with the error that says so. *)
Theorem solver_agrees id d max_nonce dur :
  0 <= d <= 256 -> 0 <= max_nonce ->
  match solvePow id (Some d) (Some max_nonce) dur with
  | inr p => exists n, 0 <= n <= max_nonce /\ po_nonce p = Itoa n /\ po_hash p = hex (sha256 (string_bytes (id +:+ po_nonce p)))
      /\ verifyPoW id (po_nonce p) d = true /\ forall k, 0 <= k < n -> verifyPoW id (Itoa k) d = false
  | inl e => e = "pow_nonce_exhausted" /\ forall k, 0 <= k <= max_nonce -> verifyPoW id (Itoa k) d = false
  end.
Proof.
  intros Hd Hm. unfold solvePow. replace ((d <? 0) || (256 <? d)) with false by lia. cbn [default from_option].
  pose proof (solve_loop_spec id d (Z.to_nat (max_nonce + 1)) 0) as Hs. destruct (solve_loop _ _ _ _) as [[n digest]|]; cbn.
  - destruct Hs as (H1 & -> & H2 & H3). exists n. split_and!; [lia|lia|done..].
  - split; [done|]. intros k Hk. apply Hs. lia.
Qed.

Example solve_abc : map (fun bound => match solvePow "abc" (Some 3) (Some bound) "12.5" with inr p => po_nonce p | inl e => e end) [18; 20]
  = ["pow_nonce_exhausted"; "19"].
Proof. vm_compute. reflexivity. Qed.

Lemma solver_agrees_witness :
  match solvePow "abc" (Some 3) (Some 20) "12.5" with
  | inr p => verifyPoW "abc" (po_nonce p) 3 = true
  | inl _ => forall k, 0 <= k <= 20 -> verifyPoW "abc" (Itoa k) 3 = false
  end.
Proof.
  pose proof (solver_agrees "abc" 3 20 "12.5" ltac:(lia) ltac:(lia)) as Hs.
  destruct (solvePow "abc" (Some 3) (Some 20) "12.5") as [e|p]; [exact (proj2 Hs)|]. by destruct Hs as (n & _ & _ & _ & Hv & _).
Defined.

Section handlers.
Context `{LRU Z} `{JWT}.

(** The verification handler never accepts what the bundled client posts: its proof of work is an object where the
    handler expects a string, so every such body, whatever the solution, the report and the identifier, is answered
    with 400 and changes nothing. *)
Theorem bundled_client_rejected now r body s p report id :
  r_Method r = "POST" -> json_first body = Some (VerifyPayload p report id) ->
  HandleVerify now r body s = (Ok (ReplyError 400 "bad request"), s).
Proof.
  intros Hm Hb. unfold HandleVerify. rewrite Hm. cbn [String.eqb Ascii.eqb Bool.eqb negb].
  assert (Hd : Decode verifyRequest_codec body = None) by (unfold Decode; rewrite Hb; reflexivity). by rewrite Hd.
Qed.

(** C19: a beacon survives the wire: the encoded text of a well-formed beacon, posted with anything after it that does
    not continue a number, is answered 204, and the store then finds exactly that beacon under its session and under
    the client's address.  Every key holds between 1 and 100 beacons, none older than five minutes at the time of the
    write, and the beacons of other addresses are only pruned. *)
Theorem beacon_delivered t0 t1 t2 r b rest s st :
  r_Method r = "POST" -> good BehaviorBeacon_codec b -> stops rest ->
  s_beacon s = Some st -> store_ok st -> t0 <= t1 -> t0 <= t2 ->
  let host := host_of (r_RemoteAddr r) in
  exists body s' st', Encode BehaviorBeacon_codec b = Some body
    /\ HandleBeacon t0 t1 t2 r (body ++ rest) s = (ReplyEmpty 204, s')
    /\ s_beacon s' = Some st' /\ store_ok st' /\ store_fresh (t0 - beaconMaxAge) st'
    /\ GetBySession (bb_SessionID b) st' = Some b /\ GetByIP host st' = Some b
    /\ forall ip, ip <> host -> bs_byIP st' !! ip = pruneBeaconMap (bs_byIP st) (t0 - beaconMaxAge) !! ip.
Proof.
  intros Hm Hg Hr Hs Hok H1 H2 host.
  destruct (Encode_Decode BehaviorBeacon_codec ltac:(vm_compute; lia) b rest Hg Hr) as (body & He & Hd & _).
  exists body, (MkService (s_issuer s) (s_tokenIssuer s) (s_denyThreshold s) (s_cookieTTL s) (Some (IngestFromRequest t0 t1 t2 r b st))).
  eexists. split; [exact He|]. unfold HandleBeacon. rewrite Hm, Hd, Hs. split; [reflexivity|]. split; [reflexivity|].
  exact (ingest_window t0 t1 t2 r b st Hok H1 H2).
Qed.
End handlers.

(** ** Witnesses *)
#[local] Existing Instance toy_jwt.
#[local] Existing Instance list_lru.

Ltac check_good :=
  repeat match goal with
  | |- good _ _ => cbn
  | |- _ /\ _ => split
  | |- Forall _ _ => constructor
  | |- good_map _ _ => red
  | |- map_Forall _ _ => first [apply map_Forall_empty | apply map_Forall_insert_2; [split|] | apply map_Forall_singleton; split]
  end; first [exact I | vm_compute; reflexivity | vm_compute; split; congruence | eexists; vm_compute; reflexivity].

Definition client_request (path : string) : Request :=
  MkRequest "POST" (Some (MkURL "" "" path "")) 1 1 ∅ "example.org" "203.0.113.7:4000" [].
Definition client_service : Service (H := list_lru (V := Z)) :=
  MkService (H := list_lru (V := Z)) (NewChallengeIssuer (H := list_lru (V := Z)) 4) (NewIssuer [] 0 []) 80 0 (Some NewBeaconStore).
Definition client_body : list byte :=
  json_print (VerifyPayload (MkPowSolution "252" "00ab" "4" "12.5") (JObj []) "abc").

Lemma bundled_client_rejected_witness :
  HandleVerify 5 (client_request "/__as/verify") client_body client_service = (Ok (ReplyError 400 "bad request"), client_service).
Proof.
  apply (bundled_client_rejected (H := list_lru (V := Z)) 5 (client_request "/__as/verify") client_body client_service
    (MkPowSolution "252" "00ab" "4" "12.5") (JObj []) "abc"); vm_compute; reflexivity.
Defined.

Lemma beacon_delivered_witness :
  exists body s' st', Encode BehaviorBeacon_codec sample_beacon = Some body
    /\ HandleBeacon 5 5 6 (client_request "/__as/beacon") (body ++ []) client_service = (ReplyEmpty 204, s')
    /\ s_beacon s' = Some st' /\ GetByIP "203.0.113.7" st' = Some sample_beacon.
Proof.
  destruct (beacon_delivered (H := list_lru (V := Z)) 5 5 6 (client_request "/__as/beacon") sample_beacon [] client_service NewBeaconStore)
    as (body & s' & st' & A & B & C & _ & _ & _ & D & _);
    [reflexivity|check_good|exact I|reflexivity|split; apply map_Forall_empty|lia|lia|].
  exact (ex_intro _ body (ex_intro _ s' (ex_intro _ st' (conj A (conj B (conj C D)))))).
Defined.
