(* ===== verification/Headers.v ===== *)
(** * The header collector ([internal/signal/headers])

    Header order, client hints, Sec-Fetch validation, the browserforge quirk and the per-address
    sliding window of Google referers. *)

From Stdlib Require Import SpecFloat.
From stdpp Require Import relations.
From S2P Require Import Prelude Interleave GoStrings GoStd GoUrl Types.
#[local] Open Scope Z_scope.

(** ** order.go *)
Definition chromeOrder : list string := [
  "host"; "connection"; "sec-ch-ua"; "sec-ch-ua-mobile"; "sec-ch-ua-platform"; "upgrade-insecure-requests";
  "user-agent"; "accept"; "sec-fetch-site"; "sec-fetch-mode"; "sec-fetch-user"; "sec-fetch-dest";
  "accept-encoding"; "accept-language"].
Definition firefoxOrder : list string := [
  "host"; "user-agent"; "accept"; "accept-language"; "accept-encoding"; "connection"; "upgrade-insecure-requests";
  "sec-fetch-dest"; "sec-fetch-mode"; "sec-fetch-site"; "sec-fetch-user"].
Definition safariOrder : list string := [
  "host"; "connection"; "accept"; "user-agent"; "accept-language"; "accept-encoding"].

(** The map's values; the loop over them only asks whether one matches, so their order is
    irrelevant. *)
Definition canonicalOrders : list (list string) := [chromeOrder; firefoxOrder; safariOrder].

Definition canonicalMatchThreshold : spec_float := f64_div (f64_of_Z 6) (f64_of_Z 10).

Definition lowerHeader (name : string) : string := ToLower name.

(** The loop with its index [ci]. *)
Fixpoint subsequence_loop (observed canonical : list string) (ci : Z) : outcome Z :=
  match observed with
  | [] => Ok ci
  | h :: observed =>
      if len canonical <=? ci then Ok ci
      else
        c ← index canonical ci;
        subsequence_loop observed canonical (if String.eqb h c then ci + 1 else ci)
  end.

Definition subsequenceScore (observed canonical : list string) : outcome Z := subsequence_loop observed canonical 0.

Definition match_threshold (canonical : list string) : Z :=
  f64_trunc (f64_mul (f64_of_Z (len canonical)) canonicalMatchThreshold).

Fixpoint matches_any (normalized : list string) (orders : list (list string)) : outcome bool :=
  match orders with
  | [] => Ok false
  | canonical :: orders =>
      score ← subsequenceScore normalized canonical;
      if match_threshold canonical <=? score then Ok true else matches_any normalized orders
  end.

Definition MatchesAnyCanonical (observedOrder : list string) : outcome bool :=
  matches_any (map lowerHeader observedOrder) canonicalOrders.

Definition IsOrderAnomaly (observedOrder : list string) : outcome (bool * string) :=
  matched ← MatchesAnyCanonical observedOrder;
  if matched : bool then Ok (false, EmptyString)
  else if len observedOrder <? 8
  then Ok (true, "fewer than 8 headers and no browser canonical pattern matched")
  else Ok (true, "header order does not match any known browser canonical sequence").

(** ** clienthints.go *)

(** The longest prefix of decimal digits. *)
Fixpoint digits_prefix (s : string) : string :=
  match s with
  | String c s => if is_digit c then String c (digits_prefix s) else EmptyString
  | EmptyString => EmptyString
  end.

(** The leftmost match of the pattern [Chrome/(\d+)]: its group. *)
Fixpoint chromeVersionRE (s : string) : option string :=
  let here :=
    if HasPrefix s "Chrome/" then
      let d := digits_prefix (sdrop 7 s) in
      if String.eqb d EmptyString then None else Some d
    else None in
  match here with
  | Some d => Some d
  | None => match s with EmptyString => None | String _ s => chromeVersionRE s end
  end.

(** The text up to the next double quote, when there is one. *)
Definition until_quote (s : string) : option (string * string) := Cut (ascii_of_byte (byte_of_Z 34)) s.

(** A match of the brand pattern at the start of [s]: brand, version and rest.  The pattern is a
    quoted non-empty brand without quotes, then [;v=] and a quoted number. *)
Definition brand_here (s : string) : option (string * string * string) :=
  if HasPrefix s dquote then
    '(brand, s) ← until_quote (sdrop 1 s);
    if String.eqb brand EmptyString then None
    else if HasPrefix s (";v=" +:+ dquote) then
      let s := sdrop 4 s in
      let d := digits_prefix s in
      let s := sdrop (String.length d) s in
      if String.eqb d EmptyString then None
      else if HasPrefix s dquote then Some (brand, d, sdrop 1 s) else None
    else None
  else None.

(** [brandVersionRE.FindAllStringSubmatch(value, -1)]: successive leftmost matches. *)
Fixpoint brandVersionRE (fuel : nat) (s : string) : list (string * string) :=
  match fuel with
  | O => []
  | S fuel =>
      match brand_here s with
      | Some (brand, ver, rest) => (brand, ver) :: brandVersionRE fuel rest
      | None => match s with EmptyString => [] | String _ s => brandVersionRE fuel s end
      end
  end.

Definition parseSECCHUA (value : string) : gmap string string :=
  fold_left (fun brands '(b, v) => <[b := v]> brands) (brandVersionRE (S (String.length value)) value) ∅.

Definition chromeBrands : list string := ["Google Chrome"; "Chromium"; "Microsoft Edge"].

Definition extractChromeVersion (ua : string) : string := default EmptyString (chromeVersionRE ua).

(** [iter] is the order in which a Go map is ranged over. *)
Section client_hints.
  Context (iter : gmap string string -> list (string * string)).

Definition brand_mismatch (chromeVer : string) (bv : string * string) : bool :=
  bool_decide (bv.1 ∈ chromeBrands) && negb (String.eqb bv.2 EmptyString) && negb (String.eqb bv.2 chromeVer).

Definition CheckUACHConsistency (h : Header) : bool * string :=
  let ua := header_Get h "User-Agent" in
  let secCHUA := header_Get h "Sec-Ch-Ua" in
  let isChrome := bool_decide (is_Some (chromeVersionRE ua)) in
  let uaLower := ToLower ua in
  if negb (String.eqb secCHUA EmptyString) && negb isChrome
     && (Contains uaLower "firefox" || Contains uaLower "safari")
  then (true, "sec-ch-ua present but User-Agent is Firefox or Safari (these browsers do not send Client Hints)")
  else if negb (String.eqb secCHUA EmptyString) && isChrome then
    let brands := parseSECCHUA secCHUA in
    let chromeVer := extractChromeVersion ua in
    if negb (String.eqb chromeVer EmptyString) then
      match List.find (brand_mismatch chromeVer) (iter brands) with
      | Some (_, ver) =>
          (true, "sec-ch-ua Chrome brand version (" +:+ ver +:+ ") does not match User-Agent Chrome/" +:+ chromeVer)
      | None => (false, EmptyString)
      end
    else (false, EmptyString)
  else (false, EmptyString).
End client_hints.

(** ** secfetch.go *)
Definition validSecFetchSite : list string := ["cross-site"; "same-origin"; "same-site"; "none"].
Definition validSecFetchMode : list string := ["cors"; "navigate"; "no-cors"; "same-origin"; "websocket"].
Definition validSecFetchDest : list string := [
  "audio"; "audioworklet"; "document"; "embed"; "empty"; "font"; "frame"; "iframe"; "image"; "manifest"; "object";
  "paintworklet"; "report"; "script"; "serviceworker"; "sharedworker"; "style"; "track"; "video"; "worker"; "xslt"].

Definition headerVal (h : Header) (name : string) : string := header_Get h name.

Definition invalid_value (v : string) (valid : list string) : bool :=
  negb (String.eqb v EmptyString) && negb (bool_decide (v ∈ valid)).

Definition ValidateSecFetch (h : Header) : bool * string :=
  let site := headerVal h "Sec-Fetch-Site" in
  let mode := headerVal h "Sec-Fetch-Mode" in
  let dest := headerVal h "Sec-Fetch-Dest" in
  let user := headerVal h "Sec-Fetch-User" in
  if String.eqb site EmptyString && String.eqb mode EmptyString && String.eqb dest EmptyString
     && String.eqb user EmptyString
  then (false, EmptyString)
  else if invalid_value site validSecFetchSite
  then (true, "Sec-Fetch-Site value '" +:+ site +:+ "' is not a valid W3C Fetch spec value")
  else if invalid_value mode validSecFetchMode
  then (true, "Sec-Fetch-Mode value '" +:+ mode +:+ "' is not a valid W3C Fetch spec value")
  else if invalid_value dest validSecFetchDest
  then (true, "Sec-Fetch-Dest value '" +:+ dest +:+ "' is not a valid W3C Fetch spec value")
  else if invalid_value user ["?1"]
  then (true, "Sec-Fetch-User value '" +:+ user +:+ "' is not valid (only '?1' is allowed)")
  else if String.eqb site "none" && negb (String.eqb (header_Get h "Referer") EmptyString)
  then (true, "Sec-Fetch-Site is 'none' but Referer header is present (cross-header inconsistency)")
  else (false, EmptyString).

(** ** quirks.go *)
Definition DetectBrowserForgeQuirk (h : Header) : bool * string :=
  let site := header_Get h "Sec-Fetch-Site" in
  if String.eqb site "?0" || String.eqb site "?1"
  then (true, "browserforge quirk: Sec-Fetch-Site has boolean-style value '" +:+ site
              +:+ "' (spec requires: none|same-origin|same-site|cross-site)")
  else (false, EmptyString).

(** ** referer.go *)
Record ipWindow := MkIPWindow {
  iw_buf : list bool; iw_pos : Z; iw_filled : bool; iw_windowSize : Z; iw_threshold : spec_float
}.

Definition newIPWindow (windowSize : Z) (threshold : spec_float) : ipWindow :=
  MkIPWindow (replicate (Z.to_nat windowSize) false) 0 false windowSize threshold.

Definition count_true (l : list bool) : Z := len (List.filter (fun b => b) l).

Definition observe (isGoogle : bool) (w : ipWindow) : outcome (bool * ipWindow) :=
  _ ← index (iw_buf w) (iw_pos w);
  let buf := <[Z.to_nat (iw_pos w) := isGoogle]> (iw_buf w) in
  let pos := iw_pos w + 1 in
  let '(pos, filled) := if iw_windowSize w <=? pos then (0, true) else (pos, iw_filled w) in
  let w' := MkIPWindow buf pos filled (iw_windowSize w) (iw_threshold w) in
  let n := if filled then iw_windowSize w else pos in
  if n <? 5 then Ok (false, w')
  else
    seen ← slice buf 0 n;
    Ok (f64_lt (iw_threshold w) (f64_div (f64_of_Z (count_true seen)) (f64_of_Z n)), w').

Record RefererTracker := MkRefererTracker {
  rt_windows : gmap string ipWindow; rt_windowSize : Z; rt_threshold : spec_float
}.

Definition NewRefererTracker (windowSize : Z) (threshold : spec_float) : RefererTracker :=
  MkRefererTracker ∅ windowSize threshold.

Definition isGoogleReferer (referer : string) : bool :=
  if String.eqb referer EmptyString then false
  else
    match url_Parse_Host referer with
    | None => false
    | Some h =>
        let host := ToLower h in
        let host := match LastIndexByte ":" host with Some i => stake i host | None => host end in
        Contains ("." +:+ host +:+ ".") ".google."
    end.

Definition Observe (ip referer : string) (t : RefererTracker) : outcome (bool * RefererTracker) :=
  let w := default (newIPWindow (rt_windowSize t) (rt_threshold t)) (rt_windows t !! ip) in
  '(alert, w) ← observe (isGoogleReferer referer) w;
  Ok (alert, MkRefererTracker (<[ip := w]> (rt_windows t)) (rt_windowSize t) (rt_threshold t)).

(** ** collector.go *)
Definition scoreHeaderOrderAnomaly : Z := 20.
Definition scoreUACHMismatch : Z := 25.
Definition scoreSecFetchInvalid : Z := 15.
Definition scoreBrowserForgeQuirk : Z := 40.
Definition scoreGoogleRefererAnomaly : Z := 10.

Definition headers_threshold : spec_float := f64_div (f64_of_Z 8) (f64_of_Z 10).
Definition NewHeadersCollector : RefererTracker := NewRefererTracker 100 headers_threshold.

Definition signal_if (found : bool * string) (name : string) (score : Z) : list Signal :=
  if found.1 then [MkSignal name score found.2 ∅] else [].

Section collector.
  Context (iter : gmap string string -> list (string * string)).

(** A nil request is dereferenced, so it panics. *)
Definition headers_Collect (ctx : RequestContext) (t : RefererTracker) : collect_out * RefererTracker :=
  match IsOrderAnomaly (rq_HeaderOrder ctx), rq_Request ctx with
  | Ok anomaly, Some req =>
      let h := r_Header req in
      let out :=
        signal_if anomaly "header_order_anomaly" scoreHeaderOrderAnomaly
        ++ signal_if (CheckUACHConsistency iter h) "ua_ch_mismatch" scoreUACHMismatch
        ++ signal_if (ValidateSecFetch h) "secfetch_invalid" scoreSecFetchInvalid
        ++ signal_if (DetectBrowserForgeQuirk h) "browserforge_quirk" scoreBrowserForgeQuirk in
      match Observe (rq_RemoteIP ctx) (header_Get h "Referer") t with
      | Ok (alert, t) =>
          (Ok (out ++ signal_if (alert, "Google referer ratio exceeds 80% over the last 100 requests from this IP")
                        "google_referer_anomaly" scoreGoogleRefererAnomaly, None), t)
      | Err e => (Err e, t)
      | Panic => (Panic, t)
      end
  | _, _ => (Panic, t)
  end.

Definition headers_collector : SignalCollector := MkCollector "headers" RefererTracker headers_Collect.
End collector.

Example parseSECCHUA_ex :
  brandVersionRE 99 (ReplaceAll "`Chromium`;v=`131`, `Not A;Brand`;v=`24`, ``;v=`1`" "`" dquote)
  = [("Chromium", "131"); ("Not A;Brand", "24")].
Proof. vm_compute. reflexivity. Qed.
Example isGoogleReferer_ex :
  map isGoogleReferer ["https://www.google.co.uk:443/search"; "https://notgoogle.com/"; "google.com"] = [true; false; false].
Proof. vm_compute. reflexivity. Qed.

(** ** Header order: what counts as a browser's *)

(** The greedy subsequence count, as a function of the two lists. *)
Fixpoint greedy (observed canonical : list string) : Z :=
  match observed, canonical with
  | h :: observed, c :: canonical' =>
      if String.eqb h c then 1 + greedy observed canonical' else greedy observed canonical
  | _, _ => 0
  end.

Lemma subsequence_loop_greedy observed canonical ci :
  0 <= ci -> subsequence_loop observed canonical ci = Ok (ci + greedy observed (drop (Z.to_nat ci) canonical)).
Proof.
  revert ci. induction observed as [|h observed IH]; intros ci Hci; [cbn; f_equal; lia|]. cbn [subsequence_loop].
  destruct (Z.leb_spec (len canonical) ci) as [Hle|Hlt].
  - rewrite drop_ge by (unfold len in Hle; lia). cbn. f_equal. lia.
  - destruct (index_ok canonical ci) as (c & Hi & Hc); [lia|]. rewrite Hi. cbn [mbind outcome_bind].
    rewrite (drop_S _ _ _ Hc). cbn [greedy]. destruct (String.eqb h c).
    + rewrite IH by lia. replace (Z.to_nat (ci + 1)) with (S (Z.to_nat ci)) by lia. f_equal. lia.
    + rewrite IH by lia. by rewrite (drop_S _ _ _ Hc).
Qed.

Lemma greedy_nonneg o c : 0 <= greedy o c.
Proof. revert c. induction o as [|h o IH]; intros [|x c]; cbn; try lia. case_match; [specialize (IH c); lia|apply IH]. Qed.

Lemma sublist_cons_eq {A} (x : A) (l k : list A) : (x :: l) `sublist_of` (x :: k) <-> l `sublist_of` k.
Proof.
  split; [|by constructor]. intros H. inversion H; subst; [done|]. etrans; [|eassumption]. by constructor.
Qed.

Lemma greedy_ge observed canonical k :
  (k <= length canonical)%nat -> Z.of_nat k <= greedy observed canonical <-> take k canonical `sublist_of` observed.
Proof.
  revert canonical k. induction observed as [|h observed IH]; intros canonical k Hk.
  - destruct k as [|k], canonical as [|c canonical]; cbn in *; try lia; split; try (intros; lia); try (intros; constructor).
    intros H. inversion H.
  - destruct k as [|k].
    { cbn [take]. split; [intros _; apply sublist_nil_l|intros _; pose proof (greedy_nonneg (h :: observed) canonical); lia]. }
    destruct canonical as [|c canonical]; [cbn in Hk; lia|]. cbn [take greedy length] in *.
    destruct (String.eqb_spec h c) as [->|Hne].
    + rewrite sublist_cons_eq, <- IH by lia. lia.
    + rewrite (IH (c :: canonical) (S k)) by (cbn; lia). cbn [take]. split; [by constructor|].
      intros H. inversion H; subst; done.
Qed.

(** The first headers of each browser's list that have to be there, in order. *)
Definition required (canonical : list string) : list string := take (Z.to_nat (match_threshold canonical)) canonical.

Lemma matches_any_spec normalized orders :
  Forall (fun c => 0 <= match_threshold c <= len c) orders ->
  exists b, matches_any normalized orders = Ok b
    /\ (b = true <-> exists c, c ∈ orders /\ required c `sublist_of` normalized).
Proof.
  induction orders as [|c orders IH]; intros Ho.
  { exists false. split; [done|]. split; [done|]. intros (c & Hc & _). by apply elem_of_nil in Hc. }
  apply Forall_cons in Ho as [Hc Ho]. destruct (IH Ho) as (b & Hb & Hiff).
  cbn [matches_any]. unfold subsequenceScore. rewrite subsequence_loop_greedy by lia. cbn [mbind outcome_bind].
  change (Z.to_nat 0) with 0%nat. rewrite drop_0, Z.add_0_l.
  pose proof (greedy_ge normalized c (Z.to_nat (match_threshold c)) ltac:(unfold len in Hc; lia)) as Hg.
  rewrite Z2Nat.id in Hg by lia.
  destruct (Z.leb_spec (match_threshold c) (greedy normalized c)) as [Hle|Hlt].
  - exists true. split; [done|]. split; [|done]. intros _. exists c. split; [set_solver|by apply Hg].
  - exists b. split; [done|]. rewrite Hiff. split.
    + intros (c' & Hin & Hs). exists c'. split; [set_solver|done].
    + intros (c' & [->|Hin]%elem_of_cons & Hs); [|by exists c']. apply Hg in Hs. lia.
Qed.

Lemma thresholds_ok : Forall (fun c => 0 <= match_threshold c <= len c) canonicalOrders.
Proof. repeat (apply Forall_cons; split); [vm_compute; split; discriminate..|constructor]. Qed.

Lemma IsOrderAnomaly_ok observed : exists a, IsOrderAnomaly observed = Ok a.
Proof.
  unfold IsOrderAnomaly, MatchesAnyCanonical.
  destruct (matches_any_spec (map lowerHeader observed) canonicalOrders thresholds_ok) as (b & -> & _).
  cbn [mbind outcome_bind]. destruct b; [|case_match]; by eexists.
Qed.

(** C31: a header order is accepted exactly when, in lower case, it has one of these in order: the
    first eight headers of Chrome's list, the first six of Firefox's or the first three of
    Safari's.  In particular the check never panics, every accepted order contains Host, and a request
    whose order was not recorded is reported. *)
Theorem order_anomaly_iff observed :
  exists anomaly reason, IsOrderAnomaly observed = Ok (anomaly, reason)
  /\ (anomaly = false <->
      let normalized := map lowerHeader observed in
      take 8 chromeOrder `sublist_of` normalized \/ take 6 firefoxOrder `sublist_of` normalized
      \/ take 3 safariOrder `sublist_of` normalized)
  /\ (anomaly = false -> "host" ∈ map lowerHeader observed).
Proof.
  unfold IsOrderAnomaly, MatchesAnyCanonical.
  destruct (matches_any_spec (map lowerHeader observed) canonicalOrders thresholds_ok) as (b & -> & Hiff).
  cbn [mbind outcome_bind]. set (normalized := map lowerHeader observed) in *.
  assert (H8 : required chromeOrder = take 8 chromeOrder) by (vm_compute; reflexivity).
  assert (H6 : required firefoxOrder = take 6 firefoxOrder) by (vm_compute; reflexivity).
  assert (H3 : required safariOrder = take 3 safariOrder) by (vm_compute; reflexivity).
  assert (Hb : b = true <-> take 8 chromeOrder `sublist_of` normalized \/ take 6 firefoxOrder `sublist_of` normalized
      \/ take 3 safariOrder `sublist_of` normalized).
  { rewrite Hiff, <- H8, <- H6, <- H3. unfold canonicalOrders. split.
    - intros (c & Hc & Hs). rewrite !elem_of_cons, elem_of_nil in Hc.
      destruct Hc as [->|[->|[->|[]]]]; [left|right; left|right; right]; exact Hs.
    - intros [?|[?|?]]; [exists chromeOrder|exists firefoxOrder|exists safariOrder]; (split; [unfold canonicalOrders; rewrite !elem_of_cons; tauto|assumption]). }
  assert (Hhost : b = true -> "host" ∈ normalized).
  { intros [H|[H|H]]%Hb; (eapply sublist_subseteq; [exact H|]); by left. }
  clear H8 H6 H3 Hiff.
  destruct b; [|case_match]; eexists _, _; (split; [reflexivity|]); (split; [|intros Ha; (exact (Hhost eq_refl) || discriminate Ha)]);
    (split; intros Ha; [(exact (proj1 Hb eq_refl) || discriminate Ha)|]);
    first [reflexivity | apply Hb in Ha; discriminate Ha].
Qed.

(** ** The referer window *)
(** The answer the window owes for the recent observations. *)
Definition ratio_alert (threshold : spec_float) (recent : list bool) : bool :=
  if len recent <? 5 then false
  else f64_lt threshold (f64_div (f64_of_Z (count_true recent)) (f64_of_Z (len recent))).

(** The ring buffer holds the last observations, oldest at [pos] once it has wrapped. *)
Definition window_inv (size : nat) (threshold : spec_float) (hist : list bool) (w : ipWindow) : Prop :=
  exists p, iw_pos w = Z.of_nat p /\ (p < size)%nat /\ length (iw_buf w) = size
  /\ iw_windowSize w = Z.of_nat size /\ iw_threshold w = threshold
  /\ if iw_filled w
     then (size <= length hist)%nat /\ drop p (iw_buf w) ++ take p (iw_buf w) = lastn size hist
     else length hist = p /\ take p (iw_buf w) = hist.

Lemma newIPWindow_inv size threshold : (0 < size)%nat -> window_inv size threshold [] (newIPWindow (Z.of_nat size) threshold).
Proof. intros Hs. exists 0%nat. cbn. rewrite Nat2Z.id, length_replicate. split_and!; [done|lia|done..]. Qed.

Lemma count_true_perm l k : l ≡ₚ k -> count_true l = count_true k.
Proof. unfold count_true, len. induction 1; cbn; repeat case_match; cbn; lia. Qed.

(** The buffer after a write, as a list of the recent observations. *)
Lemma window_write size threshold hist w b p :
  window_inv size threshold hist w -> iw_pos w = Z.of_nat p ->
  drop (S p) (<[p := b]> (iw_buf w)) ++ take (S p) (<[p := b]> (iw_buf w)) = lastn size (hist ++ [b])
  \/ (iw_filled w = false /\ (S p < size)%nat).
Proof.
  intros (p' & Hp' & Hlt & Hlen & _ & _ & Hinv) Hp. assert (p' = p) as -> by lia. clear Hp'.
  rewrite take_S_insert, drop_insert_lt by lia. destruct (iw_filled w).
  - left. destruct Hinv as [Hs Hd]. rewrite app_assoc.
    destruct (lookup_lt_is_Some_2 (iw_buf w) p) as [x Hx]; [lia|].
    rewrite (drop_S _ _ _ Hx) in Hd. symmetry. by apply (lastn_snoc size hist x).
  - destruct Hinv as [Hl Ht]. destruct (decide (S p < size)%nat) as [|Hge]; [by right|]. left.
    rewrite drop_ge by lia. cbn [app]. rewrite Ht, lastn_all; [done|]. rewrite length_app. cbn. lia.
Qed.

Lemma observe_spec size threshold hist w b :
  window_inv size threshold hist w ->
  exists w', observe b w = Ok (ratio_alert threshold (lastn size (hist ++ [b])), w')
    /\ window_inv size threshold (hist ++ [b]) w'.
Proof.
  intros Hw. pose proof Hw as (p & Hp & Hlt & Hlen & Hws & Hth & Hinv).
  pose proof (window_write _ _ _ _ b p Hw Hp) as Hwr. set (buf := <[p := b]> (iw_buf w)) in *.
  assert (Hbl : length buf = size) by (unfold buf; by rewrite length_insert).
  unfold observe. destruct (index_ok (iw_buf w) (iw_pos w)) as (x & -> & _); [unfold len; lia|].
  cbn [mbind outcome_bind]. rewrite Hp, Nat2Z.id, Hws, Hth. fold buf.
  destruct (Z.leb_spec (Z.of_nat size) (Z.of_nat p + 1)) as [Hfull|Hnot].
  - (* the position wraps: the whole buffer is the window *)
    destruct Hwr as [Hwr|[_ ?]]; [|lia]. rewrite drop_ge, take_ge in Hwr by lia. cbn [app] in Hwr.
    exists (MkIPWindow buf 0 true (Z.of_nat size) threshold). split.
    + cbv iota beta zeta. unfold ratio_alert. rewrite <- Hwr. unfold len at 1. rewrite Hbl.
      destruct (Z.of_nat size <? 5); [done|].
      rewrite slice_0, take_ge by lia. cbn [mbind outcome_bind]. unfold len. by rewrite Hbl.
    + exists 0%nat. cbn [iw_pos iw_buf iw_windowSize iw_threshold iw_filled take].
      split; [done|]. split; [lia|]. split; [done|]. split; [done|]. split; [done|].
      rewrite drop_0, app_nil_r. split; [|done].
      destruct (iw_filled w); rewrite length_app; cbn; lia.
  - destruct (iw_filled w) eqn:Ef.
    + destruct Hwr as [Hwr|[? _]]; [|done]. destruct Hinv as [Hs _].
      exists (MkIPWindow buf (Z.of_nat (S p)) true (Z.of_nat size) threshold). split.
      * assert (Hll : length (lastn size (hist ++ [b])) = size)
          by (rewrite <- Hwr, length_app, length_drop, length_take; lia).
        unfold ratio_alert, len at 1. rewrite Hll. replace (Z.of_nat p + 1) with (Z.of_nat (S p)) by lia.
        cbv iota beta zeta. destruct (Z.of_nat size <? 5); [done|]. rewrite slice_0, take_ge by lia. cbn [mbind outcome_bind]. unfold len. rewrite Hll.
        rewrite (count_true_perm buf (lastn size (hist ++ [b]))); [done|].
        rewrite <- Hwr, Permutation_app_comm. by rewrite take_drop.
      * exists (S p). cbn [iw_pos iw_buf iw_windowSize iw_threshold iw_filled]. split; [done|]. split; [lia|].
        split; [done|]. split; [done|]. split; [done|]. split; [rewrite length_app; cbn; lia|done].
    + destruct Hinv as [Hl Ht]. exists (MkIPWindow buf (Z.of_nat (S p)) false (Z.of_nat size) threshold).
      assert (Htk : take (S p) buf = hist ++ [b]) by (unfold buf; rewrite take_S_insert by lia; by rewrite Ht).
      replace (Z.of_nat p + 1) with (Z.of_nat (S p)) by lia. split.
      * rewrite lastn_all by (rewrite length_app; cbn; lia). unfold ratio_alert, len at 1. rewrite length_app, Hl. cbn [length].
        replace (p + 1)%nat with (S p) by lia. cbv iota beta zeta. destruct (Z.of_nat (S p) <? 5); [done|].
        rewrite slice_0, Htk by lia. cbn [mbind outcome_bind]. unfold len. rewrite length_app, Hl. cbn [length].
        by replace (p + 1)%nat with (S p) by lia.
      * exists (S p). cbn [iw_pos iw_buf iw_windowSize iw_threshold iw_filled]. split; [done|]. split; [lia|].
        split; [done|]. split; [done|]. split; [done|]. split; [rewrite length_app; cbn; lia|done].
Qed.

(** The flags observed for one address in a trace of (address, referer) observations. *)
Definition flags_of (ip : string) (trace : list (string * string)) : list bool :=
  map (fun o => isGoogleReferer o.2) (List.filter (fun o => String.eqb o.1 ip) trace).

(** The answers of a tracker over a trace. *)
Fixpoint run_observations (t : RefererTracker) (trace : list (string * string)) : outcome (list bool) :=
  match trace with
  | [] => Ok []
  | (ip, referer) :: trace =>
      '(alert, t) ← Observe ip referer t;
      alerts ← run_observations t trace;
      Ok (alert :: alerts)
  end.

(** The answers it owes: each looks at the last [size] flags of its address. *)
Fixpoint expected_alerts (alert : list bool -> bool) (size : nat) (past trace : list (string * string)) : list bool :=
  match trace with
  | [] => []
  | o :: trace =>
      alert (lastn size (flags_of o.1 (past ++ [o]))) :: expected_alerts alert size (past ++ [o]) trace
  end.

Lemma flags_of_snoc ip past o :
  flags_of ip (past ++ [o]) = flags_of ip past ++ (if String.eqb o.1 ip then [isGoogleReferer o.2] else []).
Proof. unfold flags_of. rewrite List.filter_app, map_app. cbn. by case_match. Qed.

Definition tracker_inv (size : nat) (threshold : spec_float) (past : list (string * string)) (t : RefererTracker) : Prop :=
  rt_windowSize t = Z.of_nat size /\ rt_threshold t = threshold
  /\ forall ip, window_inv size threshold (flags_of ip past)
                  (default (newIPWindow (rt_windowSize t) (rt_threshold t)) (rt_windows t !! ip)).

Lemma Observe_spec size threshold past t o :
  tracker_inv size threshold past t ->
  exists t', Observe o.1 o.2 t = Ok (ratio_alert threshold (lastn size (flags_of o.1 (past ++ [o]))), t')
    /\ tracker_inv size threshold (past ++ [o]) t'.
Proof.
  intros (Hs & Ht & Hw). unfold Observe.
  destruct (observe_spec _ _ _ _ (isGoogleReferer o.2) (Hw o.1)) as (w' & -> & Hw').
  cbn [mbind outcome_bind]. rewrite flags_of_snoc, String.eqb_refl. eexists. split; [reflexivity|].
  split; [exact Hs|]. split; [exact Ht|]. intros ip. cbn [rt_windows rt_windowSize rt_threshold]. rewrite flags_of_snoc.
  destruct (String.eqb_spec o.1 ip) as [<-|Hne]; [by rewrite lookup_insert_eq|].
  rewrite lookup_insert_ne, app_nil_r by done. apply Hw.
Qed.

Lemma run_observations_spec size threshold past t trace :
  tracker_inv size threshold past t ->
  run_observations t trace = Ok (expected_alerts (ratio_alert threshold) size past trace).
Proof.
  revert past t. induction trace as [|[ip referer] trace IH]; intros past t Hinv; [done|]. cbn [run_observations].
  destruct (Observe_spec _ _ _ _ (ip, referer) Hinv) as (t' & Ho & Hinv'). cbn [fst snd] in Ho. rewrite Ho.
  cbn [mbind outcome_bind]. by rewrite (IH _ _ Hinv').
Qed.

(** Within a window of 100, the float comparison with 0.80 is the exact one. *)
Definition more_than_80_percent (recent : list bool) : bool :=
  (5 <=? len recent) && (4 * len recent <? 5 * count_true recent).

Definition ratio_cell (n c : nat) : bool :=
  Bool.eqb (f64_lt headers_threshold (f64_div (f64_of_Z (Z.of_nat c)) (f64_of_Z (Z.of_nat n))))
    (4 * Z.of_nat n <? 5 * Z.of_nat c).

Lemma ratio_table : forallb (fun n => forallb (ratio_cell n) (seq 0 (S n))) (seq 5 96) = true.
Proof. vm_compute. reflexivity. Qed.

Lemma ratio_cell_ok n c : (5 <= n <= 100)%nat -> (c <= n)%nat -> ratio_cell n c = true.
Proof.
  intros Hn Hc. pose proof (proj1 (forallb_forall _ _) ratio_table n) as H. rewrite in_seq in H.
  apply (proj1 (forallb_forall _ _) (H ltac:(lia))). apply in_seq. lia.
Qed.

Lemma ratio_alert_exact recent :
  (length recent <= 100)%nat -> ratio_alert headers_threshold recent = more_than_80_percent recent.
Proof.
  intros Hlen. unfold ratio_alert, more_than_80_percent.
  destruct (Z.ltb_spec (len recent) 5) as [H5|H5]; [by replace (5 <=? len recent) with false by lia|].
  replace (5 <=? len recent) with true by lia. cbn [andb].
  apply Bool.eqb_prop, ratio_cell_ok; [unfold len in H5; lia|]. apply List.filter_length_le.
Qed.

Lemma expected_alerts_ext f g size past trace :
  (forall l, (length l <= size)%nat -> f l = g l) ->
  expected_alerts f size past trace = expected_alerts g size past trace.
Proof.
  intros Hfg. revert past. induction trace as [|o trace IH]; intros past; [done|]. cbn [expected_alerts].
  rewrite IH, Hfg; [done|]. unfold lastn. rewrite length_drop. lia.
Qed.

Lemma tracker_start : tracker_inv 100 headers_threshold [] NewHeadersCollector.
Proof.
  split; [done|]. split; [done|]. intros ip. unfold NewHeadersCollector, NewRefererTracker.
  cbn [rt_windows rt_windowSize rt_threshold]. rewrite lookup_empty. apply (newIPWindow_inv 100). lia.
Qed.

(** One after the other, the referer tracker of the collector answers every observation, over any interleaving of
    addresses, from the last 100 referers of that address alone: it alerts exactly when there
    are at least five of them and more than four fifths are Google's (the float64 division and comparison are
    exact here). *)
Theorem referer_window trace :
  run_observations NewHeadersCollector trace = Ok (expected_alerts more_than_80_percent 100 [] trace).
Proof.
  rewrite (run_observations_spec 100 headers_threshold [] _ _ tracker_start).
  f_equal. apply expected_alerts_ext, ratio_alert_exact.
Qed.

(** ** Overlapping observations

    [Observe] reads the table under its read lock, creates a missing window under its write lock, looking again, and
    updates the window under the window's own lock. *)
Definition lookup_window (ip : string) (t : RefererTracker) : outcome (bool * RefererTracker) :=
  Ok (bool_decide (is_Some (rt_windows t !! ip)), t).
Definition create_window (ip : string) (t : RefererTracker) : outcome (unit * RefererTracker) :=
  Ok (tt, match rt_windows t !! ip with
          | Some _ => t
          | None => MkRefererTracker (<[ip := newIPWindow (rt_windowSize t) (rt_threshold t)]> (rt_windows t)) (rt_windowSize t) (rt_threshold t)
          end).
Definition update_window (ip referer : string) (t : RefererTracker) : outcome (bool * RefererTracker) :=
  match rt_windows t !! ip with
  | None => Panic
  | Some w =>
      '(alert, w) ← observe (isGoogleReferer referer) w;
      Ok (alert, MkRefererTracker (<[ip := w]> (rt_windows t)) (rt_windowSize t) (rt_threshold t))
  end.
Definition Observe_method (o : string * string) : method RefererTracker bool :=
  Locked (lookup_window o.1) (fun found =>
    let update := Locked (update_window o.1 o.2) Return in
    if found : bool then update else Locked (create_window o.1) (fun _ => update)).

Lemma Observe_method_alone ip referer t : uninterrupted (Observe_method (ip, referer)) t = Observe ip referer t.
Proof.
  cbn. unfold Observe. destruct (rt_windows t !! ip) as [w|] eqn:E.
  - rewrite bool_decide_true by done. cbn. unfold update_window. rewrite E. cbn. by destruct (observe _ w) as [[alert w']| |].
  - rewrite bool_decide_false by (by intros []). cbn. unfold create_window, update_window. rewrite E. cbn. rewrite lookup_insert_eq. cbn.
    destruct (observe _ _) as [[alert w']| |]; [|done..]. cbn. by rewrite insert_insert_eq.
Qed.

(** The abstract tracker: the observations so far. *)
Definition window_answers (o : string * string) (past : list (string * string)) (alert : bool) (past' : list (string * string)) : Prop :=
  past' = past ++ [o] /\ alert = more_than_80_percent (lastn 100 (flags_of o.1 past')).

Definition tracker_past (past : list (string * string)) (t : RefererTracker) : Prop := tracker_inv 100 headers_threshold past t.
Definition windows_kept (t t' : RefererTracker) : Prop := forall ip, is_Some (rt_windows t !! ip) -> is_Some (rt_windows t' !! ip).
#[local] Instance windows_kept_preorder : PreOrder windows_kept.
Proof. split; [by intros t ip|]. intros t1 t2 t3 H12 H23 ip Hi. by apply H23, H12. Qed.

Lemma windows_kept_insert ip w t :
  windows_kept t (MkRefererTracker (<[ip := w]> (rt_windows t)) (rt_windowSize t) (rt_threshold t)).
Proof. intros k Hk. cbn. destruct (decide (ip = k)) as [->|]; [by rewrite lookup_insert_eq|by rewrite lookup_insert_ne]. Qed.

Lemma update_sim o t :
  is_Some (rt_windows t !! o.1) -> sim window_answers tracker_past windows_kept o (Locked (update_window o.1 o.2) Return) None t.
Proof.
  intros Hw past s Hs Hk. destruct (Hk _ Hw) as [w Ew]. destruct (Observe_spec _ _ _ _ o Hs) as (s' & Eo & Hs').
  unfold Observe in Eo. rewrite Ew in Eo. cbn [default from_option id] in Eo.
  eexists _, s'. split; [unfold update_window; rewrite Ew; exact Eo|]. split.
  - destruct (observe (isGoogleReferer o.2) w) as [[alert w']| |]; [|done..]. injection Eo as _ <-. apply windows_kept_insert.
  - right. split; [done|]. eexists _, (past ++ [o]). split; [|by split]. split; [done|].
    apply ratio_alert_exact. unfold lastn. rewrite length_drop. lia.
Qed.

Lemma create_past ip past t : tracker_past past t ->
  exists t', create_window ip t = Ok (tt, t') /\ tracker_past past t' /\ windows_kept t t' /\ is_Some (rt_windows t' !! ip).
Proof.
  intros (Hs & Ht & Hw). unfold create_window. destruct (rt_windows t !! ip) as [w|] eqn:E.
  - exists t. split_and!; [done|by split|done|by eexists].
  - eexists. split; [done|]. split_and!; [|apply windows_kept_insert|cbn; by rewrite lookup_insert_eq].
    split; [done|]. split; [done|]. intros k. cbn. specialize (Hw k). destruct (decide (ip = k)) as [->|].
    + rewrite lookup_insert_eq. by rewrite E in Hw.
    + by rewrite lookup_insert_ne.
Qed.

Lemma Observe_sim o t : sim window_answers tracker_past windows_kept o (Observe_method o) None t.
Proof.
  intros past s Hs _. eexists _, s. split; [done|]. split; [done|]. left. split; [done|]. case_bool_decide as Hf.
  - by apply update_sim.
  - intros past1 s1 Hs1 _. destruct (create_past o.1 past1 s1 Hs1) as (s2 & E & Hs2 & Hk & Hi).
    exists tt, s2. split; [done|]. split; [done|]. left. split; [done|]. by apply update_sim.
Qed.

(** C30: the referer tracker of the collector is linearizable: however observations overlap, each is answered from the last
    100 referers of its address in one order of all observations that agrees with the order of the calls: it alerts
    exactly when there are at least five of them and more than four fifths are Google's (the float64 division and
    comparison are exact here), and no observation is lost or counted twice.  No call is ever stuck. *)
Theorem referer_linearizable w :
  rtc (ostep Observe_method) (begin NewHeadersCollector) w -> linearizable window_answers [] (w_hist w) /\ unblocked w.
Proof.
  intros Hw. destruct (sim_linearizable Observe_method window_answers tracker_past windows_kept Observe_sim [] NewHeadersCollector w)
    as (Hl & Hu & _); [apply tracker_start|done|by split].
Qed.

(** Two first observations of one address find no window, and both may create it. *)
Definition first_observations : list (obj_move (C := string * string)) :=
  [Invoke ("198.51.100.7", "https://www.google.com/"); Invoke ("198.51.100.7", "https://www.google.com/"); Step 0; Step 1; Step 0; Step 0;
   Step 1; Step 1; Step 1; Step 0].
Definition observed : world RefererTracker (string * string) bool :=
  reached Observe_method first_observations (begin NewHeadersCollector).

Lemma referer_linearizable_witness :
  linearizable window_answers [] (w_hist observed) /\ answers (w_hist observed) = [(1%nat, false); (0%nat, false)]
  /\ (iw_pos <$> rt_windows (w_state observed) !! "198.51.100.7") = Some 2.
Proof.
  split; [exact (proj1 (referer_linearizable observed (reached_steps _ _ _)))|]. split; vm_compute; reflexivity.
Defined.
