(* ===== verification/Observability.v ===== *)
(** * Audit log and probes ([internal/observability]: audit.go, health.go) *)

From S2P Require Import Prelude GoStrings GoStd Types.
#[local] Open Scope Z_scope.

(** ** audit.go *)
Record AuditEntry := MkAuditEntry {
  ae_Timestamp : Z; ae_RequestID : string; ae_IP : string; ae_URL : string; ae_Verdict : Verdict; ae_Score : Z;
  ae_Signals : list Signal; ae_Reasons : list string
}.

(** What a slot holds before it is written; [count] keeps these from being read, so the choice of
    the verdict is immaterial. *)
Definition zero_entry : AuditEntry := MkAuditEntry 0 EmptyString EmptyString EmptyString VerdictAllow 0 [] [].

Record Audit := MkAudit { au_buf : list AuditEntry; au_size : Z; au_head : Z; au_count : Z }.

Definition audit_size (size : Z) : Z := if size <=? 0 then 10000 else size.

Definition NewAudit (size : Z) : Audit :=
  let size := audit_size size in
  MkAudit (replicate (Z.to_nat size) zero_entry) size 0 0.

Definition Record_ (entry : AuditEntry) (a : Audit) : outcome Audit :=
  _ ← index (au_buf a) (au_head a);
  let buf := <[Z.to_nat (au_head a) := entry]> (au_buf a) in
  Ok (MkAudit buf (au_size a) (Z.rem (au_head a + 1) (au_size a))
        (if au_count a <? au_size a then au_count a + 1 else au_count a)).

(** The loop, [n] turns from [i]. *)
Fixpoint since_loop (n : nat) (i start t : Z) (a : Audit) : outcome (list AuditEntry) :=
  match n with
  | O => Ok []
  | S n =>
      e ← index (au_buf a) (Z.rem (start + i) (au_size a));
      out ← since_loop n (i + 1) start t a;
      Ok (if negb (ae_Timestamp e <? t) then e :: out else out)
  end.

Definition Since (t : Z) (a : Audit) : outcome (list AuditEntry) :=
  if au_count a =? 0 then Ok []
  else
    let start := if au_count a =? au_size a then au_head a else 0 in
    since_loop (Z.to_nat (au_count a)) 0 start t a.

(** [HTTPHandler]: the entries it encodes, for a URL's raw query; [time_Parse layout text] is [time.Parse] in
    nanoseconds. *)
Definition RFC3339 : string := "2006-01-02T15:04:05Z07:00".
Definition RFC3339Nano : string := "2006-01-02T15:04:05.999999999Z07:00".

Definition audit_cutoff (time_Parse : string -> string -> option Z) (now : Z) (rawQuery : string) : Z :=
  let cutoff := now - 24 * 3600 * 1000000000 in
  let s := query_Get rawQuery "since" in
  if String.eqb s EmptyString then cutoff
  else
    match time_Parse RFC3339Nano s with
    | Some t => t
    | None => match time_Parse RFC3339 s with Some t => t | None => cutoff end
    end.

Definition HTTPHandler (time_Parse : string -> string -> option Z) (now : Z) (rawQuery : string) (a : Audit)
    : outcome (list AuditEntry) := Since (audit_cutoff time_Parse now rawQuery) a.

(** ** health.go: readiness, initially false *)
Definition NewHealth : bool := false.
Definition Ready (ready : bool) : bool := ready.

Definition LivezHandler : Z * string := (200, "ok" +:+ String "010" EmptyString).
Definition ReadyzHandler (ready : bool) : Z * string :=
  if Ready ready then (200, "ok" +:+ String "010" EmptyString) else (503, "not ready" +:+ String "010" EmptyString).

(** ** logger.go: a logger, by its level and the attributes added to it; a context, by the logger it carries *)
Record Logger := MkLogger { lg_level : Z; lg_attrs : list (string * string) }.

Definition NewLogger (level : Z) : Logger := MkLogger level [].

(** [dflt] is [slog.Default()]. *)
Definition FromContext (dflt : Logger) (ctx : option Logger) : Logger := default dflt ctx.

Definition WithRequest (dflt : Logger) (ctx : option Logger) (requestID ip : string) : option Logger :=
  let logger := FromContext dflt ctx in
  Some (MkLogger (lg_level logger) (lg_attrs logger ++ [("request_id", requestID); ("ip", ip)])).

(** ** The log holds the latest entries *)
Fixpoint record_all (entries : list AuditEntry) (a : Audit) : outcome Audit :=
  match entries with
  | [] => Ok a
  | e :: entries => a ← Record_ e a; record_all entries a
  end.

(** The oldest entry is at [head] once the buffer is full. *)
Definition audit_inv (size : nat) (hist : list AuditEntry) (a : Audit) : Prop :=
  exists p, au_head a = Z.of_nat p /\ (p < size)%nat /\ length (au_buf a) = size /\ au_size a = Z.of_nat size
  /\ au_count a = Z.of_nat (Nat.min (length hist) size)
  /\ if decide (size <= length hist)%nat
     then drop p (au_buf a) ++ take p (au_buf a) = lastn size hist
     else length hist = p /\ take p (au_buf a) = hist.

Lemma NewAudit_inv size : 0 < audit_size size -> audit_inv (Z.to_nat (audit_size size)) [] (NewAudit size).
Proof.
  intros Hs. exists 0%nat. unfold NewAudit. cbn [au_head au_buf au_size au_count]. rewrite length_replicate.
  split; [done|]. split; [lia|]. split; [done|]. split; [lia|]. split; [cbn; lia|].
  case_decide; [cbn in *; lia|]. done.
Qed.

Lemma Record_spec size hist a e :
  audit_inv size hist a -> exists a', Record_ e a = Ok a' /\ audit_inv size (hist ++ [e]) a'.
Proof.
  intros (p & Hp & Hlt & Hlen & Hsz & Hc & Hinv). unfold Record_.
  destruct (index_ok (au_buf a) (au_head a)) as (x & -> & _); [unfold len; lia|]. cbn [mbind outcome_bind].
  rewrite Hp, Nat2Z.id, Hsz, Hc. eexists. split; [reflexivity|].
  assert (Hpos : Z.rem (Z.of_nat p + 1) (Z.of_nat size) = Z.of_nat (if decide (S p = size) then 0 else S p)).
  { destruct (decide (S p = size)) as [Hd|Hd]; [|rewrite Z.rem_small by lia; lia].
    replace (Z.of_nat p + 1) with (Z.of_nat size) by lia. by rewrite Z.rem_same by lia. }
  exists (if decide (S p = size) then 0 else S p)%nat. cbn [au_head au_buf au_size au_count].
  split; [exact Hpos|]. split; [destruct (decide (S p = size)); lia|]. split; [by rewrite length_insert|]. split; [done|].
  split; [rewrite length_app; cbn [length]; destruct (Z.ltb_spec (Z.of_nat (length hist `min` size)) (Z.of_nat size)); lia|].
  rewrite length_app. cbn [length]. set (buf := <[p := e]> (au_buf a)).
  assert (Hbl : length buf = size) by (unfold buf; by rewrite length_insert).
  assert (Htk : take (S p) buf = take p (au_buf a) ++ [e]) by (by apply take_S_insert; lia).
  assert (Hdr : drop (S p) buf = drop (S p) (au_buf a)) by (unfold buf; by rewrite drop_insert_lt by lia).
  destruct (decide (size <= length hist)%nat) as [Hfull|Hnot].
  - (* full before: the oldest entry is dropped *)
    rewrite decide_True by lia. destruct (lookup_lt_is_Some_2 (au_buf a) p) as [y Hy]; [lia|].
    rewrite (drop_S _ _ _ Hy) in Hinv. symmetry in Hinv. apply (lastn_snoc size hist y e) in Hinv; [|done].
    rewrite Hinv, <- app_assoc, <- Htk, <- Hdr. destruct (decide (S p = size)) as [Hd|Hd]; [|done].
    rewrite (drop_ge buf (S p)), drop_0, take_0, app_nil_r, take_ge by lia. done.
  - destruct Hinv as [Hl Ht]. destruct (decide (S p = size)) as [Hd|Hd].
    + rewrite decide_True by lia. rewrite drop_0, take_0, app_nil_r, lastn_all by (rewrite length_app; cbn; lia).
      rewrite <- Ht, <- Htk. by rewrite take_ge by lia.
    + rewrite decide_False by lia. split; [lia|]. by rewrite Htk, Ht.
Qed.

Lemma record_all_spec size entries hist a :
  audit_inv size hist a -> exists a', record_all entries a = Ok a' /\ audit_inv size (hist ++ entries) a'.
Proof.
  revert hist a. induction entries as [|e entries IH]; intros hist a Ha; cbn [record_all].
  - exists a. by rewrite app_nil_r.
  - destruct (Record_spec _ _ _ e Ha) as (a' & -> & Ha'). cbn [mbind outcome_bind].
    destruct (IH _ _ Ha') as (a'' & Hr & Ha''). exists a''. by rewrite <- app_assoc in Ha''.
Qed.

(** Reading [n] consecutive slots of the ring. *)
Lemma since_loop_spec n i start t a l :
  length l = n -> (forall j e, l !! j = Some e -> index (au_buf a) (Z.rem (start + (i + Z.of_nat j)) (au_size a)) = Ok e) ->
  since_loop n i start t a = Ok (List.filter (fun e => t <=? ae_Timestamp e) l).
Proof.
  revert i l. induction n as [|n IH]; intros i [|e l] Hl Hi; try discriminate Hl; [done|]. cbn [since_loop].
  pose proof (Hi 0%nat e eq_refl) as H0. rewrite Z.add_0_r in H0. rewrite H0. cbn [mbind outcome_bind].
  rewrite (IH _ l); [|by injection Hl|].
  - cbn. replace (negb (ae_Timestamp e <? t)) with (t <=? ae_Timestamp e) by lia. done.
  - intros j e' He. rewrite <- (Hi (S j) e' He). do 2 f_equal. lia.
Qed.

(** The ring read from its oldest entry. *)
Lemma ring_index {A} (l : list A) p j :
  (p < length l)%nat -> (j < length l)%nat ->
  (drop p l ++ take p l) !! j = l !! Z.to_nat (Z.rem (Z.of_nat p + Z.of_nat j) (Z.of_nat (length l))).
Proof.
  intros Hp Hj. destruct (decide (p + j < length l)%nat) as [Hlt|Hge].
  - rewrite lookup_app_l, lookup_drop by (rewrite length_drop; lia). rewrite Z.rem_small by lia. f_equal. lia.
  - rewrite lookup_app_r, length_drop by (rewrite length_drop; lia).
    rewrite lookup_take_lt by lia. f_equal. rewrite Z.rem_mod_nonneg by lia.
    rewrite <- (Z.mod_unique (Z.of_nat p + Z.of_nat j) (Z.of_nat (length l)) 1
      (Z.of_nat (p + j - length l))) by lia. lia.
Qed.

(** Reading the log. *)
Lemma Since_spec n entries a t :
  audit_inv n entries a -> Since t a = Ok (List.filter (fun e => t <=? ae_Timestamp e) (lastn n entries)).
Proof.
  intros (p & Hp & Hlt & Hlen & Hsz & Hc & Hinv). unfold Since. rewrite Hc, Hsz.
  destruct (decide (n <= length entries)%nat) as [Hfull|Hnot].
  - replace (Nat.min (length entries) n) with n by lia. replace (Z.of_nat n =? 0) with false by lia.
    rewrite Z.eqb_refl, Nat2Z.id, Hp, <- Hinv. apply since_loop_spec.
    + rewrite length_app, length_drop, length_take. lia.
    + intros j e He. apply lookup_lt_Some in He as Hj. rewrite length_app, length_drop, length_take in Hj.
      rewrite Z.add_0_l, Hsz, <- Hlen. apply index_lookup; [apply Z.rem_nonneg; lia|]. rewrite <- He. symmetry.
      apply ring_index; lia.
  - destruct Hinv as [Hl Ht]. replace (Nat.min (length entries) n) with p by lia.
    rewrite lastn_all by lia. destruct (Z.eqb_spec (Z.of_nat p) 0) as [H0|H0].
    { destruct entries; [done|cbn in Hl; lia]. }
    replace (Z.of_nat p =? Z.of_nat n) with false by lia. rewrite Nat2Z.id. apply since_loop_spec; [done|].
    intros j e He. apply lookup_lt_Some in He as Hj. rewrite !Z.add_0_l, Hsz, Z.rem_small by lia.
    apply index_lookup; [lia|]. rewrite Nat2Z.id. rewrite <- Ht in He. by rewrite lookup_take_lt in He by lia.
Qed.

(** After any sequence of records, the audit log answers [Since] with exactly the entries not
    older than the given time among the latest [size] recorded ones, in the order they were
    recorded; recording and reading never panic. *)
Theorem audit_since size entries t :
  let n := Z.to_nat (audit_size size) in
  exists a, record_all entries (NewAudit size) = Ok a
  /\ Since t a = Ok (List.filter (fun e => t <=? ae_Timestamp e) (lastn n entries)).
Proof.
  intros n. assert (Hs : 0 < audit_size size) by (unfold audit_size; destruct (Z.leb_spec size 0); lia).
  destruct (record_all_spec n entries [] _ (NewAudit_inv size Hs)) as (a & Hr & Ha). exists a. split; [exact Hr|].
  by apply Since_spec.
Qed.
