(* ===== verification/Metrics.v ===== *)
(** * Prometheus instrumentation ([internal/observability]: metrics.go)

    The Prometheus client library is a parameter: class [Prom] has the operations the package calls and
    [PromLaws] what its documentation says of them. *)

From S2P Require Import Prelude GoStrings GoStd Types Token JsonText Json.
#[local] Open Scope Z_scope.

(** ** The client library

    [WithLabelValues] panics on a wrong number of label values and on one that is not UTF-8;
    [MustRegister] on a metric registered before. *)
Class Prom := {
  registry : Type;
  CounterVec : Type;
  HistogramVec : Type;
  NewRegistry : registry;
  NewCounterVec : string -> string -> list string -> CounterVec;
  NewHistogramVec : string -> string -> list string -> HistogramVec;
  MustRegister : list string -> registry -> outcome registry;
  counter_Inc : list string -> CounterVec -> outcome CounterVec;
  histogram_Observe : list string -> spec_float -> HistogramVec -> outcome HistogramVec
}.

(** The label values a metric with the given label names accepts. *)
Definition labels_ok (names values : list string) : Prop :=
  length values = length names /\ Forall (fun v => valid_utf8 v = true) values.

Class PromLaws `{Prom} := {
  registered : registry -> list string;
  counter_labels : CounterVec -> list string;
  counter_value : CounterVec -> list string -> Z;
  histogram_labels : HistogramVec -> list string;
  histogram_count : HistogramVec -> list string -> Z;
  NewRegistry_ok : registered NewRegistry = [];
  NewCounterVec_ok name help labels :
    counter_labels (NewCounterVec name help labels) = labels
    /\ forall vs, counter_value (NewCounterVec name help labels) vs = 0;
  NewHistogramVec_ok name help labels :
    histogram_labels (NewHistogramVec name help labels) = labels
    /\ forall vs, histogram_count (NewHistogramVec name help labels) vs = 0;
  MustRegister_ok names r :
    NoDup (names ++ registered r) ->
    exists r', MustRegister names r = Ok r' /\ registered r' = registered r ++ names;
  counter_Inc_ok vs c :
    labels_ok (counter_labels c) vs ->
    exists c', counter_Inc vs c = Ok c' /\ counter_labels c' = counter_labels c
    /\ forall ws, counter_value c' ws = counter_value c ws + (if decide (ws = vs) then 1 else 0);
  histogram_Observe_ok vs x h :
    labels_ok (histogram_labels h) vs ->
    exists h', histogram_Observe vs x h = Ok h' /\ histogram_labels h' = histogram_labels h
    /\ forall ws, histogram_count h' ws = histogram_count h ws + (if decide (ws = vs) then 1 else 0)
}.

Section metrics.
Context `{Prom}.

(** ** metrics.go *)
Record Metrics := MkMetrics {
  m_reg : registry;
  m_decisionsTotal : CounterVec;
  m_decisionLatency : HistogramVec;
  m_signalsTotal : CounterVec;
  m_challengesTotal : CounterVec;
  m_passTokensTotal : CounterVec
}.

Definition metric_names : list string :=
  ["anti_scrapling_decisions_total"; "anti_scrapling_decision_latency_seconds"; "anti_scrapling_signals_total";
   "anti_scrapling_challenges_total"; "anti_scrapling_pass_tokens_total"].

Definition NewMetrics : outcome Metrics :=
  let decisionsTotal := NewCounterVec "anti_scrapling_decisions_total"
    "Total decisions partitioned by verdict and first matched reason." ["verdict"; "reason"] in
  let decisionLatency := NewHistogramVec "anti_scrapling_decision_latency_seconds"
    "Decision engine latency in seconds, partitioned by verdict." ["verdict"] in
  let signalsTotal := NewCounterVec "anti_scrapling_signals_total"
    "Total signals fired by the detection pipeline, partitioned by signal name." ["name"] in
  let challengesTotal := NewCounterVec "anti_scrapling_challenges_total"
    "Total challenge events (issued|solved|failed)." ["outcome"] in
  let passTokensTotal := NewCounterVec "anti_scrapling_pass_tokens_total"
    "Total pass-token events (issued|verified|rejected)." ["outcome"] in
  reg ← MustRegister metric_names NewRegistry;
  Ok (MkMetrics reg decisionsTotal decisionLatency signalsTotal challengesTotal passTokensTotal).

Definition reason_of (d : Decision) : string :=
  match d_Reasons d with r :: _ => r | [] => EmptyString end.

(** The loop over the signals. *)
Fixpoint count_signals (signals : list Signal) (c : CounterVec) : outcome CounterVec :=
  match signals with
  | [] => Ok c
  | s :: signals => c ← counter_Inc [sig_Name s] c; count_signals signals c
  end.

Definition RecordDecision (d : Decision) (latency : Z) (m : Metrics) : outcome Metrics :=
  let verdict := verdict_text (d_Verdict d) in
  decisions ← counter_Inc [verdict; reason_of d] (m_decisionsTotal m);
  lat ← histogram_Observe [verdict] (duration_seconds latency) (m_decisionLatency m);
  signals ← count_signals (d_Signals d) (m_signalsTotal m);
  Ok (MkMetrics (m_reg m) decisions lat signals (m_challengesTotal m) (m_passTokensTotal m)).

Definition RecordChallenge (what : string) (m : Metrics) : outcome Metrics :=
  c ← counter_Inc [what] (m_challengesTotal m);
  Ok (MkMetrics (m_reg m) (m_decisionsTotal m) (m_decisionLatency m) (m_signalsTotal m) c (m_passTokensTotal m)).

Definition RecordPassToken (what : string) (m : Metrics) : outcome Metrics :=
  c ← counter_Inc [what] (m_passTokensTotal m);
  Ok (MkMetrics (m_reg m) (m_decisionsTotal m) (m_decisionLatency m) (m_signalsTotal m) (m_challengesTotal m) c).
End metrics.

(** ** The counters count *)
Section metrics_theorems.
Context `{PromLaws}.

(** What can be recorded: events of the three kinds. *)
Inductive metric_event :=
| EvDecision (d : Decision) (latency : Z)
| EvChallenge (what : string)
| EvPassToken (what : string).

Definition record_event (e : metric_event) (m : Metrics) : outcome Metrics :=
  match e with
  | EvDecision d latency => RecordDecision d latency m
  | EvChallenge what => RecordChallenge what m
  | EvPassToken what => RecordPassToken what m
  end.

Fixpoint record_events (es : list metric_event) (m : Metrics) : outcome Metrics :=
  match es with [] => Ok m | e :: es => m ← record_event e m; record_events es m end.

(** The texts an event uses as labels are UTF-8. *)
Definition event_utf8 (e : metric_event) : Prop :=
  match e with
  | EvDecision d _ => valid_utf8 (reason_of d) = true /\ Forall (fun s => valid_utf8 (sig_Name s) = true) (d_Signals d)
  | EvChallenge what | EvPassToken what => valid_utf8 what = true
  end.

(** The reference: how often each label tuple occurs in the events. *)
Definition occurrences (x : list string) (l : list (list string)) : Z :=
  len (List.filter (fun y => bool_decide (x = y)) l).
Definition decision_labels (e : metric_event) : list (list string) :=
  match e with EvDecision d _ => [[verdict_text (d_Verdict d); reason_of d]] | _ => [] end.
Definition latency_labels (e : metric_event) : list (list string) :=
  match e with EvDecision d _ => [[verdict_text (d_Verdict d)]] | _ => [] end.
Definition signal_labels (e : metric_event) : list (list string) :=
  match e with EvDecision d _ => map (fun s => [sig_Name s]) (d_Signals d) | _ => [] end.
Definition challenge_labels (e : metric_event) : list (list string) :=
  match e with EvChallenge what => [[what]] | _ => [] end.
Definition token_labels (e : metric_event) : list (list string) :=
  match e with EvPassToken what => [[what]] | _ => [] end.

(** The metrics show exactly the events [es]. *)
Definition shows (es : list metric_event) (m : Metrics) : Prop :=
  counter_labels (m_decisionsTotal m) = ["verdict"; "reason"]
  /\ histogram_labels (m_decisionLatency m) = ["verdict"]
  /\ counter_labels (m_signalsTotal m) = ["name"]
  /\ counter_labels (m_challengesTotal m) = ["outcome"]
  /\ counter_labels (m_passTokensTotal m) = ["outcome"]
  /\ forall x,
       counter_value (m_decisionsTotal m) x = occurrences x (flat_map decision_labels es)
       /\ histogram_count (m_decisionLatency m) x = occurrences x (flat_map latency_labels es)
       /\ counter_value (m_signalsTotal m) x = occurrences x (flat_map signal_labels es)
       /\ counter_value (m_challengesTotal m) x = occurrences x (flat_map challenge_labels es)
       /\ counter_value (m_passTokensTotal m) x = occurrences x (flat_map token_labels es).

Lemma occurrences_app x l k : occurrences x (l ++ k) = occurrences x l + occurrences x k.
Proof. unfold occurrences. by rewrite List.filter_app, len_app. Qed.

Lemma occurrences_1 x y : occurrences x [y] = if decide (x = y) then 1 else 0.
Proof. unfold occurrences. cbn. case_bool_decide; by destruct (decide _). Qed.

Lemma NewMetrics_shows : exists m, NewMetrics = Ok m /\ shows [] m.
Proof.
  unfold NewMetrics. destruct (MustRegister_ok metric_names NewRegistry) as (r & -> & _).
  { rewrite NewRegistry_ok. refine (bool_decide_unpack _ _). vm_compute. exact I. }
  cbn [mbind outcome_bind]. eexists. split; [reflexivity|]. unfold shows.
  cbn [m_decisionsTotal m_decisionLatency m_signalsTotal m_challengesTotal m_passTokensTotal flat_map].
  split_and!; try apply NewCounterVec_ok; try apply NewHistogramVec_ok.
  intros x. split_and!; try apply NewCounterVec_ok; try apply NewHistogramVec_ok.
Qed.

Lemma verdict_utf8 v : valid_utf8 (verdict_text v) = true.
Proof. by destruct v. Qed.

Lemma count_signals_ok sigs : forall c,
  counter_labels c = ["name"] -> Forall (fun s => valid_utf8 (sig_Name s) = true) sigs ->
  exists c', count_signals sigs c = Ok c' /\ counter_labels c' = ["name"]
  /\ forall x, counter_value c' x = counter_value c x + occurrences x (map (fun s => [sig_Name s]) sigs).
Proof.
  induction sigs as [|s sigs IH]; intros c Hl Hu; cbn [count_signals].
  - exists c. split_and!; [done..|]. intros x. change (occurrences x (map _ [])) with 0. lia.
  - apply Forall_cons in Hu as [Hs Hu]. destruct (counter_Inc_ok [sig_Name s] c) as (c1 & -> & Hl1 & Hv1).
    { rewrite Hl. split; [done|]. by repeat constructor. }
    cbn [mbind outcome_bind]. destruct (IH c1 (eq_trans Hl1 Hl) Hu) as (c2 & -> & Hl2 & Hv2).
    exists c2. split_and!; [done..|]. intros x. rewrite Hv2, Hv1. cbn [map].
    change ([sig_Name s] :: ?l) with ([[sig_Name s]] ++ l). rewrite occurrences_app, occurrences_1. lia.
Qed.

(** After one more event each counter shows its labels among all events. *)
Ltac shows_step Hv :=
  eexists; split; [reflexivity|]; unfold shows;
  cbn [m_decisionsTotal m_decisionLatency m_signalsTotal m_challengesTotal m_passTokensTotal];
  split_and!; [congruence..|]; intros x; destruct (Hv x) as (? & ? & ? & ? & ?);
  rewrite !flat_map_app, !occurrences_app;
  cbn [flat_map decision_labels latency_labels signal_labels challenge_labels token_labels];
  rewrite !app_nil_r, ?occurrences_1; change (occurrences x []) with 0.

Lemma record_event_shows es e m :
  shows es m -> event_utf8 e -> exists m', record_event e m = Ok m' /\ shows (es ++ [e]) m'.
Proof.
  intros (L1 & L2 & L3 & L4 & L5 & Hv) He.
  assert (Hone : forall v, valid_utf8 v = true -> forall n, labels_ok [n] [v]) by (intros; split; [done|by repeat constructor]).
  destruct e as [d lat|what|what]; cbn [record_event event_utf8] in *.
  - destruct He as [Hr Hs]. unfold RecordDecision.
    destruct (counter_Inc_ok [verdict_text (d_Verdict d); reason_of d] (m_decisionsTotal m)) as (c1 & -> & E1 & V1).
    { rewrite L1. split; [done|]. repeat constructor; [apply verdict_utf8|done]. }
    destruct (histogram_Observe_ok [verdict_text (d_Verdict d)] (duration_seconds lat) (m_decisionLatency m)) as (c2 & -> & E2 & V2).
    { rewrite L2. apply Hone, verdict_utf8. }
    destruct (count_signals_ok (d_Signals d) (m_signalsTotal m) L3 Hs) as (c3 & -> & E3 & V3).
    cbn [mbind outcome_bind]. shows_step Hv. rewrite V1, V2, V3. lia.
  - unfold RecordChallenge. destruct (counter_Inc_ok [what] (m_challengesTotal m)) as (c & -> & E & V); [rewrite L4; by apply Hone|].
    cbn [mbind outcome_bind]. shows_step Hv. rewrite V. lia.
  - unfold RecordPassToken. destruct (counter_Inc_ok [what] (m_passTokensTotal m)) as (c & -> & E & V); [rewrite L5; by apply Hone|].
    cbn [mbind outcome_bind]. shows_step Hv. rewrite V. lia.
Qed.

Lemma record_events_shows es : forall past m,
  shows past m -> Forall event_utf8 es -> exists m', record_events es m = Ok m' /\ shows (past ++ es) m'.
Proof.
  induction es as [|e es IH]; intros past m Hm He; cbn [record_events]; [exists m; by rewrite app_nil_r|].
  apply Forall_cons in He as [He Hes]. destruct (record_event_shows past e m Hm He) as (m1 & -> & H1).
  cbn [mbind outcome_bind]. destruct (IH _ m1 H1 Hes) as (m2 & -> & H2). exists m2. by rewrite <- app_assoc in H2.
Qed.

(** C38: the metrics are exact and recording never panics: after any events whose labels are UTF-8, each of the five
    metrics has, for every label tuple, the number of times the events carry it (one decision and one latency
    sample per decision, one count per signal of it, one per challenge and per token event). *)
Theorem metrics_totals es :
  Forall event_utf8 es -> exists m m', NewMetrics = Ok m /\ record_events es m = Ok m' /\ shows es m'.
Proof.
  intros He. destruct NewMetrics_shows as (m & Hm & Hs). destruct (record_events_shows es [] m Hs He) as (m' & Hr & Hs').
  exists m, m'. done.
Qed.
End metrics_theorems.

(** ** Metrics over association lists, for examples *)
Definition vec : Type := list string * gmap (list string) Z.
Definition vec_add (vs : list string) (c : vec) : outcome vec :=
  if (length vs =? length c.1)%nat && forallb valid_utf8 vs
  then Ok (c.1, <[vs := default 0 (c.2 !! vs) + 1]> c.2) else Panic.

#[local] Instance toy_prom : Prom := {
  registry := list string;
  CounterVec := vec;
  HistogramVec := vec;
  NewRegistry := [];
  NewCounterVec _ _ labels := (labels, ∅);
  NewHistogramVec _ _ labels := (labels, ∅);
  MustRegister names r := if bool_decide (NoDup (names ++ r)) then Ok (r ++ names) else Panic;
  counter_Inc := vec_add;
  histogram_Observe vs _ := vec_add vs
}.

Lemma vec_add_ok vs (c : vec) :
  labels_ok c.1 vs -> exists c', vec_add vs c = Ok c' /\ c'.1 = c.1
  /\ forall ws, default 0 (c'.2 !! ws) = default 0 (c.2 !! ws) + (if decide (ws = vs) then 1 else 0).
Proof.
  intros [Hl Hu]. unfold vec_add. rewrite Hl, Nat.eqb_refl.
  replace (forallb valid_utf8 vs) with true.
  2: { symmetry. apply forallb_forall. rewrite Forall_forall in Hu. intros v Hv. by apply Hu, list_elem_of_In. }
  cbn [andb]. eexists. split; [reflexivity|]. split; [done|]. intros ws. cbn [snd]. destruct (decide (ws = vs)) as [->|Hne].
  - by rewrite lookup_insert_eq.
  - rewrite lookup_insert_ne by done. lia.
Qed.

#[local] Program Instance toy_prom_laws : PromLaws := {|
  registered r := r;
  counter_labels c := c.1;
  counter_value c vs := default 0 (c.2 !! vs);
  histogram_labels h := h.1;
  histogram_count h vs := default 0 (h.2 !! vs)
|}.
Next Obligation. done. Qed.
Next Obligation. done. Qed.
Next Obligation. done. Qed.
Next Obligation. cbn. intros names r Hn. rewrite bool_decide_true by done. eauto. Qed.
Next Obligation. cbn. intros vs c. apply vec_add_ok. Qed.
Next Obligation. cbn. intros vs _ c. apply vec_add_ok. Qed.

Lemma metrics_totals_witness :
  let d := MkDecision VerdictDeny 90 [MkSignal "tor_exit" 50 "" ∅] ["deny-tor"] "deny-tor" 0 "" in
  exists m m', NewMetrics = Ok m
  /\ record_events [EvDecision d 500; EvPassToken "rejected"; EvDecision d 800] m = Ok m'
  /\ counter_value (m_decisionsTotal m') ["DENY"; "deny-tor"] = 2
  /\ counter_value (m_signalsTotal m') ["tor_exit"] = 2.
Proof.
  intros d. destruct (metrics_totals [EvDecision d 500; EvPassToken "rejected"; EvDecision d 800]) as (m & m' & Hm & Hr & Hs).
  { repeat constructor. }
  exists m, m'. split; [exact Hm|]. split; [exact Hr|]. destruct Hs as (_ & _ & _ & _ & _ & Hv). split.
  - destruct (Hv ["DENY"; "deny-tor"]) as (-> & _). reflexivity.
  - destruct (Hv ["tor_exit"]) as (_ & _ & -> & _). reflexivity.
Defined.
