(* ===== verification/Cli.v ===== *)
(** * The admin CLI ([cmd/antiscrapling-cli/cmd])

    The commands as functions from their arguments, the file system and the clock to the text they print; the
    command tree that dispatches to them is in Commands.v. *)

From S2P Require Import Prelude GoStrings GoStd Types GoHttp Policy Token Cache JsonText Json Codec Bodies Fingerprint Challenge.
#[local] Open Scope Z_scope.

(** ** [fmt] *)
Definition bool_word (b : bool) : string := if b then "true" else "false".
Definition key_le (p q : string * string) : Prop := String.le p.1 q.1.
#[local] Instance key_le_dec : RelDecision key_le := fun p q => decide (String.le p.1 q.1).

(** [%v] of a value; [float_text] is the shortest decimal of a [float64]. *)
Fixpoint Sprint (float_text : spec_float -> string) (v : any) : string :=
  match v with
  | ANil => "<nil>"
  | AString s => s
  | AInt z | AUint z => Itoa z
  | ABool b => bool_word b
  | AFloat f => float_text f
  | AList l => "[" +:+ Join (map (Sprint float_text) l) " " +:+ "]"
  | AMap l =>
      let entries := merge_sort key_le (map (fun p => (p.1, Sprint float_text p.2)) l) in
      "map[" +:+ Join (map (fun p => p.1 +:+ ":" +:+ p.2) entries) " " +:+ "]"
  | AStrings l => "[" +:+ Join l " " +:+ "]"
  | AInts l => "[" +:+ Join (map Itoa l) " " +:+ "]"
  end.

Fixpoint spaces (n : nat) : string := match n with O => EmptyString | S n => String " " (spaces n) end.

(** [%-45s] *)
Definition pad45 (s : string) : string := s +:+ spaces (45 - length (Utf8.runes (string_bytes s))).

(** ** version.go *)
Definition Version : string := "0.1.0".
Definition version_cmd : string := "antiscrapling-cli " +:+ Version +:+ newline.

(** ** config.go *)
Section config.
Context `{CEL} (yaml_Unmarshal : list byte -> outcome PolicyConfig) (float_text : spec_float -> string).
Context (iter : gmap string any -> list (string * any)).

Definition validate_cmd (path : string) (file : outcome (list byte)) : outcome string :=
  _ ← Load yaml_Unmarshal path file;
  Ok ("OK: " +:+ path +:+ " is valid" +:+ newline).

(** Ranges over the match block in the map's iteration order. *)
Definition printMatch (r : PolicyRule) : string :=
  if Z.of_nat (size (pr_Match r)) =? 0 then "       match:  (always)" +:+ newline
  else Join (map (fun p => "       match:  " +:+ p.1 +:+ " = " +:+ Sprint float_text p.2 +:+ newline) (iter (pr_Match r))) EmptyString.

Definition sortedKeys (m : gmap string Z) : list string := sort_Strings (map_to_list m).*1.

Definition arrow : string := bytes_string (Utf8.encode 8594).

Fixpoint explain_rules (i : Z) (rules : list PolicyRule) : string :=
  match rules with
  | [] => EmptyString
  | r :: rules =>
      "  [" +:+ Itoa i +:+ "] " +:+ pr_Name r +:+ "  " +:+ arrow +:+ "  " +:+ pr_Action r +:+ newline
      +:+ (if String.eqb (pr_Reason r) EmptyString then EmptyString else "       reason: " +:+ pr_Reason r +:+ newline)
      +:+ printMatch r +:+ explain_rules (i + 1) rules
  end.

Definition explain_weights (w : gmap string Z) : string :=
  if 0 <? Z.of_nat (size w) then
    newline +:+ "Weights (" +:+ Itoa (Z.of_nat (size w)) +:+ " signals):" +:+ newline
    +:+ Join (map (fun k => "  " +:+ pad45 k +:+ " " +:+ Itoa (default 0 (w !! k)) +:+ newline) (sortedKeys w)) EmptyString
  else EmptyString.

Definition explain_cmd (path : string) (file : outcome (list byte)) : outcome string :=
  cfg ← Load yaml_Unmarshal path file;
  Ok ("Policy file: " +:+ path +:+ newline
      +:+ "Version:     " +:+ Itoa (pc_Version cfg) +:+ newline
      +:+ "Default:     " +:+ ps_Default (pc_Policy cfg) +:+ newline +:+ newline
      +:+ "Rules (" +:+ Itoa (len (ps_Rules (pc_Policy cfg))) +:+ "):" +:+ newline
      +:+ explain_rules 0 (ps_Rules (pc_Policy cfg))
      +:+ newline +:+ "Scoring thresholds:" +:+ newline
      +:+ "  challenge >= " +:+ Itoa (sc_ChallengeThreshold (pc_Scoring cfg)) +:+ newline
      +:+ "  deny      >= " +:+ Itoa (sc_DenyThreshold (pc_Scoring cfg)) +:+ newline
      +:+ explain_weights (sc_Weights (pc_Scoring cfg))
      +:+ newline +:+ "Token TTL:    " +:+ tc_TTL (pc_Token cfg) +:+ newline
      +:+ "Token bind:   " +:+ Sprint float_text (AStrings (tc_BindTo (pc_Token cfg))) +:+ newline).

(** ** policy.go *)

(** The loop returns at the first key that differs, so the iteration order does not matter. *)
Definition rulesConflict (a b : gmap string any) : bool :=
  if (Z.of_nat (size a) =? 0) || (Z.of_nat (size b) =? 0) then false
  else if negb (Z.of_nat (size a) =? Z.of_nat (size b)) then false
  else forallb (fun p =>
    match b !! p.1 with
    | None => false
    | Some vb => String.eqb (Sprint float_text p.2) (Sprint float_text vb)
    end) (iter a).

(** The two loops: the pairs of positions a warning is printed for. *)
Fixpoint lint_inner (i : Z) (ri : PolicyRule) (j : Z) (rules : list PolicyRule) : list (Z * PolicyRule * (Z * PolicyRule)) :=
  match rules with
  | [] => []
  | rj :: rules =>
      (if rulesConflict (pr_Match ri) (pr_Match rj) then [((i, ri), (j, rj))] else []) ++ lint_inner i ri (j + 1) rules
  end.
Fixpoint lint_pairs (i : Z) (rules : list PolicyRule) : list (Z * PolicyRule * (Z * PolicyRule)) :=
  match rules with
  | [] => []
  | ri :: rules => lint_inner i ri (i + 1) rules ++ lint_pairs (i + 1) rules
  end.

Definition lint_warning (w : Z * PolicyRule * (Z * PolicyRule)) : string :=
  let '((i, ri), (j, rj)) := w in
  "  WARNING: rule[" +:+ Itoa i +:+ "] " +:+ Quote (pr_Name ri) +:+ " may shadow rule[" +:+ Itoa j +:+ "] "
  +:+ Quote (pr_Name rj) +:+ " (identical match conditions)".

(** What the command prints, and how it ends: the first lines are out before the rules are compiled. *)
Definition lint_cmd (path : string) (file : outcome (list byte)) : string * outcome unit :=
  match Load yaml_Unmarshal path file with
  | Ok cfg =>
      let out := "Lint: " +:+ path +:+ newline +:+ newline in
      match NewEvaluator cfg with
      | Ok _ =>
          let rules := ps_Rules (pc_Policy cfg) in
          let warnings := map lint_warning (lint_pairs 0 rules) in
          (out
           +:+ (if 0 <? len warnings then
                  "Reachability warnings:" +:+ newline +:+ Join (map (fun w => w +:+ newline) warnings) EmptyString
                  +:+ newline +:+ Itoa (len warnings) +:+ " warning(s) found" +:+ newline
                else "No shadowed rules detected." +:+ newline)
           +:+ "Rules: " +:+ Itoa (len rules) +:+ "  Default: " +:+ ps_Default (pc_Policy cfg) +:+ newline
           +:+ "OK" +:+ newline, Ok tt)
      | Err e => (out, Err ("compile error: " +:+ e))
      | Panic => (out, Panic)
      end
  | Err e => (EmptyString, Err e)
  | Panic => (EmptyString, Panic)
  end.
End config.

(** ** token.go *)
Definition bind_field (k v : string) (c : IssueContext) : option IssueContext :=
  if String.eqb k "ip" then Some (MkIssueContext (ic_FingerprintHash c) v (ic_UA c) (ic_JA3 c) (ic_JA4 c) (ic_Score c))
  else if String.eqb k "ua" then Some (MkIssueContext (ic_FingerprintHash c) (ic_IP c) v (ic_JA3 c) (ic_JA4 c) (ic_Score c))
  else if String.eqb k "ja3" then Some (MkIssueContext (ic_FingerprintHash c) (ic_IP c) (ic_UA c) v (ic_JA4 c) (ic_Score c))
  else if String.eqb k "ja4" then Some (MkIssueContext (ic_FingerprintHash c) (ic_IP c) (ic_UA c) (ic_JA3 c) v (ic_Score c))
  else None.

Fixpoint parse_pairs (pairs : list string) (bindings : list string) (ctx : IssueContext) : outcome (list string * IssueContext) :=
  match pairs with
  | [] => Ok (bindings, ctx)
  | p :: pairs =>
      let p := TrimSpace p in
      if String.eqb p EmptyString then parse_pairs pairs bindings ctx
      else
        match Cut "=" p with
        | None => Err ("invalid binding " +:+ Quote p +:+ ": expected key=value")
        | Some (k, v) =>
            match bind_field k v ctx with
            | Some ctx => parse_pairs pairs (bindings ++ [k]) ctx
            | None => Err ("unknown binding key " +:+ Quote k +:+ " (valid: ip, ua, ja3, ja4)")
            end
        end
  end.

Definition empty_context : IssueContext := MkIssueContext EmptyString EmptyString EmptyString EmptyString EmptyString 0.

Definition parseBindings (bindStr : string) : outcome (list string * IssueContext) :=
  if String.eqb bindStr EmptyString then Ok ([], empty_context)
  else parse_pairs (Split "," bindStr) [] empty_context.

Section token.
Context `{JWT}.

(** What loading the key takes from the system, besides the files. *)
Record KeySource := MkKeySource { ks_read_err : option string; ks_random : outcome (list byte); ks_write_err : option string }.
Definition load_key (k : KeySource) (fs : gmap string (list byte)) (keyFile : string) : outcome (list byte) * gmap string (list byte) :=
  LoadKey fs keyFile (ks_read_err k) (ks_random k) (ks_write_err k).

Definition issue_cmd (k : KeySource) (fs : gmap string (list byte)) (now : Z) (bindStr ttlStr keyFile : string)
    : outcome string * gmap string (list byte) :=
  let '(key, fs) := load_key k fs keyFile in
  (key ← key;
   ttl ← wrap_err ("invalid --ttl " +:+ Quote ttlStr) (GoStd.ParseDuration ttlStr);
   '(bindings, ctx) ← parseBindings bindStr;
   tok ← Issue (NewIssuer key ttl bindings) now ctx;
   Ok (tok +:+ newline), fs).

(** [encode] is the indenting JSON encoder of the claims. *)
Definition verify_cmd (encode : TokenClaims -> outcome string) (k : KeySource) (fs : gmap string (list byte)) (now : Z)
    (tok bindStr keyFile : string) : outcome string * gmap string (list byte) :=
  let '(key, fs) := load_key k fs keyFile in
  (key ← key;
   '(bindings, ctx) ← parseBindings bindStr;
   claims ← Verify (NewVerifier key bindings) now tok (MkVerifyContext (ic_IP ctx) (ic_UA ctx) (ic_JA3 ctx) (ic_JA4 ctx));
   encode claims, fs).
End token.

(** ** fingerprint.go *)

Definition put_field (l : list (string * any)) (k : string) (v : any) : any := AMap (map_entries (<[k := v]> (list_to_map l))).

Definition voice_name (rawVoice : any) : option string :=
  match rawVoice with
  | AString v => Some v
  | AMap v => match (list_to_map v : gmap string any) !! "name" with Some (AString name) => Some name | _ => None end
  | _ => None
  end.

Definition normalizeSpeechVoices (root : gmap string any) : gmap string any :=
  match root !! "speech" with
  | Some (AMap speech) =>
      match (list_to_map speech : gmap string any) !! "voices" with
      | Some (AList rawVoices) => <["speech" := put_field speech "voices" (AStrings (omap voice_name rawVoices))]> root
      | _ => root
      end
  | _ => root
  end.

Definition normalizeHairlineResult (root : gmap string any) : gmap string any :=
  match root !! "hairline" with
  | Some (AMap hairline) =>
      match (list_to_map hairline : gmap string any) !! "non_modernizr_result" with
      | Some (ABool legacyPass) =>
          <["hairline" := put_field hairline "non_modernizr_result" (AInt (if legacyPass then 0 else 1))]> root
      | _ => root
      end
  | _ => root
  end.

(** The texts of the decoder's errors are left open. *)
Section fingerprint.
Context (decode_error : list byte -> string).

(** [null] decodes to a nil map, which is encoded as [null] again. *)
Definition normalizeFixtureJSON (data : list byte) : outcome (list byte) :=
  match json_parse data with
  | Some JNull => Ok (json_print JNull)
  | Some (JObj l) =>
      match mapM member_any l with
      | Some kvs =>
          match detail_json (normalizeHairlineResult (normalizeSpeechVoices (list_to_map (reverse kvs)))) with
          | Some fields => Ok (json_print (JObj fields))
          | None => Err "json: unsupported value"
          end
      | None => Err (decode_error data)
      end
  | _ => Err (decode_error data)
  end.

Definition decode_report (data : list byte) : outcome FingerprintReport :=
  match Unmarshal_into FingerprintReport_codec data with Some r => Ok r | None => Err (decode_error data) end.

Definition scoreFile (path : string) (file : outcome (list byte)) : outcome string :=
  data ← wrap_err ("read " +:+ path) file;
  data ← wrap_err ("parse " +:+ path) (normalizeFixtureJSON data);
  report ← wrap_err ("parse " +:+ path) (decode_report data);
  signals ← wrap_err "score" (Score report);
  let total := fold_left (fun total s => wrap64 (total + sig_Score s)) signals 0 in
  Ok (Join (map (fun s => "  " +:+ pad45 (sig_Name s) +:+ "  +" +:+ Itoa (sig_Score s) +:+ "  " +:+ sig_Reason s +:+ newline) signals)
        EmptyString
      +:+ (if len signals =? 0 then "  (no signals triggered)" +:+ newline else EmptyString)
      +:+ "  " +:+ pad45 "TOTAL" +:+ "  " +:+ Itoa total +:+ newline).

(** [filepath.Base] *)
Definition filepath_Base (path : string) : string :=
  if String.eqb path EmptyString then "."
  else default "/" (last (List.filter (fun s => negb (String.eqb s EmptyString)) (Split "/" path))).

Fixpoint score_matches (matches : list (string * outcome (list byte))) : outcome string :=
  match matches with
  | [] => Ok EmptyString
  | (path, file) :: matches =>
      text ← match scoreFile path file with
             | Ok text => Ok text
             | Err e => Ok ("  ERROR: " +:+ e +:+ newline)
             | Panic => Panic
             end;
      rest ← score_matches matches;
      Ok ("=== " +:+ filepath_Base path +:+ " ===" +:+ newline +:+ text +:+ newline +:+ rest)
  end.

(** [files] are the paths the glob finds, with their contents. *)
Definition score_dir_cmd (dir : string) (files : outcome (list (string * outcome (list byte)))) : outcome string :=
  matches ← wrap_err "glob" files;
  if len matches =? 0 then Ok ("No *.json files found in " +:+ dir +:+ newline)
  else score_matches matches.
End fingerprint.

(** ** What lint reports *)
Section lint.
Context `{CEL} (float_text : spec_float -> string) (iter : gmap string any -> list (string * any)).
Context (Hiter : forall m, iter m ≡ₚ map_to_list m).

Lemma lint_inner_elem i ri rules x : forall j0,
  x ∈ lint_inner float_text iter i ri j0 rules <->
  exists j rj, x = ((i, ri), (j0 + Z.of_nat j, rj)) /\ rules !! j = Some rj
  /\ rulesConflict float_text iter (pr_Match ri) (pr_Match rj) = true.
Proof.
  induction rules as [|r rules IH]; intros j0; cbn [lint_inner].
  { rewrite elem_of_nil. split; [done|]. by intros (j & rj & _ & ? & _). }
  rewrite elem_of_app, IH. split.
  - intros [Hx|(j & rj & -> & Hj & Hc)].
    + destruct (rulesConflict _ _ _ _) eqn:E; [|by apply elem_of_nil in Hx]. apply list_elem_of_singleton in Hx as ->.
      exists 0%nat, r. split; [|done]. do 2 f_equal; lia.
    + exists (S j), rj. split; [|done]. do 2 f_equal; lia.
  - intros ([|j] & rj & -> & Hj & Hc); cbn in Hj.
    + injection Hj as ->. left. rewrite Hc. apply list_elem_of_singleton. do 2 f_equal; lia.
    + right. exists j, rj. split; [|done]. do 2 f_equal; lia.
Qed.

Lemma lint_pairs_elem rules x : forall i0,
  x ∈ lint_pairs float_text iter i0 rules <->
  exists i j ri rj, x = ((i0 + Z.of_nat i, ri), (i0 + Z.of_nat j, rj)) /\ rules !! i = Some ri /\ rules !! j = Some rj
  /\ (i < j)%nat /\ rulesConflict float_text iter (pr_Match ri) (pr_Match rj) = true.
Proof.
  induction rules as [|r rules IH]; intros i0; cbn [lint_pairs].
  { rewrite elem_of_nil. split; [done|]. by intros (i & j & ri & rj & _ & ? & _). }
  rewrite elem_of_app, lint_inner_elem, IH. split.
  - intros [(j & rj & -> & Hj & Hc)|(i & j & ri & rj & -> & Hi & Hj & Hlt & Hc)].
    + exists 0%nat, (S j), r, rj. split_and!; [|done..|lia|done]. f_equal; f_equal; lia.
    + exists (S i), (S j), ri, rj. split_and!; [|done..|lia|done]. f_equal; f_equal; lia.
  - intros ([|i] & [|j] & ri & rj & -> & Hi & Hj & Hlt & Hc); cbn in Hi, Hj; try lia.
    + left. injection Hi as ->. exists j, rj. split_and!; [|done..]. f_equal; f_equal; lia.
    + right. exists i, j, ri, rj. split_and!; [|done..|lia|done]. f_equal; f_equal; lia.
Qed.

(** The list values of a rule have elements without spaces, as fingerprints and family names do. *)
Definition plain_value (v : any) : Prop :=
  match v with
  | AList l => Forall (fun e => match e with AString s => no_byte " " s /\ s <> EmptyString | _ => True end) l
  | _ => True
  end.
Definition plain_rule (r : PolicyRule) : Prop := map_Forall (fun _ v => plain_value v) (pr_Match r).

(** Values of one key that compile and print the same are the same. *)
Lemma Sprint_inj k v w :
  match_entry_ok k v = true -> match_entry_ok k w = true -> plain_value v -> plain_value w ->
  Sprint float_text v = Sprint float_text w -> v = w.
Proof.
  assert (Hlist : forall l, forallb (fun v => match v with AString _ => true | _ => false end) l = true ->
    exists ss, l = map AString ss).
  { induction l as [|[] l IH]; cbn; intros Hl; try done; [by exists []|]. destruct (IH Hl) as [ss ->]. by exists (s :: ss). }
  assert (Hplain : forall ss, plain_value (AList (map AString ss)) -> Forall (fun s => no_byte " " s /\ s <> EmptyString) ss).
  { intros ss Hp. cbn in Hp. by rewrite Forall_map in Hp. }
  assert (Hprint : forall ss, map (Sprint float_text) (map AString ss) = ss) by (intros ss; rewrite map_map; apply map_id).
  assert (Hkey : forall b, String.eqb k b && true = true -> k = b) by (intros b; rewrite andb_true_r; apply String.eqb_eq).
  intros Hv Hw Pv Pw Hs. destruct v as [|s| | |b| |l| | |], w as [|s'| | |b'| |l'| | |]; try done; cbn [Sprint] in Hs.
  - by rewrite Hs.
  - apply String.eqb_eq in Hw as ->. by vm_compute in Hv.
  - apply andb_true_iff in Hw as [->%String.eqb_eq _]. by vm_compute in Hv.
  - apply String.eqb_eq in Hv as ->. by vm_compute in Hw.
  - by destruct b, b'.
  - apply String.eqb_eq in Hv as ->. by vm_compute in Hw.
  - apply andb_true_iff in Hv as [->%String.eqb_eq _]. by vm_compute in Hw.
  - apply andb_true_iff in Hv as [->%String.eqb_eq _]. by vm_compute in Hw.
  - apply andb_true_iff in Hv as [_ (ss & ->)%Hlist], Hw as [_ (ss' & ->)%Hlist]. rewrite !Hprint in Hs. f_equal. f_equal.
    rewrite !append_cons, !append_nil_l in Hs. injection Hs as Hs.
    apply append_inj_r in Hs as [Hs _]; [|done]. apply (Join_inj " "); [by apply Hplain..|done].
Qed.

Definition match_ok (m : gmap string any) : Prop := map_Forall (fun k v => match_entry_ok k v = true /\ plain_value v) m.

Lemma rulesConflict_iff a b :
  match_ok a -> match_ok b -> rulesConflict float_text iter a b = true <-> a <> ∅ /\ a = b.
Proof.
  intros Ha Hb. unfold rulesConflict.
  assert (Hsz : forall m : gmap string any, Z.of_nat (size m) = 0 <-> m = ∅) by (intros m; rewrite <- map_size_empty_iff; lia).
  destruct (Z.eqb_spec (Z.of_nat (size a)) 0) as [Ea|Ea]; [rewrite Hsz in Ea; cbn; naive_solver|].
  destruct (Z.eqb_spec (Z.of_nat (size b)) 0) as [Eb|Eb]; [rewrite Hsz in Ea; rewrite Hsz in Eb; cbn; naive_solver|].
  destruct (Z.eqb_spec (Z.of_nat (size a)) (Z.of_nat (size b))) as [E|E]; cbn [orb negb]; [|naive_solver].
  rewrite forallb_forall. split.
  - intros Hf. split; [by intros ->|]. apply map_subseteq_size_eq; [|lia]. apply map_subseteq_spec. intros k v Hk.
    assert (Hin : In (k, v) (iter a)) by (apply list_elem_of_In; rewrite Hiter; by apply elem_of_map_to_list).
    specialize (Hf _ Hin). cbn [fst snd] in Hf. destruct (b !! k) as [w|] eqn:Ew; [|done]. apply String.eqb_eq in Hf.
    destruct (Ha k v Hk), (Hb k w Ew). by rewrite (Sprint_inj k v w).
  - intros [_ <-] [k v] Hin. apply list_elem_of_In in Hin. rewrite Hiter in Hin. apply elem_of_map_to_list in Hin.
    cbn [fst snd]. rewrite Hin. apply String.eqb_refl.
Qed.

(** ** Rules that cannot decide *)
Lemma eval_rules_skip pre cj post dflt act :
  cel_Eval (cr_Program cj) act = Ok (OutBool false) ->
  eval_rules (pre ++ cj :: post) dflt act = eval_rules (pre ++ post) dflt act.
Proof.
  intros Hf. induction pre as [|c pre IH]; cbn [app eval_rules]; [by rewrite Hf|].
  destruct (cel_Eval (cr_Program c) act) as [[[]|]| |]; cbn; done.
Qed.

(** A rule whose program an earlier rule has never decides. *)
Lemma eval_rules_shadow pre ci mid cj post dflt act :
  cr_Program ci = cr_Program cj ->
  eval_rules (pre ++ ci :: mid ++ cj :: post) dflt act = eval_rules (pre ++ ci :: mid ++ post) dflt act.
Proof.
  intros Hp. induction pre as [|c pre IH]; cbn [app eval_rules].
  - destruct (cel_Eval (cr_Program ci) act) as [[[]|]| |] eqn:E; cbn; try done. rewrite Hp in E. by apply eval_rules_skip.
  - destruct (cel_Eval (cr_Program c) act) as [[[]|]| |]; cbn; done.
Qed.

(** Nor does one after a rule that is always true. *)
Lemma eval_rules_catch_all pre ci mid cj post dflt act :
  cel_Eval (cr_Program ci) act = Ok (OutBool true) ->
  eval_rules (pre ++ ci :: mid ++ cj :: post) dflt act = eval_rules (pre ++ ci :: mid ++ post) dflt act.
Proof.
  intros Hp. induction pre as [|c pre IH]; cbn [app eval_rules]; [by rewrite Hp|].
  destruct (cel_Eval (cr_Program c) act) as [[[]|]| |]; cbn; done.
Qed.

Lemma compileRule_match r cr : compileRule r = Ok cr -> exists expr, matchMapToExpr (pr_Match r) = Ok expr.
Proof. unfold compileRule. intros Hc. apply bind_ok in Hc as (env & _ & Hc). apply bind_ok in Hc as (expr & He%wrap_err_ok & _). eauto. Qed.

Lemma compileRule_program r r' cr cr' :
  compileRule r = Ok cr -> compileRule r' = Ok cr' -> pr_Match r = pr_Match r' -> cr_Program cr = cr_Program cr'.
Proof.
  unfold compileRule. intros Hc Hc' Hm. rewrite Hm in Hc.
  apply bind_ok in Hc as (env & Henv & Hc). rewrite Henv in Hc'. cbn [mbind outcome_bind] in Hc'.
  apply bind_ok in Hc as (expr & He & Hc). rewrite He in Hc'. cbn [mbind outcome_bind] in Hc'.
  apply bind_ok in Hc as (ast & Ha & Hc). rewrite Ha in Hc'. cbn [mbind outcome_bind] in Hc'.
  apply bind_ok in Hc as (prg & Hp & Hc). rewrite Hp in Hc'. cbn [mbind outcome_bind] in Hc'.
  injection Hc as <-. by injection Hc' as <-.
Qed.

Lemma compile_rules_lookup rules : forall i0 crs, compile_rules i0 rules = Ok crs ->
  Forall2 (fun r cr => compileRule r = Ok cr) rules crs.
Proof.
  induction rules as [|r rules IH]; intros i0 crs; cbn [compile_rules]; [by intros [= <-]|]. intros Hb.
  apply bind_ok in Hb as (cr & Hc%wrap_err_ok & Hb). apply bind_ok in Hb as (crs' & Hr & Hb). injection Hb as <-.
  constructor; [done|by eapply IH].
Qed.

Lemma compiled_match_ok r cr : compileRule r = Ok cr -> plain_rule r -> match_ok (pr_Match r).
Proof.
  intros (expr & He)%compileRule_match Hp k v Hk. split; [|exact (Hp k v Hk)]. unfold matchMapToExpr in He.
  destruct (Z.eqb_spec (Z.of_nat (size (pr_Match r))) 0) as [E|_].
  { assert (pr_Match r = ∅) as Hz by (apply map_size_empty_inv; lia). by rewrite Hz in Hk. }
  apply bind_ok in He as (parts & He & _). destruct (exprs_of_spec (pr_Match r) (sorted_keys (pr_Match r))) as [_ Hok].
  rewrite He in Hok. symmetry in Hok. cbn in Hok. rewrite forallb_forall in Hok. specialize (Hok k). rewrite Hk in Hok. apply Hok.
  apply list_elem_of_In, sorted_keys_elem. by eexists.
Qed.

(** The rules at two positions, split off their list. *)
Lemma split_at_two {A} (l : list A) i j x y :
  l !! i = Some x -> l !! j = Some y -> (i < j)%nat ->
  exists pre mid post, l = pre ++ x :: mid ++ y :: post /\ delete j l = pre ++ x :: mid ++ post.
Proof.
  intros Hi Hj Hlt. exists (take i l), (take (j - S i) (drop (S i) l)), (drop (S j) l).
  assert (Hy : drop (S i) l !! (j - S i)%nat = Some y) by (rewrite lookup_drop; replace (S i + (j - S i))%nat with j by lia; done).
  assert (Hd : drop (S (j - S i)) (drop (S i) l) = drop (S j) l) by (rewrite drop_drop; f_equal; lia).
  split.
  - rewrite <- Hd, (take_drop_middle _ _ _ Hy). by rewrite take_drop_middle.
  - rewrite delete_take_drop. rewrite <- (take_drop_middle (take j l) i x) by (rewrite lookup_take_lt by lia; done).
    rewrite <- app_assoc. cbn. rewrite take_take, Nat.min_l by lia. rewrite skipn_firstn_comm.
    done.
Qed.

(** Without the rule at [j], the evaluator answers every request as before. *)
Definition never_decides (e : Evaluator) (j : nat) : Prop :=
  forall ctx, Evaluate (MkEvaluator (ev_config e) (delete j (ev_rules e))) ctx = Evaluate e ctx.

Lemma evaluator_rules cfg e : NewEvaluator cfg = Ok e ->
  ev_config e = cfg /\ Forall2 (fun r cr => compileRule r = Ok cr) (ps_Rules (pc_Policy cfg)) (ev_rules e).
Proof.
  unfold NewEvaluator. intros Hb. apply bind_ok in Hb as (crs & Hc & Hb). injection Hb as <-. split; [done|].
  by eapply compile_rules_lookup.
Qed.

(** Lint is exact on repeated conditions: for a policy that compiles and whose list values contain no spaces, a
    warning is printed for the rules at positions [i] and [j] exactly when [i] comes first and both have the same,
    non-empty match block; and then the later rule indeed never decides a request. *)
Theorem lint_exact cfg e i j ri rj :
  NewEvaluator cfg = Ok e -> Forall plain_rule (ps_Rules (pc_Policy cfg)) ->
  ps_Rules (pc_Policy cfg) !! i = Some ri -> ps_Rules (pc_Policy cfg) !! j = Some rj ->
  let warned := ((Z.of_nat i, ri), (Z.of_nat j, rj)) ∈ lint_pairs float_text iter 0 (ps_Rules (pc_Policy cfg)) in
  (warned <-> (i < j)%nat /\ pr_Match ri <> ∅ /\ pr_Match ri = pr_Match rj) /\ (warned -> never_decides e j).
Proof.
  intros [Hcfg Hrules]%evaluator_rules Hp Hi Hj warned.
  destruct (Forall2_lookup_l _ _ _ _ _ Hrules Hi) as (ci & Hci & Ci). destruct (Forall2_lookup_l _ _ _ _ _ Hrules Hj) as (cj & Hcj & Cj).
  rewrite Forall_lookup in Hp. pose proof (compiled_match_ok _ _ Ci (Hp _ _ Hi)) as Mi. pose proof (compiled_match_ok _ _ Cj (Hp _ _ Hj)) as Mj.
  assert (Hw : warned <-> (i < j)%nat /\ pr_Match ri <> ∅ /\ pr_Match ri = pr_Match rj).
  { unfold warned. rewrite lint_pairs_elem. rewrite <- (rulesConflict_iff _ _ Mi Mj). split.
    - intros (i' & j' & ri' & rj' & E & _ & _ & Hlt & Hc). simplify_eq/=. split; [lia|done].
    - intros [Hlt Hc]. exists i, j, ri, rj. by rewrite !Z.add_0_l. }
  split; [exact Hw|]. intros (Hlt & _ & Hm)%Hw ctx. unfold Evaluate. cbn [ev_rules ev_config].
  destruct (split_at_two _ _ _ _ _ Hci Hcj Hlt) as (pre & mid & post & Hl & ->). rewrite Hl. symmetry.
  by apply eval_rules_shadow, (compileRule_program ri rj).
Qed.

(** Lint does not see the strongest shadowing: a rule without conditions compiles to [true], so no rule after it ever
    decides a request, but no warning is printed for it. *)
Theorem lint_misses_catch_all cfg e i j ri rj :
  (forall env ast prg act, cel_Compile env "true" = Ok ast -> cel_Program env ast = Ok prg -> cel_Eval prg act = Ok (OutBool true)) ->
  NewEvaluator cfg = Ok e -> ps_Rules (pc_Policy cfg) !! i = Some ri -> ps_Rules (pc_Policy cfg) !! j = Some rj ->
  (i < j)%nat -> pr_Match ri = ∅ ->
  never_decides e j /\ ((Z.of_nat i, ri), (Z.of_nat j, rj)) ∉ lint_pairs float_text iter 0 (ps_Rules (pc_Policy cfg)).
Proof.
  intros Htrue [Hcfg Hrules]%evaluator_rules Hi Hj Hlt Hm. split.
  - destruct (Forall2_lookup_l _ _ _ _ _ Hrules Hi) as (ci & Hci & Ci). destruct (Forall2_lookup_l _ _ _ _ _ Hrules Hj) as (cj & Hcj & _).
    intros ctx. unfold Evaluate. cbn [ev_rules ev_config].
    destruct (split_at_two _ _ _ _ _ Hci Hcj Hlt) as (pre & mid & post & Hl & ->). rewrite Hl. symmetry. apply eval_rules_catch_all.
    unfold compileRule in Ci. rewrite Hm in Ci. apply bind_ok in Ci as (env & _ & Ci). apply bind_ok in Ci as (expr & He%wrap_err_ok & Ci).
    injection He as <-. apply bind_ok in Ci as (ast & Ha%wrap_err_ok & Ci). apply bind_ok in Ci as (prg & Hp%wrap_err_ok & Ci).
    injection Ci as <-. by eapply Htrue.
  - rewrite lint_pairs_elem. intros (i' & j' & ri' & rj' & E & _ & _ & _ & Hc). simplify_eq/=.
    unfold rulesConflict in Hc. rewrite Hm, map_size_empty in Hc. done.
Qed.
End lint.

(** ** Tokens from the command line *)
Section tokens.
Context `{JWTLaws}.

(** C18: a token printed by [token issue] is accepted by [token verify] with the same bindings and key file until the
    lifetime given to [issue] is over (in whole seconds), and [verify] prints the claims that were signed, under the key
    of the file, which [issue] created if it was missing. *)
Theorem cli_token_roundtrip encode k k' fs now now' bindStr ttlStr keyFile tok fs' ttl bindings ctx :
  issue_cmd k fs now bindStr ttlStr keyFile = (Ok (tok +:+ newline), fs') -> ks_read_err k' = None ->
  GoStd.ParseDuration ttlStr = Ok ttl -> parseBindings bindStr = Ok (bindings, ctx) -> context_utf8 ctx = true ->
  (forall key, ks_random k = Ok key -> 0 < len key) ->
  now' < (now + ttl) / Second * Second ->
  exists key, fs' !! keyFile = Some key
  /\ (verify_cmd encode k' fs' now' tok bindStr keyFile).1 = encode (issue_claims (NewIssuer key ttl bindings) now ctx).
Proof.
  intros Hi Hr' Ht Hb Hu Hlen Hlt. unfold issue_cmd, verify_cmd, load_key in *.
  destruct (LoadKey fs keyFile (ks_read_err k) (ks_random k) (ks_write_err k)) as [key fs1] eqn:El.
  injection Hi as Hi <-. apply bind_ok in Hi as (key' & -> & Hi).
  assert (fs1 !! keyFile = Some key' /\ (LoadKey fs1 keyFile (ks_read_err k') (ks_random k') (ks_write_err k')) = (Ok key', fs1)) as [Hfile Hkey].
  { rewrite Hr'. unfold LoadKey in El |- *. destruct (ks_read_err k); [done|]. destruct (fs !! keyFile) as [data|] eqn:Ef.
    - destruct (len data =? 0) eqn:E0; [done|]. injection El as <- <-. rewrite Ef. by rewrite E0.
    - destruct (ks_random k) as [rk| |] eqn:Er; [|done..]. destruct (ks_write_err k); [done|]. injection El as <- <-.
      rewrite lookup_insert_eq. specialize (Hlen rk eq_refl). split; [done|]. by replace (len rk =? 0) with false by lia. }
  rewrite Hkey. rewrite Ht in Hi. cbn [wrap_err mbind outcome_bind] in Hi. rewrite Hb in Hi |- *. cbn [mbind outcome_bind fst] in Hi |- *.
  apply bind_ok in Hi as (tok' & Hi & Heq). injection Heq as Heq. apply append_inj_r in Heq as [-> _]; [|done]. exists key'. split; [done|].
  rewrite (Verify_same_client key' ttl bindings now ctx tok now'); [done..|].
  apply Forall_forall. intros f _. unfold same_client. cbn [vc_IP vc_UA vc_JA3 vc_JA4]. split_and!; try done.
  intros _. unfold EqualFold. by apply bool_decide_true.
Qed.
End tokens.

(** ** Examples *)
#[local] Existing Instance toy_cel.
#[local] Existing Instance toy_jwt.
#[local] Existing Instance toy_jwt_laws.

Example parseBindings_ex :
  map parseBindings [""; "ip=1.2.3.4, ua=Moz=illa,,"; "ip"; "asn=1"]
  = [Ok ([], empty_context);
     Ok (["ip"; "ua"], MkIssueContext "" "1.2.3.4" "Moz=illa" "" "" 0);
     Err ("invalid binding " +:+ Quote "ip" +:+ ": expected key=value");
     Err ("unknown binding key " +:+ Quote "asn" +:+ " (valid: ip, ua, ja3, ja4)")].
Proof. vm_compute. reflexivity. Qed.

Example Sprint_ex :
  map (Sprint (fun _ => "f")) [AList [AString "a"; ANil; AInt (-3)]; AMap [("b", ABool true); ("a", AStrings ["x"; "y"])]]
  = ["[a <nil> -3]"; "map[a:[x y] b:true]"].
Proof. vm_compute. reflexivity. Qed.

Example filepath_Base_ex : map filepath_Base [""; "/"; "a/b.json"; "a/b//"] = ["."; "/"; "b.json"; "b"].
Proof. vm_compute. reflexivity. Qed.

Example normalize_ex :
  let speech := AMap [("n", AInt 1); ("voices", AList [AString "a"; AMap [("name", AString "b")]; AInt 2])] in
  let hairline := AMap [("non_modernizr_result", ABool false)] in
  map_entries (normalizeHairlineResult (normalizeSpeechVoices {["speech" := speech; "hairline" := hairline]}))
  = [("hairline", AMap [("non_modernizr_result", AInt 1)]);
     ("speech", AMap [("n", AInt 1); ("voices", AStrings ["a"; "b"])])].
Proof. vm_compute. reflexivity. Qed.

Definition lint_rule (name : string) (m : gmap string any) (action : string) : PolicyRule := MkPolicyRule name m action "".
Definition token_match : gmap string any := {["has_valid_token" := ABool true]}.
Definition lint_config (rules : list PolicyRule) : PolicyConfig := {|
  pc_Version := 1;
  pc_Listener := MkListenerConfig ":8080" "http://localhost:3000" None;
  pc_Token := MkTokenConfig "" "24h" ["ip"; "ua"];
  pc_Policy := MkPolicySection "challenge" rules;
  pc_Scoring := MkScoringConfig ∅ 50 80;
  pc_Challenge := MkChallengeConfig 4 true;
  pc_Cache := MkCacheConfig "memory" None 60
|}.

Lemma lint_exact_witness :
  let rules := [lint_rule "a" token_match "allow"; lint_rule "b" token_match "deny"] in
  exists e, NewEvaluator (lint_config rules) = Ok e /\ never_decides e 1.
Proof.
  intros rules. assert (Hok : is_ok (NewEvaluator (lint_config rules)) = true) by (vm_compute; reflexivity).
  destruct (NewEvaluator (lint_config rules)) as [e|err|] eqn:He; [|discriminate Hok..]. exists e. split; [reflexivity|].
  destruct (lint_exact (fun _ => "f") map_to_list (fun m => reflexivity _) (lint_config rules) e 0 1
    (lint_rule "a" token_match "allow") (lint_rule "b" token_match "deny") He) as [Hw Hn]; [|reflexivity..|].
  - repeat constructor; apply map_Forall_singleton; exact I.
  - apply Hn, Hw. split; [lia|]. split; [apply map_non_empty_singleton|reflexivity].
Defined.

Lemma lint_misses_catch_all_witness :
  let rules := [lint_rule "everything" ∅ "challenge"; lint_rule "b" token_match "allow"] in
  exists e, NewEvaluator (lint_config rules) = Ok e /\ never_decides e 1
    /\ lint_pairs (fun _ => "f") map_to_list 0 rules = [].
Proof.
  intros rules. assert (Hok : is_ok (NewEvaluator (lint_config rules)) = true) by (vm_compute; reflexivity).
  destruct (NewEvaluator (lint_config rules)) as [e|err|] eqn:He; [|discriminate Hok..]. exists e. split; [reflexivity|].
  split; [|vm_compute; reflexivity].
  apply (lint_misses_catch_all (fun _ => "f") map_to_list (lint_config rules) e 0 1
    (lint_rule "everything" ∅ "challenge") (lint_rule "b" token_match "allow")); [|exact He|reflexivity..|lia|reflexivity].
  intros env ast prg act Hc Hp. cbn in Hc, Hp. injection Hc as <-. injection Hp as <-. reflexivity.
Defined.

Definition sample_keys : KeySource := MkKeySource None (Ok (replicate 32 (byte_of_Z 7))) None.
Definition issued_line : string := match (issue_cmd sample_keys ∅ 0 "ip=1.2.3.4,ua=curl" "1h" "k").1 with Ok s => s | _ => EmptyString end.
Definition issued_text : string := TrimSpace issued_line.

Lemma cli_token_roundtrip_witness :
  exists key, ({["k" := replicate 32 (byte_of_Z 7)]} : gmap string (list byte)) !! "k" = Some key
    /\ (verify_cmd (fun c => Ok (cl_IP c)) sample_keys {["k" := replicate 32 (byte_of_Z 7)]} 5 issued_text "ip=1.2.3.4,ua=curl" "k").1
    = (fun c => Ok (cl_IP c)) (issue_claims (NewIssuer key (3600 * Second) ["ip"; "ua"]) 0 (MkIssueContext "" "1.2.3.4" "curl" "" "" 0)).
Proof.
  apply (cli_token_roundtrip (fun c => Ok (cl_IP c)) sample_keys sample_keys ∅ 0 5 "ip=1.2.3.4,ua=curl" "1h" "k" issued_text
    {["k" := replicate 32 (byte_of_Z 7)]} (3600 * Second) ["ip"; "ua"] (MkIssueContext "" "1.2.3.4" "curl" "" "" 0));
    try (vm_compute; reflexivity).
  intros key [= <-]. vm_compute. reflexivity.
Defined.
