(* ===== verification/Commands.v ===== *)
(** * The command tree of the admin CLI ([cmd/antiscrapling-cli]: main.go, cmd/root.go and the constructors of the commands)

    The tree is the value the constructors build; cobra, which resolves a command line against it, is a parameter with
    its documented behaviour: it hands over the function of a command of the tree, a value for each of its flags, and
    arguments in the number the command asks for. *)

From S2P Require Import Prelude GoStrings GoStd Types GoHttp Policy Token Cache JsonText Json Codec Bodies Fingerprint Challenge Cli.
#[local] Open Scope Z_scope.

Record flag := MkFlag { fl_name : string; fl_default : string; fl_required : bool }.
Inductive arity := AnyArgs | ExactArgs (n : nat).

(** [run] is absent for a command that only groups others. *)
Inductive command (R : Type) : Type :=
| MkCommand (use short : string) (args : arity) (flags : list flag) (run : option R) (subs : list (command R)).
#[global] Arguments MkCommand {R}.

Definition cmd_args {R} (c : command R) := let 'MkCommand _ _ a _ _ _ := c in a.
Definition cmd_flags {R} (c : command R) := let 'MkCommand _ _ _ f _ _ := c in f.
Definition cmd_run {R} (c : command R) := let 'MkCommand _ _ _ _ r _ := c in r.

(** The commands of a tree. *)
Fixpoint commands {R} (c : command R) : list (command R) :=
  let 'MkCommand _ _ _ _ _ subs := c in c :: flat_map commands subs.

Definition arity_ok (a : arity) (args : list string) : bool :=
  match a with AnyArgs => true | ExactArgs n => (length args =? n)%nat end.

Class Cobra := {
  (** what to run, with the flags' values and the arguments; nothing where help is printed instead *)
  cobra_parse : forall R, command R -> list string -> outcome (option (R * gmap string string * list string))
}.

Class CobraLaws `{Cobra} := {
  cobra_parse_ok R (c : command R) argv run flags args :
    cobra_parse R c argv = Ok (Some (run, flags, args)) ->
    exists cmd, cmd ∈ commands c /\ cmd_run cmd = Some run /\ arity_ok (cmd_args cmd) args = true
    /\ Forall (fun f => is_Some (flags !! fl_name f)) (cmd_flags cmd);
  cobra_parse_no_panic R (c : command R) argv : no_panic (cobra_parse R c argv)
}.

Section tree.
Context `{CEL} `{JWT} `{Cobra} (yaml_Unmarshal : list byte -> outcome PolicyConfig) (float_text : spec_float -> string).
Context (iter : gmap string any -> list (string * any)) (encode : TokenClaims -> outcome string) (decode_error : list byte -> string).

(** What the commands take from the system: reading a file, globbing, the key files and the clock. *)
Record CliEnv := MkCliEnv {
  ce_read : string -> outcome (list byte); ce_glob : string -> outcome (list string); ce_keys : KeySource;
  ce_fs : gmap string (list byte); ce_now : Z
}.

(** A runner gives what its command printed where it succeeds, and the error where it does not. *)
Definition runner : Type := CliEnv -> gmap string string -> list string -> outcome string * gmap string (list byte).

(** A function that uses [args[0]] and leaves the key files alone. *)
Definition on_arg (f : CliEnv -> string -> outcome string) : runner := fun env _ args =>
  match args with arg :: _ => (f env arg, ce_fs env) | [] => (Panic, ce_fs env) end.
Definition flag_value (flags : gmap string string) (name : string) : string := default EmptyString (flags !! name).

Definition newVersionCmd : command runner :=
  MkCommand "version" "Print CLI version" AnyArgs [] (Some (fun env _ _ => (Ok version_cmd, ce_fs env))) [].

Definition newConfigValidateCmd : command runner :=
  MkCommand "validate <file>" "Validate a policy YAML file" (ExactArgs 1) []
    (Some (on_arg (fun env path => validate_cmd yaml_Unmarshal path (ce_read env path)))) [].
Definition newConfigExplainCmd : command runner :=
  MkCommand "explain <file>" "Pretty-print parsed policy rules, weights, and CEL expressions" (ExactArgs 1) []
    (Some (on_arg (fun env path => explain_cmd yaml_Unmarshal float_text iter path (ce_read env path)))) [].
Definition newConfigCmd : command runner :=
  MkCommand "config" "Policy config management" AnyArgs [] None [newConfigValidateCmd; newConfigExplainCmd].

Definition newTokenIssueCmd : command runner :=
  MkCommand "issue" "Issue a JWT pass-token" AnyArgs
    [MkFlag "bind" "" false; MkFlag "ttl" "24h" false; MkFlag "key" "token.key" true]
    (Some (fun env flags _ =>
       issue_cmd (ce_keys env) (ce_fs env) (ce_now env) (flag_value flags "bind") (flag_value flags "ttl") (flag_value flags "key"))) [].
Definition newTokenVerifyCmd : command runner :=
  MkCommand "verify <token>" "Parse and verify a JWT pass-token" (ExactArgs 1)
    [MkFlag "bind" "" false; MkFlag "key" "token.key" true]
    (Some (fun env flags args =>
       match args with
       | tok :: _ => verify_cmd encode (ce_keys env) (ce_fs env) (ce_now env) tok (flag_value flags "bind") (flag_value flags "key")
       | [] => (Panic, ce_fs env)
       end)) [].
Definition newTokenCmd : command runner :=
  MkCommand "token" "JWT token issuance and verification" AnyArgs [] None [newTokenIssueCmd; newTokenVerifyCmd].

Definition newPolicyLintCmd : command runner :=
  MkCommand "lint <file>" "Validate policy and check for shadowed rules" (ExactArgs 1) []
    (Some (on_arg (fun env path =>
       let '(out, res) := lint_cmd yaml_Unmarshal float_text iter path (ce_read env path) in _ ← res; Ok out))) [].
Definition newPolicyCmd : command runner := MkCommand "policy" "Policy analysis tools" AnyArgs [] None [newPolicyLintCmd].

Definition newFingerprintScoreCmd : command runner :=
  MkCommand "score <report.json>" "Score a single fingerprint report JSON" (ExactArgs 1) []
    (Some (on_arg (fun env path => scoreFile decode_error path (ce_read env path)))) [].
Definition newFingerprintScoreDirCmd : command runner :=
  MkCommand "score-dir <dir>" "Score all *.json fingerprint reports in a directory" (ExactArgs 1) []
    (Some (on_arg (fun env dir =>
       score_dir_cmd decode_error dir
         (match ce_glob env dir with
          | Ok paths => Ok (map (fun path => (path, ce_read env path)) paths)
          | Err e => Err e
          | Panic => Panic
          end)))) [].
Definition newFingerprintCmd : command runner :=
  MkCommand "fingerprint" "Browser fingerprint scoring" AnyArgs [] None [newFingerprintScoreCmd; newFingerprintScoreDirCmd].

(** [rootCmd] after [init]. *)
Definition rootCmd : command runner :=
  MkCommand "antiscrapling-cli" "Admin CLI for the anti-scrapling proxy" AnyArgs [] None
    [newVersionCmd; newConfigCmd; newTokenCmd; newPolicyCmd; newFingerprintCmd].

Definition Execute (env : CliEnv) (argv : list string) : outcome string * gmap string (list byte) :=
  match cobra_parse _ rootCmd argv with
  | Ok (Some (run, flags, args)) => run env flags args
  | Ok None => (Ok EmptyString, ce_fs env)
  | Err e => (Err e, ce_fs env)
  | Panic => (Panic, ce_fs env)
  end.

(** The exit status of [main]. *)
Definition cli_main (env : CliEnv) (argv : list string) : outcome Z :=
  match (Execute env argv).1 with Ok _ => Ok 0 | Err _ => Ok 1 | Panic => Panic end.

(** ** The CLI does not crash *)
Context `{!CELTotal} `{!JWTLaws} `{!CobraLaws}.
Context (Hyaml : forall data, no_panic (yaml_Unmarshal data)) (Hencode : forall c, no_panic (encode c)).

(** Reading, globbing and random numbers fail with errors, not panics. *)
Definition env_ok (env : CliEnv) : Prop :=
  (forall path, no_panic (ce_read env path)) /\ (forall dir, no_panic (ce_glob env dir)) /\ no_panic (ks_random (ce_keys env)).

Definition runs_ok (run : runner) (a : arity) : Prop :=
  forall env flags args, env_ok env -> arity_ok a args = true -> no_panic (run env flags args).1.

Lemma on_arg_ok f : (forall env arg, env_ok env -> no_panic (f env arg)) -> runs_ok (on_arg f) (ExactArgs 1).
Proof. intros Hf env flags [|arg args] He Ha; [done|]. cbn. by apply Hf. Qed.

Lemma load_key_ok k fs path : no_panic (ks_random k) -> no_panic (load_key k fs path).1.
Proof. intros Hr. unfold load_key, LoadKey. repeat case_match; cbn; try done; by subst. Qed.

Lemma parseBindings_ok s : no_panic (parseBindings s).
Proof.
  unfold parseBindings. np. generalize (@nil string) empty_context. induction (Split "," s) as [|p ps IH]; intros b c; cbn; [done|].
  repeat case_match; try done; apply IH.
Qed.

Lemma scoreFile_ok path file : no_panic file -> no_panic (scoreFile decode_error path file).
Proof.
  intros Hf. unfold scoreFile. np; [unfold normalizeFixtureJSON|unfold decode_report]; repeat case_match; done.
Qed.

Lemma score_dir_ok dir files :
  no_panic files -> (forall l, files = Ok l -> Forall (fun p => no_panic p.2) l) -> no_panic (score_dir_cmd decode_error dir files).
Proof.
  intros Hf Hall. unfold score_dir_cmd. apply no_panic_bind; [by apply no_panic_wrap|]. intros l Hl%wrap_err_ok. apply Hall in Hl. np.
  clear Heqb. induction Hl as [|[path file] ps Hp _ IH]; cbn [score_matches]; [done|]. np.
  pose proof (scoreFile_ok path file Hp). by destruct (scoreFile decode_error path file).
Qed.

(** Every command of the tree that runs something runs it safely on the arguments it accepts. *)
Lemma tree_ok : Forall (fun c => forall run, cmd_run c = Some run -> runs_ok run (cmd_args c)) (commands rootCmd).
Proof.
  assert (Hl : forall env path, env_ok env -> no_panic (Load yaml_Unmarshal path (ce_read env path))).
  { intros env path (Hr & _). by apply Load_no_panic. }
  cbn [commands rootCmd newConfigCmd newTokenCmd newPolicyCmd newFingerprintCmd newVersionCmd newConfigValidateCmd newConfigExplainCmd
    newTokenIssueCmd newTokenVerifyCmd newPolicyLintCmd newFingerprintScoreCmd newFingerprintScoreDirCmd flat_map app].
  repeat (constructor; [intros run Hrun; cbn in Hrun; first [discriminate Hrun|injection Hrun as <-; cbn [cmd_args]]|]); [..|constructor].
  - done.
  - apply on_arg_ok. intros env path He. unfold validate_cmd. np; by apply Hl.
  - apply on_arg_ok. intros env path He. unfold explain_cmd. np; by apply Hl.
  - intros env flags args (_ & _ & Hk) _. unfold issue_cmd. pose proof (load_key_ok (ce_keys env) (ce_fs env) (flag_value flags "key") Hk) as Hkey.
    destruct (load_key _ _ _) as [key fs]. cbn [fst] in *. np; auto using ParseDuration_no_panic, parseBindings_ok, Issue_no_panic.
  - intros env flags [|tok args] (_ & _ & Hk) Ha; [done|]. cbn beta iota. unfold verify_cmd.
    pose proof (load_key_ok (ce_keys env) (ce_fs env) (flag_value flags "key") Hk) as Hkey.
    destruct (load_key _ _ _) as [key fs]. cbn [fst] in *. np; auto using parseBindings_ok, Verify_no_panic.
  - apply on_arg_ok. intros env path He. unfold lint_cmd. pose proof (Hl env path He) as Hload.
    destruct (Load _ _ _) as [cfg|e|]; [|done..]. pose proof (NewEvaluator_no_panic cfg). by destruct (NewEvaluator cfg).
  - apply on_arg_ok. intros env path (Hr & _). by apply scoreFile_ok.
  - apply on_arg_ok. intros env dir (Hr & Hg & _). specialize (Hg dir). apply score_dir_ok; destruct (ce_glob env dir) as [paths|e|]; try done.
    intros l [= <-]. apply Forall_map, Forall_forall. intros path _. apply Hr.
Qed.

(** C40: the CLI does not crash: whatever the command line, it prints and exits with status 0, or reports an error and exits
    with status 1; the arguments a command indexes are there. *)
Theorem cli_exits env argv :
  env_ok env -> (exists text fs, Execute env argv = (Ok text, fs) /\ cli_main env argv = Ok 0)
  \/ (exists e fs, Execute env argv = (Err e, fs) /\ cli_main env argv = Ok 1).
Proof.
  intros He. enough (no_panic (Execute env argv).1) as Hn.
  { unfold cli_main. destruct (Execute env argv) as [[text|e|] fs]; [left|right|done]; eauto. }
  unfold Execute. pose proof (cobra_parse_no_panic runner rootCmd argv) as Hc.
  destruct (cobra_parse runner rootCmd argv) as [[[[run flags] args]|]|e|] eqn:E; try done.
  destruct (cobra_parse_ok _ _ _ _ _ _ E) as (cmd & Hin & Hrun & Ha & _).
  by apply (proj1 (Forall_forall _ _) tree_ok cmd Hin run Hrun).
Qed.
End tree.

(** ** Example: a cobra that takes the name of the command and its arguments, and gives every flag its default *)
Definition cmd_name {R} (c : command R) : string :=
  let 'MkCommand use _ _ _ _ _ := c in default EmptyString (head (Split " " use)).

Definition toy_parse (R : Type) (c : command R) (argv : list string) : outcome (option (R * gmap string string * list string)) :=
  match argv with
  | [] => Ok None
  | name :: args =>
      match List.find (fun cmd => String.eqb (cmd_name cmd) name) (commands c) with
      | Some cmd =>
          if arity_ok (cmd_args cmd) args
          then Ok ((fun run => (run, list_to_map (map (fun f => (fl_name f, fl_default f)) (cmd_flags cmd)), args)) <$> cmd_run cmd)
          else Err "accepts a different number of arguments"
      | None => Err "unknown command"
      end
  end.
#[local] Instance toy_cobra : Cobra := {| cobra_parse := toy_parse |}.
#[local] Instance toy_cobra_laws : CobraLaws.
Proof.
  split.
  - intros R c argv run flags args. cbn. unfold toy_parse. destruct argv as [|name argv]; [done|].
    destruct (List.find _ _) as [cmd|] eqn:E; [|done]. destruct (arity_ok _ _) eqn:Ea; [|done]. destruct (cmd_run cmd) as [r|] eqn:Er; [|done].
    intros [= -> <- ->]. exists cmd. apply List.find_some in E as [Hin _]. split_and!; [by apply list_elem_of_In|done..|].
    apply Forall_forall. intros f Hf. destruct (list_to_map _ !! fl_name f) eqn:El; [by eexists|].
    apply not_elem_of_list_to_map_2 in El. exfalso. apply El.
    apply list_elem_of_fmap. exists (fl_name f, fl_default f). split; [done|]. apply list_elem_of_In, in_map_iff. exists f. split; [done|]. by apply list_elem_of_In.
  - intros R c argv. cbn. unfold toy_parse. repeat case_match; done.
Qed.

#[local] Existing Instance toy_cel.
#[local] Existing Instance toy_jwt.
#[local] Existing Instance toy_jwt_laws.
#[local] Existing Instance toy_cel_total.

Definition toy_env : CliEnv := MkCliEnv (fun _ => Err "no such file") (fun _ => Ok []) (MkKeySource None (Ok []) None) ∅ 0.

Lemma cli_exits_witness :
  let execute := cli_main (fun _ => Err "not YAML") (fun _ => EmptyString) map_to_list (fun _ => Ok EmptyString) (fun _ => EmptyString) toy_env in
  (execute ["version"] = Ok 0 /\ execute ["lint"; "p.yaml"] = Ok 1) /\ (execute ["verify"] = Ok 0 \/ execute ["verify"] = Ok 1).
Proof.
  split; [split; reflexivity|].
  destruct (cli_exits (fun _ => Err "not YAML") (fun _ => EmptyString) map_to_list (fun _ => Ok EmptyString) (fun _ => EmptyString)
    (fun _ => no_panic_err _) (fun _ => no_panic_ok _) toy_env ["verify"]) as [(? & ? & _ & Hx)|(? & ? & _ & Hx)];
    [split_and!; intros; done|exact (or_introl Hx)|exact (or_intror Hx)].
Defined.
