(* ===== verification/Proxy.v ===== *)
(** * Forwarding to the upstream ([internal/proxy])

    The proxy's target, the request director and the stripping of hop-by-hop headers;
    [httputil.ReverseProxy], which runs the director and transports the request, is not modelled. *)

From S2P Require Import Prelude GoStrings GoUrl Types Token.
#[local] Open Scope Z_scope.

Definition HopByHopHeaders : list string := [
  "Connection"; "Keep-Alive"; "Proxy-Authenticate"; "Proxy-Authorization"; "TE"; "Trailers"; "Transfer-Encoding";
  "Upgrade"].

(** The fields the Connection header lists; the loop deletes them while it ranges over the values it
    read first. *)
Definition connection_fields (h : Header) : list string :=
  flat_map (fun v => List.filter (fun f => negb (String.eqb f EmptyString)) (map TrimSpace (Split "," v)))
    (default [] (h !! "Connection")).

Definition StripHopByHop (h : Header) : Header :=
  let h := fold_left header_Del (connection_fields h) h in
  fold_left header_Del HopByHopHeaders h.

Definition joinPath (a b : string) : string :=
  let aslash := HasSuffix a "/" in
  let bslash := HasPrefix b "/" in
  if aslash && bslash then a +:+ sdrop 1 b
  else if negb aslash && negb bslash then (if String.eqb a EmptyString then b else a +:+ "/" +:+ b)
  else a +:+ b.

(** [tls] says whether the request came over TLS. *)
Definition director (target : URL) (tls : bool) (req : Request) : outcome Request :=
  match r_URL req with
  | None => Panic
  | Some u =>
      let query :=
        if String.eqb (url_RawQuery target) EmptyString || String.eqb (url_RawQuery u) EmptyString
        then url_RawQuery target +:+ url_RawQuery u
        else url_RawQuery target +:+ "&" +:+ url_RawQuery u in
      let h := r_Header req in
      let h := match h !! "User-Agent" with Some _ => h | None => header_Set h "User-Agent" EmptyString end in
      let h := StripHopByHop h in
      let h := header_Set h "X-Forwarded-Proto" (if tls then "https" else "http") in
      let h := header_Set h "X-Forwarded-Host" (r_Host req) in
      Ok (MkRequest (r_Method req)
            (Some (MkURL (url_Scheme target) (url_Host target) (joinPath (url_Path target) (url_Path u)) query))
            (r_ProtoMajor req) (r_ProtoMinor req) h (url_Host target) (r_RemoteAddr req) (r_Frames req))
  end.

Record Proxy := MkProxy { px_target : URL }.

(** [parse_error] is the text of [url.Parse]'s error for a text, [h2_error] the failure of
    [http2.ConfigureTransport]. *)
Definition proxy_New (parse_error : string -> string) (h2_error : option string) (targetURL : string) : outcome Proxy :=
  match url_Parse targetURL with
  | None => Err ("proxy: invalid target URL: " +:+ parse_error targetURL)
  | Some u =>
      match h2_error with
      | Some e => Err ("proxy: configure http2 transport: " +:+ e)
      | None => Ok (MkProxy (MkURL (pu_scheme u) (pu_host u) (pu_path u) (pu_query u)))
      end
  end.

(** The cookie written to the visitor, if any, and the request handed to the transport. *)
Definition Forward (p : Proxy) (tls : bool) (passToken : string) (r : Request) : outcome (option Cookie * Request) :=
  let cookie :=
    if String.eqb passToken EmptyString then None
    else Some (SetCookie DefaultCookieName passToken (3600 * Second) tls) in
  out ← director (px_target p) tls r;
  Ok (cookie, out).

(** ** What reaches the upstream *)
Lemma fold_Del_lookup names (h : Header) k :
  fold_left header_Del names h !! k = if bool_decide (k ∈ map CanonicalHeaderKey names) then None else h !! k.
Proof.
  revert h. induction names as [|n names IH]; intros h; [done|]. cbn [fold_left map]. rewrite IH. unfold header_Del.
  destruct (decide (k ∈ map CanonicalHeaderKey names)) as [Hin|Hin].
  - by rewrite !bool_decide_eq_true_2 by (rewrite ?elem_of_cons; tauto).
  - rewrite (bool_decide_eq_false_2 _ Hin). destruct (decide (CanonicalHeaderKey n = k)) as [<-|Hne].
    + rewrite lookup_delete_eq, bool_decide_eq_true_2; [done|by left].
    + rewrite lookup_delete_ne by done. rewrite bool_decide_eq_false_2; [done|]. rewrite elem_of_cons. naive_solver.
Qed.

(** The keys a request's own headers make the proxy drop. *)
Definition dropped (h : Header) : list string := map CanonicalHeaderKey (connection_fields h ++ HopByHopHeaders).

Lemma StripHopByHop_lookup h k : StripHopByHop h !! k = if bool_decide (k ∈ dropped h) then None else h !! k.
Proof.
  unfold StripHopByHop, dropped. rewrite !fold_Del_lookup, map_app.
  destruct (decide (k ∈ map CanonicalHeaderKey HopByHopHeaders)) as [H1|H1].
  - by rewrite !bool_decide_eq_true_2 by (rewrite ?elem_of_app; tauto).
  - rewrite (bool_decide_eq_false_2 _ H1). destruct (decide (k ∈ map CanonicalHeaderKey (connection_fields h))) as [H2|H2].
    + by rewrite !bool_decide_eq_true_2 by (rewrite ?elem_of_app; tauto).
    + by rewrite !bool_decide_eq_false_2 by (rewrite ?elem_of_app; tauto).
Qed.

(** The upstream sees the visitor's headers except the hop-by-hop ones and those the Connection
    header lists; the two X-Forwarded headers are always the proxy's own, whatever the visitor
    sent or listed, and a missing User-Agent is made empty before the stripping. *)
Theorem director_headers target tls req u :
  r_URL req = Some u ->
  exists req', director target tls req = Ok req' /\ r_Host req' = url_Host target
  /\ forall k, r_Header req' !! k =
       if String.eqb k "X-Forwarded-Host" then Some [r_Host req]
       else if String.eqb k "X-Forwarded-Proto" then Some [if tls then "https" else "http"]
       else if bool_decide (k ∈ dropped (r_Header req)) then None
       else if String.eqb k "User-Agent" then Some (default [EmptyString] (r_Header req !! "User-Agent"))
       else r_Header req !! k.
Proof.
  intros Hu. unfold director. rewrite Hu. eexists. split; [reflexivity|]. split; [done|]. intros k. cbn [r_Header].
  set (h := r_Header req). set (h1 := match h !! "User-Agent" with Some _ => h | None => _ end).
  unfold header_Set. change (CanonicalHeaderKey "X-Forwarded-Host") with "X-Forwarded-Host".
  change (CanonicalHeaderKey "X-Forwarded-Proto") with "X-Forwarded-Proto".
  destruct (String.eqb_spec k "X-Forwarded-Host") as [->|H1]; [by rewrite lookup_insert_eq|].
  rewrite lookup_insert_ne by done.
  destruct (String.eqb_spec k "X-Forwarded-Proto") as [->|H2]; [by rewrite lookup_insert_eq|].
  rewrite lookup_insert_ne by done. rewrite StripHopByHop_lookup.
  assert (Hh1 : forall j, h1 !! j = if String.eqb j "User-Agent" then Some (default [EmptyString] (h !! "User-Agent")) else h !! j).
  { intros j. unfold h1. destruct (String.eqb_spec j "User-Agent") as [->|Hj].
    - destruct (h !! "User-Agent") eqn:E; [exact E|]. unfold header_Set. by rewrite lookup_insert_eq.
    - destruct (h !! "User-Agent"); [done|]. unfold header_Set.
      change (CanonicalHeaderKey "User-Agent") with "User-Agent". by rewrite lookup_insert_ne. }
  assert (Hd : dropped h1 = dropped h) by (unfold dropped, connection_fields; by rewrite Hh1).
  rewrite Hd, Hh1. done.
Qed.

Definition hop_request : Request :=
  MkRequest "GET" (Some (MkURL "" "" "/a" "x=1")) 1 1
    (list_to_map [("Connection", ["keep-alive, X-Secret"]); ("X-Secret", ["1"]); ("Accept", ["*/*"]);
                  ("X-Forwarded-Host", ["evil.example"])]) "example.org" "203.0.113.7:4000" [].

Lemma director_headers_witness :
  exists req', director (MkURL "http" "upstream:3000" "/base" "") false hop_request = Ok req'
    /\ r_Header req' !! "X-Secret" = None /\ r_Header req' !! "Accept" = Some ["*/*"]
    /\ r_Header req' !! "X-Forwarded-Host" = Some ["example.org"].
Proof.
  destruct (director_headers (MkURL "http" "upstream:3000" "/base" "") false hop_request (MkURL "" "" "/a" "x=1") eq_refl)
    as (req' & H & _ & Hk).
  exists req'. split; [exact H|]. split; [rewrite Hk; vm_compute; reflexivity|].
  split; [rewrite Hk; vm_compute; reflexivity|rewrite Hk; vm_compute; reflexivity].
Defined.
