(* ===== verification/ClientHello.v ===== *)
(** * The TLS ClientHello parser ([internal/signal/tls/parser.go])

    Every index and slice expression carries its bounds check, and a loop that ran out of
    fuel would return [Panic] as well, so that absence of [Panic] means both that no read is
    out of range and that every loop terminates.  The loops get one unit of fuel per input
    byte plus one; each iteration consumes at least one byte. *)

From S2P Require Import Prelude GoStrings Crypto.
#[local] Open Scope Z_scope.

Definition tlsHandshakeRecordType : Z := 22.
Definition clientHelloType : Z := 1.
Definition defaultJA3Version : Z := 771.

Record Extension := MkExtension { ext_Type : Z; ext_Data : list byte }.

Record ClientHello := MkClientHello {
  Version : Z;
  Random : list byte;
  SessionID : list byte;
  CipherSuites : list Z;
  CompressionMethods : list byte;
  Extensions : list Extension;
  SupportedCurves : list Z;
  SupportedPoints : list byte;
  SupportedProtos : list string;
  SupportedVersions : list Z;
  SignatureAlgorithms : list Z;
  ServerName : string
}.

Definition set_ServerName (h : ClientHello) x : ClientHello :=
  MkClientHello (Version h) (Random h) (SessionID h) (CipherSuites h) (CompressionMethods h)
    (Extensions h) (SupportedCurves h) (SupportedPoints h) (SupportedProtos h)
    (SupportedVersions h) (SignatureAlgorithms h) x.
Definition set_SupportedCurves (h : ClientHello) x : ClientHello :=
  MkClientHello (Version h) (Random h) (SessionID h) (CipherSuites h) (CompressionMethods h)
    (Extensions h) x (SupportedPoints h) (SupportedProtos h)
    (SupportedVersions h) (SignatureAlgorithms h) (ServerName h).
Definition set_SupportedPoints (h : ClientHello) x : ClientHello :=
  MkClientHello (Version h) (Random h) (SessionID h) (CipherSuites h) (CompressionMethods h)
    (Extensions h) (SupportedCurves h) x (SupportedProtos h)
    (SupportedVersions h) (SignatureAlgorithms h) (ServerName h).
Definition set_SupportedProtos (h : ClientHello) x : ClientHello :=
  MkClientHello (Version h) (Random h) (SessionID h) (CipherSuites h) (CompressionMethods h)
    (Extensions h) (SupportedCurves h) (SupportedPoints h) x
    (SupportedVersions h) (SignatureAlgorithms h) (ServerName h).
Definition set_SupportedVersions (h : ClientHello) x : ClientHello :=
  MkClientHello (Version h) (Random h) (SessionID h) (CipherSuites h) (CompressionMethods h)
    (Extensions h) (SupportedCurves h) (SupportedPoints h) (SupportedProtos h)
    x (SignatureAlgorithms h) (ServerName h).
Definition set_SignatureAlgorithms (h : ClientHello) x : ClientHello :=
  MkClientHello (Version h) (Random h) (SessionID h) (CipherSuites h) (CompressionMethods h)
    (Extensions h) (SupportedCurves h) (SupportedPoints h) (SupportedProtos h)
    (SupportedVersions h) x (ServerName h).
Definition set_Extensions (h : ClientHello) x : ClientHello :=
  MkClientHello (Version h) (Random h) (SessionID h) (CipherSuites h) (CompressionMethods h)
    x (SupportedCurves h) (SupportedPoints h) (SupportedProtos h)
    (SupportedVersions h) (SignatureAlgorithms h) (ServerName h).

(** ** Byte order *)

(** [binary.BigEndian.Uint16] and [Uint32]; the last index is Go's bounds check. *)
Definition be_Uint16 (b : list byte) : outcome Z :=
  b1 ← index b 1; b0 ← index b 0;
  Ok (Z.lor (byte_to_Z b1) (Z.shiftl (byte_to_Z b0) 8)).
Definition be_Uint32 (b : list byte) : outcome Z :=
  b3 ← index b 3; b2 ← index b 2; b1 ← index b 1; b0 ← index b 0;
  Ok (Z.lor (Z.lor (Z.lor (byte_to_Z b3) (Z.shiftl (byte_to_Z b2) 8))
                   (Z.shiftl (byte_to_Z b1) 16)) (Z.shiftl (byte_to_Z b0) 24)).

Definition uint16_at (data : list byte) (i j : Z) : outcome Z := s ← slice data i j; be_Uint16 s.

(** ** The byte reader *)
Record byteReader := MkReader { br_data : list byte; br_off : Z }.

Definition remaining (r : byteReader) : Z := len (br_data r) - br_off r.

Definition read_uint8 (r : byteReader) : outcome (Z * byteReader) :=
  if remaining r <? 1 then Err "unexpected EOF"
  else value ← index (br_data r) (br_off r);
       Ok (byte_to_Z value, MkReader (br_data r) (br_off r + 1)).

Definition read_uint16 (r : byteReader) : outcome (Z * byteReader) :=
  if remaining r <? 2 then Err "unexpected EOF"
  else value ← uint16_at (br_data r) (br_off r) (br_off r + 2);
       Ok (value, MkReader (br_data r) (br_off r + 2)).

Definition read_bytes (r : byteReader) (length : Z) : outcome (list byte * byteReader) :=
  if length <? 0 then Err "negative length"
  else if remaining r <? length then Err "unexpected EOF"
  else value ← slice (br_data r) (br_off r) (br_off r + length);
       Ok (value, MkReader (br_data r) (br_off r + length)).

(** ** Extension payloads *)

(** [for off := ...; off < stop; off += 2 { append(Uint16(data[off:off+2])) }] *)
Fixpoint uint16_loop (fuel : nat) (data : list byte) (off stop : Z) : outcome (list Z) :=
  match fuel with
  | O => Panic
  | S fuel =>
      if off <? stop then
        v ← uint16_at data off (off + 2);
        vs ← uint16_loop fuel data (off + 2) stop;
        Ok (v :: vs)
      else Ok []
  end.

Fixpoint serverName_loop (fuel : nat) (data : list byte) (off stop : Z) : outcome string :=
  match fuel with
  | O => Panic
  | S fuel =>
      if off <? stop then
        if stop - off <? 3 then Ok EmptyString
        else
          nameType ← index data off;
          nameLen ← uint16_at data (off + 1) (off + 3);
          let off := off + 3 in
          if stop - off <? nameLen then Ok EmptyString
          else if byte_to_Z nameType =? 0 then
            name ← slice data off (off + nameLen); Ok (bytes_string name)
          else serverName_loop fuel data (off + nameLen) stop
      else Ok EmptyString
  end.

Definition parseServerName (data : list byte) : outcome string :=
  if len data <? 2 then Ok EmptyString
  else
    listLen ← uint16_at data 0 2;
    if len data - 2 <? listLen then Ok EmptyString
    else serverName_loop (S (length data)) data 2 (2 + listLen).

Definition parseUint16Vector16 (data : list byte) : outcome (list Z) :=
  if len data <? 2 then Ok []
  else
    vectorLen ← uint16_at data 0 2;
    if (len data - 2 <? vectorLen) || negb (vectorLen mod 2 =? 0) then Ok []
    else uint16_loop (S (length data)) data 2 (2 + vectorLen).

Definition parseUint8Vector8 (data : list byte) : outcome (list byte) :=
  if len data <? 1 then Ok []
  else
    b ← index data 0;
    let vectorLen := byte_to_Z b in
    if len data - 1 <? vectorLen then Ok []
    else slice data 1 (1 + vectorLen).

Definition parseSupportedVersions (data : list byte) : outcome (list Z) :=
  if len data <? 1 then Ok []
  else
    b ← index data 0;
    let vectorLen := byte_to_Z b in
    if (len data - 1 <? vectorLen) || negb (vectorLen mod 2 =? 0) then Ok []
    else uint16_loop (S (length data)) data 1 (1 + vectorLen).

(** The two ALPN loops return [None] where Go returns [nil, false]. *)
Fixpoint alpn_loop (fuel : nat) (data : list byte) (off : Z) : outcome (option (list string)) :=
  match fuel with
  | O => Panic
  | S fuel =>
      if off <? len data then
        b ← index data off;
        let protocolLen := byte_to_Z b in
        let off := off + 1 in
        if (protocolLen =? 0) || (len data - off <? protocolLen) then Ok None
        else
          name ← slice data off (off + protocolLen);
          rest ← alpn_loop fuel data (off + protocolLen);
          Ok (match rest with Some ps => Some (bytes_string name :: ps) | None => None end)
      else Ok (Some [])
  end.

Fixpoint alpn2_loop (fuel : nat) (data : list byte) (off : Z) : outcome (option (list string)) :=
  match fuel with
  | O => Panic
  | S fuel =>
      if off <? len data then
        if len data - off <? 2 then Ok None
        else
          protocolLen ← uint16_at data off (off + 2);
          let off := off + 2 in
          if (protocolLen =? 0) || (len data - off <? protocolLen) then Ok None
          else
            name ← slice data off (off + protocolLen);
            rest ← alpn2_loop fuel data (off + protocolLen);
            Ok (match rest with Some ps => Some (bytes_string name :: ps) | None => None end)
      else Ok (Some [])
  end.

Definition nonempty (ps : option (list string)) : option (list string) :=
  match ps with Some (p :: ps) => Some (p :: ps) | _ => None end.

Definition parseALPNStandard (data : list byte) : outcome (option (list string)) :=
  if len data <? 2 then Ok None
  else
    listLen ← uint16_at data 0 2;
    if negb (listLen =? len data - 2) then Ok None
    else ps ← alpn_loop (S (length data)) data 2; Ok (nonempty ps).

Definition parseALPNTwoByteLengths (data : list byte) : outcome (option (list string)) :=
  if len data <? 2 then Ok None
  else
    listLen ← uint16_at data 0 2;
    if negb (listLen =? len data - 2) then Ok None
    else ps ← alpn2_loop (S (length data)) data 2; Ok (nonempty ps).

Definition parseALPN (data : list byte) : outcome (list string) :=
  p ← parseALPNStandard data;
  match p with
  | Some protocols => Ok protocols
  | None =>
      p ← parseALPNTwoByteLengths data;
      match p with
      | Some protocols => Ok protocols
      | None => Ok []
      end
  end.

(** ** Extensions *)
Definition parseKnownExtension (hello : ClientHello) (e : Extension) : outcome ClientHello :=
  let t := ext_Type e in
  let d := ext_Data e in
  if t =? 0 then x ← parseServerName d; Ok (set_ServerName hello x)
  else if t =? 10 then x ← parseUint16Vector16 d; Ok (set_SupportedCurves hello x)
  else if t =? 11 then x ← parseUint8Vector8 d; Ok (set_SupportedPoints hello x)
  else if t =? 13 then x ← parseUint16Vector16 d; Ok (set_SignatureAlgorithms hello x)
  else if t =? 16 then x ← parseALPN d; Ok (set_SupportedProtos hello x)
  else if t =? 43 then x ← parseSupportedVersions d; Ok (set_SupportedVersions hello x)
  else Ok hello.

Definition add_extension (hello : ClientHello) (e : Extension) : outcome ClientHello :=
  parseKnownExtension (set_Extensions hello (Extensions hello ++ [e])) e.

Fixpoint extensions_loop (fuel : nat) (hello : ClientHello) (r : byteReader) : outcome ClientHello :=
  match fuel with
  | O => Panic
  | S fuel =>
      if 0 <? remaining r then
        '(extensionType, r) ← wrap_err "parse extension type" (read_uint16 r);
        '(extensionLen, r) ←
          wrap_err ("parse extension " +:+ Itoa extensionType +:+ " length") (read_uint16 r);
        '(extensionData, r) ←
          wrap_err ("parse extension " +:+ Itoa extensionType +:+ " data") (read_bytes r extensionLen);
        hello ← add_extension hello (MkExtension extensionType extensionData);
        extensions_loop fuel hello r
      else Ok hello
  end.

Definition parseExtensions (hello : ClientHello) (data : list byte) : outcome ClientHello :=
  extensions_loop (S (length data)) hello (MkReader data 0).

(** ** Record and handshake framing *)
Definition handshakeBody (handshake : list byte) : outcome (list byte) :=
  if len handshake <? 4 then Err ("truncated handshake header: got " +:+ Itoa (len handshake) +:+ " bytes")
  else
    h0 ← index handshake 0;
    if negb (byte_to_Z h0 =? clientHelloType)
    then Err ("unexpected handshake type " +:+ Itoa (byte_to_Z h0))
    else
      h1 ← index handshake 1; h2 ← index handshake 2; h3 ← index handshake 3;
      let handshakeLen :=
        Z.lor (Z.lor (Z.shiftl (byte_to_Z h1) 16) (Z.shiftl (byte_to_Z h2) 8)) (byte_to_Z h3) in
      if len handshake <? 4 + handshakeLen
      then Err ("truncated ClientHello: need " +:+ Itoa (4 + handshakeLen) +:+ " bytes, got "
                +:+ Itoa (len handshake))
      else slice handshake 4 (4 + handshakeLen).

Definition clientHelloBody (raw : list byte) : outcome (list byte) :=
  if len raw =? 0 then Err "empty clienthello"
  else
    (** [len(raw) >= 5 && raw[0] == 22] with its short circuit *)
    isRecord ← (if 5 <=? len raw then b ← index raw 0; Ok (byte_to_Z b =? tlsHandshakeRecordType)
                else Ok false);
    if (isRecord : bool) then
      recordLen ← uint16_at raw 3 5;
      if len raw <? 5 + recordLen
      then Err ("truncated TLS record: need " +:+ Itoa (5 + recordLen) +:+ " bytes, got " +:+ Itoa (len raw))
      else hs ← slice raw 5 (5 + recordLen); handshakeBody hs
    else handshakeBody raw.

Definition ParseClientHello (raw : list byte) : outcome ClientHello :=
  body ← clientHelloBody raw;
  let r := MkReader body 0 in
  '(legacyVersion, r) ← wrap_err "parse clienthello version" (read_uint16 r);
  '(random, r) ← wrap_err "parse clienthello random" (read_bytes r 32);
  '(sessionIDLen, r) ← wrap_err "parse session id length" (read_uint8 r);
  '(sessionID, r) ← wrap_err "parse session id" (read_bytes r sessionIDLen);
  '(cipherBytesLen, r) ← wrap_err "parse cipher suite length" (read_uint16 r);
  if negb (cipherBytesLen mod 2 =? 0)
  then Err ("parse cipher suites: odd length " +:+ Itoa cipherBytesLen)
  else
    '(cipherBytes, r) ← wrap_err "parse cipher suites" (read_bytes r cipherBytesLen);
    cipherSuites ← uint16_loop (S (length cipherBytes)) cipherBytes 0 (len cipherBytes);
    '(compressionLen, r) ← wrap_err "parse compression length" (read_uint8 r);
    '(compressionMethods, r) ← wrap_err "parse compression methods" (read_bytes r compressionLen);
    let hello := MkClientHello legacyVersion random sessionID cipherSuites compressionMethods
                   [] [] [] [] [] [] EmptyString in
    if remaining r =? 0 then Ok hello
    else
      '(extensionsLen, r) ← wrap_err "parse extensions length" (read_uint16 r);
      '(extensionsData, r) ← wrap_err "parse extensions" (read_bytes r extensionsLen);
      if negb (remaining r =? 0)
      then Err ("parse clienthello: " +:+ Itoa (remaining r) +:+ " trailing bytes")
      else parseExtensions hello extensionsData.

(** ** Conversion from [crypto/tls]

    The exported fields of [tls.ClientHelloInfo] the conversion reads. *)
Record ClientHelloInfo := MkClientHelloInfo {
  chi_CipherSuites : list Z;
  chi_ServerName : string;
  chi_SupportedCurves : list Z;
  chi_SupportedPoints : list byte;
  chi_SignatureSchemes : list Z;
  chi_SupportedProtos : list string;
  chi_SupportedVersions : list Z
}.

Definition clientHelloInfoExtensions (_ : ClientHelloInfo) : list Z := [].

Definition inferredExtensions (hello : ClientHello) : list Extension :=
  let ids :=
    (if negb (String.eqb (ServerName hello) EmptyString) then [0] else []) ++
    (if 0 <? len (SupportedCurves hello) then [10] else []) ++
    (if 0 <? len (SupportedPoints hello) then [11] else []) ++
    (if 0 <? len (SignatureAlgorithms hello) then [13] else []) ++
    (if 0 <? len (SupportedProtos hello) then [16] else []) ++
    (if 0 <? len (SupportedVersions hello) then [43] else []) in
  map (fun id => MkExtension id []) ids.

Definition ClientHelloFromTLS (info : option ClientHelloInfo) : ClientHello :=
  let empty := MkClientHello defaultJA3Version [] [] [] [] [] [] [] [] [] [] EmptyString in
  match info with
  | None => empty
  | Some i =>
      let hello := MkClientHello defaultJA3Version [] [] (chi_CipherSuites i) [] []
                     (map u16 (chi_SupportedCurves i)) (chi_SupportedPoints i)
                     (chi_SupportedProtos i) (chi_SupportedVersions i)
                     (map u16 (chi_SignatureSchemes i)) (chi_ServerName i) in
      let extensionIDs := clientHelloInfoExtensions i in
      if 0 <? len extensionIDs
      then set_Extensions hello (map (fun id => MkExtension id []) extensionIDs)
      else set_Extensions hello (inferredExtensions hello)
  end.

(** ** Reading is safe *)
Lemma be_Uint16_value b0 b1 l :
  be_Uint16 (b0 :: b1 :: l) = Ok (byte_to_Z b1 + byte_to_Z b0 * 256).
Proof.
  unfold be_Uint16, index. rewrite !len_cons. pose proof (len_nonneg l).
  replace ((0 <=? 1) && (1 <? len l + 1 + 1)) with true by lia.
  replace ((0 <=? 0) && (0 <? len l + 1 + 1)) with true by lia.
  simpl. rewrite lor_shiftl; [done|lia|apply byte_to_Z_range].
Qed.

Lemma be_Uint16_ok b : 2 <= len b -> exists v, be_Uint16 b = Ok v /\ 0 <= v < 65536.
Proof.
  intros Hb. destruct b as [|b0 [|b1 l]]; [unfold len in Hb; simpl in Hb; lia..|].
  eexists. rewrite be_Uint16_value. split; [done|].
  pose proof (byte_to_Z_range b0). pose proof (byte_to_Z_range b1). lia.
Qed.

Lemma uint16_at_ok data i j :
  0 <= i -> j = i + 2 -> j <= len data ->
  exists v, uint16_at data i j = Ok v /\ 0 <= v < 65536.
Proof.
  intros Hi -> Hj. unfold uint16_at. rewrite slice_ok by lia. apply be_Uint16_ok.
  unfold len in *. rewrite length_take, length_drop. lia.
Qed.

Lemma uint16_at_no_panic data i j : 0 <= i -> j = i + 2 -> j <= len data -> no_panic (uint16_at data i j).
Proof. intros. destruct (uint16_at_ok data i j) as (v & -> & _); done. Qed.

Lemma uint16_at_range data i j v : uint16_at data i j = Ok v -> j = i + 2 -> 0 <= v < 65536.
Proof.
  unfold uint16_at. intros H Hj. apply bind_ok in H as (s & Hs & Hv).
  pose proof (slice_len _ _ _ _ Hs). destruct (be_Uint16_ok s) as (w & Hw & ?); [lia|]. congruence.
Qed.
#[export] Hint Resolve uint16_at_no_panic : go.

(** The reader's invariant: its offset stays within the data. *)
Definition reader_ok (r : byteReader) : Prop := 0 <= br_off r <= len (br_data r).

(** What a successful read of [n] bytes does to the reader. *)
Definition advances (r r' : byteReader) (n : Z) : Prop :=
  br_data r' = br_data r /\ br_off r' = br_off r + n /\ n <= remaining r.

Lemma advances_ok r r' n : 0 <= n -> reader_ok r -> advances r r' n -> reader_ok r'.
Proof. unfold reader_ok, advances, remaining. intros ? ? (-> & -> & ?). lia. Qed.

Lemma advances_remaining r r' n : advances r r' n -> remaining r' = remaining r - n.
Proof. unfold advances, remaining. intros (-> & -> & ?). lia. Qed.

Lemma read_uint8_no_panic r : reader_ok r -> no_panic (read_uint8 r).
Proof. unfold reader_ok, read_uint8, remaining. intros. np. Qed.

Lemma read_uint8_advances r v r' :
  read_uint8 r = Ok (v, r') -> advances r r' 1 /\ 0 <= v < 256.
Proof.
  unfold read_uint8. case_match eqn:E; [done|]. intros H. inv_ok.
  unfold advances, remaining in *. simplify_eq/=. split; [split_and!; [done|lia..]|apply byte_to_Z_range].
Qed.

Lemma read_uint16_no_panic r : reader_ok r -> no_panic (read_uint16 r).
Proof. unfold reader_ok, read_uint16, remaining. intros. np. Qed.

Lemma read_uint16_advances r v r' :
  read_uint16 r = Ok (v, r') -> advances r r' 2 /\ 0 <= v < 65536.
Proof.
  unfold read_uint16. case_match eqn:E; [done|]. intros H. inv_ok.
  unfold advances, remaining in *. simplify_eq/=. split; [split_and!; [done|lia..]|]. by eapply uint16_at_range.
Qed.

Lemma read_bytes_no_panic r n : reader_ok r -> no_panic (read_bytes r n).
Proof. unfold reader_ok, read_bytes, remaining. intros. np. Qed.

Lemma read_bytes_advances r n v r' :
  read_bytes r n = Ok (v, r') -> advances r r' n /\ 0 <= n /\ len v = n.
Proof.
  unfold read_bytes. destruct (n <? 0) eqn:En; [done|].
  destruct (remaining r <? n) eqn:E; [done|].
  intros H. inv_ok. unfold advances, remaining in *. simplify_eq/=.
  match goal with H : slice _ _ _ = Ok _ |- _ => apply slice_len in H end.
  split_and!; [done|lia..].
Qed.
#[export] Hint Resolve read_uint8_no_panic read_uint16_no_panic read_bytes_no_panic : go.

(** Turn every successful read into what it did to the reader. *)
Ltac reads :=
  repeat match goal with
  | H : wrap_err _ _ = Ok _ |- _ => apply wrap_err_ok in H
  | H : read_uint8 _ = Ok _ |- _ => apply read_uint8_advances in H as [? ?]
  | H : read_uint16 _ = Ok _ |- _ => apply read_uint16_advances in H as [? ?]
  | H : read_bytes _ _ = Ok _ |- _ => apply read_bytes_advances in H as (? & ? & ?)
  | Hr : reader_ok ?r, H : advances ?r ?r' _ |- _ =>
      lazymatch goal with
      | _ : reader_ok r' |- _ => fail
      | _ => assert (reader_ok r') by (eapply advances_ok; [|exact Hr|exact H]; lia)
      end
  end.

Lemma uint16_loop_no_panic fuel data off stop :
  0 <= off -> stop <= len data -> (stop - off) mod 2 = 0 -> stop - off < Z.of_nat fuel ->
  0 < Z.of_nat fuel ->
  no_panic (uint16_loop fuel data off stop).
Proof.
  revert off. induction fuel as [|fuel IH]; intros off Hoff Hstop Heven Hfuel Hpos; [lia|].
  cbn [uint16_loop]. destruct (off <? stop) eqn:E; [|apply no_panic_ok].
  assert (off + 2 <= stop).
  { destruct (Z.eq_dec (stop - off) 1) as [H1|]; [|lia]. rewrite H1 in Heven. done. }
  apply no_panic_bind; [apply uint16_at_no_panic; lia|]. intros v _.
  apply no_panic_bind; [|by intros]. apply IH; try lia.
  replace (stop - (off + 2)) with (stop - off + (-1) * 2) by lia. by rewrite Z.mod_add by lia.
Qed.

Lemma serverName_loop_no_panic fuel data off stop :
  0 <= off -> stop <= len data -> stop - off < Z.of_nat fuel -> 0 < Z.of_nat fuel ->
  no_panic (serverName_loop fuel data off stop).
Proof.
  revert off. induction fuel as [|fuel IH]; intros off Hoff Hstop Hfuel Hpos; [lia|].
  cbn [serverName_loop]. destruct (off <? stop) eqn:E; [|apply no_panic_ok].
  destruct (stop - off <? 3) eqn:E3; [apply no_panic_ok|].
  apply no_panic_bind; [apply index_no_panic; lia|]. intros ty _.
  apply no_panic_bind; [apply uint16_at_no_panic; lia|]. intros n Hn.
  apply uint16_at_range in Hn; [|lia].
  case_match eqn:En; [apply no_panic_ok|]. destruct (_ =? _) eqn:Et.
  - np.
  - apply IH; lia.
Qed.

Lemma alpn_loop_no_panic fuel data off :
  0 <= off <= len data -> len data - off < Z.of_nat fuel -> no_panic (alpn_loop fuel data off).
Proof.
  revert off. induction fuel as [|fuel IH]; intros off Hoff Hfuel; [lia|].
  cbn [alpn_loop]. destruct (off <? len data) eqn:E; [|apply no_panic_ok].
  apply no_panic_bind; [apply index_no_panic; lia|]. intros b _.
  pose proof (byte_to_Z_range b). case_match eqn:Eb; [apply no_panic_ok|].
  apply no_panic_bind; [apply slice_no_panic; lia|]. intros name _.
  apply no_panic_bind; [|by intros]. apply IH; lia.
Qed.

Lemma alpn2_loop_no_panic fuel data off :
  0 <= off <= len data -> len data - off < Z.of_nat fuel -> no_panic (alpn2_loop fuel data off).
Proof.
  revert off. induction fuel as [|fuel IH]; intros off Hoff Hfuel; [lia|].
  cbn [alpn2_loop]. destruct (off <? len data) eqn:E; [|apply no_panic_ok].
  destruct (len data - off <? 2) eqn:E2; [apply no_panic_ok|].
  apply no_panic_bind; [apply uint16_at_no_panic; lia|]. intros n Hn.
  apply uint16_at_range in Hn; [|lia]. case_match eqn:Eb; [apply no_panic_ok|].
  apply no_panic_bind; [apply slice_no_panic; lia|]. intros name _.
  apply no_panic_bind; [|by intros]. apply IH; lia.
Qed.

(** *** The payload parsers *)
Lemma parseServerName_no_panic d : no_panic (parseServerName d).
Proof.
  unfold parseServerName. case_match eqn:E; [apply no_panic_ok|].
  apply no_panic_bind; [apply uint16_at_no_panic; lia|]. intros n Hn.
  apply uint16_at_range in Hn; [|lia]. case_match eqn:El; [apply no_panic_ok|].
  apply serverName_loop_no_panic; unfold len in *; lia.
Qed.

Lemma parseUint16Vector16_no_panic d : no_panic (parseUint16Vector16 d).
Proof.
  unfold parseUint16Vector16. case_match eqn:E; [apply no_panic_ok|].
  apply no_panic_bind; [apply uint16_at_no_panic; lia|]. intros n Hn.
  apply uint16_at_range in Hn; [|lia]. case_match eqn:El; [apply no_panic_ok|].
  replace n with (2 + n - 2) in El by lia. apply uint16_loop_no_panic; unfold len in *; lia.
Qed.

Lemma parseUint8Vector8_no_panic d : no_panic (parseUint8Vector8 d).
Proof.
  unfold parseUint8Vector8. case_match eqn:E; [apply no_panic_ok|].
  apply no_panic_bind; [apply index_no_panic; lia|]. intros b _.
  pose proof (byte_to_Z_range b). case_match eqn:El; [apply no_panic_ok|]. np.
Qed.

Lemma parseSupportedVersions_no_panic d : no_panic (parseSupportedVersions d).
Proof.
  unfold parseSupportedVersions. case_match eqn:E; [apply no_panic_ok|].
  apply no_panic_bind; [apply index_no_panic; lia|]. intros b _.
  pose proof (byte_to_Z_range b). case_match eqn:El; [apply no_panic_ok|].
  replace (byte_to_Z b) with (1 + byte_to_Z b - 1) in El by lia.
  apply uint16_loop_no_panic; unfold len in *; lia.
Qed.

Lemma parseALPN_no_panic d : no_panic (parseALPN d).
Proof.
  assert (H1 : no_panic (parseALPNStandard d)).
  { unfold parseALPNStandard. case_match eqn:E; [apply no_panic_ok|].
    apply no_panic_bind; [apply uint16_at_no_panic; lia|]. intros n _.
    case_match; [apply no_panic_ok|]. apply no_panic_bind; [|by intros].
    apply alpn_loop_no_panic; unfold len in *; lia. }
  assert (H2 : no_panic (parseALPNTwoByteLengths d)).
  { unfold parseALPNTwoByteLengths. case_match eqn:E; [apply no_panic_ok|].
    apply no_panic_bind; [apply uint16_at_no_panic; lia|]. intros n _.
    case_match; [apply no_panic_ok|]. apply no_panic_bind; [|by intros].
    apply alpn2_loop_no_panic; unfold len in *; lia. }
  unfold parseALPN. apply no_panic_bind; [done|]. intros [?|] _; [done|].
  apply no_panic_bind; [done|]. by intros [?|] _.
Qed.
#[export] Hint Resolve parseServerName_no_panic parseUint16Vector16_no_panic
  parseUint8Vector8_no_panic parseSupportedVersions_no_panic parseALPN_no_panic : go.

Lemma add_extension_no_panic h e : no_panic (add_extension h e).
Proof. unfold add_extension, parseKnownExtension. np. Qed.
#[export] Hint Resolve add_extension_no_panic : go.

Lemma extensions_loop_no_panic fuel h r :
  reader_ok r -> remaining r < Z.of_nat fuel -> no_panic (extensions_loop fuel h r).
Proof.
  revert h r. induction fuel as [|fuel IH]; intros h r Hr Hfuel; [unfold reader_ok, remaining in *; lia|].
  cbn [extensions_loop]. case_match eqn:E; [|apply no_panic_ok].
  apply no_panic_bind; [auto with go|]. intros [t r1] ?. reads.
  apply no_panic_bind; [auto with go|]. intros [n r2] ?. reads.
  apply no_panic_bind; [auto with go|]. intros [d r3] ?. reads.
  apply no_panic_bind; [auto with go|]. intros h' _. apply IH; [done|].
  repeat match goal with H : advances _ _ _ |- _ => apply advances_remaining in H end. lia.
Qed.

Lemma handshakeBody_no_panic hs : no_panic (handshakeBody hs).
Proof.
  unfold handshakeBody. case_match eqn:E; [apply no_panic_err|].
  apply no_panic_bind; [apply index_no_panic; lia|]. intros h0 _. case_match; [apply no_panic_err|].
  do 3 (apply no_panic_bind; [apply index_no_panic; lia|]; intros ? _).
  case_match eqn:El; [apply no_panic_err|].
  apply slice_no_panic; [|lia]. split; [lia|].
  match goal with |- _ <= 4 + ?x => assert (0 <= x) end; [|lia].
  rewrite !Z.lor_nonneg, !Z.shiftl_nonneg. pose proof byte_to_Z_range as Hb. naive_solver.
Qed.

Lemma clientHelloBody_no_panic raw : no_panic (clientHelloBody raw).
Proof.
  unfold clientHelloBody. case_match eqn:E0; [apply no_panic_err|].
  apply no_panic_bind; [np|]. intros isRec Hrec. destruct isRec; [|apply handshakeBody_no_panic].
  destruct (5 <=? len raw) eqn:E5; [|done].
  apply no_panic_bind; [apply uint16_at_no_panic; lia|]. intros n Hn.
  apply uint16_at_range in Hn; [|lia]. case_match eqn:El; [apply no_panic_err|].
  apply no_panic_bind; [apply slice_no_panic; lia|]. intros; apply handshakeBody_no_panic.
Qed.

(** ** Widths

    Every integer field of a parsed hello is a [uint16]. *)
Definition is_uint16 (v : Z) : Prop := 0 <= v < 65536.

Definition hello_u16 (h : ClientHello) : Prop :=
  is_uint16 (Version h) /\ Forall is_uint16 (CipherSuites h)
  /\ Forall is_uint16 (map ext_Type (Extensions h)) /\ Forall is_uint16 (SupportedCurves h)
  /\ Forall is_uint16 (SupportedVersions h) /\ Forall is_uint16 (SignatureAlgorithms h).

Lemma uint16_loop_u16 fuel data off stop l :
  uint16_loop fuel data off stop = Ok l -> Forall is_uint16 l.
Proof.
  revert off l. induction fuel as [|fuel IH]; intros off l; cbn [uint16_loop]; [done|].
  case_match; intros; inv_ok; constructor; [by eapply uint16_at_range|eauto].
Qed.

Lemma parseUint16Vector16_u16 d l : parseUint16Vector16 d = Ok l -> Forall is_uint16 l.
Proof.
  unfold parseUint16Vector16. case_match; intros; inv_ok; [constructor|].
  case_match; inv_ok; eauto using uint16_loop_u16.
Qed.

Lemma parseSupportedVersions_u16 d l : parseSupportedVersions d = Ok l -> Forall is_uint16 l.
Proof.
  unfold parseSupportedVersions. case_match; intros; inv_ok; [constructor|].
  case_match; inv_ok; eauto using uint16_loop_u16.
Qed.

Lemma add_extension_u16 h e h' :
  hello_u16 h -> is_uint16 (ext_Type e) -> add_extension h e = Ok h' -> hello_u16 h'.
Proof.
  unfold hello_u16. intros Hh He. unfold add_extension, parseKnownExtension.
  repeat case_match; intros; inv_ok; destruct_and!; cbn; rewrite map_app, Forall_app;
    split_and!; eauto using parseUint16Vector16_u16, parseSupportedVersions_u16; by apply Forall_singleton.
Qed.

Lemma extensions_loop_u16 fuel h r h' :
  hello_u16 h -> extensions_loop fuel h r = Ok h' -> hello_u16 h'.
Proof.
  revert h r. induction fuel as [|fuel IH]; intros h r Hh; cbn [extensions_loop]; [done|].
  case_match; intros; inv_ok; [|done].
  repeat match goal with H : read_uint16 _ = Ok _ |- _ => apply read_uint16_advances in H as [_ ?] end.
  eapply IH; [|eassumption]. eapply add_extension_u16; [eassumption| |eassumption]. done.
Qed.

Lemma ParseClientHello_u16 raw h : ParseClientHello raw = Ok h -> hello_u16 h.
Proof.
  unfold ParseClientHello. intros H. repeat (inv_ok; case_match); inv_ok;
  repeat match goal with H : read_uint16 _ = Ok _ |- _ => apply read_uint16_advances in H as [_ ?] end;
  try (eapply extensions_loop_u16; [|eassumption]);
  split_and!; eauto using uint16_loop_u16; constructor.
Qed.

Lemma parse_hello_no_panic raw : no_panic (ParseClientHello raw).
Proof.
  unfold ParseClientHello. apply no_panic_bind; [apply clientHelloBody_no_panic|]. intros body _.
  assert (Hr : reader_ok (MkReader body 0)) by (unfold reader_ok, len; simpl; lia).
  do 5 (apply no_panic_bind; [auto with go|]; intros [? ?] ?; reads).
  case_match eqn:Eodd; [apply no_panic_err|].
  apply no_panic_bind; [auto with go|]. intros [cb r6] ?. reads. subst.
  apply no_panic_bind; [apply uint16_loop_no_panic; rewrite ?Z.sub_0_r; unfold len in *; lia|].
  intros cs _.
  do 2 (apply no_panic_bind; [auto with go|]; intros [? ?] ?; reads).
  case_match; [apply no_panic_ok|].
  do 2 (apply no_panic_bind; [auto with go|]; intros [? ?] ?; reads).
  case_match; [apply no_panic_err|].
  unfold parseExtensions. apply extensions_loop_no_panic; unfold reader_ok, remaining, len; simpl; lia.
Qed.

(** C5: parsing an arbitrary byte string never panics: no index or slice expression of the
    parser is out of range and all its loops terminate, on any input a client may send. *)
Theorem ParseClientHello_no_panic raw : no_panic (ParseClientHello raw).
Proof. apply parse_hello_no_panic. Qed.
