(* ===== verification/ClientHelloWire.v ===== *)
(** * The ClientHello wire format and the parser's round trip

    An encoder written from RFC 5246 section 7.4.1.2 and the extension RFCs, independent of
    the parser, and the theorem that [ParseClientHello] reads back what was encoded. *)

From S2P Require Import Prelude GoStrings Crypto ClientHello.
#[local] Open Scope Z_scope.

(** ** The encoder *)
Definition enc16 (v : Z) : list byte := be_bytes 2 v.
Definition enc16s (l : list Z) : list byte := flat_map enc16 l.

(** Vectors with a two-byte or one-byte length prefix. *)
Definition vec16 (bs : list byte) : list byte := enc16 (len bs) ++ bs.
Definition vec8 (bs : list byte) : list byte := byte_of_Z (len bs) :: bs.

Definition enc_ext (e : Extension) : list byte := enc16 (ext_Type e) ++ vec16 (ext_Data e).

(** An extension by meaning; [XOther] is one the parser only records. *)
Inductive ext_spec : Type :=
| XServerName (name : string)
| XCurves (l : list Z)
| XPoints (l : list byte)
| XSignatureAlgorithms (l : list Z)
| XALPN (l : list string)
| XVersions (l : list Z)
| XOther (t : Z) (d : list byte).

Definition enc_spec (x : ext_spec) : Extension :=
  match x with
  | XServerName n => MkExtension 0 (vec16 (byte_of_Z 0 :: vec16 (string_bytes n)))
  | XCurves l => MkExtension 10 (vec16 (enc16s l))
  | XPoints l => MkExtension 11 (vec8 l)
  | XSignatureAlgorithms l => MkExtension 13 (vec16 (enc16s l))
  | XALPN l => MkExtension 16 (vec16 (flat_map (fun s => vec8 (string_bytes s)) l))
  | XVersions l => MkExtension 43 (vec8 (enc16s l))
  | XOther t d => MkExtension t d
  end.

(** What an extension means for the parsed hello. *)
Definition apply_spec (h : ClientHello) (x : ext_spec) : ClientHello :=
  let h := set_Extensions h (Extensions h ++ [enc_spec x]) in
  match x with
  | XServerName n => set_ServerName h n
  | XCurves l => set_SupportedCurves h l
  | XPoints l => set_SupportedPoints h l
  | XSignatureAlgorithms l => set_SignatureAlgorithms h l
  | XALPN l => set_SupportedProtos h l
  | XVersions l => set_SupportedVersions h l
  | XOther _ _ => h
  end.

Record hello_spec := MkHelloSpec {
  hs_version : Z;
  hs_random : list byte;
  hs_session : list byte;
  hs_ciphers : list Z;
  hs_compression : list byte;
  hs_exts : option (list ext_spec)   (** [None]: no extension block at all *)
}.

Definition enc_exts (xs : list ext_spec) : list byte := flat_map (fun x => enc_ext (enc_spec x)) xs.

Definition enc_body (w : hello_spec) : list byte :=
  enc16 (hs_version w) ++ hs_random w ++ vec8 (hs_session w) ++ vec16 (enc16s (hs_ciphers w))
  ++ vec8 (hs_compression w)
  ++ match hs_exts w with None => [] | Some xs => vec16 (enc_exts xs) end.

Definition enc_handshake (w : hello_spec) : list byte :=
  byte_of_Z 1 :: be_bytes 3 (len (enc_body w)) ++ enc_body w.

Definition enc_record (w : hello_spec) : list byte :=
  [byte_of_Z 22; byte_of_Z 3; byte_of_Z 1] ++ vec16 (enc_handshake w).

Definition base_hello (w : hello_spec) : ClientHello :=
  MkClientHello (hs_version w) (hs_random w) (hs_session w) (hs_ciphers w) (hs_compression w)
    [] [] [] [] [] [] EmptyString.
Definition hello_of (w : hello_spec) : ClientHello :=
  fold_left apply_spec (default [] (hs_exts w)) (base_hello w).

(** ** Well-formedness: every value fits its field *)
Definition is_u16 (v : Z) : bool := (0 <=? v) && (v <? 65536).

Definition ext_ok (x : ext_spec) : bool :=
  (len (ext_Data (enc_spec x)) <? 65536) &&
  match x with
  | XCurves l | XSignatureAlgorithms l => forallb is_u16 l
  | XPoints l => len l <? 256
  | XVersions l => forallb is_u16 l && (2 * len l <? 256)
  | XALPN l => (0 <? len l) && forallb (fun s => (0 <? len (string_bytes s)) && (len (string_bytes s) <? 256)) l
  | XServerName _ => true
  | XOther t _ => is_u16 t && negb (existsb (Z.eqb t) [0; 10; 11; 13; 16; 43])
  end.

Definition hello_ok (w : hello_spec) : bool :=
  is_u16 (hs_version w) && (len (hs_random w) =? 32) && (len (hs_session w) <? 256)
  && forallb is_u16 (hs_ciphers w) && (2 * len (hs_ciphers w) <? 65536)
  && (len (hs_compression w) <? 256)
  && match hs_exts w with
     | None => true
     | Some xs => forallb ext_ok xs && (len (enc_exts xs) <? 65536)
     end
  && (len (enc_handshake w) <? 65536).

(** ** Reading back the primitives *)
Lemma enc16_shape v : exists a b, enc16 v = [a; b].
Proof. by eexists _, _. Qed.

Lemma len_enc16 v : len (enc16 v) = 2.
Proof. done. Qed.

Lemma len_enc16s l : len (enc16s l) = 2 * len l.
Proof. induction l as [|v l IH]; [done|]. simpl enc16s. rewrite len_cons. unfold len in *. simpl in *. lia. Qed.

Lemma be_Uint16_enc16 v : 0 <= v < 65536 -> be_Uint16 (enc16 v) = Ok v.
Proof.
  intros Hv. unfold enc16, be_bytes. simpl. rewrite be_Uint16_value, !byte_to_of_Z.
  rewrite Z.shiftr_div_pow2 by lia. change (2 ^ 8) with 256. f_equal.
  rewrite (Z.mod_small (v / 256)).
  - pose proof (Z.div_mod v 256). lia.
  - split; [apply Z.div_pos; lia | apply Z.div_lt_upper_bound; lia].
Qed.

Lemma uint16_at_enc16 pre v post i j :
  0 <= v < 65536 -> i = len pre -> j = i + 2 -> uint16_at (pre ++ enc16 v ++ post) i j = Ok v.
Proof.
  intros Hv Hi Hj. unfold uint16_at. rewrite slice_app_mid by (rewrite ?len_enc16; lia).
  by apply be_Uint16_enc16.
Qed.

Lemma uint16_at_head v post : 0 <= v < 65536 -> uint16_at (enc16 v ++ post) 0 2 = Ok v.
Proof. intros. by apply (uint16_at_enc16 []). Qed.

Lemma index_app_mid {A} (pre : list A) x post i :
  i = len pre -> index (pre ++ x :: post) i = Ok x.
Proof.
  intros ->. unfold index. rewrite len_app, len_cons. pose proof (len_nonneg post).
  replace ((0 <=? len pre) && (len pre <? len pre + (len post + 1))) with true
    by (pose proof (len_nonneg pre); lia).
  unfold len. rewrite Nat2Z.id. by rewrite list_lookup_middle.
Qed.

Lemma index_head {A} (x : A) l : index (x :: l) 0 = Ok x.
Proof. by apply (index_app_mid []). Qed.

Lemma index_1 {A} (a b : A) l : index (a :: b :: l) 1 = Ok b.
Proof. by apply (index_app_mid [a]). Qed.
Lemma index_2 {A} (a b c : A) l : index (a :: b :: c :: l) 2 = Ok c.
Proof. by apply (index_app_mid [a; b]). Qed.
Lemma index_3 {A} (a b c d : A) l : index (a :: b :: c :: d :: l) 3 = Ok d.
Proof. by apply (index_app_mid [a; b; c]). Qed.

(** A reader whose unread part is known. *)
Definition reader_at (pre s : list byte) : byteReader := MkReader (pre ++ s) (len pre).

Lemma remaining_at pre s : remaining (reader_at pre s) = len s.
Proof. unfold remaining, reader_at. simpl. rewrite len_app. lia. Qed.

Lemma read_uint16_at pre v s :
  0 <= v < 65536 -> read_uint16 (reader_at pre (enc16 v ++ s)) = Ok (v, reader_at (pre ++ enc16 v) s).
Proof.
  intros Hv. unfold read_uint16. rewrite remaining_at, len_app, len_enc16.
  pose proof (len_nonneg s). replace (2 + len s <? 2) with false by lia.
  unfold reader_at. cbn [br_data br_off]. rewrite uint16_at_enc16 by lia. cbn.
  by rewrite <- app_assoc, len_app.
Qed.

Lemma read_uint8_at pre n s :
  0 <= n < 256 -> read_uint8 (reader_at pre (byte_of_Z n :: s)) = Ok (n, reader_at (pre ++ [byte_of_Z n]) s).
Proof.
  intros Hn. unfold read_uint8. rewrite remaining_at, len_cons.
  pose proof (len_nonneg s). replace (len s + 1 <? 1) with false by lia.
  unfold reader_at. cbn [br_data br_off]. rewrite index_app_mid by done.
  cbn [mbind outcome_bind]. rewrite byte_to_of_Z_small by lia.
  by rewrite <- app_assoc, len_app.
Qed.

Lemma read_bytes_at pre d s n :
  n = len d -> read_bytes (reader_at pre (d ++ s)) n = Ok (d, reader_at (pre ++ d) s).
Proof.
  intros ->. unfold read_bytes. rewrite remaining_at, len_app.
  pose proof (len_nonneg s). pose proof (len_nonneg d).
  replace (len d <? 0) with false by lia. replace (len d + len s <? len d) with false by lia.
  unfold reader_at. cbn [br_data br_off]. rewrite slice_app_mid by done. cbn [mbind outcome_bind].
  by rewrite <- app_assoc, len_app.
Qed.

(** ** Reading back the payloads *)
Lemma is_u16_iff v : is_u16 v = true <-> 0 <= v < 65536.
Proof. unfold is_u16. lia. Qed.

Lemma uint16_loop_enc fuel pre l post off stop :
  forallb is_u16 l = true -> off = len pre -> stop = off + 2 * len l -> (length l < fuel)%nat ->
  uint16_loop fuel (pre ++ enc16s l ++ post) off stop = Ok l.
Proof.
  revert fuel pre off. induction l as [|v l IH]; intros fuel pre off Hl Hoff Hstop Hf;
    (destruct fuel as [|fuel]; [lia|]); cbn [uint16_loop].
  - rewrite len_nil in Hstop. by replace (off <? stop) with false by lia.
  - rewrite len_cons in Hstop. pose proof (len_nonneg l). simpl in Hl.
    apply andb_true_iff in Hl as [Hv Hl]. apply is_u16_iff in Hv.
    replace (off <? stop) with true by lia. unfold enc16s. cbn [flat_map]. rewrite <- app_assoc.
    rewrite uint16_at_enc16 by lia. cbn [mbind outcome_bind].
    rewrite (app_assoc pre). change (flat_map enc16 l) with (enc16s l).
    rewrite IH; [done|done|rewrite len_app, len_enc16; lia|lia|simpl in Hf; lia].
Qed.

Lemma length_enc16s l : length (enc16s l) = (2 * length l)%nat.
Proof. pose proof (len_enc16s l). unfold len in *. lia. Qed.

Lemma parseUint16Vector16_enc l :
  forallb is_u16 l = true -> 2 * len l < 65536 ->
  parseUint16Vector16 (vec16 (enc16s l)) = Ok l.
Proof.
  intros Hl Hlen. pose proof (len_nonneg l). unfold parseUint16Vector16, vec16.
  rewrite len_enc16s, len_app, len_enc16, len_enc16s.
  replace (2 + 2 * len l <? 2) with false by lia.
  rewrite uint16_at_head by lia. cbn [mbind outcome_bind].
  rewrite Z.mul_comm, Z.mod_mul by lia. simpl negb.
  replace (2 + len l * 2 - 2 <? len l * 2) with false by lia. cbn [orb].
  rewrite <- (app_nil_r (enc16s l)). apply uint16_loop_enc; [done|done|lia|].
  rewrite length_app, app_nil_r, length_enc16s. lia.
Qed.

Lemma parseUint8Vector8_enc l : len l < 256 -> parseUint8Vector8 (vec8 l) = Ok l.
Proof.
  intros Hl. pose proof (len_nonneg l). unfold parseUint8Vector8, vec8.
  rewrite len_cons. replace (len l + 1 <? 1) with false by lia.
  rewrite index_head. cbn [mbind outcome_bind].
  rewrite byte_to_of_Z_small by lia. replace (len l + 1 - 1 <? len l) with false by lia.
  pose proof (slice_app_mid [byte_of_Z (len l)] l [] 1 (1 + len l)) as Hs.
  rewrite app_nil_r in Hs. by apply Hs.
Qed.

Lemma parseSupportedVersions_enc l :
  forallb is_u16 l = true -> 2 * len l < 256 -> parseSupportedVersions (vec8 (enc16s l)) = Ok l.
Proof.
  intros Hl Hlen. pose proof (len_nonneg l). unfold parseSupportedVersions, vec8.
  rewrite len_cons, len_enc16s. replace (2 * len l + 1 <? 1) with false by lia.
  rewrite index_head. cbn [mbind outcome_bind].
  rewrite byte_to_of_Z_small, (Z.mul_comm 2), Z.mod_mul by lia.
  replace (len l * 2 + 1 - 1 <? len l * 2) with false by lia. cbn [orb negb Z.eqb].
  pose proof (uint16_loop_enc (S (length (byte_of_Z (len l * 2) :: enc16s l)))
                [byte_of_Z (len l * 2)] l [] 1 (1 + len l * 2)) as Hs.
  rewrite app_nil_r in Hs. apply Hs; [done|done|lia|]. simpl. rewrite length_enc16s. lia.
Qed.

Lemma parseServerName_enc n :
  3 + len (string_bytes n) < 65536 ->
  parseServerName (vec16 (byte_of_Z 0 :: vec16 (string_bytes n))) = Ok n.
Proof.
  set (d := string_bytes n). intros Hlen. pose proof (len_nonneg d).
  set (body := byte_of_Z 0 :: vec16 d).
  assert (Hl : len body = 3 + len d)
    by (unfold body, vec16; rewrite len_cons, len_app, len_enc16; lia).
  unfold parseServerName. change (vec16 body) with (enc16 (len body) ++ body).
  rewrite len_app, len_enc16, Hl. replace (2 + (3 + len d) <? 2) with false by lia.
  rewrite uint16_at_head by lia. cbn [mbind outcome_bind].
  replace (2 + (3 + len d) - 2 <? 3 + len d) with false by lia.
  cbn [serverName_loop]. replace (2 <? 2 + (3 + len d)) with true by lia.
  replace (2 + (3 + len d) - 2 <? 3) with false by lia.
  assert (Hi : index (enc16 (3 + len d) ++ body) 2 = Ok (byte_of_Z 0)) by (by apply index_app_mid).
  rewrite Hi. cbn [mbind outcome_bind].
  replace (enc16 (3 + len d) ++ body) with ((enc16 (3 + len d) ++ [byte_of_Z 0]) ++ enc16 (len d) ++ d)
    by (by rewrite <- app_assoc).
  rewrite uint16_at_enc16 by (rewrite ?len_app, ?len_enc16, ?len_cons, ?len_nil; lia).
  cbn [mbind outcome_bind]. replace (2 + (3 + len d) - (2 + 3) <? len d) with false by lia.
  rewrite byte_to_of_Z_small by lia. cbn [Z.eqb].
  assert (Hs : forall p i j, i = len p -> j = i + len d -> slice (p ++ d) i j = Ok d).
  { intros p i j -> ->. rewrite <- (app_nil_r d) at 1. by apply slice_app_mid. }
  rewrite app_assoc, Hs by (rewrite ?len_app, ?len_enc16, ?len_cons, ?len_nil; lia).
  cbn [mbind outcome_bind]. unfold d. by rewrite bytes_string_bytes.
Qed.

Definition alpn_name_ok (s : string) : bool :=
  (0 <? len (string_bytes s)) && (len (string_bytes s) <? 256).

Lemma alpn_loop_enc fuel pre l off :
  forallb alpn_name_ok l = true -> off = len pre -> (length l < fuel)%nat ->
  alpn_loop fuel (pre ++ flat_map (fun s => vec8 (string_bytes s)) l) off = Ok (Some l).
Proof.
  revert fuel pre off. induction l as [|s l IH]; intros fuel pre off Hl Hoff Hf;
    (destruct fuel as [|fuel]; [lia|]); cbn [alpn_loop flat_map].
  - rewrite app_nil_r. by replace (off <? len pre) with false by lia.
  - simpl in Hl. apply andb_true_iff in Hl as [Hs Hl]. unfold alpn_name_ok in Hs.
    set (d := string_bytes s) in *. set (tl := flat_map _ l).
    assert (Hlen : len (pre ++ vec8 d ++ tl) = off + 1 + len d + len tl)
      by (unfold vec8; rewrite !len_app, len_cons; lia).
    pose proof (len_nonneg tl). pose proof (len_nonneg d).
    rewrite Hlen. replace (off <? off + 1 + len d + len tl) with true by lia.
    unfold vec8. rewrite <- app_comm_cons, index_app_mid by done. cbn [mbind outcome_bind].
    rewrite byte_to_of_Z_small by lia.
    replace ((len d =? 0) || (off + 1 + len d + len tl - (off + 1) <? len d)) with false by lia.
    assert (Hshape : pre ++ byte_of_Z (len d) :: d ++ tl = (pre ++ [byte_of_Z (len d)]) ++ d ++ tl)
      by (by rewrite <- app_assoc).
    rewrite Hshape, slice_app_mid by (rewrite ?len_app, ?len_cons, ?len_nil; lia).
    cbn [mbind outcome_bind]. rewrite (app_assoc _ d). unfold tl.
    rewrite IH; [|done|rewrite !len_app, len_cons, len_nil; lia|simpl in Hf; lia].
    cbn [mbind outcome_bind]. unfold d. by rewrite bytes_string_bytes.
Qed.

Lemma parseALPN_enc l :
  0 < len l -> forallb alpn_name_ok l = true ->
  len (flat_map (fun s => vec8 (string_bytes s)) l) < 65536 ->
  parseALPN (vec16 (flat_map (fun s => vec8 (string_bytes s)) l)) = Ok l.
Proof.
  intros Hne Hl Hlen. set (b := flat_map _ l) in *. pose proof (len_nonneg b).
  unfold parseALPN, parseALPNStandard, vec16. rewrite len_app, len_enc16.
  replace (2 + len b <? 2) with false by lia.
  rewrite uint16_at_head by lia. cbn [mbind outcome_bind].
  replace (len b =? 2 + len b - 2) with true by lia. cbn [negb].
  unfold b. rewrite alpn_loop_enc; [| |done|].
  - destruct l; [done|]. done.
  - done.
  - fold b. rewrite length_app. simpl.
    assert (length l <= length b)%nat; [|lia].
    unfold b. clear. induction l as [|s l IH]; simpl; [lia|]. rewrite length_app. lia.
Qed.

(** ** Extensions *)
Lemma add_extension_enc h x : ext_ok x = true -> add_extension h (enc_spec x) = Ok (apply_spec h x).
Proof.
  unfold ext_ok, add_extension, apply_spec, parseKnownExtension.
  destruct x as [n|l|l|l|l|l|t d]; cbn [enc_spec ext_Type ext_Data Z.eqb Pos.eqb];
    rewrite ?andb_true_iff; intros H; destruct_and?.
  - rewrite parseServerName_enc; [done|]. unfold vec16 in *.
    rewrite !len_app, len_cons, len_app, !len_enc16 in *. lia.
  - rewrite parseUint16Vector16_enc; [done|done|].
    unfold vec16 in *. rewrite len_app, len_enc16, len_enc16s in *. lia.
  - rewrite parseUint8Vector8_enc; [done|lia].
  - rewrite parseUint16Vector16_enc; [done|done|].
    unfold vec16 in *. rewrite len_app, len_enc16, len_enc16s in *. lia.
  - rewrite parseALPN_enc; [done|lia|done|].
    unfold vec16 in *. rewrite len_app, len_enc16 in *. lia.
  - rewrite parseSupportedVersions_enc; [done|done|lia].
  - simpl in *. repeat case_match; try done; exfalso;
      match goal with H : negb _ = true |- _ => revert H end; lia.
Qed.

Lemma ext_type_u16 x : ext_ok x = true -> 0 <= ext_Type (enc_spec x) < 65536.
Proof. unfold ext_ok. destruct x; simpl; try lia. rewrite !andb_true_iff. unfold is_u16. lia. Qed.

Lemma extensions_loop_enc fuel h pre xs :
  forallb ext_ok xs = true -> (length xs < fuel)%nat ->
  extensions_loop fuel h (reader_at pre (enc_exts xs)) = Ok (fold_left apply_spec xs h).
Proof.
  revert fuel h pre. induction xs as [|x xs IH]; intros fuel h pre Hx Hf;
    (destruct fuel as [|fuel]; [lia|]); cbn [extensions_loop enc_exts flat_map fold_left].
  - by rewrite remaining_at.
  - simpl in Hx. apply andb_true_iff in Hx as [Hx Hxs].
    pose proof (ext_type_u16 x Hx) as Ht.
    assert (Hd : 0 <= len (ext_Data (enc_spec x)) < 65536).
    { unfold ext_ok in Hx. apply andb_true_iff in Hx as [Hx _].
      pose proof (len_nonneg (ext_Data (enc_spec x))). lia. }
    change (flat_map (fun x => enc_ext (enc_spec x)) xs) with (enc_exts xs).
    pose proof (len_nonneg (enc_exts xs)).
    rewrite remaining_at. unfold enc_ext, vec16. rewrite !len_app, !len_enc16.
    match goal with |- context [0 <? ?n] => replace (0 <? n) with true by lia end.
    rewrite <- !app_assoc, read_uint16_at by done. cbn [mbind outcome_bind wrap_err].
    rewrite read_uint16_at by done. cbn [mbind outcome_bind wrap_err].
    rewrite read_bytes_at by done. cbn [mbind outcome_bind wrap_err].
    replace (MkExtension (ext_Type (enc_spec x)) (ext_Data (enc_spec x))) with (enc_spec x)
      by (by destruct (enc_spec x)).
    rewrite add_extension_enc by done. cbn [mbind outcome_bind].
    apply IH; [done|simpl in Hf; lia].
Qed.

(** ** Framing *)
Lemma be24_value a b c :
  Z.lor (Z.lor (Z.shiftl (byte_to_Z a) 16) (Z.shiftl (byte_to_Z b) 8)) (byte_to_Z c)
  = byte_to_Z c + 256 * byte_to_Z b + 65536 * byte_to_Z a.
Proof.
  pose proof (byte_to_Z_range a). pose proof (byte_to_Z_range b). pose proof (byte_to_Z_range c).
  rewrite <- Z.lor_assoc, (lor_shiftl' (byte_to_Z c)) by lia.
  rewrite lor_shiftl' by lia. lia.
Qed.

Lemma be_bytes_3 n :
  0 <= n < 16777216 ->
  exists a b c, be_bytes 3 n = [a; b; c]
    /\ byte_to_Z c + 256 * byte_to_Z b + 65536 * byte_to_Z a = n.
Proof.
  intros Hn. unfold be_bytes. simpl. eexists _, _, _. split; [done|].
  rewrite !byte_to_of_Z, !Z.shiftr_div_pow2 by lia. change (2 ^ 8) with 256.
  rewrite Z.div_div by lia. change (256 * 256) with 65536.
  rewrite (Z.mod_small (n / 65536)) by (split; [apply Z.div_pos|apply Z.div_lt_upper_bound]; lia).
  replace (n / 65536) with (n / 256 / 256) by (by rewrite Z.div_div by lia).
  pose proof (Z.div_mod n 256 ltac:(lia)). pose proof (Z.div_mod (n / 256) 256 ltac:(lia)). lia.
Qed.

Lemma handshakeBody_enc w rest :
  len (enc_handshake w) < 65536 -> handshakeBody (enc_handshake w ++ rest) = Ok (enc_body w).
Proof.
  unfold enc_handshake. set (b := enc_body w). pose proof (len_nonneg b). pose proof (len_nonneg rest).
  rewrite len_cons, len_app. unfold len at 1. rewrite length_be_bytes. intros Hlen.
  destruct (be_bytes_3 (len b)) as (h1 & h2 & h3 & -> & Hv); [lia|].
  unfold handshakeBody. cbn [app]. rewrite !len_cons, len_app.
  replace (len b + len rest + 1 + 1 + 1 + 1 <? 4) with false by lia.
  rewrite index_head. cbn [mbind outcome_bind]. rewrite byte_to_of_Z_small by lia.
  cbn [negb Z.eqb Pos.eqb clientHelloType].
  rewrite index_1, index_2, index_3.
  cbn [mbind outcome_bind]. rewrite be24_value, Hv.
  replace (len b + len rest + 1 + 1 + 1 + 1 <? 4 + len b) with false by lia.
  by apply (slice_app_mid [_; _; _; _] b rest).
Qed.

Lemma clientHelloBody_record w rest :
  len (enc_handshake w) < 65536 -> clientHelloBody (enc_record w ++ rest) = Ok (enc_body w).
Proof.
  intros Hlen. unfold enc_record, vec16. set (hs := enc_handshake w) in *.
  pose proof (len_nonneg hs). pose proof (len_nonneg rest). unfold clientHelloBody.
  rewrite !len_app, len_enc16. change (len [_; _; _]) with 3.
  replace (3 + (2 + len hs) + len rest =? 0) with false by lia.
  replace (5 <=? 3 + (2 + len hs) + len rest) with true by lia.
  cbn [app]. rewrite index_head. cbn [mbind outcome_bind]. rewrite byte_to_of_Z_small by lia.
  cbn [Z.eqb Pos.eqb tlsHandshakeRecordType]. rewrite <- app_assoc.
  assert (Hu : uint16_at ([byte_of_Z 22; byte_of_Z 3; byte_of_Z 1] ++ enc16 (len hs) ++ hs ++ rest)
                 3 5 = Ok (len hs)) by (by apply uint16_at_enc16).
  cbn [app] in Hu. rewrite Hu. cbn [mbind outcome_bind].
  replace (3 + (2 + len hs) + len rest <? 5 + len hs) with false by lia.
  assert (Hs : slice (([byte_of_Z 22; byte_of_Z 3; byte_of_Z 1] ++ enc16 (len hs)) ++ hs ++ rest)
                 5 (5 + len hs) = Ok hs) by (by apply slice_app_mid).
  cbn [app] in Hs. rewrite Hs. cbn [mbind outcome_bind]. unfold hs.
  rewrite <- (app_nil_r (enc_handshake w)). by apply handshakeBody_enc.
Qed.

Lemma clientHelloBody_handshake w rest :
  len (enc_handshake w) < 65536 -> clientHelloBody (enc_handshake w ++ rest) = Ok (enc_body w).
Proof.
  intros Hlen. unfold clientHelloBody.
  assert (Hne : (len (enc_handshake w ++ rest) =? 0) = false).
  { unfold enc_handshake. cbn [app]. rewrite len_cons. pose proof (len_nonneg ((be_bytes 3 (len (enc_body w)) ++ enc_body w) ++ rest)). lia. }
  rewrite Hne.
  assert (Hrec : (if 5 <=? len (enc_handshake w ++ rest)
                  then b ← index (enc_handshake w ++ rest) 0; Ok (byte_to_Z b =? tlsHandshakeRecordType)
                  else Ok false) = Ok false).
  { case_match; [|done]. unfold enc_handshake. cbn [app]. by rewrite index_head. }
  rewrite Hrec. by apply handshakeBody_enc.
Qed.

Lemma parse_body_enc w body :
  hello_ok w = true -> clientHelloBody body = Ok (enc_body w) ->
  ParseClientHello body = Ok (hello_of w).
Proof.
  unfold hello_ok. rewrite !andb_true_iff. intros H Hb. destruct_and!.
  match goal with H : is_u16 _ = true |- _ => apply is_u16_iff in H end.
  pose proof (len_nonneg (hs_session w)). pose proof (len_nonneg (hs_ciphers w)).
  pose proof (len_nonneg (hs_compression w)).
  unfold ParseClientHello. rewrite Hb. cbn [mbind outcome_bind].
  change (MkReader (enc_body w) 0) with (reader_at [] (enc_body w)). unfold enc_body, vec8.
  rewrite read_uint16_at by done. cbn [mbind outcome_bind wrap_err].
  rewrite read_bytes_at by lia. cbn [mbind outcome_bind wrap_err app].
  rewrite read_uint8_at by lia. cbn [mbind outcome_bind wrap_err].
  rewrite read_bytes_at by done. cbn [mbind outcome_bind wrap_err].
  unfold vec16 at 1. rewrite len_enc16s, <- (app_assoc (enc16 (2 * _))), read_uint16_at by lia.
  cbn [mbind outcome_bind wrap_err]. rewrite (Z.mul_comm 2), Z.mod_mul by lia. cbn [Z.eqb negb].
  rewrite read_bytes_at by (rewrite len_enc16s; lia). cbn [mbind outcome_bind wrap_err].
  pose proof (uint16_loop_enc (S (length (enc16s (hs_ciphers w)))) [] (hs_ciphers w) [] 0
                (len (enc16s (hs_ciphers w)))) as Hcs.
  rewrite app_nil_r in Hcs. cbn [app] in Hcs.
  rewrite Hcs by (rewrite ?len_enc16s, ?length_enc16s, ?len_nil; done || lia).
  cbn [mbind outcome_bind]. rewrite read_uint8_at by lia. cbn [mbind outcome_bind wrap_err].
  rewrite read_bytes_at by done. cbn [mbind outcome_bind wrap_err].
  rewrite remaining_at. unfold hello_of. destruct (hs_exts w) as [xs|]; [|done].
  match goal with H : _ && _ = true |- _ => apply andb_true_iff in H as [Hxs Hxl] end.
  unfold vec16. rewrite len_app, len_enc16. pose proof (len_nonneg (enc_exts xs)).
  replace (2 + len (enc_exts xs) =? 0) with false by lia.
  rewrite read_uint16_at by lia. cbn [mbind outcome_bind wrap_err].
  rewrite <- (app_nil_r (enc_exts xs)) at 2.
  rewrite read_bytes_at by done. cbn [mbind outcome_bind wrap_err].
  rewrite remaining_at, len_nil. cbn [Z.eqb negb]. unfold parseExtensions.
  apply (extensions_loop_enc _ _ [] xs Hxs).
  assert (length xs <= length (enc_exts xs))%nat; [|lia].
  clear. induction xs as [|x xs IH]; simpl; [lia|]. rewrite length_app. simpl. unfold enc_ext. simpl. lia.
Qed.

Lemma parse_record_enc w rest : hello_ok w = true -> ParseClientHello (enc_record w ++ rest) = Ok (hello_of w).
Proof.
  intros Hw. apply parse_body_enc; [done|]. apply clientHelloBody_record.
  unfold hello_ok in Hw. rewrite !andb_true_iff in Hw. lia.
Qed.

(** C6: parsing what the wire encoder produced gives back the hello it was produced from, as a
    TLS record or as a bare handshake message, with any bytes after it. *)
Theorem ParseClientHello_roundtrip w rest :
  hello_ok w = true ->
  ParseClientHello (enc_record w ++ rest) = Ok (hello_of w)
  /\ ParseClientHello (enc_handshake w ++ rest) = Ok (hello_of w).
Proof.
  intros Hw. split; [by apply parse_record_enc|]. apply parse_body_enc; [done|].
  apply clientHelloBody_handshake. unfold hello_ok in Hw. rewrite !andb_true_iff in Hw. lia.
Qed.

Definition sample_hello : hello_spec := {|
  hs_version := 771;
  hs_random := replicate 32 (byte_of_Z 7);
  hs_session := [byte_of_Z 1; byte_of_Z 2];
  hs_ciphers := [0x0a0a; 0x1301; 0xc02b];
  hs_compression := [byte_of_Z 0];
  hs_exts := Some [XServerName "example.org"; XOther 23 []; XCurves [0x1a1a; 29; 23];
                   XPoints [byte_of_Z 0]; XSignatureAlgorithms [0x0403]; XALPN ["h2"; "http/1.1"];
                   XVersions [0x0304; 0x0303]]
|}.

Lemma ParseClientHello_roundtrip_witness :
  ParseClientHello (enc_record sample_hello ++ [byte_of_Z 99]) = Ok (hello_of sample_hello)
  /\ SupportedProtos (hello_of sample_hello) = ["h2"; "http/1.1"].
Proof.
  split; [|reflexivity].
  apply (ParseClientHello_roundtrip sample_hello [byte_of_Z 99]). vm_compute. reflexivity.
Defined.
