(* ===== verification/Server.v ===== *)
(** * The listeners ([internal/server]: clienthello.go, context.go, server.go, cert.go)

    Addresses are the strings [net.Addr] prints, empty for a nil address.  Captures are shared by
    all connections in a [sync.Map]; each operation on it is one step. *)

From S2P Require Import Prelude GoStrings GoNet Types Crypto ClientHello ClientHelloWire.
#[local] Open Scope Z_scope.

Definition maxClientHelloBytes : Z := Z.shiftl 8 10.

Record ClientHelloCapture := MkCapture { cap_Raw : list byte; cap_Info : ClientHelloInfo }.

(** ** The recording connection *)
Record WrappedConn := MkWrappedConn { wc_local : string; wc_remote : string; wc_raw : list byte }.

Definition NewWrappedConn (local remote : string) : WrappedConn := MkWrappedConn local remote [].

Definition record (data : list byte) (c : WrappedConn) : WrappedConn :=
  if maxClientHelloBytes <=? len (wc_raw c) then c
  else
    let remaining := maxClientHelloBytes - len (wc_raw c) in
    let data := if remaining <? len data then take (Z.to_nat remaining) data else data in
    MkWrappedConn (wc_local c) (wc_remote c) (wc_raw c ++ data).

(** A read of the underlying connection that returned [data]. *)
Definition conn_Read (data : list byte) (c : WrappedConn) : WrappedConn :=
  if 0 <? len data then record data c else c.

(** [WrappedListener.Accept], with what the underlying listener accepted: its two addresses. *)
Definition Accept (accepted : outcome (string * string)) : outcome WrappedConn :=
  '(local, remote) ← accepted;
  Ok (NewWrappedConn local remote).

Definition RawClientHello (c : WrappedConn) : outcome (list byte) :=
  let raw := wc_raw c in
  if 5 <=? len raw then
    b0 ← index raw 0;
    if byte_to_Z b0 =? 0x16 then
      recordLen ← uint16_at raw 3 5;
      if 5 + recordLen <=? len raw then slice raw 0 (5 + recordLen) else Ok raw
    else Ok raw
  else Ok raw.

(** ** The captures of the process *)
Abbreviation captures := (gmap string ClientHelloCapture).

Definition connectionKeyStrings (local remote : string) : string :=
  if String.eqb local EmptyString || String.eqb remote EmptyString then EmptyString else local +:+ remote.

Definition connectionKey (c : WrappedConn) : string := connectionKeyStrings (wc_local c) (wc_remote c).

(** The handshake callback on a recording connection. *)
Definition CaptureCallback (info : ClientHelloInfo) (c : WrappedConn) (m : captures) : outcome captures :=
  let key := connectionKey c in
  if String.eqb key EmptyString then Ok m
  else raw ← RawClientHello c; Ok (<[key := MkCapture raw info]> m).

Definition loadClientHelloCapture (key : string) (m : captures) : option ClientHelloCapture :=
  if String.eqb key EmptyString then None else m !! key.

Definition deleteClientHelloCapture (key : string) (m : captures) : captures :=
  if String.eqb key EmptyString then m else delete key m.

Inductive ConnState := StateNew | StateActive | StateIdle | StateHijacked | StateClosed.

Definition connState (local remote : string) (state : ConnState) (m : captures) : captures :=
  match state with
  | StateClosed | StateHijacked => deleteClientHelloCapture (connectionKeyStrings local remote) m
  | _ => m
  end.

(** What the middleware puts in the request's context: the capture of the request's connection. *)
Definition captureForRequest (local remote : string) (m : captures) : option ClientHelloCapture :=
  loadClientHelloCapture (connectionKeyStrings local remote) m.

(** ** context.go: a request's context, by the capture it carries; a copy of a capture has its bytes and information *)
Definition cloneCapture (capture : ClientHelloCapture) : ClientHelloCapture := MkCapture (cap_Raw capture) (cap_Info capture).
Definition ContextWithCapture (ctx capture : option ClientHelloCapture) : option ClientHelloCapture :=
  match capture with None => ctx | Some capture => Some (cloneCapture capture) end.
Definition CaptureFromContext (ctx : option ClientHelloCapture) : option ClientHelloCapture := cloneCapture <$> ctx.

(** The context the wrapped handler sees. *)
Definition captureMiddleware (local remote : string) (ctx : option ClientHelloCapture) (m : captures) : option ClientHelloCapture :=
  match captureForRequest local remote m with
  | Some capture => ContextWithCapture ctx (Some capture)
  | None => ctx
  end.

(** ** ALPN defaults *)
Fixpoint add_protos (seen : list string) (protocols : list string) : list string :=
  match protocols with
  | [] => []
  | p :: ps =>
      if String.eqb p EmptyString || bool_decide (p ∈ seen) then add_protos seen ps
      else p :: add_protos (p :: seen) ps
  end.
Definition withDefaultNextProtos (protocols : list string) : list string :=
  let defaults := ["h2"; "http/1.1"] in
  defaults ++ add_protos defaults protocols.

(** ** TLS configuration

    Certificates are abstract; of a [tls.Config] the model keeps what the package reads and writes.  The hook
    [GetConfigForClient] of the configuration that is built is [config_for_client] over the hook it replaces. *)
Section tls.
Context {certificate : Type}.

Inductive tls_config : Type :=
| MkTLSConf (certs : list certificate) (has_GetCertificate : bool)
    (GetConfigForClient : option (ClientHelloInfo -> outcome (option tls_config))) (protos : list string).

Definition conf_certs (c : tls_config) := match c with MkTLSConf x _ _ _ => x end.
Definition conf_GetCertificate (c : tls_config) := match c with MkTLSConf _ x _ _ => x end.
Definition conf_GetConfig (c : tls_config) := match c with MkTLSConf _ _ x _ => x end.
Definition conf_NextProtos (c : tls_config) := match c with MkTLSConf _ _ _ x => x end.

Record server_TLSConfig := MkServerTLS {
  stc_Cert : string; stc_Key : string; stc_Certificates : list certificate; stc_Config : option tls_config
}.

(** [load] is [tls.LoadX509KeyPair]. *)
Definition buildTLSConfig (load : string -> string -> outcome certificate) (cfg : option server_TLSConfig)
    : outcome tls_config :=
  match cfg with
  | None => Err "server: nil TLS config"
  | Some cfg =>
      let base := default (MkTLSConf [] false None []) (stc_Config cfg) in
      let certs := if 0 <? len (stc_Certificates cfg) then stc_Certificates cfg else conf_certs base in
      certs ← (if (len certs =? 0) && negb (conf_GetCertificate base) && negb (String.eqb (stc_Cert cfg) EmptyString)
                  && negb (String.eqb (stc_Key cfg) EmptyString)
               then cert ← wrap_err "server: load TLS certificate" (load (stc_Cert cfg) (stc_Key cfg)); Ok [cert]
               else Ok certs);
      if (len certs =? 0) && negb (conf_GetCertificate base)
         && (match conf_GetConfig base with None => true | Some _ => false end)
      then Err "server: TLS config requires a certificate"
      else Ok (MkTLSConf certs (conf_GetCertificate base) (conf_GetConfig base) (withDefaultNextProtos (conf_NextProtos base)))
  end.

(** The hook: the capture is stored first, then the replaced hook, if any, selects the configuration. *)
Definition config_for_client (previous : option (ClientHelloInfo -> outcome (option tls_config))) (info : ClientHelloInfo)
    (c : WrappedConn) (m : captures) : outcome (option tls_config) * captures :=
  match CaptureCallback info c m with
  | Ok m =>
      match previous with
      | None => (Ok None, m)
      | Some f =>
          (selected ← f info;
           Ok (match selected with
               | None => None
               | Some s => Some (MkTLSConf (conf_certs s) (conf_GetCertificate s) (conf_GetConfig s)
                                   (withDefaultNextProtos (conf_NextProtos s)))
               end), m)
      end
  | Err e => (Err e, m)
  | Panic => (Panic, m)
  end.

(** ** The server *)
Record Server := MkServer { srv_addr : string; srv_tlsCfg : option server_TLSConfig; srv_listener : option string }.

Definition server_New (addr : string) (tlsCfg : option server_TLSConfig) : Server := MkServer addr tlsCfg None.

(** [Start] up to the call of [Serve]; [listen] is [net.Listen], giving the listener's address. *)
Definition server_open (listen : string -> outcome string) (load : string -> string -> outcome certificate) (s : Server)
    : outcome unit * Server :=
  match listen (srv_addr s) with
  | Err e => (Err ("server: listen " +:+ Quote (srv_addr s) +:+ ": " +:+ e), s)
  | Panic => (Panic, s)
  | Ok a =>
      match srv_listener s with
      | Some _ => (Err "server: already started", s)
      | None =>
          let s := MkServer (srv_addr s) (srv_tlsCfg s) (Some a) in
          (match srv_tlsCfg s with
           | None => Ok tt
           | Some cfg => _ ← buildTLSConfig load (Some cfg); Ok tt
           end, s)
      end
  end.

(** How [http.Server.Serve] ended: [http.ErrServerClosed] or another error. *)
Inductive serve_end := ServerClosed | ServeFailed (e : string).

Definition serve_error (e : serve_end) : outcome unit :=
  match e with ServerClosed => Ok tt | ServeFailed e => Err ("server: serve: " +:+ e) end.

Definition server_Start (listen : string -> outcome string) (load : string -> string -> outcome certificate)
    (serve : serve_end) (s : Server) : outcome unit * Server :=
  let '(opened, s) := server_open listen load s in (_ ← opened; serve_error serve, s).

Definition server_Addr (s : Server) : string := default (srv_addr s) (srv_listener s).
End tls.

(** ** cert.go: the names a self-signed certificate is made for *)
Fixpoint split_hosts (hosts : list string) : list IP * list string :=
  match hosts with
  | [] => ([], [])
  | host :: hosts =>
      let '(ips, names) := split_hosts hosts in
      let ip := ParseIP host in
      if bool_decide (ip = []) then (ips, host :: names) else (ip :: ips, names)
  end.
Definition cert_hosts (hosts : list string) : list IP * list string :=
  split_hosts (if len hosts =? 0 then ["localhost"; "127.0.0.1"; "::1"] else hosts).

(** The certificate itself: key generation, signing and encoding are [crypto/...]'s. *)
Record cert_template := MkTemplate {
  ct_SerialNumber : Z; ct_CommonName : string; ct_NotBefore : Z; ct_NotAfter : Z; ct_KeyUsage : Z; ct_ExtKeyUsage : list Z;
  ct_BasicConstraintsValid : bool; ct_IPAddresses : list IP; ct_DNSNames : list string
}.

Section cert.
Context {key leaf pair : Type} (rand_Int : Z -> outcome Z) (GenerateKey : outcome key).
Context (CreateCertificate : cert_template -> key -> outcome (list byte)) (MarshalECPrivateKey : key -> outcome (list byte)).
Context (EncodeToMemory : string -> list byte -> list byte) (X509KeyPair : list byte -> list byte -> outcome pair).
Context (ParseCertificate : list byte -> outcome leaf).

Definition KeyUsageDigitalSignature : Z := 1.
Definition KeyUsageKeyEncipherment : Z := 4.
Definition ExtKeyUsageServerAuth : Z := 1.

(** The certificate with its leaf, and the pool that holds it. *)
Definition GenerateSelfSignedCert (now : Z) (hosts : list string) : outcome (pair * leaf * list leaf) :=
  serial ← rand_Int (Z.shiftl 1 128);
  key ← GenerateKey;
  let '(ips, names) := cert_hosts hosts in
  let template := MkTemplate serial "anti-scrapling test" (now - 3600 * 1000000000) (now + 24 * 3600 * 1000000000)
                    (Z.lor KeyUsageKeyEncipherment KeyUsageDigitalSignature) [ExtKeyUsageServerAuth] true ips names in
  der ← CreateCertificate template key;
  keyBytes ← MarshalECPrivateKey key;
  cert ← X509KeyPair (EncodeToMemory "CERTIFICATE" der) (EncodeToMemory "EC PRIVATE KEY" keyBytes);
  leaf ← ParseCertificate der;
  Ok (cert, leaf, [leaf]).
End cert.

(** Every host is in the certificate, as an address if it is one. *)
Lemma split_hosts_cover hosts :
  Forall (fun h => if bool_decide (ParseIP h = []) then h ∈ (split_hosts hosts).2 else ParseIP h ∈ (split_hosts hosts).1) hosts.
Proof.
  induction hosts as [|h hosts IH]; [done|]. cbn [split_hosts]. destruct (split_hosts hosts) as [ips names]. cbn [fst snd] in IH.
  destruct (bool_decide (ParseIP h = [])) eqn:Eh; cbn [fst snd]; (constructor; [rewrite Eh; by left|]); (eapply Forall_impl; [exact IH|]);
    intros x Hx; cbn in Hx |- *; destruct (bool_decide (ParseIP x = [])); try done; by right.
Qed.

(** ** Recording does not depend on how the bytes arrive *)
Definition limit : nat := Z.to_nat maxClientHelloBytes.

Lemma limit_eq : Z.of_nat limit = maxClientHelloBytes.
Proof. unfold limit. rewrite Z2Nat.id; [done|]. vm_compute. discriminate. Qed.

Lemma conn_Read_addr d c : wc_local (conn_Read d c) = wc_local c /\ wc_remote (conn_Read d c) = wc_remote c.
Proof. unfold conn_Read, record. by repeat case_match. Qed.

Lemma conn_Read_raw d c past :
  wc_raw c = take limit past -> wc_raw (conn_Read d c) = take limit (past ++ d).
Proof.
  intros Hc. pose proof limit_eq as Hlim. unfold conn_Read, record. rewrite take_app, <- Hc.
  assert (Hl : len (wc_raw c) = Z.min maxClientHelloBytes (len past))
    by (rewrite Hc; unfold len; rewrite length_take; lia).
  destruct (Z.ltb_spec 0 (len d)) as [Hd|Hd].
  - destruct (Z.leb_spec maxClientHelloBytes (len (wc_raw c))) as [Hge|Hlt].
    + replace (limit - length past)%nat with 0%nat by (unfold len in *; lia). by rewrite take_0, app_nil_r.
    + cbn [wc_raw]. f_equal. destruct (Z.ltb_spec (maxClientHelloBytes - len (wc_raw c)) (len d)).
      * f_equal. unfold len in *. lia.
      * rewrite take_ge; [done|]. unfold len in *. lia.
  - assert (d = []) as -> by (apply len_0_nil; pose proof (len_nonneg d); lia). by rewrite take_nil, app_nil_r.
Qed.

Lemma reads_raw cs c past :
  wc_raw c = take limit past -> wc_raw (fold_left (fun c d => conn_Read d c) cs c) = take limit (past ++ concat cs).
Proof.
  revert c past. induction cs as [|d cs IH]; intros c past Hc; cbn [fold_left concat]; [by rewrite app_nil_r|].
  rewrite (IH _ (past ++ d)); [by rewrite app_assoc|]. by apply conn_Read_raw.
Qed.

Lemma reads_addr cs c :
  wc_local (fold_left (fun c d => conn_Read d c) cs c) = wc_local c
  /\ wc_remote (fold_left (fun c d => conn_Read d c) cs c) = wc_remote c.
Proof.
  revert c. induction cs as [|d cs IH]; intros c; [done|]. cbn [fold_left].
  destruct (IH (conn_Read d c)) as [-> ->]. apply conn_Read_addr.
Qed.

(** ** A captured hello is the client's, for as long as the connection lives *)

(** What happens to other connections: handshakes and state changes. *)
Inductive conn_event :=
| EHandshake (info : ClientHelloInfo) (c : WrappedConn)
| EState (local remote : string) (state : ConnState).

Definition event_key (e : conn_event) : string :=
  match e with EHandshake _ c => connectionKey c | EState l r _ => connectionKeyStrings l r end.

Definition conn_step (m : captures) (e : conn_event) : captures :=
  match e with
  | EHandshake info c => match CaptureCallback info c m with Ok m' => m' | _ => m end
  | EState l r st => connState l r st m
  end.

Lemma conn_step_other key m e : event_key e <> key -> conn_step m e !! key = m !! key.
Proof.
  intros Hne. destruct e as [info c|l r st]; cbn in *.
  - unfold CaptureCallback. destruct (String.eqb_spec (connectionKey c) EmptyString); [done|].
    destruct (RawClientHello c); cbn; [|done..]. by rewrite lookup_insert_ne.
  - unfold connState, deleteClientHelloCapture. destruct st; try done; (case_match; [done|by rewrite lookup_delete_ne]).
Qed.

Lemma conn_run_other key evs m : Forall (fun e => event_key e <> key) evs -> fold_left conn_step evs m !! key = m !! key.
Proof.
  intros Hf. revert m. induction Hf as [|e evs He _ IH]; intros m; [done|]. cbn [fold_left]. by rewrite IH, conn_step_other.
Qed.

Lemma RawClientHello_record w rest c :
  hello_ok w = true -> len (enc_record w) <= maxClientHelloBytes -> wc_raw c = take limit (enc_record w ++ rest) ->
  RawClientHello c = Ok (enc_record w).
Proof.
  intros Hw Hm Hraw. pose proof limit_eq as Hlim.
  assert (Hlen : len (enc_handshake w) < 65536) by (unfold hello_ok in Hw; rewrite !andb_true_iff in Hw; lia).
  rewrite take_app_ge in Hraw by (unfold len in Hm; lia). set (more := take _ rest) in Hraw.
  pose proof (len_nonneg more). pose proof (len_nonneg (enc_handshake w)).
  assert (He : len (enc_record w) = 5 + len (enc_handshake w))
    by (unfold enc_record, vec16; rewrite !len_app, len_enc16; change (len [_; _; _]) with 3; lia).
  unfold RawClientHello. rewrite Hraw, len_app, He.
  replace (5 <=? 5 + len (enc_handshake w) + len more) with true by lia.
  assert (index (enc_record w ++ more) 0 = Ok (byte_of_Z 22)) as -> by apply index_head.
  assert (uint16_at (enc_record w ++ more) 3 5 = Ok (len (enc_handshake w))) as ->.
  { unfold enc_record, vec16. rewrite <- !app_assoc. by apply uint16_at_enc16. }
  cbn [mbind outcome_bind]. rewrite byte_to_of_Z_small by lia. cbn [Z.eqb Pos.eqb].
  replace (5 + len (enc_handshake w) <=? 5 + len (enc_handshake w) + len more) with true by lia.
  rewrite <- He. by apply (slice_app_mid []).
Qed.

(** C34: when a TLS connection's hello of at most 8 KiB has arrived, in reads of any sizes and with any
    bytes after it, the capture made at the handshake parses to exactly that hello; it is the
    one every request of the connection sees whatever other connections do meanwhile, and it is
    gone once the connection is closed. *)
Theorem capture_lifecycle w rest cs info local remote evs m :
  hello_ok w = true -> len (enc_record w) <= maxClientHelloBytes -> concat cs = enc_record w ++ rest ->
  local <> EmptyString -> remote <> EmptyString -> Forall (fun e => event_key e <> local +:+ remote) evs ->
  let c := fold_left (fun c d => conn_Read d c) cs (NewWrappedConn local remote) in
  exists m', CaptureCallback info c m = Ok m'
  /\ let m'' := fold_left conn_step evs m' in
     (exists cap, captureForRequest local remote m'' = Some cap /\ ParseClientHello (cap_Raw cap) = Ok (hello_of w)
                  /\ cap_Info cap = info)
     /\ captureForRequest local remote (connState local remote StateClosed m'') = None.
Proof.
  intros Hw Hm Hcs Hl Hr Hevs c.
  assert (Hraw : RawClientHello c = Ok (enc_record w)).
  { apply (RawClientHello_record w rest); [done..|]. unfold c. rewrite (reads_raw cs _ []); [by rewrite Hcs|].
    by rewrite take_nil. }
  assert (Hk : connectionKeyStrings local remote = local +:+ remote)
    by (unfold connectionKeyStrings; apply String.eqb_neq in Hl as ->, Hr as ->; done).
  assert (Hne : String.eqb (local +:+ remote) EmptyString = false) by (destruct local; [done|by rewrite append_cons]).
  assert (Hck : connectionKey c = local +:+ remote).
  { unfold connectionKey, c. destruct (reads_addr cs (NewWrappedConn local remote)) as [-> ->]. exact Hk. }
  unfold CaptureCallback. rewrite Hck, Hne, Hraw. cbn [mbind outcome_bind]. eexists. split; [reflexivity|].
  unfold captureForRequest, loadClientHelloCapture, connState, deleteClientHelloCapture. cbv zeta. rewrite Hk, Hne. split.
  - exists (MkCapture (enc_record w) info). rewrite conn_run_other, lookup_insert_eq by done. split; [done|]. split; [|done].
    cbn [cap_Raw]. rewrite <- (app_nil_r (enc_record w)). by apply parse_record_enc.
  - apply lookup_delete_eq.
Qed.

Definition sample_info : ClientHelloInfo := MkClientHelloInfo [] "example.org" [] [] [] ["h2"] [].

Lemma capture_lifecycle_witness :
  exists cap m, CaptureCallback sample_info
      (fold_left (fun c d => conn_Read d c) [take 7 (enc_record sample_hello); drop 7 (enc_record sample_hello)]
         (NewWrappedConn "10.0.0.1:443" "203.0.113.7:4000")) ∅ = Ok m
    /\ captureForRequest "10.0.0.1:443" "203.0.113.7:4000" m = Some cap
    /\ ParseClientHello (cap_Raw cap) = Ok (hello_of sample_hello).
Proof.
  destruct (capture_lifecycle sample_hello [] [take 7 (enc_record sample_hello); drop 7 (enc_record sample_hello)]
    sample_info "10.0.0.1:443" "203.0.113.7:4000" [] ∅) as (m & Hm & (cap & Hc & Hp & _) & _);
    [vm_compute; reflexivity | vm_compute; discriminate | vm_compute; reflexivity | discriminate | discriminate | constructor |].
  exists cap, m. split; [exact Hm|]. split; [exact Hc|exact Hp].
Defined.
