(* ===== verification/Lifecycle.v ===== *)
(** * The life of the process ([cmd/antiscrapling/main.go], [internal/server/server.go])

    After start-up ([main_start] of [Wire]) the process is the goroutine of [main] and three goroutines that run the
    servers and send the result of [Start] on [serveErrs].  A move is a step of one of the four, of the system
    (a signal, a failure of [Serve], a request beginning or ending on a connection, the clock) or of [http.Server]:
    [Shutdown] makes [Serve] return [http.ErrServerClosed], also when [Serve] is called later, and returns when no
    connection is busy or when its context, the one of 15 seconds the three calls share, is done.  When [main] returns
    the process is over: nothing moves after that. *)

From S2P Require Import Prelude GoStrings GoNet Types Crypto ClientHello ClientHelloWire Server.
#[local] Open Scope Z_scope.

Section lifecycle.
Context {certificate : Type}.

(** The goroutine of a server: not yet run, in [Serve], or back from [Start] with its error. *)
Inductive serving := Spawned | Serving | Returned (err : option string).

#[export] Instance serving_eq_dec : EqDecision serving.
Proof. solve_decision. Defined.

(** A server, its goroutine, whether [Stop] has been called, and the number of its connections that are not idle. *)
Record running := MkRunning {
  rn_server : Server (certificate := certificate); rn_state : serving; rn_shutdown : bool; rn_busy : nat
}.

(** Where [main] is: before [SetReady(true)], in the [select], between two calls of [Stop] (with the number of servers
    stopped), inside [Stop] of a server, or returned, after [cache.Close]. *)
Inductive phase := Starting | Waiting | Stopping (stopped : nat) | Draining (k : nat) | Terminated.

(** [pr_expired]: the 15 seconds of the shutdown context have passed. *)
Record process := MkProcess {
  pr_servers : list running; pr_serveErrs : list (option string); pr_ready : bool; pr_cache_open : bool; pr_phase : phase;
  pr_expired : bool
}.

(** The main, metrics and admin servers, with their addresses and the main server's TLS configuration. *)
Definition process_start (bind metricsBind adminBind : string) (tlsCfg : option (server_TLSConfig (certificate := certificate))) : process :=
  MkProcess (map (fun s => MkRunning s Spawned false 0)
               [server_New bind tlsCfg; server_New metricsBind None; server_New adminBind None]) [] false true Starting false.

Inductive life_move :=
| MOpen (k : nat) (listen : string -> outcome string) (load : string -> string -> outcome certificate)
| MServeFailed (k : nat) (e : string)
| MServeClosed (k : nat)
| MBusy (k : nat)
| MIdle (k : nat)
| MReady
| MSignal
| MReceive
| MStop
| MDrained
| MExpire
| MTimedOut
| MClose.

Definition set_running (k : nat) (r : running) (p : process) : process :=
  MkProcess (<[k := r]> (pr_servers p)) (pr_serveErrs p) (pr_ready p) (pr_cache_open p) (pr_phase p) (pr_expired p).

Definition set_phase (ph : phase) (p : process) : process :=
  MkProcess (pr_servers p) (pr_serveErrs p) (pr_ready p) (pr_cache_open p) ph (pr_expired p).

(** [serveErrs <- srv.Start()] *)
Definition return_from (k : nat) (s : Server) (r : running) (o : outcome unit) (p : process) : process :=
  let err := match o with Err e => Some e | _ => None end in
  MkProcess (<[k := MkRunning s (Returned err) (rn_shutdown r) (rn_busy r)]> (pr_servers p)) (pr_serveErrs p ++ [err]) (pr_ready p)
    (pr_cache_open p) (pr_phase p) (pr_expired p).

(** What the call of [Stop] does at once: [http.Server.Shutdown] closes the listener.  It then waits, in the phase
    [Draining]. *)
Definition server_Stop (r : running) : running := MkRunning (rn_server r) (rn_state r) true (rn_busy r).

(** [SetReady(false)] and [context.WithTimeout], then the servers are stopped in turn. *)
Definition begin_shutdown (serveErrs : list (option string)) (p : process) : process :=
  MkProcess (pr_servers p) serveErrs false (pr_cache_open p) (Stopping 0) false.

(** A move of the goroutine of a server. *)
Definition serve_step (k : nat) (f : running -> option process) (p : process) : option process := r ← pr_servers p !! k; f r.

Definition running_step (m : life_move) (p : process) : option process :=
  match m with
  | MOpen k listen load => serve_step k (fun r =>
      match rn_state r with
      | Spawned =>
          match server_open listen load (rn_server r) with
          | (Ok _, s) => Some (if rn_shutdown r then return_from k s r (serve_error ServerClosed) p
                               else set_running k (MkRunning s Serving false (rn_busy r)) p)
          | (Err e, s) => Some (return_from k s r (Err e) p)
          | (Panic, _) => None
          end
      | _ => None
      end) p
  | MServeFailed k e => serve_step k (fun r =>
      match rn_state r with
      | Serving => Some (return_from k (rn_server r) r (serve_error (ServeFailed e)) p)
      | _ => None
      end) p
  | MServeClosed k => serve_step k (fun r =>
      match rn_state r, rn_shutdown r with
      | Serving, true => Some (return_from k (rn_server r) r (serve_error ServerClosed) p)
      | _, _ => None
      end) p
  | MBusy k => serve_step k (fun r =>
      match rn_state r, rn_shutdown r with
      | Serving, false => Some (set_running k (MkRunning (rn_server r) Serving false (S (rn_busy r))) p)
      | _, _ => None
      end) p
  | MIdle k => serve_step k (fun r =>
      match rn_busy r with
      | S n => Some (set_running k (MkRunning (rn_server r) (rn_state r) (rn_shutdown r) n) p)
      | O => None
      end) p
  | MReady =>
      match pr_phase p with
      | Starting => Some (MkProcess (pr_servers p) (pr_serveErrs p) true (pr_cache_open p) Waiting (pr_expired p))
      | _ => None
      end
  | MSignal => match pr_phase p with Waiting => Some (begin_shutdown (pr_serveErrs p) p) | _ => None end
  | MReceive =>
      match pr_phase p, pr_serveErrs p with
      | Waiting, _ :: rest => Some (begin_shutdown rest p)
      | _, _ => None
      end
  | MStop =>
      match pr_phase p with
      | Stopping n => r ← pr_servers p !! n; Some (set_phase (Draining n) (set_running n (server_Stop r) p))
      | _ => None
      end
  | MDrained =>
      match pr_phase p with
      | Draining n => r ← pr_servers p !! n; if (rn_busy r =? 0)%nat then Some (set_phase (Stopping (S n)) p) else None
      | _ => None
      end
  | MExpire =>
      match pr_phase p, pr_expired p with
      | Stopping _, false | Draining _, false =>
          Some (MkProcess (pr_servers p) (pr_serveErrs p) (pr_ready p) (pr_cache_open p) (pr_phase p) true)
      | _, _ => None
      end
  | MTimedOut =>
      match pr_phase p, pr_expired p with
      | Draining n, true => Some (set_phase (Stopping (S n)) p)
      | _, _ => None
      end
  | MClose =>
      match pr_phase p with
      | Stopping n =>
          if (length (pr_servers p) <=? n)%nat
          then Some (MkProcess (pr_servers p) (pr_serveErrs p) (pr_ready p) false Terminated (pr_expired p))
          else None
      | _ => None
      end
  end.

Definition life_step (m : life_move) (p : process) : option process :=
  match pr_phase p with Terminated => None | _ => running_step m p end.

Definition lstep (p p' : process) : Prop := exists m, life_step m p = Some p'.

(** ** The invariant *)
Definition is_returned (r : running) : nat := match rn_state r with Returned _ => 1 | _ => 0 end.
Definition stopped (p : process) : nat := match pr_phase p with Stopping n => n | Draining n => S n | Terminated => 3 | _ => 0 end.

(** A goroutine's result is in the channel or has been received; readiness is that of the [select]; the servers are
    stopped in order, and the cache is closed last. *)
Definition life_inv (p : process) : Prop :=
  length (pr_servers p) = 3%nat
  /\ (length (pr_serveErrs p) <= sum_list_with is_returned (pr_servers p))%nat
  /\ (pr_phase p ∈ [Starting; Waiting] -> length (pr_serveErrs p) = sum_list_with is_returned (pr_servers p))
  /\ (pr_ready p = true <-> pr_phase p = Waiting) /\ (pr_cache_open p = false <-> pr_phase p = Terminated)
  /\ (stopped p <= 3)%nat /\ forall k r, pr_servers p !! k = Some r -> (k < stopped p)%nat -> rn_shutdown r = true.

Lemma sum_insert {A} (f : A -> nat) l k x y :
  l !! k = Some x -> (sum_list_with f (<[k := y]> l) + f x = sum_list_with f l + f y)%nat.
Proof.
  revert k. induction l as [|z l IH]; intros [|k] Hk; [done..|injection Hk as ->; cbn; lia|].
  change (<[S k := y]> (z :: l)) with (z :: <[k := y]> l). cbn [sum_list_with]. rewrite <- Nat.add_assoc, (IH k Hk). lia.
Qed.

Lemma returned_bound l : (sum_list_with is_returned l <= length l)%nat.
Proof. induction l as [|r l IH]; cbn; [lia|]. unfold is_returned at 1. case_match; lia. Qed.

Lemma life_inv_start bind metricsBind adminBind tlsCfg : life_inv (process_start bind metricsBind adminBind tlsCfg).
Proof. split_and!; cbn; try done; try lia. Qed.

(** What a goroutine's move changes. *)
Lemma return_from_inv k r s o p :
  pr_servers p !! k = Some r -> is_returned r = 0%nat -> life_inv p -> life_inv (return_from k s r o p).
Proof.
  intros Hk Hr (H1 & H2 & H3 & H4 & H5 & H6 & H7). unfold life_inv, return_from, stopped in *. cbn.
  set (q := MkRunning s _ _ _). pose proof (sum_insert is_returned _ k r q Hk) as Hs.
  change (is_returned q) with 1%nat in Hs. rewrite length_insert, length_app. cbn [length].
  split_and!; [done|lia|intros Hp; specialize (H3 Hp); lia|done|done|done|].
  intros k' r' Hk' Hlt. destruct (decide (k' = k)) as [->|Hne].
  - rewrite list_lookup_insert_eq in Hk' by (by eapply lookup_lt_Some). injection Hk' as <-. cbn. by eapply H7.
  - rewrite list_lookup_insert_ne in Hk' by done. by eapply H7.
Qed.

Lemma set_running_inv k r r' p :
  pr_servers p !! k = Some r -> is_returned r = is_returned r' -> (rn_shutdown r = true -> rn_shutdown r' = true) ->
  life_inv p -> life_inv (set_running k r' p).
Proof.
  intros Hk Hr Hb (H1 & H2 & H3 & H4 & H5 & H6 & H7). unfold life_inv, set_running, stopped in *. cbn.
  pose proof (sum_insert is_returned _ k r r' Hk) as Hs. rewrite length_insert. split_and!; try done; [lia|intros Hp; specialize (H3 Hp); lia|].
  intros k' q Hk' Hlt. destruct (decide (k' = k)) as [->|Hne].
  - rewrite list_lookup_insert_eq in Hk' by (by eapply lookup_lt_Some). injection Hk' as <-. apply Hb. by eapply H7.
  - rewrite list_lookup_insert_ne in Hk' by done. by eapply H7.
Qed.

Lemma begin_shutdown_inv l p :
  pr_phase p = Waiting -> (length l <= length (pr_serveErrs p))%nat -> life_inv p -> life_inv (begin_shutdown l p).
Proof.
  intros Hp Hl (H1 & H2 & H3 & H4 & H5 & H6 & H7). unfold life_inv, begin_shutdown, stopped in *. cbn. rewrite Hp in *.
  split_and!; [done|lia|rewrite !elem_of_cons, elem_of_nil; by intros [?|[?|[]]]|done| |lia|intros; lia].
  rewrite H5. done.
Qed.

(** [main] moving on while it stops the servers. *)
Lemma stopping_inv servers ph expired p :
  life_inv p -> pr_phase p ∉ [Starting; Waiting; Terminated] -> ph ∉ [Starting; Waiting; Terminated] ->
  let q := MkProcess servers (pr_serveErrs p) (pr_ready p) (pr_cache_open p) ph expired in
  length servers = 3%nat -> sum_list_with is_returned servers = sum_list_with is_returned (pr_servers p) ->
  (stopped q <= 3)%nat -> (forall k r, servers !! k = Some r -> (k < stopped q)%nat -> rn_shutdown r = true) -> life_inv q.
Proof.
  intros (H1 & H2 & H3 & H4 & H5 & H6 & H7) Hp Hph q Hl Hs Hst Hall. rewrite !not_elem_of_cons in Hp, Hph.
  unfold life_inv, q in *. cbn in *. rewrite Hs. split_and!; [done|done| | | |done|done].
  - rewrite !elem_of_cons, elem_of_nil. intros [?|[?|[]]]; tauto.
  - rewrite H4. tauto.
  - rewrite H5. tauto.
Qed.

#[local] Ltac not_over := rewrite !not_elem_of_cons; split_and!; [done..|apply not_elem_of_nil].

(** The server a move is of, unless it is one of [main] and its clock. *)
Definition server_of (m : life_move) : option nat :=
  match m with MOpen k _ _ | MServeFailed k _ | MServeClosed k | MBusy k | MIdle k => Some k | _ => None end.

Lemma main_step_inv m p p' : server_of m = None -> life_inv p -> running_step m p = Some p' -> life_inv p'.
Proof.
  intros Hm Hp Hs. assert (Hq := Hp). destruct Hq as (H1 & H2 & H3 & H4 & H5 & H6 & H7).
  destruct m; try done; cbn in Hs; clear Hm; destruct (pr_phase p) as [| |n|n|] eqn:Ep; try done.
  - injection Hs as <-. unfold life_inv, stopped in *. cbn. rewrite Ep in *. split_and!; [done|done| |done| |lia|intros; lia].
    + intros _. apply H3. by left.
    + rewrite H5. done.
  - injection Hs as <-. by apply begin_shutdown_inv.
  - destruct (pr_serveErrs p) as [|e l] eqn:El; [done|]. injection Hs as <-. apply begin_shutdown_inv; [done|rewrite El; cbn; lia|done].
  - destruct (pr_servers p !! n) as [r|] eqn:Er; [|done]. injection Hs as <-. apply lookup_lt_Some in Er as Hn.
    pose proof (sum_insert is_returned _ n r (server_Stop r) Er) as Hsum. change (is_returned (server_Stop r)) with (is_returned r) in Hsum.
    apply (stopping_inv (<[n := server_Stop r]> (pr_servers p)) (Draining n) (pr_expired p) p); [done|rewrite Ep; not_over|not_over|by rewrite length_insert|lia|cbn; lia|].
    cbn. intros k q Hk Hlt. destruct (decide (k = n)) as [->|Hne].
    + rewrite list_lookup_insert_eq in Hk by done. by injection Hk as <-.
    + rewrite list_lookup_insert_ne in Hk by done. eapply H7; [done|]. unfold stopped. rewrite Ep. lia.
  - destruct (pr_servers p !! n) as [r|] eqn:Er; [|done]. cbn in Hs. destruct (rn_busy r =? 0)%nat; [|done]. injection Hs as <-.
    unfold stopped in *. rewrite Ep in *. by apply (stopping_inv (pr_servers p) (Stopping (S n)) (pr_expired p) p); rewrite ?Ep; [|not_over|not_over|..].
  - destruct (pr_expired p); [done|]. injection Hs as <-. unfold stopped in *. rewrite Ep in *.
    by apply (stopping_inv (pr_servers p) (Stopping n) true p); rewrite ?Ep; [|not_over|not_over|..].
  - destruct (pr_expired p); [done|]. injection Hs as <-. unfold stopped in *. rewrite Ep in *.
    by apply (stopping_inv (pr_servers p) (Draining n) true p); rewrite ?Ep; [|not_over|not_over|..].
  - destruct (pr_expired p); [|done]. injection Hs as <-. unfold stopped in *. rewrite Ep in *.
    by apply (stopping_inv (pr_servers p) (Stopping (S n)) (pr_expired p) p); rewrite ?Ep; [|not_over|not_over|..].
  - destruct (Nat.leb_spec (length (pr_servers p)) n) as [Hn|]; [|done]. injection Hs as <-. unfold life_inv, stopped in *. cbn. rewrite Ep in *.
    split_and!; [done|done| | |done|lia|].
    + rewrite !elem_of_cons, elem_of_nil. by intros [?|[?|[]]].
    + rewrite H4. done.
    + intros k q Hk Hlt. eapply H7; [done|lia].
Qed.

Lemma life_step_inv m p p' : life_inv p -> life_step m p = Some p' -> life_inv p'.
Proof.
  intros Hp Hs. assert (Hr : running_step m p = Some p') by (unfold life_step in Hs; by destruct (pr_phase p)). clear Hs.
  destruct m as [k listen load|k e|k|k|k| | | | | | | |];
    try (by eapply main_step_inv; [|exact Hp|exact Hr]); cbn in Hr; unfold serve_step in Hr; destruct (pr_servers p !! k) as [r|] eqn:Er; try done; cbn in Hr.
  - destruct (rn_state r) eqn:Es; [|done..]. assert (Hz : is_returned r = 0%nat) by (unfold is_returned; by rewrite Es).
    destruct (server_open listen load (rn_server r)) as [[u|e|] s]; [| |done]; [destruct (rn_shutdown r) eqn:Ed|]; injection Hr as <-;
      [by eapply return_from_inv|eapply set_running_inv; [done|done|by rewrite Ed|done]|by eapply return_from_inv].
  - destruct (rn_state r) eqn:Es; [done| |done]. injection Hr as <-. eapply return_from_inv; [done|unfold is_returned; by rewrite Es|done].
  - destruct (rn_state r) eqn:Es; [done| |done]. destruct (rn_shutdown r); [|done]. injection Hr as <-.
    eapply return_from_inv; [done|unfold is_returned; by rewrite Es|done].
  - destruct (rn_state r) eqn:Es; [done| |done]. destruct (rn_shutdown r) eqn:Ed; [done|]. injection Hr as <-.
    eapply set_running_inv; [done|unfold is_returned; by rewrite Es|by rewrite Ed|done].
  - destruct (rn_busy r); [done|]. injection Hr as <-. by eapply set_running_inv.
Qed.

(** ** Termination *)
Definition server_work (r : running) : nat := match rn_state r with Spawned => 2 | Serving => 1 | Returned _ => 0 end.
Definition phase_work (ph : phase) : nat :=
  match ph with Starting => 9 | Waiting => 8 | Stopping n => 7 - 2 * n | Draining n => 6 - 2 * n | Terminated => 0 end.
Definition life_work (p : process) : nat :=
  sum_list_with server_work (pr_servers p) + phase_work (pr_phase p)
  + match pr_phase p with Starting | Waiting => 1 | Terminated => 0 | _ => if pr_expired p then 0 else 1 end.

(** Requests come and go; every other move brings the end nearer. *)
Definition traffic (m : life_move) : bool := match m with MBusy _ | MIdle _ => true | _ => false end.

Lemma work_server k r r' p q :
  pr_servers p !! k = Some r -> pr_servers q = <[k := r']> (pr_servers p) -> pr_phase q = pr_phase p -> pr_expired q = pr_expired p ->
  (life_work q + server_work r = life_work p + server_work r')%nat.
Proof. intros Hk Hq Hp He. unfold life_work. rewrite Hq, Hp, He. pose proof (sum_insert server_work _ k r r' Hk). lia. Qed.

Lemma serve_step_work m k p p' : server_of m = Some k -> running_step m p = Some p' ->
  exists r r', pr_servers p !! k = Some r /\ pr_servers p' = <[k := r']> (pr_servers p) /\ pr_phase p' = pr_phase p
  /\ pr_expired p' = pr_expired p /\ (server_work r' + (if traffic m then 0 else 1) <= server_work r)%nat.
Proof.
  intros Hm Hs. destruct m as [k' listen load|k' e|k'|k'|k'| | | | | | | |]; try done; injection Hm as ->; cbn in Hs; unfold serve_step in Hs;
    destruct (pr_servers p !! k) as [r|] eqn:Ek; try done; cbn in Hs; exists r.
  - destruct (rn_state r) eqn:Es; [|done..]. destruct (server_open _ _ _) as [[u|e|] s]; [| |done]; [destruct (rn_shutdown r)|]; injection Hs as <-;
      (eexists; split_and!; [done..|]; unfold server_work; rewrite Es; cbn; lia).
  - destruct (rn_state r) eqn:Es; [done| |done]. injection Hs as <-. eexists. split_and!; [done..|]. unfold server_work. rewrite Es. cbn. lia.
  - destruct (rn_state r) eqn:Es; [done| |done]. destruct (rn_shutdown r); [|done]. injection Hs as <-.
    eexists. split_and!; [done..|]. unfold server_work. rewrite Es. cbn. lia.
  - destruct (rn_state r) eqn:Es; [done| |done]. destruct (rn_shutdown r); [done|]. injection Hs as <-.
    eexists. split_and!; [done..|]. unfold server_work. rewrite Es. cbn. lia.
  - destruct (rn_busy r); [done|]. injection Hs as <-. eexists. split_and!; [done..|]. unfold server_work. cbn. lia.
Qed.

Lemma life_step_work m p p' : life_inv p -> life_step m p = Some p' ->
  (life_work p' + (if traffic m then 0 else 1) <= life_work p)%nat.
Proof.
  intros Hp Hs. assert (Hne : pr_phase p <> Terminated) by (intros E; unfold life_step in Hs; by rewrite E in Hs).
  assert (Hr : running_step m p = Some p') by (unfold life_step in Hs; by destruct (pr_phase p)). clear Hs.
  destruct (server_of m) as [k|] eqn:Em.
  { destruct (serve_step_work m k p p' Em Hr) as (r & r' & Q0 & Q1 & Q2 & Q3 & Q4). pose proof (work_server k r r' p p' Q0 Q1 Q2 Q3). lia. }
  destruct m; try done;
    destruct Hp as (H1 & _ & _ & _ & _ & H6 & _); unfold stopped in H6; cbn in Hr; unfold life_work; cbn [traffic];
    destruct (pr_phase p) as [| |n|n|] eqn:Ep; try done.
  - injection Hr as <-. cbn. destruct (pr_expired p); lia.
  - injection Hr as <-. cbn. destruct (pr_expired p); lia.
  - destruct (pr_serveErrs p); [done|]. injection Hr as <-. cbn. destruct (pr_expired p); lia.
  - destruct (pr_servers p !! n) as [r|] eqn:Er; [|done]. injection Hr as <-.
    pose proof (sum_insert server_work _ n r (server_Stop r) Er) as Hsum. change (server_work (server_Stop r)) with (server_work r) in Hsum.
    apply lookup_lt_Some in Er. cbn in *. lia.
  - destruct (pr_servers p !! n) as [r|] eqn:Er; [|done]. cbn in Hr. destruct (rn_busy r =? 0)%nat; [|done]. injection Hr as <-. cbn. lia.
  - destruct (pr_expired p); [done|]. injection Hr as <-. cbn. lia.
  - destruct (pr_expired p); [done|]. injection Hr as <-. cbn. lia.
  - destruct (pr_expired p) eqn:Ex; [|done]. injection Hr as <-. cbn. rewrite Ex. lia.
  - destruct (Nat.leb_spec (length (pr_servers p)) n) as [Hn|]; [|done]. injection Hr as <-. cbn. destruct (pr_expired p); lia.
Qed.

(** Runs, executable. *)
Fixpoint life_exec (ms : list life_move) (p : process) : option process :=
  match ms with [] => Some p | m :: ms => p ← life_step m p; life_exec ms p end.

Lemma life_exec_inv ms : forall p q, life_exec ms p = Some q -> life_inv p ->
  life_inv q /\ (life_work q + length (List.filter (fun m => negb (traffic m)) ms) <= life_work p)%nat.
Proof.
  induction ms as [|m ms IH]; intros p q He Hp; [injection He as <-; cbn; split; [done|lia]|]. cbn [life_exec] in He.
  destruct (life_step m p) as [p1|] eqn:E; [|done]. destruct (IH p1 q He (life_step_inv m p p1 Hp E)) as [Hq Hw].
  pose proof (life_step_work m p p1 Hp E). split; [done|]. cbn [List.filter]. destruct (traffic m); cbn [negb length]; lia.
Qed.

Lemma lsteps_inv p q : rtc lstep p q -> life_inv p -> life_inv q.
Proof. induction 1 as [p|p q r [m Hm] _ IH]; [done|]. intros Hp. by apply IH, (life_step_inv m p). Qed.

(** The moves that happen by themselves; the others are a signal, a failure of [Serve], and requests beginning and ending. *)
Definition own_move (m : life_move) : bool :=
  match m with MSignal | MServeFailed _ _ | MBusy _ | MIdle _ => false | _ => true end.

Lemma find_server (st : serving) (l : list running) :
  (exists k r, l !! k = Some r /\ rn_state r = st) \/ Forall (fun r => rn_state r <> st) l.
Proof.
  destruct (decide (Exists (fun r => rn_state r = st) l)) as [He|Hn]; [left|right].
  - apply Exists_exists in He as (r & Hr & Hs). apply list_elem_of_lookup in Hr as [k Hk]. eauto.
  - apply Forall_forall. intros r Hr Hs. apply Hn, Exists_exists. eauto.
Qed.

Lemma none_returned (l : list running) :
  sum_list_with is_returned l = 0%nat -> Forall (fun r => rn_state r <> Spawned) l -> Forall (fun r => rn_state r = Serving) l.
Proof.
  intros Hs Hn. induction Hn as [|r l Hr _ IH]; constructor; cbn in Hs; unfold is_returned at 1 in Hs.
  - by destruct (rn_state r).
  - apply IH. lia.
Qed.

Lemma life_progress p : life_inv p ->
  (exists m p', own_move m = true /\ life_step m p = Some p') \/ pr_phase p = Terminated
  \/ (pr_phase p = Waiting /\ pr_serveErrs p = [] /\ Forall (fun r => rn_state r = Serving) (pr_servers p)).
Proof.
  intros (H1 & H2 & H3 & H4 & H5 & H6 & H7). unfold stopped in H6. destruct (pr_phase p) as [| |n|n|] eqn:Ep.
  - left. eexists MReady, _. split; [done|]. unfold life_step. cbn. rewrite Ep. reflexivity.
  - destruct (pr_serveErrs p) as [|e l] eqn:El.
    + destruct (find_server Spawned (pr_servers p)) as [(k & r & Hk & Hr)|Hsp].
      * left. eexists (MOpen k (fun _ => Err EmptyString) (fun _ _ => Err EmptyString)), _. split; [done|].
        unfold life_step. rewrite Ep. cbn. unfold serve_step. rewrite Hk. cbn. rewrite Hr. reflexivity.
      * right. right. split_and!; [done..|]. apply none_returned; [|done]. rewrite <- H3; [done|right; by left].
    + left. eexists MReceive, _. split; [done|]. unfold life_step. cbn. by rewrite Ep, El.
  - left. destruct (decide (n < 3)%nat) as [Hn|Hn].
    + destruct (lookup_lt_is_Some_2 (pr_servers p) n) as [r Hr]; [lia|]. eexists MStop, _. split; [done|]. unfold life_step. cbn. by rewrite Ep, Hr.
    + eexists MClose, _. split; [done|]. unfold life_step. cbn. rewrite Ep. by rewrite (proj2 (Nat.leb_le _ _)) by lia.
  - left. destruct (pr_expired p) eqn:Ex; [eexists MTimedOut, _|eexists MExpire, _]; (split; [done|]); unfold life_step; cbn; by rewrite Ep, Ex.
  - right. by left.
Qed.

(** C35: the process shuts down in order: in every state it can reach, it says it is ready only while it waits for a signal
    or a server error; the channel never holds more than the three results it has room for, so no server goroutine
    blocks; and the cache is closed only when all three servers have been stopped. *)
Theorem lifecycle_safe bind metricsBind adminBind tlsCfg p :
  rtc lstep (process_start bind metricsBind adminBind tlsCfg) p ->
  (pr_ready p = true <-> pr_phase p = Waiting) /\ (length (pr_serveErrs p) <= 3)%nat
  /\ (pr_cache_open p = false -> Forall (fun r => rn_shutdown r = true) (pr_servers p)).
Proof.
  intros Hn. destruct (lsteps_inv _ p Hn (life_inv_start _ _ _ _)) as (H1 & H2 & _ & H4 & H5 & _ & H7).
  pose proof (returned_bound (pr_servers p)). split_and!; [done|lia|]. intros Hc. apply H5 in Hc. apply Forall_lookup_2. intros k r Hk.
  apply (H7 k r Hk). unfold stopped. rewrite Hc. apply lookup_lt_Some in Hk. lia.
Qed.

(** C36: the process ends: apart from requests beginning and ending, no run has more than 16 moves; and a process that
    cannot go on by itself, without waiting for a signal, for [Serve] to fail or for a request to end, has returned from
    [main] with the cache closed and [Stop] called on all three servers, or waits in the [select] with all three
    serving and no error received.  So a signal and an error of any server lead to the end, by the time limit of 15 s
    even if clients keep their connections busy. *)
Theorem shutdown_completes bind metricsBind adminBind tlsCfg ms p :
  life_exec ms (process_start bind metricsBind adminBind tlsCfg) = Some p ->
  (length (List.filter (fun m => negb (traffic m)) ms) <= 16)%nat
  /\ ((exists m p', own_move m = true /\ life_step m p = Some p')
      \/ (pr_phase p = Terminated /\ pr_cache_open p = false /\ Forall (fun r => rn_shutdown r = true) (pr_servers p))
      \/ (pr_phase p = Waiting /\ pr_serveErrs p = [] /\ Forall (fun r => rn_state r = Serving) (pr_servers p))).
Proof.
  intros He. destruct (life_exec_inv ms _ p He (life_inv_start _ _ _ _)) as [Hp Hw]. split; [unfold life_work in Hw; cbn in Hw; lia|].
  destruct (life_progress p Hp) as [Hm|[Ht|Hwait]]; [by left| |by right; right]. right. left.
  destruct Hp as (H1 & _ & _ & _ & H5 & _ & H7). split_and!; [done|by apply H5|]. apply Forall_lookup_2. intros k r Hk.
  apply (H7 k r Hk). unfold stopped. rewrite Ht. apply lookup_lt_Some in Hk. lia.
Qed.

(** The process can say it is ready before any of its servers has opened its port. *)
Lemma ready_before_listening bind metricsBind adminBind tlsCfg :
  exists p, rtc lstep (process_start bind metricsBind adminBind tlsCfg) p /\ pr_ready p = true
  /\ Forall (fun r => rn_state r = Spawned) (pr_servers p).
Proof.
  eexists. split; [apply rtc_once; exists MReady; reflexivity|]. split; [done|]. by repeat constructor.
Qed.
End lifecycle.

(** ** Examples: the admin port is taken while a client is busy, so the process shuts down by its deadline *)
Lemma life_exec_steps {certificate} (ms : list (life_move (certificate := certificate))) : forall p p',
  life_exec ms p = Some p' -> rtc lstep p p'.
Proof.
  induction ms as [|m ms IH]; intros p p' He; [injection He as <-; constructor|]. cbn in He.
  destruct (life_step m p) as [q|] eqn:E; [|done]. econstructor; [by exists m|by apply IH].
Qed.

Definition port_taken : list (life_move (certificate := unit)) :=
  let load := fun _ _ : string => Err "no certificate" in
  [MReady; MOpen 0 (fun a => Ok a) load; MOpen 1 (fun a => Ok a) load; MBusy 0; MBusy 1; MOpen 2 (fun _ => Err "address already in use") load;
   MReceive; MStop; MServeClosed 0; MExpire; MTimedOut; MStop; MIdle 1; MDrained; MServeClosed 1; MStop; MDrained; MClose].
Definition sample_process : process (certificate := unit) := process_start ":8080" ":9090" ":9091" None.
Definition taken_process : process := default sample_process (life_exec port_taken sample_process).

Lemma taken_exec : life_exec port_taken sample_process = Some taken_process.
Proof. vm_compute. reflexivity. Qed.

Lemma lifecycle_safe_witness :
  pr_cache_open taken_process = false /\ Forall (fun r => rn_shutdown r = true) (pr_servers taken_process).
Proof.
  split; [reflexivity|]. apply (lifecycle_safe ":8080" ":9090" ":9091" None taken_process); [|reflexivity].
  exact (life_exec_steps _ _ _ taken_exec).
Defined.

Lemma shutdown_completes_witness :
  (length (List.filter (fun m => negb (traffic m)) port_taken) <= 16)%nat /\ pr_phase taken_process = Terminated
  /\ (rn_busy <$> pr_servers taken_process !! 0%nat) = Some 1%nat.
Proof. split; [apply (shutdown_completes ":8080" ":9090" ":9091" None port_taken taken_process taken_exec)|split; reflexivity]. Defined.
