(* ===== verification/TlsFingerprint.v ===== *)
(** * JA3 and JA4 fingerprints, the known families and the TLS collector
    ([internal/signal/tls]: ja3.go, ja4.go, families.go, collector.go) *)

From S2P Require Import Prelude GoStrings Crypto Types ClientHello ClientHelloWire.
#[local] Open Scope Z_scope.

(** ** ja3.go *)
Definition greaseValues : list Z := [
  0x0a0a; 0x1a1a; 0x2a2a; 0x3a3a; 0x4a4a; 0x5a5a; 0x6a6a; 0x7a7a;
  0x8a8a; 0x9a9a; 0xaaaa; 0xbaba; 0xcaca; 0xdada; 0xeaea; 0xfafa].

Definition isGREASE (value : Z) : bool := existsb (Z.eqb value) greaseValues.
Definition filterGREASE (values : list Z) : list Z := List.filter (fun v => negb (isGREASE v)) values.
Definition extensionIDs (extensions : list Extension) : list Z := map ext_Type extensions.

Definition joinUint16s (values : list Z) (sep : string) : string := Join (map Itoa values) sep.
Definition joinUint8s (values : list byte) (sep : string) : string :=
  Join (map (fun b => Itoa (byte_to_Z b)) values) sep.

Definition JA3String (hello : option ClientHello) : string :=
  match hello with
  | None => ",,,,"
  | Some h =>
      Join [Itoa (Version h);
            joinUint16s (filterGREASE (CipherSuites h)) "-";
            joinUint16s (filterGREASE (extensionIDs (Extensions h))) "-";
            joinUint16s (filterGREASE (SupportedCurves h)) "-";
            joinUint8s (SupportedPoints h) "-"] ","
  end.

Definition JA3Hash (ja3 : string) : string := hex (md5 (string_bytes ja3)).

Definition JA3FromRaw (raw : list byte) : outcome (string * string) :=
  hello ← ParseClientHello raw;
  let ja3 := JA3String (Some hello) in
  Ok (ja3, JA3Hash ja3).

Definition JA3FromTLS (info : option ClientHelloInfo) : string * string :=
  let ja3 := JA3String (Some (ClientHelloFromTLS info)) in (ja3, JA3Hash ja3).

(** ** ja4.go *)
Definition tlsEmptyRenegotiationInfoSCSV : Z := 0x00ff.

Definition filterJA4Ciphers (values : list Z) : list Z :=
  List.filter (fun v => negb (isGREASE v || (v =? tlsEmptyRenegotiationInfoSCSV))) values.

Definition maxTLSVersion (hello : ClientHello) : Z :=
  fold_left (fun maxVersion version =>
      if isGREASE version then maxVersion
      else if maxVersion <? version then version else maxVersion)
    (SupportedVersions hello) (Version hello).

Definition ja4TLSVersion (version : Z) : string :=
  if version =? 0x0304 then "13"
  else if version =? 0x0303 then "12"
  else if version =? 0x0302 then "11"
  else if version =? 0x0301 then "10"
  else "00".

Definition ja4SNIType (hello : ClientHello) : string :=
  if String.eqb (ServerName hello) EmptyString then "i" else "d".

Definition ja4ALPN (protocols : list string) : string :=
  match protocols with
  | [] => "00"
  | p :: _ =>
      match string_bytes p with
      | [] => "00"
      | b :: bs => bytes_string [b; default b (last (b :: bs))]
      end
  end.

Definition sortedUint16s (values : list Z) : list Z := sort_ints values.

Definition ja4ExtensionHashInput (extensions signatureAlgorithms : list Z) : string :=
  let filtered := List.filter (fun e => negb ((e =? 0) || (e =? 16))) extensions in
  joinUint16s (sortedUint16s filtered ++ signatureAlgorithms) ",".

Definition sha256Truncated12 (value : string) : string :=
  stake 12 (ToLower (hex (sha256 (string_bytes value)))).

Definition JA4String (hello : option ClientHello) : string :=
  let h := default (MkClientHello 0 [] [] [] [] [] [] [] [] [] [] EmptyString) hello in
  let ciphers := filterJA4Ciphers (CipherSuites h) in
  let extensions := filterGREASE (extensionIDs (Extensions h)) in
  let prefix := "t" +:+ ja4TLSVersion (maxTLSVersion h) +:+ ja4SNIType h +:+ pad2 (len ciphers)
                +:+ pad2 (len extensions) +:+ ja4ALPN (SupportedProtos h) in
  let cipherHash := sha256Truncated12 (joinUint16s (sortedUint16s ciphers) ",") in
  let extensionHash := sha256Truncated12 (ja4ExtensionHashInput extensions (SignatureAlgorithms h)) in
  prefix +:+ "_" +:+ cipherHash +:+ "_" +:+ extensionHash.

Definition JA4FromRaw (raw : list byte) : outcome string :=
  hello ← ParseClientHello raw; Ok (JA4String (Some hello)).
Definition JA4FromTLS (info : option ClientHelloInfo) : string :=
  JA4String (Some (ClientHelloFromTLS info)).

(** ** families.go *)
Record familyInfo := MkFamily {
  fam_family : string; fam_version : string; fam_library : string; fam_impersonates : string; fam_deny : bool
}.

Definition ja3Families : gmap string familyInfo := list_to_map [
  ("cd08e31494f9531f560d64c695473da9", MkFamily "chrome" "131" "" "" false);
  ("e1d8b04eeb8ef3954ec4f49267a783ef", MkFamily "chrome" "131" "" "" false);
  ("0b935e9b934ada81b2e407784c3ef1b0", MkFamily "firefox" "134" "" "" false);
  ("1ad946d825cc9b4e935a7ade8fbb03b3", MkFamily "firefox" "133" "" "" false);
  ("9c4409ff1b0096116f2dcc9e696e1588", MkFamily "safari" "18" "" "" false);
  ("f8bfd03d8fe2b66ec606d235dacb30fa", MkFamily "python-requests" "" "python-requests" "" true);
  ("29c3e19f41f8747145368dc82464620c", MkFamily "python-requests" "" "python-requests" "" true);
  ("b32309a26951912be7dba376398abc3b", MkFamily "python-requests" "" "python-requests" "" true);
  ("786e7ab5b81d05d3931b4871da61da35", MkFamily "curl" "8" "curl" "" true);
  ("975b69aeb34b5d47b9684345ca079dec", MkFamily "curl" "8" "curl" "" true)].

Definition curlCFFIImpersonationJA3 : gmap string string := list_to_map [
  ("e1d8b04eeb8ef3954ec4f49267a783ef", "chrome131");
  ("1ad946d825cc9b4e935a7ade8fbb03b3", "firefox133");
  ("9c4409ff1b0096116f2dcc9e696e1588", "safari18_0")].

Definition knownBrowserJA4 : gmap string familyInfo := list_to_map [
  ("t13d1516h2_dea800f94266_90347b42e38e", MkFamily "chrome" "131" "" "" false);
  ("t13d1515h2_dea800f94266_b7c7eda127ef", MkFamily "chrome" "131" "" "" false);
  ("t13d1715h2_ca21dff6868a_01a254a6f450", MkFamily "firefox" "134" "" "" false);
  ("t13d1714h2_ca21dff6868a_34e8737d688b", MkFamily "firefox" "133" "" "" false);
  ("t13d1714h2_ca21dff6868a_7d784a25af34", MkFamily "safari" "18" "" "" false)].

Definition lookupJA3Family (hash : string) : option familyInfo :=
  match ja3Families !! ToLower hash with
  | None => None
  | Some info =>
      match curlCFFIImpersonationJA3 !! ToLower hash with
      | Some imp => Some (MkFamily (fam_family info) (fam_version info) (fam_library info) imp (fam_deny info))
      | None => Some info
      end
  end.

Definition lookupDenylistedJA3 (hash : string) : option familyInfo :=
  match lookupJA3Family hash with
  | Some info => if fam_deny info then Some info else None
  | None => None
  end.

Definition lookupKnownJA4 (ja4 : string) : option familyInfo := knownBrowserJA4 !! ja4.

Definition userAgentFamily (userAgent : string) : string :=
  let ua := ToLower userAgent in
  if Contains ua "python-requests" || Contains ua "urllib3" then "python-requests"
  else if Contains ua "curl" then "curl"
  else if Contains ua "firefox/" then "firefox"
  else if Contains ua "edg/" || Contains ua "opr/" then "chrome"
  else if Contains ua "chrome/" || Contains ua "chromium/" || Contains ua "crios/" then "chrome"
  else if Contains ua "safari/" then "safari"
  else "".

Definition isBrowserFamily (family : string) : bool :=
  String.eqb family "chrome" || String.eqb family "firefox" || String.eqb family "safari".

(** ** collector.go *)
Definition ja3MismatchSignal : string := "ja3_mismatch".
Definition ja3KnownScraperSignal : string := "ja3_known_scraper".
Definition ja4UnknownSignal : string := "ja4_unknown".
Definition ja3MismatchScore : Z := 40.
Definition ja3KnownScraperScore : Z := 100.
Definition ja4UnknownScore : Z := 30.

Definition normalizeJA3 (value : string) : string * string :=
  let value := TrimSpace value in
  if String.eqb value EmptyString then (EmptyString, EmptyString)
  else if Contains value "," then (value, JA3Hash value)
  else (EmptyString, ToLower value).

Definition requestUserAgent (ctx : RequestContext) : string :=
  match rq_Request ctx with None => EmptyString | Some r => UserAgent r end.

Definition ja3MismatchByUserAgent (ctx : RequestContext) (ja3Hash : string) : bool :=
  if String.eqb ja3Hash EmptyString then false
  else match lookupJA3Family ja3Hash with
       | None => false
       | Some info =>
           if negb (isBrowserFamily (fam_family info)) then false
           else
             let uaFamily := userAgentFamily (requestUserAgent ctx) in
             if negb (isBrowserFamily uaFamily) then false
             else negb (String.eqb uaFamily (fam_family info))
       end.

Definition ja3MismatchSignalDetail (reason : string) (detail : gmap string any) : Signal :=
  MkSignal ja3MismatchSignal ja3MismatchScore reason detail.

Definition hasSignal (signals : list Signal) (name : string) : bool :=
  existsb (fun s => String.eqb (sig_Name s) name) signals.

Definition knownScraperSignal (info : familyInfo) (ja3String ja3Hash : string) : Signal :=
  MkSignal ja3KnownScraperSignal ja3KnownScraperScore "JA3 hash matches a known scraper TLS stack"
    {["action" := AString "deny"; "family" := AString (fam_family info);
      "library" := AString (fam_library info); "ja3" := AString ja3String; "hash" := AString ja3Hash]}.

(** The signals once the effective fingerprints are known. *)
Definition fingerprint_signals (ctx : RequestContext) (signals : list Signal)
    (ja3String ja3Hash ja4String : string) : list Signal :=
  let signals :=
    match lookupDenylistedJA3 ja3Hash with
    | Some info => signals ++ [knownScraperSignal info ja3String ja3Hash]
    | None => signals
    end in
  let signals :=
    if ja3MismatchByUserAgent ctx ja3Hash && negb (hasSignal signals ja3MismatchSignal) then
      signals ++ [ja3MismatchSignalDetail "JA3 browser family conflicts with User-Agent family"
        {["ja3" := AString ja3String; "ja3_hash" := AString ja3Hash;
          "user_agent" := AString (requestUserAgent ctx)]}]
    else signals in
  if negb (String.eqb ja4String EmptyString) then
    match lookupKnownJA4 ja4String with
    | Some _ => signals
    | None => signals ++ [MkSignal ja4UnknownSignal ja4UnknownScore
        "JA4 fingerprint is not in the real-browser allowlist"
        {["ja4" := AString ja4String; "ja3_hash" := AString ja3Hash]}]
    end
  else signals.

Definition tls_Collect (ctx : RequestContext) : collect_out :=
  let '(ja3String, ja3Hash) := normalizeJA3 (rq_JA3 ctx) in
  let ja4String := TrimSpace (rq_JA4 ctx) in
  if 0 <? len (rq_ClientHello ctx) then
    match ParseClientHello (rq_ClientHello ctx) with
    | Panic => Panic
    | Err e => Ok ([], Some e)
    | Ok hello =>
        let computedJA3 := JA3String (Some hello) in
        let computedJA3Hash := JA3Hash computedJA3 in
        let signals :=
          if negb (String.eqb ja3String EmptyString) && negb (String.eqb ja3String computedJA3)
             && negb (String.eqb ja3Hash computedJA3Hash)
          then [ja3MismatchSignalDetail "raw ClientHello JA3 differs from request context"
                  {["context_ja3" := AString (rq_JA3 ctx); "computed_ja3" := AString computedJA3;
                    "ja3_hash" := AString computedJA3Hash]}]
          else [] in
        Ok (fingerprint_signals ctx signals computedJA3 computedJA3Hash (JA4String (Some hello)), None)
    end
  else Ok (fingerprint_signals ctx [] ja3String ja3Hash ja4String, None).

Definition tls_collector : SignalCollector :=
  MkCollector "tls" unit (fun ctx st => (tls_Collect ctx, st)).

(** ** What JA3 identifies *)
Lemma joinUint16s_inj l k :
  Forall is_uint16 l -> Forall is_uint16 k -> joinUint16s l "-" = joinUint16s k "-" -> l = k.
Proof.
  assert (Hf : forall l, Forall is_uint16 l ->
    Forall (fun s => no_byte "-" s /\ s <> EmptyString) (map Itoa l)).
  { intros m Hm. apply Forall_map. eapply Forall_impl; [exact Hm|]. intros z [Hz _].
    split; [by apply Itoa_no_byte|apply Itoa_ne]. }
  intros Hl Hk H%Join_inj; [|by apply Hf..]. by apply (inj (map Itoa)) in H.
Qed.

Lemma joinUint8s_inj l k : joinUint8s l "-" = joinUint8s k "-" -> l = k.
Proof.
  assert (Hb : forall m : list byte, Forall is_uint16 (map byte_to_Z m)).
  { intros m. apply Forall_map, Forall_true. intros b. pose proof (byte_to_Z_range b).
    unfold is_uint16. lia. }
  unfold joinUint8s. intros H. rewrite <- !(map_map byte_to_Z Itoa) in H.
  apply joinUint16s_inj in H; [|apply Hb..].
  revert k H. induction l as [|b l IH]; intros [|c k]; simpl; try done.
  intros [= H1%byte_to_Z_inj H2%IH]. by subst.
Qed.

Lemma no_comma_join l : Forall is_uint16 l -> no_byte "," (joinUint16s l "-").
Proof.
  intros Hl. apply no_byte_Join; [done|]. apply Forall_map. eapply Forall_impl; [exact Hl|].
  intros z [Hz _]. by apply Itoa_no_byte.
Qed.

Lemma no_comma_join8 l : no_byte "," (joinUint8s l "-").
Proof.
  apply no_byte_Join; [done|]. apply Forall_map, Forall_true. intros b. apply Itoa_no_byte; [|done].
  apply byte_to_Z_range.
Qed.

Lemma filterGREASE_u16 l : Forall is_uint16 l -> Forall is_uint16 (filterGREASE l).
Proof. unfold filterGREASE. rewrite !List.Forall_forall. intros H x [Hx _]%filter_In. auto. Qed.

Lemma JA3_fields h :
  hello_u16 h ->
  Forall (fun s => no_byte "," s)
    [Itoa (Version h);
     joinUint16s (filterGREASE (CipherSuites h)) "-";
     joinUint16s (filterGREASE (extensionIDs (Extensions h))) "-";
     joinUint16s (filterGREASE (SupportedCurves h)) "-";
     joinUint8s (SupportedPoints h) "-"].
Proof.
  intros (Hv & Hc & He & Hs & _). repeat (apply Forall_cons; split); [..|constructor];
    try (by apply no_comma_join, filterGREASE_u16); [|apply no_comma_join8].
  apply Itoa_no_byte; [apply Hv|done].
Qed.

(** C8: two parsed hellos have the same JA3 string exactly when they agree on the version, on
    the cipher suites, extension types and curves in wire order with GREASE values removed, and
    on the point formats: the comma- and dash-separated decimal encoding loses nothing else. *)
Theorem JA3_identifies raw1 raw2 h1 h2 :
  ParseClientHello raw1 = Ok h1 -> ParseClientHello raw2 = Ok h2 ->
  JA3String (Some h1) = JA3String (Some h2) <->
  Version h1 = Version h2
  /\ filterGREASE (CipherSuites h1) = filterGREASE (CipherSuites h2)
  /\ filterGREASE (extensionIDs (Extensions h1)) = filterGREASE (extensionIDs (Extensions h2))
  /\ filterGREASE (SupportedCurves h1) = filterGREASE (SupportedCurves h2)
  /\ SupportedPoints h1 = SupportedPoints h2.
Proof.
  intros H1%ParseClientHello_u16 H2%ParseClientHello_u16. split.
  - intros H%Join_inj_len; [|by apply JA3_fields|by apply JA3_fields|done].
    destruct H1 as (? & ? & ? & ? & _), H2 as (? & ? & ? & ? & _). injection H as Hv Hc He Hs Hp.
    split_and!; [by apply (inj Itoa)| | | |by apply joinUint8s_inj];
      (apply joinUint16s_inj; [by apply filterGREASE_u16..|done]).
  - intros (Hv & Hc & He & Hs & Hp). unfold JA3String. by rewrite Hv, Hc, He, Hs, Hp.
Qed.

(** Same suites up to GREASE and an unknown extension's payload. *)
Definition sample_hello2 : hello_spec := {|
  hs_version := 771;
  hs_random := replicate 32 (byte_of_Z 9);
  hs_session := [];
  hs_ciphers := [0x1301; 0xc02b; 0x2a2a];
  hs_compression := [byte_of_Z 0];
  hs_exts := Some [XServerName "example.com"; XOther 23 [byte_of_Z 5]; XCurves [29; 23];
                   XPoints [byte_of_Z 0]; XSignatureAlgorithms [0x0403]; XALPN ["h2"];
                   XVersions [0x0304]]
|}.

Lemma JA3_identifies_witness :
  JA3String (Some (hello_of sample_hello)) = JA3String (Some (hello_of sample_hello2)).
Proof.
  apply (JA3_identifies (enc_record sample_hello) (enc_record sample_hello2));
    [vm_compute; reflexivity..|]. vm_compute. split_and!; reflexivity.
Defined.

(** ** What JA4 forgets *)
Lemma List_filter_Permutation {A} (f : A -> bool) (l k : list A) :
  l ≡ₚ k -> List.filter f l ≡ₚ List.filter f k.
Proof.
  induction 1; simpl; repeat case_match; eauto using Permutation_trans, Permutation_cons, Permutation_swap.
Qed.

(** C28: JA4 takes the cipher suites and the extension types as unordered collections, without
    GREASE values: hellos that agree on them up to order, and on the maximum version, the
    presence of a server name, the first ALPN protocol and the signature algorithms (whose
    order counts), have the same JA4. *)
Theorem JA4_order_insensitive h1 h2 :
  filterJA4Ciphers (CipherSuites h1) ≡ₚ filterJA4Ciphers (CipherSuites h2) ->
  filterGREASE (extensionIDs (Extensions h1)) ≡ₚ filterGREASE (extensionIDs (Extensions h2)) ->
  SignatureAlgorithms h1 = SignatureAlgorithms h2 ->
  maxTLSVersion h1 = maxTLSVersion h2 ->
  (ServerName h1 = EmptyString <-> ServerName h2 = EmptyString) ->
  head (SupportedProtos h1) = head (SupportedProtos h2) ->
  JA4String (Some h1) = JA4String (Some h2).
Proof.
  intros Hc He Hs Hv Hn Hp. unfold JA4String, ja4ExtensionHashInput, sortedUint16s, from_option, id; cbv zeta.
  rewrite Hv, Hs, (sort_ints_proper _ _ Hc), (sort_ints_proper _ _ (List_filter_Permutation _ _ _ He)).
  unfold len. rewrite (Permutation_length Hc), (Permutation_length He).
  replace (ja4SNIType h1) with (ja4SNIType h2).
  2:{ unfold ja4SNIType. destruct (String.eqb_spec (ServerName h1) EmptyString), (String.eqb_spec (ServerName h2) EmptyString); naive_solver. }
  replace (ja4ALPN (SupportedProtos h1)) with (ja4ALPN (SupportedProtos h2)); [done|].
  destruct (SupportedProtos h1), (SupportedProtos h2); naive_solver.
Qed.

Definition shuffled_hello : hello_spec := {|
  hs_version := 771;
  hs_random := replicate 32 (byte_of_Z 1);
  hs_session := [];
  hs_ciphers := [0xc02b; 0x2a2a; 0x1301];
  hs_compression := [byte_of_Z 0];
  hs_exts := Some [XVersions [0x0304; 0x0303]; XALPN ["h2"]; XServerName "example.net";
                   XSignatureAlgorithms [0x0403]; XPoints [byte_of_Z 0]; XOther 23 []; XCurves [29]]
|}.

Lemma JA4_order_insensitive_witness :
  JA4String (Some (hello_of sample_hello)) = JA4String (Some (hello_of shuffled_hello)).
Proof.
  apply JA4_order_insensitive;
    [apply sort_ints_inj_perm; vm_compute; reflexivity..|vm_compute; reflexivity|vm_compute; reflexivity|by vm_compute|vm_compute; reflexivity].
Defined.

(** ** The shape of a JA4 *)
Lemma length_sha256Truncated12 s : String.length (sha256Truncated12 s) = 12%nat.
Proof.
  unfold sha256Truncated12. apply length_stake.
  rewrite ToLower_hex, length_hex, length_sha256. lia.
Qed.

Lemma length_ja4ALPN ps : String.length (ja4ALPN ps) = 2%nat.
Proof. destruct ps as [|p ps]; [done|]. unfold ja4ALPN. by destruct (string_bytes p). Qed.

(** A JA4 is 36 bytes long and splits at its two underscores into the 10-byte prefix and two
    12-byte hashes when both counts have two digits; a longer list of suites or extensions
    widens the prefix, because the counts are not capped. *)
Theorem JA4_length h :
  let ciphers := len (filterJA4Ciphers (CipherSuites h)) in
  let extensions := len (filterGREASE (extensionIDs (Extensions h))) in
  String.length (JA4String (Some h)) =
    (32 + String.length (pad2 ciphers) + String.length (pad2 extensions))%nat
  /\ (ciphers < 100 -> extensions < 100 -> String.length (JA4String (Some h)) = 36%nat).
Proof.
  intros ciphers extensions.
  assert (H : String.length (JA4String (Some h)) =
    (32 + String.length (pad2 ciphers) + String.length (pad2 extensions))%nat).
  { unfold JA4String, from_option, id; cbv zeta. rewrite !length_append, !length_sha256Truncated12, length_ja4ALPN.
    assert (String.length (ja4TLSVersion (maxTLSVersion h)) = 2%nat) as ->
      by (unfold ja4TLSVersion; by repeat case_match).
    assert (String.length (ja4SNIType h) = 1%nat) as -> by (unfold ja4SNIType; by case_match).
    fold ciphers extensions. cbn. lia. }
  split; [done|]. intros Hc He. rewrite H, !length_pad2; [done|..];
    (split; [apply len_nonneg|done]).
Qed.

Lemma JA4_length_witness : String.length (JA4String (Some (hello_of sample_hello))) = 36%nat.
Proof. apply JA4_length; vm_compute; reflexivity. Defined.

(** ** The collector *)

(** The fingerprints the collector decides on: those of the raw hello when there is one. *)
Definition effective_fingerprint (ctx : RequestContext) : outcome (string * string) :=
  if 0 <? len (rq_ClientHello ctx) then
    hello ← ParseClientHello (rq_ClientHello ctx);
    Ok (JA3Hash (JA3String (Some hello)), JA4String (Some hello))
  else Ok ((normalizeJA3 (rq_JA3 ctx)).2, TrimSpace (rq_JA4 ctx)).

Definition signal_names (sigs : list Signal) : list string := map sig_Name sigs.

(** The facts about [fingerprint_signals] applied to no signal or one mismatch signal. *)
Lemma fingerprint_signals_names ctx pre s h j :
  pre = [] \/ (exists r d, pre = [ja3MismatchSignalDetail r d]) ->
  let sigs := fingerprint_signals ctx pre s h j in
  NoDup (signal_names sigs)
  /\ (ja3KnownScraperSignal ∈ signal_names sigs <-> is_Some (lookupDenylistedJA3 h))
  /\ (ja4UnknownSignal ∈ signal_names sigs <-> j <> EmptyString /\ lookupKnownJA4 j = None)
  /\ (ja3MismatchSignal ∈ signal_names sigs <-> pre <> [] \/ ja3MismatchByUserAgent ctx h = true)
  /\ Forall (fun sg => sig_Score sg ∈ [ja3MismatchScore; ja3KnownScraperScore; ja4UnknownScore]) sigs.
Proof.
  intros Hpre. unfold fingerprint_signals, hasSignal.
  destruct (lookupDenylistedJA3 h) as [info|], (ja3MismatchByUserAgent ctx h),
    (lookupKnownJA4 j), (String.eqb_spec j EmptyString) as [Hj|Hj], Hpre as [->|(r & d & ->)];
    cbn; unfold is_Some; split_and!;
    try (apply bool_decide_unpack; vm_compute; exact I); try set_solver;
    try (repeat constructor; set_solver).
Qed.

(** C29: the TLS collector never panics.  With an unparsable hello it reports the error and no
    signal.  Otherwise it reports each signal at most once, [ja3_known_scraper] exactly when
    the effective JA3 hash is denylisted and [ja4_unknown] exactly when the effective JA4 is
    not one of the known browsers', where the raw hello's own fingerprints take precedence
    over the ones the request claims. *)
Theorem tls_Collect_spec ctx :
  match effective_fingerprint ctx with
  | Panic => False
  | Err e => tls_Collect ctx = Ok ([], Some e)
  | Ok (ja3Hash, ja4) => exists sigs, tls_Collect ctx = Ok (sigs, None)
      /\ NoDup (signal_names sigs)
      /\ (ja3KnownScraperSignal ∈ signal_names sigs <-> is_Some (lookupDenylistedJA3 ja3Hash))
      /\ (ja4UnknownSignal ∈ signal_names sigs <-> ja4 <> EmptyString /\ lookupKnownJA4 ja4 = None)
      /\ (ja3MismatchByUserAgent ctx ja3Hash = true -> ja3MismatchSignal ∈ signal_names sigs)
      /\ Forall (fun sg => 0 < sig_Score sg <= 100) sigs
  end.
Proof.
  assert (Hpost : forall pre s h j,
    pre = [] \/ (exists r d, pre = [ja3MismatchSignalDetail r d]) ->
    let sigs := fingerprint_signals ctx pre s h j in
    NoDup (signal_names sigs)
    /\ (ja3KnownScraperSignal ∈ signal_names sigs <-> is_Some (lookupDenylistedJA3 h))
    /\ (ja4UnknownSignal ∈ signal_names sigs <-> j <> EmptyString /\ lookupKnownJA4 j = None)
    /\ (ja3MismatchByUserAgent ctx h = true -> ja3MismatchSignal ∈ signal_names sigs)
    /\ Forall (fun sg => 0 < sig_Score sg <= 100) sigs).
  { intros pre s h j Hpre. destruct (fingerprint_signals_names ctx pre s h j Hpre) as (? & ? & ? & ? & Hsc).
    split_and!; [done..|naive_solver|]. eapply Forall_impl; [exact Hsc|].
    intros sg. unfold ja3MismatchScore, ja3KnownScraperScore, ja4UnknownScore.
    rewrite !elem_of_cons, elem_of_nil. lia. }
  unfold effective_fingerprint, tls_Collect.
  destruct (normalizeJA3 (rq_JA3 ctx)) as [ja3s ja3h] eqn:En.
  destruct (0 <? len (rq_ClientHello ctx)); [|cbn; eauto 10].
  pose proof (parse_hello_no_panic (rq_ClientHello ctx)).
  destruct (ParseClientHello (rq_ClientHello ctx)) as [hello|e|]; [|done..].
  cbn [mbind outcome_bind]. eexists. split; [reflexivity|]. apply Hpost. case_match; eauto.
Qed.

(** A request whose claimed JA3 is the curl hash of the denylist. *)
Definition curl_request : RequestContext :=
  MkRequestContext None None EmptyString [] "786E7AB5B81D05D3931B4871DA61DA35" EmptyString ∅ [].

Example curl_request_signals :
  exists s, tls_Collect curl_request = Ok ([s], None) /\ sig_Name s = ja3KnownScraperSignal /\ sig_Score s = 100.
Proof. eexists. split; [vm_compute; reflexivity|split; reflexivity]. Qed.
