(* ===== verification/Http2Frames.v ===== *)
(** * HTTP/2 frames and HPACK names ([internal/signal/http2/frames.go])

    As in the ClientHello parser, every access is bounds-checked and running out of fuel is a
    [Panic]; a loop gets one unit of fuel per input byte plus one. *)

From S2P Require Import Prelude GoStrings Crypto ClientHello ClientHelloWire.
#[local] Open Scope Z_scope.

Definition clientPreface : list byte :=
  string_bytes "PRI * HTTP/2.0" ++ map byte_of_Z [13; 10; 13; 10] ++ string_bytes "SM"
  ++ map byte_of_Z [13; 10; 13; 10].

Definition frameTypeHeaders : Z := 1.
Definition frameTypePriority : Z := 2.
Definition frameTypeSettings : Z := 4.
Definition frameTypeWindowUpdate : Z := 8.
Definition flagHeadersPadded : Z := 0x8.
Definition flagHeadersPriority : Z := 0x20.
Definition errNeedMoreData : string := "http2: incomplete frame data".

Record Setting := MkSetting { set_ID : Z; set_Value : Z }.
Record PriorityParam := MkPriorityParam { pp_StreamID : Z; pp_Exclusive : bool; pp_DependsOn : Z; pp_Weight : Z }.
Record HeadersBlock := MkHeadersBlock {
  hb_StreamID : Z; hb_PseudoHeaderOrder : list string; hb_RegularHeaderOrder : list string;
  hb_Priority : option PriorityParam
}.
Record Frame := MkFrame {
  f_Type : Z; f_Flags : Z; f_StreamID : Z; f_Settings : list Setting; f_WindowUpdateIncrement : Z;
  f_Priority : option PriorityParam; f_Headers : option HeadersBlock
}.

(** ** HPACK integers and strings *)

(** The continuation bytes; [shift] grows by 7. *)
Fixpoint hpack_int_loop (fuel : nat) (data : list byte) (value shift : Z) : outcome (Z * list byte) :=
  match fuel with
  | O => Panic
  | S fuel =>
      match data with
      | [] => Err errNeedMoreData
      | b :: data =>
          let value := u64 (value + u64 (Z.shiftl (Z.land (byte_to_Z b) 0x7f) shift)) in
          if Z.land (byte_to_Z b) 0x80 =? 0 then Ok (value, data)
          else
            let shift := shift + 7 in
            if 56 <? shift then Err "http2: HPACK integer overflow"
            else hpack_int_loop fuel data value shift
      end
  end.

Definition readHPACKInt (data : list byte) (prefix : Z) : outcome (Z * list byte) :=
  match data with
  | [] => Err errNeedMoreData
  | b :: data =>
      let mask := u8 (Z.shiftl 1 prefix - 1) in
      let value := Z.land (byte_to_Z b) mask in
      if value <? mask then Ok (value, data)
      else hpack_int_loop (S (length data)) data value 0
  end.

Definition readHPACKString (data : list byte) : outcome (string * list byte) :=
  match data with
  | [] => Err errNeedMoreData
  | b :: _ =>
      let huffman := negb (Z.land (byte_to_Z b) 0x80 =? 0) in
      '(length, rest) ← readHPACKInt data 7;
      if len rest <? length then Err errNeedMoreData
      else
        value ← slice rest 0 length;
        rest ← slice_from rest length;
        Ok (if huffman then EmptyString else bytes_string value, rest)
  end.

(** ** The name decoder *)
Definition hpackStaticNames : list string := [
  ":authority"; ":method"; ":method"; ":path"; ":path"; ":scheme"; ":scheme"; ":status"; ":status"; ":status";
  ":status"; ":status"; ":status"; ":status"; "accept-charset"; "accept-encoding"; "accept-language";
  "accept-ranges"; "accept"; "access-control-allow-origin"; "age"; "allow"; "authorization"; "cache-control";
  "content-disposition"; "content-encoding"; "content-language"; "content-length"; "content-location";
  "content-range"; "content-type"; "cookie"; "date"; "etag"; "expect"; "expires"; "from"; "host"; "if-match";
  "if-modified-since"; "if-none-match"; "if-range"; "if-unmodified-since"; "last-modified"; "link"; "location";
  "max-forwards"; "proxy-authenticate"; "proxy-authorization"; "range"; "referer"; "refresh"; "retry-after";
  "server"; "set-cookie"; "strict-transport-security"; "transfer-encoding"; "user-agent"; "vary"; "via";
  "www-authenticate"].

(** The decoder's state is its list of dynamic names, newest first. *)
Definition hpackNameDecoder : Type := list string.

Definition lookupName (d : hpackNameDecoder) (idx : Z) : outcome string :=
  if idx =? 0 then Ok EmptyString
  else if idx <=? len hpackStaticNames then index hpackStaticNames (idx - 1)
  else
    let dynamicIndex := wrap64 (wrap64 idx - len hpackStaticNames - 1) in
    if (0 <=? dynamicIndex) && (dynamicIndex <? len d) then index d dynamicIndex
    else Ok EmptyString.

Definition addDynamicName (d : hpackNameDecoder) (name : string) : hpackNameDecoder :=
  if String.eqb name EmptyString then d else name :: d.

Definition readLiteralName (d : hpackNameDecoder) (block : list byte) (prefix : Z) : outcome (string * list byte) :=
  '(idx, rest) ← readHPACKInt block prefix;
  '(name, rest) ← (if 0 <? idx then name ← lookupName d idx; Ok (name, rest) else readHPACKString rest);
  '(_, rest) ← readHPACKString rest;
  Ok (name, rest).

Definition add_name (name : string) (names : list string) : list string :=
  if String.eqb name EmptyString then names else name :: names.

Fixpoint decode_loop (fuel : nat) (d : hpackNameDecoder) (block : list byte) : outcome (list string * hpackNameDecoder) :=
  match fuel with
  | O => Panic
  | S fuel =>
      match block with
      | [] => Ok ([], d)
      | b :: _ =>
          let b := byte_to_Z b in
          if negb (Z.land b 0x80 =? 0) then
            '(idx, rest) ← readHPACKInt block 7;
            name ← lookupName d idx;
            '(names, d) ← decode_loop fuel d rest;
            Ok (add_name name names, d)
          else if negb (Z.land b 0x40 =? 0) then
            '(name, rest) ← readLiteralName d block 6;
            '(names, d) ← decode_loop fuel (addDynamicName d name) rest;
            Ok (add_name name names, d)
          else if negb (Z.land b 0x20 =? 0) then
            '(_, rest) ← readHPACKInt block 5;
            decode_loop fuel d rest
          else
            '(name, rest) ← readLiteralName d block 4;
            '(names, d) ← decode_loop fuel d rest;
            Ok (add_name name names, d)
      end
  end.

Definition hpack_decode (d : hpackNameDecoder) (block : list byte) : outcome (list string * hpackNameDecoder) :=
  decode_loop (S (length block)) d block.

(** ** Frame payloads *)
Fixpoint settings_loop (fuel : nat) (payload : list byte) : outcome (list Setting) :=
  match fuel with
  | O => Panic
  | S fuel =>
      if 0 <? len payload then
        id ← (s ← slice payload 0 2; be_Uint16 s);
        v ← (s ← slice payload 2 6; be_Uint32 s);
        rest ← slice_from payload 6;
        settings ← settings_loop fuel rest;
        Ok (MkSetting id v :: settings)
      else Ok []
  end.

Definition parseSettings (payload : list byte) : outcome (list Setting) :=
  if negb (len payload mod 6 =? 0)
  then Err ("http2: SETTINGS payload length " +:+ Itoa (len payload) +:+ " is not divisible by 6")
  else settings_loop (S (length payload)) payload.

Definition parseWindowUpdate (payload : list byte) : outcome Z :=
  if negb (len payload =? 4) then Err ("http2: WINDOW_UPDATE payload length " +:+ Itoa (len payload) +:+ ", want 4")
  else v ← be_Uint32 payload; Ok (Z.land v 0x7fffffff).

Definition parsePriority (payload : list byte) (streamID : Z) : outcome PriorityParam :=
  if negb (len payload =? 5) then Err ("http2: PRIORITY payload length " +:+ Itoa (len payload) +:+ ", want 5")
  else
    dependency ← (s ← slice payload 0 4; be_Uint32 s);
    w ← index payload 4;
    Ok (MkPriorityParam streamID (negb (Z.land dependency 0x80000000 =? 0)) (Z.land dependency 0x7fffffff) (byte_to_Z w)).

(** The loop sorting names into pseudo and regular ones. *)
Fixpoint split_names (names : list string) : list string * list string :=
  match names with
  | [] => ([], [])
  | name :: names =>
      let '(pseudo, regular) := split_names names in
      match name with
      | EmptyString => (pseudo, regular)
      | String c rest => if Ascii.eqb c ":" then (rest :: pseudo, regular) else (pseudo, name :: regular)
      end
  end.

(** [parseHeaders]: the part that removes the padding. *)
Definition stripPadding (flags : Z) (payload : list byte) : outcome (list byte) :=
  if negb (Z.land flags flagHeadersPadded =? 0) then
    if len payload =? 0 then Err errNeedMoreData
    else
      p0 ← index payload 0;
      let padLength := byte_to_Z p0 in
      payload ← slice_from payload 1;
      if len payload <? padLength
      then Err ("http2: HEADERS padding length " +:+ Itoa padLength +:+ " exceeds payload")
      else slice payload 0 (len payload - padLength)
  else Ok payload.

Definition parseHeaders (payload : list byte) (flags streamID : Z) (decoder : hpackNameDecoder)
    : outcome (HeadersBlock * hpackNameDecoder) :=
  payload ← stripPadding flags payload;
  '(priority, payload) ←
    (if negb (Z.land flags flagHeadersPriority =? 0) then
       if len payload <? 5 then Err errNeedMoreData
       else
         five ← slice payload 0 5;
         priority ← parsePriority five streamID;
         payload ← slice_from payload 5;
         Ok (Some priority, payload)
     else Ok (None, payload));
  '(names, decoder) ← hpack_decode decoder payload;
  let '(pseudo, regular) := split_names names in
  Ok (MkHeadersBlock streamID pseudo regular priority, decoder).

(** ** Frames *)
Definition parse_payload (typ flags streamID : Z) (payload : list byte) (decoder : hpackNameDecoder)
    : outcome (Frame * hpackNameDecoder) :=
  if typ =? frameTypeSettings then
    settings ← parseSettings payload; Ok (MkFrame typ flags streamID settings 0 None None, decoder)
  else if typ =? frameTypeWindowUpdate then
    inc ← parseWindowUpdate payload; Ok (MkFrame typ flags streamID [] inc None None, decoder)
  else if typ =? frameTypePriority then
    p ← parsePriority payload streamID; Ok (MkFrame typ flags streamID [] 0 (Some p) None, decoder)
  else if typ =? frameTypeHeaders then
    '(h, decoder) ← parseHeaders payload flags streamID decoder;
    Ok (MkFrame typ flags streamID [] 0 None (Some h), decoder)
  else Ok (MkFrame typ flags streamID [] 0 None None, decoder).

Fixpoint frames_loop (fuel : nat) (data : list byte) (decoder : hpackNameDecoder) : outcome (list Frame) :=
  match fuel with
  | O => Panic
  | S fuel =>
      if 0 <? len data then
        if len data <? 9 then Err errNeedMoreData
        else
          b0 ← index data 0; b1 ← index data 1; b2 ← index data 2;
          let length := Z.lor (Z.lor (Z.shiftl (byte_to_Z b0) 16) (Z.shiftl (byte_to_Z b1) 8)) (byte_to_Z b2) in
          if len data <? 9 + length then Err errNeedMoreData
          else
            typ ← index data 3; flags ← index data 4;
            id ← (s ← slice data 5 9; be_Uint32 s);
            payload ← slice data 9 (9 + length);
            '(frame, decoder) ← parse_payload (byte_to_Z typ) (byte_to_Z flags) (Z.land id 0x7fffffff) payload decoder;
            data ← slice_from data (9 + length);
            frames ← frames_loop fuel data decoder;
            Ok (frame :: frames)
      else Ok []
  end.

Definition ParseFrames (data : list byte) : outcome (list Frame) :=
  let data :=
    if (len clientPreface <=? len data) && bool_decide (take (length clientPreface) data = clientPreface)
    then drop (length clientPreface) data else data in
  frames_loop (S (length data)) data [].

(** ** No input makes the parser panic *)
Lemma u64_range z : 0 <= u64 z < 2 ^ 64.
Proof. apply Z.mod_pos_bound. lia. Qed.

Lemma hpack_int_loop_no_panic fuel data v s : (length data < fuel)%nat -> no_panic (hpack_int_loop fuel data v s).
Proof.
  revert data v s. induction fuel as [|fuel IH]; intros [|b data] v s Hf; cbn in *; try done; try lia.
  case_match; [done|]. case_match; [done|]. apply IH. cbn in Hf. lia.
Qed.

Lemma hpack_int_loop_rest fuel data v s v' rest :
  hpack_int_loop fuel data v s = Ok (v', rest) -> (length rest < length data)%nat /\ 0 <= v' < 2 ^ 64.
Proof.
  revert data v s. induction fuel as [|fuel IH]; intros [|b data] v s; cbn -[Z.pow]; try done.
  case_match; [intros [= <- <-]; split; [lia|apply u64_range]|]. case_match; [done|]. intros H1.
  apply IH in H1 as [? ?]. split; [lia|done].
Qed.

Lemma readHPACKInt_no_panic data p : no_panic (readHPACKInt data p).
Proof.
  unfold readHPACKInt. destruct data as [|b data]; [done|]. case_match; [done|].
  apply hpack_int_loop_no_panic. lia.
Qed.

Lemma readHPACKInt_rest data p v rest :
  readHPACKInt data p = Ok (v, rest) -> (length rest < length data)%nat /\ 0 <= v < 2 ^ 64.
Proof.
  unfold readHPACKInt. destruct data as [|b data]; [done|]. case_match eqn:E.
  - intros [= <- <-]. cbn [length]. split; [lia|].
    assert (0 <= Z.land (byte_to_Z b) (u8 (Z.shiftl 1 p - 1))) by (apply Z.land_nonneg; left; apply byte_to_Z_range).
    pose proof (Z.mod_pos_bound (Z.shiftl 1 p - 1) (2 ^ 8)). unfold u8 in *. lia.
  - intros [? ?]%hpack_int_loop_rest. cbn [length]. split; [lia|done].
Qed.

Lemma slice_from_ok {A} (l : list A) i : 0 <= i <= len l -> slice_from l i = Ok (drop (Z.to_nat i) l).
Proof.
  intros Hi. unfold slice_from. rewrite slice_ok by lia. f_equal. rewrite take_ge; [done|].
  rewrite length_drop. unfold len. lia.
Qed.

Lemma slice_from_no_panic {A} (l : list A) i : 0 <= i <= len l -> no_panic (slice_from l i).
Proof. intros. by rewrite slice_from_ok. Qed.

Lemma readHPACKString_no_panic data : no_panic (readHPACKString data).
Proof.
  unfold readHPACKString. destruct data as [|b data]; [done|].
  apply no_panic_bind; [apply readHPACKInt_no_panic|]. intros [n rest] [_ Hn]%readHPACKInt_rest.
  case_match eqn:E; [done|]. apply no_panic_bind; [apply slice_no_panic; lia|]. intros v _.
  apply no_panic_bind; [apply slice_from_no_panic; lia|]. done.
Qed.

Lemma readHPACKString_rest data s rest :
  readHPACKString data = Ok (s, rest) -> (length rest < length data)%nat.
Proof.
  unfold readHPACKString. destruct data as [|b data]; [done|]. intros Hs.
  apply bind_ok in Hs as ([n r] & [Hr Hn]%readHPACKInt_rest & Hs). case_match eqn:E; [done|].
  apply bind_ok in Hs as (v & _ & Hs). apply bind_ok in Hs as (r' & Hr' & Hs). injection Hs as _ <-.
  rewrite slice_from_ok in Hr' by lia. injection Hr' as <-. rewrite length_drop. lia.
Qed.

Lemma lookupName_no_panic d i : 0 <= i -> no_panic (lookupName d i).
Proof. intros Hi. unfold lookupName. np. Qed.

Lemma readLiteralName_no_panic d block p : no_panic (readLiteralName d block p).
Proof.
  unfold readLiteralName. apply no_panic_bind; [apply readHPACKInt_no_panic|].
  intros [i rest] [_ Hi]%readHPACKInt_rest. apply no_panic_bind.
  - case_match; [|apply readHPACKString_no_panic]. apply no_panic_bind; [apply lookupName_no_panic; lia|]. done.
  - intros [name rest'] _. apply no_panic_bind; [apply readHPACKString_no_panic|]. by intros [? ?] _.
Qed.

Lemma readLiteralName_rest d block p name rest :
  readLiteralName d block p = Ok (name, rest) -> (length rest < length block)%nat.
Proof.
  unfold readLiteralName. intros Hs. apply bind_ok in Hs as ([i r] & [Hr _]%readHPACKInt_rest & Hs).
  apply bind_ok in Hs as ([n r'] & Hn & Hs). apply bind_ok in Hs as ([v r''] & Hv%readHPACKString_rest & Hs).
  injection Hs as _ <-. case_match.
  - apply bind_ok in Hn as (? & _ & [= _ <-]). lia.
  - apply readHPACKString_rest in Hn. lia.
Qed.

Lemma decode_loop_no_panic fuel d block : (length block < fuel)%nat -> no_panic (decode_loop fuel d block).
Proof.
  revert d block. induction fuel as [|fuel IH]; intros d block Hf; [lia|]. cbn [decode_loop].
  destruct block as [|b bs] eqn:Eb; [done|]. rewrite <- Eb in *. case_match; [|case_match; [|case_match]].
  - apply no_panic_bind; [apply readHPACKInt_no_panic|]. intros [i rest] [Hr Hi]%readHPACKInt_rest.
    apply no_panic_bind; [apply lookupName_no_panic; lia|]. intros name _.
    apply no_panic_bind; [apply IH; lia|]. by intros [? ?] _.
  - apply no_panic_bind; [apply readLiteralName_no_panic|]. intros [name rest] Hr%readLiteralName_rest.
    apply no_panic_bind; [apply IH; lia|]. by intros [? ?] _.
  - apply no_panic_bind; [apply readHPACKInt_no_panic|]. intros [i rest] [Hr _]%readHPACKInt_rest. apply IH. lia.
  - apply no_panic_bind; [apply readLiteralName_no_panic|]. intros [name rest] Hr%readLiteralName_rest.
    apply no_panic_bind; [apply IH; lia|]. by intros [? ?] _.
Qed.

Lemma be_Uint32_no_panic b : 4 <= len b -> no_panic (be_Uint32 b).
Proof. intros. unfold be_Uint32. repeat (apply no_panic_bind; [apply index_no_panic; lia|]; intros ? _). done. Qed.

Lemma slice_be32_no_panic l i j : 0 <= i -> j = i + 4 -> j <= len l -> no_panic (s ← slice l i j; be_Uint32 s).
Proof.
  intros. apply no_panic_bind; [apply slice_no_panic; lia|]. intros s Hs%slice_len. apply be_Uint32_no_panic. lia.
Qed.

Lemma settings_loop_no_panic fuel p :
  len p mod 6 = 0 -> (length p < fuel)%nat -> no_panic (settings_loop fuel p).
Proof.
  revert p. induction fuel as [|fuel IH]; intros p Hm Hf; [lia|]. cbn [settings_loop].
  case_match eqn:E; [|done].
  assert (6 <= len p).
  { pose proof (Z.div_mod (len p) 6 ltac:(lia)). pose proof (len_nonneg p).
    assert (0 < len p / 6) by (destruct (Z.eq_dec (len p / 6) 0); [lia|pose proof (Z.div_pos (len p) 6); lia]). lia. }
  apply no_panic_bind; [apply uint16_at_no_panic; lia|]. intros id _.
  apply no_panic_bind; [apply slice_be32_no_panic; lia|]. intros v _.
  apply no_panic_bind; [apply slice_from_no_panic; lia|]. intros rest Hr.
  rewrite slice_from_ok in Hr by lia. injection Hr as <-.
  apply no_panic_bind; [|done]. apply IH.
  - unfold len in *. rewrite length_drop.
    replace (Z.of_nat (length p - Z.to_nat 6)) with (Z.of_nat (length p) + (-1) * 6) by lia. by rewrite Z_mod_plus_full.
  - rewrite length_drop. unfold len in *. lia.
Qed.

Lemma parsePriority_no_panic p id : no_panic (parsePriority p id).
Proof.
  unfold parsePriority. case_match eqn:E; [done|].
  apply no_panic_bind; [apply slice_be32_no_panic; lia|]. intros dep _.
  apply no_panic_bind; [apply index_no_panic; lia|]. done.
Qed.

Lemma parseHeaders_no_panic payload flags id d : no_panic (parseHeaders payload flags id d).
Proof.
  unfold parseHeaders. apply no_panic_bind.
  { unfold stripPadding. case_match; [|done]. case_match eqn:E; [done|]. pose proof (len_nonneg payload).
    apply no_panic_bind; [apply index_no_panic; lia|]. intros p0 _.
    apply no_panic_bind; [apply slice_from_no_panic; lia|]. intros rest _.
    case_match; [done|]. pose proof (byte_to_Z_range p0). apply slice_no_panic; lia. }
  intros payload' _. apply no_panic_bind.
  { case_match; [|done]. case_match eqn:E; [done|].
    apply no_panic_bind; [apply slice_no_panic; lia|]. intros five _.
    apply no_panic_bind; [apply parsePriority_no_panic|]. intros prio _.
    apply no_panic_bind; [apply slice_from_no_panic; lia|]. done. }
  intros [prio block] _. apply no_panic_bind; [apply decode_loop_no_panic; lia|].
  intros [names d'] _. by destruct (split_names names).
Qed.

Lemma parse_payload_no_panic typ flags id payload d : no_panic (parse_payload typ flags id payload d).
Proof.
  unfold parse_payload. repeat case_match; [..|done].
  - apply no_panic_bind; [|done]. unfold parseSettings. case_match eqn:E; [done|]. apply settings_loop_no_panic; lia.
  - apply no_panic_bind; [|done]. unfold parseWindowUpdate. case_match eqn:E; [done|].
    apply no_panic_bind; [apply be_Uint32_no_panic; lia|done].
  - apply no_panic_bind; [apply parsePriority_no_panic|done].
  - apply no_panic_bind; [apply parseHeaders_no_panic|]. by intros [? ?] _.
Qed.

Lemma frames_loop_no_panic fuel data d : (length data < fuel)%nat -> no_panic (frames_loop fuel data d).
Proof.
  revert data d. induction fuel as [|fuel IH]; intros data d Hf; [lia|]. cbn [frames_loop].
  case_match; [|done]. case_match eqn:E9; [done|].
  do 3 (apply no_panic_bind; [apply index_no_panic; lia|]; intros ? _).
  match goal with |- no_panic (if len data <? 9 + ?n then _ else _) => set (n0 := n); assert (Hn : 0 <= n0) end.
  { unfold n0. pose proof byte_to_Z_range as Hb. rewrite !Z.lor_nonneg, !Z.shiftl_nonneg. naive_solver. }
  case_match eqn:El; [done|].
  do 2 (apply no_panic_bind; [apply index_no_panic; lia|]; intros ? _).
  apply no_panic_bind; [apply slice_be32_no_panic; lia|]. intros id _.
  apply no_panic_bind; [apply slice_no_panic; lia|]. intros payload _.
  apply no_panic_bind; [apply parse_payload_no_panic|]. intros [frame d'] _.
  apply no_panic_bind; [apply slice_from_no_panic; lia|]. intros rest Hr.
  rewrite slice_from_ok in Hr by lia. injection Hr as <-.
  apply no_panic_bind; [|done]. apply IH. rewrite length_drop. unfold len in *. lia.
Qed.

Lemma frames_no_panic data : no_panic (ParseFrames data).
Proof. unfold ParseFrames. apply frames_loop_no_panic. lia. Qed.

(** C25: parsing arbitrary bytes as HTTP/2 frames never panics and always ends: no read is out of
    range in the frame headers, the payloads, the padding or the HPACK integers, strings and
    table lookups. *)
Theorem ParseFrames_no_panic data : no_panic (ParseFrames data).
Proof. apply frames_no_panic. Qed.
