(* ===== verification/Http2Wire.v ===== *)
(** * An HTTP/2 frame encoder and the parser's round trip

    A reference encoder after RFC 7540 (frames) and RFC 7541 (HPACK), for connections whose
    header names are sent by index or as plain literals, and the theorem that [ParseFrames]
    reads such a connection back: settings, window updates, priorities, padding and header
    names, the dynamic table included. *)

From S2P Require Import Prelude GoStrings Crypto ClientHello ClientHelloWire Http2Frames.
#[local] Open Scope Z_scope.

Definition enc32 (v : Z) : list byte := be_bytes 4 v.

(** ** HPACK integers and strings (RFC 7541, 5.1 and 5.2) *)

(** The continuation bytes of an integer, at most [n] of them. *)
Fixpoint enc_cont (n : nat) (v : Z) : list byte :=
  match n with
  | O => []
  | S n => if v <? 128 then [byte_of_Z v] else byte_of_Z (128 + v mod 128) :: enc_cont n (v / 128)
  end.

(** [v] in a [p]-bit prefix under the leading bits [hi]. *)
Definition enc_int (p hi v : Z) : list byte :=
  if v <? 2 ^ p - 1 then [byte_of_Z (hi + v)]
  else byte_of_Z (hi + (2 ^ p - 1)) :: enc_cont 9 (v - (2 ^ p - 1)).

(** A string is its Huffman bit and the bytes that follow. *)
Definition enc_str (huffman : bool) (bs : list byte) : list byte :=
  enc_int 7 (if huffman then 128 else 0) (len bs) ++ bs.

(** ** Header fields (RFC 7541, 6) *)
Inductive name_ref := NameIdx (i : Z) | NameStr (s : string).
Inductive indexing := Incremental | WithoutIndexing | NeverIndexed.
Inductive field :=
  | FIndexed (i : Z)
  | FLiteral (mode : indexing) (name : name_ref) (huffman : bool) (value : list byte)
  | FTableSize (n : Z).

Definition mode_prefix (m : indexing) : Z := match m with Incremental => 6 | _ => 4 end.
Definition mode_bits (m : indexing) : Z :=
  match m with Incremental => 0x40 | WithoutIndexing => 0 | NeverIndexed => 0x10 end.

Definition enc_field (f : field) : list byte :=
  match f with
  | FIndexed i => enc_int 7 0x80 i
  | FLiteral m name huffman value =>
      match name with
      | NameIdx i => enc_int (mode_prefix m) (mode_bits m) i
      | NameStr s => enc_int (mode_prefix m) (mode_bits m) 0 ++ enc_str false (string_bytes s)
      end ++ enc_str huffman value
  | FTableSize n => enc_int 5 0x20 n
  end.

(** The name an index refers to, in the static table followed by the dynamic one. *)
Definition table_name (dynamic : list string) (i : Z) : option string :=
  if 1 <=? i then (hpackStaticNames ++ dynamic) !! Z.to_nat (i - 1) else None.

Definition ref_name (dynamic : list string) (r : name_ref) : option string :=
  match r with
  | NameIdx i => table_name dynamic i
  | NameStr s => if String.eqb s EmptyString then None else Some s
  end.

(** The names one field carries (one, or none for a table size update) and the dynamic table
    after it; [None] when an index refers to nothing. *)
Definition field_step (dynamic : list string) (f : field) : option (list string * list string) :=
  match f with
  | FIndexed i => name ← table_name dynamic i; Some ([name], dynamic)
  | FLiteral m r _ _ =>
      name ← ref_name dynamic r;
      Some ([name], match m with Incremental => name :: dynamic | _ => dynamic end)
  | FTableSize _ => Some ([], dynamic)
  end.

Fixpoint field_names (dynamic : list string) (fs : list field) : option (list string * list string) :=
  match fs with
  | [] => Some ([], dynamic)
  | f :: fs =>
      '(n1, dynamic) ← field_step dynamic f;
      '(names, dynamic) ← field_names dynamic fs;
      Some (n1 ++ names, dynamic)
  end.

Definition int_ok (v : Z) : bool := (0 <=? v) && (v <? 2 ^ 60).
Definition field_ok (f : field) : bool :=
  match f with
  | FIndexed i | FTableSize i => int_ok i
  | FLiteral _ r _ value =>
      (match r with NameIdx i => (1 <=? i) && int_ok i | NameStr s => int_ok (len (string_bytes s)) end)
      && int_ok (len value)
  end.

(** ** Frames (RFC 7540, 4.1) *)
Inductive wire_frame :=
  | WSettings (flags id : Z) (l : list Setting)
  | WWindowUpdate (flags id inc : Z)
  | WPriority (flags id : Z) (exclusive : bool) (depends weight : Z)
  | WHeaders (id : Z) (endStream endHeaders : bool) (pad : option (list byte))
      (prio : option (bool * Z * Z)) (fields : list field)
  | WOther (typ flags id : Z) (payload : list byte).

Definition enc_setting (s : Setting) : list byte := enc16 (set_ID s) ++ enc32 (set_Value s).
Definition enc_prio (exclusive : bool) (depends weight : Z) : list byte :=
  enc32 ((if exclusive then 2 ^ 31 else 0) + depends) ++ [byte_of_Z weight].

Definition header_flags (endStream endHeaders pad prio : bool) : Z :=
  (if endStream then 0x1 else 0) + (if endHeaders then 0x4 else 0)
  + (if pad then 0x8 else 0) + (if prio then 0x20 else 0).

Definition enc_fields (fs : list field) : list byte := flat_map enc_field fs.

Definition headers_payload (pad : option (list byte)) (prio : option (bool * Z * Z)) (fs : list field) : list byte :=
  let block :=
    match prio with Some (e, d, w) => enc_prio e d w | None => [] end ++ enc_fields fs in
  match pad with Some p => byte_of_Z (len p) :: block ++ p | None => block end.

(** Type, flags, stream and payload of a frame. *)
Definition frame_parts (w : wire_frame) : Z * Z * Z * list byte :=
  match w with
  | WSettings flags id l => (frameTypeSettings, flags, id, flat_map enc_setting l)
  | WWindowUpdate flags id inc => (frameTypeWindowUpdate, flags, id, enc32 inc)
  | WPriority flags id e d w => (frameTypePriority, flags, id, enc_prio e d w)
  | WHeaders id es eh pad prio fs =>
      (frameTypeHeaders, header_flags es eh (bool_decide (is_Some pad)) (bool_decide (is_Some prio)), id,
       headers_payload pad prio fs)
  | WOther typ flags id payload => (typ, flags, id, payload)
  end.

Definition enc_frame (w : wire_frame) : list byte :=
  let '(typ, flags, id, payload) := frame_parts w in
  be_bytes 3 (len payload) ++ [byte_of_Z typ; byte_of_Z flags] ++ enc32 id ++ payload.

Definition enc_frames (ws : list wire_frame) : list byte := flat_map enc_frame ws.

(** What the parser should report, threading the dynamic table. *)
Definition frame_of (dynamic : list string) (w : wire_frame) : option (Frame * list string) :=
  match w with
  | WSettings flags id l => Some (MkFrame frameTypeSettings flags id l 0 None None, dynamic)
  | WWindowUpdate flags id inc => Some (MkFrame frameTypeWindowUpdate flags id [] inc None None, dynamic)
  | WPriority flags id e d w =>
      Some (MkFrame frameTypePriority flags id [] 0 (Some (MkPriorityParam id e d w)) None, dynamic)
  | WHeaders id es eh pad prio fs =>
      '(names, dynamic) ← field_names dynamic fs;
      let '(pseudo, regular) := split_names names in
      let p := '(e, d, w) ← prio; Some (MkPriorityParam id e d w) in
      Some (MkFrame frameTypeHeaders
              (header_flags es eh (bool_decide (is_Some pad)) (bool_decide (is_Some prio))) id [] 0 None
              (Some (MkHeadersBlock id pseudo regular p)), dynamic)
  | WOther typ flags id _ => Some (MkFrame typ flags id [] 0 None None, dynamic)
  end.

Fixpoint frames_of (dynamic : list string) (ws : list wire_frame) : option (list Frame) :=
  match ws with
  | [] => Some []
  | w :: ws => '(f, dynamic) ← frame_of dynamic w; fs ← frames_of dynamic ws; Some (f :: fs)
  end.

Definition u_ok (bits v : Z) : bool := (0 <=? v) && (v <? 2 ^ bits).
Definition prio_ok (d w : Z) : bool := u_ok 31 d && u_ok 8 w.
Definition frame_ok (w : wire_frame) : bool :=
  let '(typ, flags, id, payload) := frame_parts w in
  u_ok 8 typ && u_ok 8 flags && u_ok 31 id && u_ok 24 (len payload) &&
  match w with
  | WSettings _ _ l => forallb (fun s => u_ok 16 (set_ID s) && u_ok 32 (set_Value s)) l
  | WWindowUpdate _ _ inc => u_ok 31 inc
  | WPriority _ _ _ d w => prio_ok d w
  | WHeaders _ _ _ pad prio fs =>
      match pad with Some p => len p <? 256 | None => true end
      && match prio with Some (_, d, w) => prio_ok d w | None => true end
      && forallb field_ok fs
  | WOther typ _ _ _ => negb (bool_decide (typ ∈ [frameTypeHeaders; frameTypePriority; frameTypeSettings;
                                                  frameTypeWindowUpdate]))
  end.

(** ** Reading back integers and strings *)
Lemma be_Uint32_value a b c d rest : be_Uint32 (a :: b :: c :: d :: rest) = Ok (be_value [a; b; c; d]).
Proof.
  unfold be_Uint32. rewrite index_3, index_2, index_1, index_head. cbn [mbind outcome_bind]. f_equal.
  pose proof byte_to_Z_range as Hr. pose proof (Hr a). pose proof (Hr b). pose proof (Hr c). pose proof (Hr d).
  rewrite (lor_shiftl (byte_to_Z d)) by lia. rewrite (lor_shiftl _ _ 16) by lia.
  rewrite lor_shiftl by lia. unfold be_value. cbn [rev app le_value]. lia.
Qed.

Lemma be_Uint32_enc32 v rest : 0 <= v < 2 ^ 32 -> be_Uint32 (enc32 v ++ rest) = Ok v.
Proof.
  intros Hv. pose proof (be_value_bytes 4 v Hv) as Hb. unfold enc32 in *.
  destruct (be_bytes 4 v) as [|a [|b [|c [|d [|]]]]] eqn:E; apply (f_equal length) in E;
    rewrite length_be_bytes in E; try discriminate E.
  cbn [app]. by rewrite be_Uint32_value, Hb.
Qed.

Lemma len_enc32 v : len (enc32 v) = 4.
Proof. unfold len, enc32. by rewrite length_be_bytes. Qed.

Lemma low7 b : Z.land (byte_to_Z b) 0x7f = byte_to_Z b mod 128.
Proof. by destruct b. Qed.
Lemma bit7 b : (Z.land (byte_to_Z b) 0x80 =? 0) = (byte_to_Z b <? 128).
Proof. by destruct b. Qed.

Lemma int_ok_iff v : int_ok v = true <-> 0 <= v < 2 ^ 60.
Proof. unfold int_ok. lia. Qed.

Lemma hpack_int_loop_enc n fuel v acc rest :
  (length (enc_cont n v) <= fuel)%nat -> (0 < n <= 9)%nat -> 0 <= v < 2 ^ (7 * Z.of_nat n) -> 0 <= acc ->
  acc + v * 2 ^ (63 - 7 * Z.of_nat n) < 2 ^ 64 ->
  hpack_int_loop fuel (enc_cont n v ++ rest) acc (63 - 7 * Z.of_nat n)
  = Ok (acc + v * 2 ^ (63 - 7 * Z.of_nat n), rest).
Proof.
  revert fuel v acc. induction n as [|n IH]; intros fuel v acc Hf Hn Hv Ha Hb; [lia|].
  cbn [enc_cont] in *. destruct fuel as [|fuel]; [destruct (v <? 128); cbn in Hf; lia|].
  set (s := 63 - 7 * Z.of_nat (S n)) in *. assert (Hs : 0 <= s) by lia.
  assert (0 < 2 ^ s) by (apply Z.pow_pos_nonneg; lia).
  destruct (v <? 128) eqn:E; cbn [app hpack_int_loop]; rewrite low7, bit7, byte_to_of_Z_small.
  2, 4: pose proof (Z.mod_pos_bound v 128); lia.
  - rewrite E, Z.mod_small, Z.shiftl_mul_pow2 by lia. unfold u64.
    rewrite (Z.mod_small (v * 2 ^ s)), Z.mod_small by nia. done.
  - pose proof (Z.mod_pos_bound v 128 ltac:(lia)). pose proof (Z.div_mod v 128 ltac:(lia)) as Hd.
    pose proof (Z.div_pos v 128 ltac:(lia) ltac:(lia)).
    replace (128 + v mod 128 <? 128) with false by lia.
    replace ((128 + v mod 128) mod 128) with (v mod 128)
      by (rewrite Z.add_mod, Z.mod_same, Z.add_0_l, !Z.mod_mod by lia; done).
    rewrite Z.shiftl_mul_pow2 by lia. unfold u64.
    rewrite (Z.mod_small (v mod 128 * 2 ^ s)), (Z.mod_small (acc + _)) by nia.
    destruct n as [|n]; [exfalso; revert Hv E; change (2 ^ (7 * Z.of_nat 1)) with 128; lia|].
    assert (Hs' : s + 7 = 63 - 7 * Z.of_nat (S n)) by lia.
    replace (56 <? s + 7) with false by lia. rewrite Hs'.
    assert (Hp : 2 ^ (63 - 7 * Z.of_nat (S n)) = 128 * 2 ^ s)
      by (rewrite <- Hs', Z.pow_add_r by lia; change (2 ^ 7) with 128; lia).
    cbn [length] in Hf. rewrite IH; [| lia | lia | | nia | rewrite Hp; nia].
    + rewrite Hp. do 2 f_equal. nia.
    + split; [lia|]. apply Z.div_lt_upper_bound; [lia|].
      replace (7 * Z.of_nat (S (S n))) with (7 + 7 * Z.of_nat (S n)) in Hv by lia.
      rewrite Z.pow_add_r in Hv by lia. change (2 ^ 7) with 128 in Hv. lia.
Qed.

Lemma land_prefix p hi v :
  0 <= p < 8 -> 0 <= v < 2 ^ p -> hi mod 2 ^ p = 0 -> 0 <= hi < 256 -> hi + v < 256 ->
  Z.land (byte_to_Z (byte_of_Z (hi + v))) (u8 (Z.shiftl 1 p - 1)) = v.
Proof.
  intros Hp Hv Hm Hh Hs. rewrite byte_to_of_Z_small by lia. unfold u8. rewrite Z.shiftl_1_l.
  assert (2 ^ p <= 2 ^ 7) by (apply Z.pow_le_mono_r; lia). change (2 ^ 7) with 128 in *.
  rewrite Z.mod_small by lia. rewrite Z.sub_1_r, <- Z.ones_equiv, Z.land_ones by lia.
  rewrite Z.add_mod, Hm, Z.add_0_l, Z.mod_mod, Z.mod_small by lia. done.
Qed.

(** The prefix widths and leading bits HPACK uses. *)
Definition prefix_ok (p hi : Z) : bool :=
  (1 <=? p) && (p <=? 7) && (hi mod 2 ^ p =? 0) && (0 <=? hi) && (hi + 2 ^ p <=? 256).

Lemma readHPACKInt_enc p hi v rest :
  prefix_ok p hi = true -> int_ok v = true -> readHPACKInt (enc_int p hi v ++ rest) p = Ok (v, rest).
Proof.
  unfold prefix_ok. intros Hp Hv%int_ok_iff. rewrite !andb_true_iff in Hp. destruct Hp as ((((? & ?) & Hm) & ?) & ?).
  apply Z.eqb_eq in Hm.
  assert (2 ^ p <= 2 ^ 7) by (apply Z.pow_le_mono_r; lia). change (2 ^ 7) with 128 in *.
  assert (1 < 2 ^ p) by (change 1 with (2 ^ 0) at 1; apply Z.pow_lt_mono_r; lia).
  assert (Hmask : u8 (Z.shiftl 1 p - 1) = 2 ^ p - 1) by (unfold u8; rewrite Z.shiftl_1_l, Z.mod_small; lia).
  unfold enc_int. case_match eqn:E; cbn [app readHPACKInt]; rewrite land_prefix, Hmask by lia.
  - rewrite E. done.
  - rewrite Z.ltb_irrefl. pose proof (hpack_int_loop_enc 9 (S (length (enc_cont 9 (v - (2 ^ p - 1)) ++ rest)))
      (v - (2 ^ p - 1)) (2 ^ p - 1) rest) as H9.
    change (63 - 7 * Z.of_nat 9) with 0 in H9. rewrite H9; rewrite ?length_app; try lia.
    do 2 f_equal. lia.
Qed.

Lemma enc_int_cons p hi v : exists b bs, enc_int p hi v = b :: bs.
Proof. unfold enc_int. case_match; eauto. Qed.

Lemma enc_int_head p hi v :
  prefix_ok p hi = true -> 0 <= v ->
  exists b bs, enc_int p hi v = b :: bs /\ hi <= byte_to_Z b < hi + 2 ^ p.
Proof.
  unfold prefix_ok. intros Hp Hv. rewrite !andb_true_iff in Hp. destruct Hp as ((((? & ?) & _) & ?) & ?).
  assert (0 < 2 ^ p) by (apply Z.pow_pos_nonneg; lia).
  unfold enc_int. case_match; eexists _, _; (split; [done|]); rewrite byte_to_of_Z_small; lia.
Qed.

Lemma slice_head {A} (m s : list A) j : j = len m -> slice (m ++ s) 0 j = Ok m.
Proof. intros ->. by apply (slice_app_mid []). Qed.

Lemma slice_from_app {A} (m s : list A) i : i = len m -> slice_from (m ++ s) i = Ok s.
Proof.
  intros ->. rewrite slice_from_ok by (rewrite len_app; pose proof (len_nonneg m); pose proof (len_nonneg s); lia).
  unfold len. by rewrite Nat2Z.id, drop_app_length.
Qed.

Lemma readHPACKString_enc h bs rest :
  int_ok (len bs) = true ->
  readHPACKString (enc_str h bs ++ rest) = Ok (if h then EmptyString else bytes_string bs, rest).
Proof.
  intros Hl. unfold enc_str. rewrite <- app_assoc.
  destruct (enc_int_head 7 (if h then 128 else 0) (len bs)) as (b & l & El & Hb);
    [by destruct h | apply len_nonneg |].
  unfold readHPACKString. rewrite El. cbn [app]. rewrite bit7.
  replace (negb (byte_to_Z b <? 128)) with h by (destruct h; lia).
  change (b :: l ++ bs ++ rest) with ((b :: l) ++ bs ++ rest). rewrite <- El, readHPACKInt_enc by (by destruct h).
  cbn [mbind outcome_bind]. rewrite len_app. pose proof (len_nonneg rest).
  replace (len bs + len rest <? len bs) with false by lia.
  rewrite slice_head by done. cbn [mbind outcome_bind]. by rewrite slice_from_app.
Qed.

(** ** Reading back header fields *)
Definition named (s : string) : Prop := s <> EmptyString.

Lemma static_named : Forall named hpackStaticNames.
Proof. apply Forall_forall. intros s Hs. repeat (apply elem_of_cons in Hs as [->|Hs]; [done|]). by apply elem_of_nil in Hs. Qed.

Lemma table_name_named d i name : Forall named d -> table_name d i = Some name -> named name.
Proof.
  unfold table_name. intros Hd. case_match; [|done]. intros Hn%list_elem_of_lookup_2.
  eapply Forall_forall in Hn; [done|]. apply Forall_app. split; [apply static_named|done].
Qed.

Lemma ref_name_named d r name : Forall named d -> ref_name d r = Some name -> named name.
Proof.
  destruct r as [i|s]; cbn; [apply table_name_named|]. intros _. case_match eqn:E; [done|].
  intros [= <-]. by apply String.eqb_neq.
Qed.

Lemma lookupName_table d i name :
  int_ok i = true -> table_name d i = Some name -> lookupName d i = Ok name.
Proof.
  unfold table_name. intros Hi%int_ok_iff. case_match eqn:E1; [|done]. intros Hn. unfold lookupName.
  replace (i =? 0) with false by lia. change (len hpackStaticNames) with 61.
  case_match eqn:E61.
  - apply index_lookup; [lia|]. by rewrite lookup_app_l in Hn by (change (length hpackStaticNames) with 61%nat; lia).
  - rewrite lookup_app_r in Hn by (change (length hpackStaticNames) with 61%nat; lia).
    change (length hpackStaticNames) with 61%nat in Hn.
    assert (Hw : wrap64 (wrap64 i - 61 - 1) = i - 62)
      by (rewrite (wrap64_small i) by (unfold in_int, int_min, int_max; lia);
          rewrite wrap64_small by (unfold in_int, int_min, int_max; lia); lia).
    rewrite Hw. apply lookup_lt_Some in Hn as Hl.
    replace ((0 <=? i - 62) && (i - 62 <? len d)) with true by (unfold len; lia).
    apply index_lookup; [lia|]. by replace (Z.to_nat (i - 1) - 61)%nat with (Z.to_nat (i - 62)) in Hn by lia.
Qed.

Lemma mode_prefix_ok m : prefix_ok (mode_prefix m) (mode_bits m) = true.
Proof. by destruct m. Qed.

Lemma readLiteralName_enc d m r h value name rest :
  field_ok (FLiteral m r h value) = true -> ref_name d r = Some name ->
  readLiteralName d (enc_field (FLiteral m r h value) ++ rest) (mode_prefix m) = Ok (name, rest).
Proof.
  cbn [field_ok enc_field]. intros [Hr Hv]%andb_true_iff Hn. unfold readLiteralName. rewrite <- app_assoc.
  destruct r as [i|s]; cbn [ref_name] in Hn.
  - apply andb_true_iff in Hr as [H1 Hi]. rewrite readHPACKInt_enc by (done || apply mode_prefix_ok).
    cbn [mbind outcome_bind]. replace (0 <? i) with true by lia. rewrite (lookupName_table _ _ name) by done.
    cbn [mbind outcome_bind]. by rewrite readHPACKString_enc.
  - case_match; [done|]. injection Hn as <-. rewrite <- app_assoc.
    rewrite readHPACKInt_enc by (done || apply mode_prefix_ok). cbn [mbind outcome_bind Z.ltb Z.compare].
    rewrite readHPACKString_enc by done. cbn [mbind outcome_bind]. rewrite readHPACKString_enc by done.
    cbn [mbind outcome_bind]. by rewrite bytes_string_bytes.
Qed.

(** The first byte of a field selects its form. *)
Lemma bit6 b : byte_to_Z b < 128 -> (Z.land (byte_to_Z b) 0x40 =? 0) = (byte_to_Z b <? 64).
Proof. destruct b; intros Hb; first [reflexivity | vm_compute in Hb; discriminate Hb]. Qed.
Lemma bit5 b : byte_to_Z b < 64 -> (Z.land (byte_to_Z b) 0x20 =? 0) = (byte_to_Z b <? 32).
Proof. destruct b; intros Hb; first [reflexivity | vm_compute in Hb; discriminate Hb]. Qed.

Lemma enc_literal_head m r h value :
  field_ok (FLiteral m r h value) = true ->
  exists b bs, enc_field (FLiteral m r h value) = b :: bs
    /\ mode_bits m <= byte_to_Z b < mode_bits m + 2 ^ mode_prefix m.
Proof.
  cbn [field_ok enc_field]. intros [Hr Hv]%andb_true_iff.
  destruct r as [i|s].
  - apply andb_true_iff in Hr as [H1 Hi].
    destruct (enc_int_head _ _ i (mode_prefix_ok m) ltac:(lia)) as (b & bs & -> & ?). cbn [app]. eauto.
  - destruct (enc_int_head _ _ 0 (mode_prefix_ok m) ltac:(lia)) as (b & bs & -> & ?). cbn [app]. eauto.
Qed.

Lemma add_name_named name names : named name -> add_name name names = name :: names.
Proof. intros Hn. unfold add_name. by apply String.eqb_neq in Hn as ->. Qed.
Lemma addDynamicName_named d name : named name -> addDynamicName d name = name :: d.
Proof. intros Hn. unfold addDynamicName. by apply String.eqb_neq in Hn as ->. Qed.

(** One field of the block is read by one turn of the loop. *)
Definition decode_turn (fuel : nat) (d : hpackNameDecoder) (f : field) (rest : list byte) : Prop :=
  forall n1 d1 ns d2,
    field_step d f = Some (n1, d1) -> decode_loop fuel d1 rest = Ok (ns, d2) ->
    decode_loop (S fuel) d (enc_field f ++ rest) = Ok (n1 ++ ns, d2).

Lemma decode_indexed fuel d i rest :
  int_ok i = true -> Forall named d -> decode_turn fuel d (FIndexed i) rest.
Proof.
  intros Hi Hd n1 d1 ns d2 Hs Hl. apply bind_Some in Hs as (name & Hname & [= <- <-]).
  pose proof (proj1 (int_ok_iff i) Hi).
  destruct (enc_int_head 7 0x80 i) as (b & bs & Eb & Hb); [done|lia|]. cbn [enc_field].
  pose proof (readHPACKInt_enc 7 0x80 i rest eq_refl Hi) as Hr. rewrite Eb in *. cbn [app decode_loop] in *.
  rewrite bit7. replace (byte_to_Z b <? 128) with false by lia. cbn [negb]. rewrite Hr. cbn [mbind outcome_bind].
  rewrite (lookupName_table _ _ name) by done. cbn [mbind outcome_bind]. rewrite Hl. cbn [mbind outcome_bind].
  rewrite add_name_named; [done|]. by eapply table_name_named.
Qed.

Lemma decode_literal fuel d m r h value rest :
  field_ok (FLiteral m r h value) = true -> Forall named d -> decode_turn fuel d (FLiteral m r h value) rest.
Proof.
  intros Hok Hd n1 d1 ns d2 Hs Hl. apply bind_Some in Hs as (name & Hname & [= <- <-]).
  pose proof (ref_name_named _ _ _ Hd Hname) as Hnm.
  pose proof (readLiteralName_enc d m r h value name rest Hok Hname) as Hr.
  destruct (enc_literal_head _ _ _ _ Hok) as (b & bs & Eb & Hb). rewrite Eb in *. cbn [app decode_loop] in *.
  rewrite bit7. destruct m; cbn [mode_prefix mode_bits] in *; cbn in Hb;
    replace (byte_to_Z b <? 128) with true by lia; cbn [negb]; rewrite bit6 by lia.
  1: replace (byte_to_Z b <? 64) with false by lia.
  2, 3: replace (byte_to_Z b <? 64) with true by lia; cbn [negb]; rewrite bit5 by lia;
    replace (byte_to_Z b <? 32) with true by lia.
  all: cbn [negb]; rewrite Hr; cbn [mbind outcome_bind]; rewrite ?addDynamicName_named, Hl by done;
    cbn [mbind outcome_bind]; by rewrite add_name_named.
Qed.

Lemma decode_table_size fuel d n rest : int_ok n = true -> decode_turn fuel d (FTableSize n) rest.
Proof.
  intros Hn n1 d1 ns d2 [= <- <-] Hl. pose proof (proj1 (int_ok_iff n) Hn).
  destruct (enc_int_head 5 0x20 n) as (b & bs & Eb & Hb); [done|lia|]. cbn [enc_field].
  pose proof (readHPACKInt_enc 5 0x20 n rest eq_refl Hn) as Hr. rewrite Eb in *. cbn [app decode_loop] in *.
  cbn in Hb. rewrite bit7. replace (byte_to_Z b <? 128) with true by lia. cbn [negb]. rewrite bit6 by lia.
  replace (byte_to_Z b <? 64) with true by lia. cbn [negb]. rewrite bit5 by lia.
  replace (byte_to_Z b <? 32) with false by lia. cbn [negb]. by rewrite Hr.
Qed.

Lemma field_step_named d f n1 d1 : Forall named d -> field_step d f = Some (n1, d1) -> Forall named d1.
Proof.
  intros Hd. destruct f as [i|m r h v|n]; cbn; [| |by intros [= _ <-]].
  - intros (name & _ & [= _ <-])%bind_Some. done.
  - intros (name & Hn & [= _ <-])%bind_Some. apply ref_name_named in Hn; [|done]. destruct m; by repeat constructor.
Qed.

Lemma decode_loop_enc fuel d fs names d' :
  (length fs < fuel)%nat -> forallb field_ok fs = true -> Forall named d ->
  field_names d fs = Some (names, d') -> decode_loop fuel d (enc_fields fs) = Ok (names, d') /\ Forall named d'.
Proof.
  revert d fs names d'. induction fuel as [|fuel IH]; intros d fs names d' Hf Hok Hd Hn; [lia|].
  destruct fs as [|f fs]; [by injection Hn as <- <-|]. cbn [length] in Hf.
  apply andb_true_iff in Hok as [Hok1 Hok].
  cbn [field_names] in Hn. apply bind_Some in Hn as ([n1 d1] & Hs & Hn).
  apply bind_Some in Hn as ([ns d2] & Hns & [= <- <-]).
  destruct (IH d1 fs ns d2) as [Hl Hd2]; [lia | done | by eapply field_step_named | done |]. split; [|done].
  change (enc_fields (f :: fs)) with (enc_field f ++ enc_fields fs).
  assert (Ht : decode_turn fuel d f (enc_fields fs)).
  { destruct f; [by apply decode_indexed | by apply decode_literal | by apply decode_table_size]. }
  by apply (Ht n1 d1).
Qed.

Lemma length_enc_fields fs : forallb field_ok fs = true -> (length fs <= length (enc_fields fs))%nat.
Proof.
  induction fs as [|f fs IH]; [done|]. intros [Hf Hfs]%andb_true_iff. apply IH in Hfs.
  change (enc_fields (f :: fs)) with (enc_field f ++ enc_fields fs). rewrite length_app. cbn [length].
  assert (exists b bs, enc_field f = b :: bs) as (b & bs & ->); [|cbn; lia].
  destruct f as [i|m r h v|n]; [apply enc_int_cons| |apply enc_int_cons].
  apply enc_literal_head in Hf as (b & bs & Eb & _). eauto.
Qed.

Lemma hpack_decode_enc d fs names d' :
  forallb field_ok fs = true -> Forall named d -> field_names d fs = Some (names, d') ->
  hpack_decode d (enc_fields fs) = Ok (names, d') /\ Forall named d'.
Proof. intros Hok Hd Hn. apply decode_loop_enc; [|done..]. pose proof (length_enc_fields fs Hok). lia. Qed.

(** ** Reading back frames *)
Lemma u_ok_iff bits v : u_ok bits v = true <-> 0 <= v < 2 ^ bits.
Proof. unfold u_ok. lia. Qed.

Lemma settings_loop_enc fuel l :
  (length l < fuel)%nat -> forallb (fun s => u_ok 16 (set_ID s) && u_ok 32 (set_Value s)) l = true ->
  settings_loop fuel (flat_map enc_setting l) = Ok l.
Proof.
  revert l. induction fuel as [|fuel IH]; intros l Hf Hok; [lia|].
  destruct l as [|[id v] l]; [done|]. cbn [length] in Hf. cbn [forallb set_ID set_Value] in Hok.
  rewrite !andb_true_iff in Hok. destruct Hok as [[Hid%u_ok_iff Hv%u_ok_iff] Hok].
  cbn [flat_map enc_setting set_ID set_Value settings_loop]. set (rest := flat_map enc_setting l).
  pose proof (len_nonneg rest).
  change (enc_setting (MkSetting id v)) with (enc16 id ++ enc32 v). rewrite <- app_assoc.
  replace (0 <? len (enc16 id ++ enc32 v ++ rest)) with true by (rewrite !len_app, len_enc16, len_enc32; lia).
  change (s ← slice (enc16 id ++ enc32 v ++ rest) 0 2; be_Uint16 s) with (uint16_at (enc16 id ++ enc32 v ++ rest) 0 2).
  rewrite uint16_at_head by lia. cbn [mbind outcome_bind].
  rewrite (slice_app_mid (enc16 id) (enc32 v) rest) by (rewrite ?len_enc16, ?len_enc32; lia). cbn [mbind outcome_bind].
  rewrite <- (app_nil_r (enc32 v)) at 1. rewrite be_Uint32_enc32 by lia. cbn [mbind outcome_bind].
  rewrite app_assoc, slice_from_app by (rewrite len_app, len_enc16, len_enc32; lia). cbn [mbind outcome_bind].
  unfold rest. by rewrite IH by (done || lia).
Qed.

Lemma length_enc_settings l : length (flat_map enc_setting l) = (6 * length l)%nat.
Proof. apply length_flat_map_const. intros s. unfold enc_setting, enc16, enc32. by rewrite length_app, !length_be_bytes. Qed.

Lemma parseSettings_enc l :
  forallb (fun s => u_ok 16 (set_ID s) && u_ok 32 (set_Value s)) l = true ->
  parseSettings (flat_map enc_setting l) = Ok l.
Proof.
  intros Hok. unfold parseSettings, len. rewrite length_enc_settings.
  replace (Z.of_nat (6 * length l) mod 6) with 0
    by (rewrite Nat2Z.inj_mul, Z.mul_comm; change (Z.of_nat 6) with 6; by rewrite Z.mod_mul by lia).
  cbn [negb Z.eqb]. apply settings_loop_enc; [lia|done].
Qed.

Lemma land_31 (e : bool) d : 0 <= d < 2 ^ 31 -> Z.land ((if e then 2 ^ 31 else 0) + d) 0x7fffffff = d.
Proof.
  intros Hd. change 0x7fffffff with (Z.ones 31). rewrite Z.land_ones by lia.
  destruct e; [rewrite <- (Z.mul_1_l (2 ^ 31)) at 1; rewrite Z.add_comm, Z_mod_plus_full|]; by rewrite Z.mod_small.
Qed.

Lemma bit31 (e : bool) d : 0 <= d < 2 ^ 31 -> negb (Z.land ((if e then 2 ^ 31 else 0) + d) 0x80000000 =? 0) = e.
Proof.
  intros Hd. change 0x80000000 with (Z.shiftl 1 31).
  assert (Hp : Z.land (Z.shiftl (if e then 1 else 0) 31 + d) (Z.shiftl 1 31) = Z.shiftl (if e then 1 else 0) 31).
  { replace (Z.shiftl (if e then 1 else 0) 31 + d) with (Z.lor d (Z.shiftl (if e then 1 else 0) 31))
      by (rewrite lor_shiftl, Z.shiftl_mul_pow2; lia).
    apply Z.bits_inj'. intros n Hn.
    rewrite Z.land_spec, Z.lor_spec, !Z.shiftl_spec by lia.
    destruct (Z.lt_ge_cases n 31) as [?|?].
    - rewrite (Z.testbit_neg_r 1), (Z.testbit_neg_r (if e then 1 else 0)) by lia. apply andb_false_r.
    - rewrite (Z.bits_above_log2 d n); [|lia|].
      + by destruct e; rewrite ?Z.bits_0; cbn [orb]; [apply andb_diag|].
      + destruct (Z.eq_dec d 0) as [->|?]; [cbn; lia|]. apply Z.log2_lt_pow2; [lia|].
        apply Z.lt_le_trans with (2 ^ 31); [lia|]. apply Z.pow_le_mono_r; lia. }
  replace (if e then 2 ^ 31 else 0) with (Z.shiftl (if e then 1 else 0) 31) by (by destruct e).
  rewrite Hp. by destruct e.
Qed.

Lemma len_enc_prio e d w : len (enc_prio e d w) = 5.
Proof. unfold enc_prio. by rewrite len_app, len_enc32. Qed.

Lemma parsePriority_enc e d w id :
  prio_ok d w = true -> parsePriority (enc_prio e d w) id = Ok (MkPriorityParam id e d w).
Proof.
  intros [Hd%u_ok_iff Hw%u_ok_iff]%andb_true_iff. unfold parsePriority. rewrite len_enc_prio. cbn [Z.eqb Pos.eqb negb].
  unfold enc_prio. rewrite slice_head by (by rewrite len_enc32). cbn [mbind outcome_bind].
  rewrite <- (app_nil_r (enc32 _)) at 1. rewrite be_Uint32_enc32 by (destruct e; lia). cbn [mbind outcome_bind].
  rewrite index_app_mid by (by rewrite len_enc32). cbn [mbind outcome_bind].
  by rewrite bit31, land_31, byte_to_of_Z_small by lia.
Qed.

Lemma header_flags_pad es eh a b : negb (Z.land (header_flags es eh a b) flagHeadersPadded =? 0) = a.
Proof. by destruct es, eh, a, b. Qed.
Lemma header_flags_prio es eh a b : negb (Z.land (header_flags es eh a b) flagHeadersPriority =? 0) = b.
Proof. by destruct es, eh, a, b. Qed.

Lemma stripPadding_enc es eh pad prio block :
  match pad with Some p => len p <? 256 | None => true end = true ->
  stripPadding (header_flags es eh (bool_decide (is_Some pad)) prio)
    (match pad with Some p => byte_of_Z (len p) :: block ++ p | None => block end) = Ok block.
Proof.
  intros Hp. unfold stripPadding. rewrite header_flags_pad. destruct pad as [p|]; [|done].
  pose proof (len_nonneg p). pose proof (len_nonneg block).
  change (bool_decide (is_Some (Some p))) with true. cbv iota. rewrite len_cons, len_app.
  replace (len block + len p + 1 =? 0) with false by lia. rewrite index_head. cbn [mbind outcome_bind].
  rewrite byte_to_of_Z_small by lia.
  change (byte_of_Z (len p) :: block ++ p) with ([byte_of_Z (len p)] ++ block ++ p).
  rewrite slice_from_app by done. cbn [mbind outcome_bind]. rewrite len_app.
  replace (len block + len p <? len p) with false by lia. apply slice_head. lia.
Qed.

Lemma parseHeaders_enc id es eh pad prio fs d names d' :
  match pad with Some p => len p <? 256 | None => true end = true ->
  match prio with Some (_, dep, w) => prio_ok dep w | None => true end = true ->
  forallb field_ok fs = true -> Forall named d -> field_names d fs = Some (names, d') ->
  parseHeaders (headers_payload pad prio fs)
    (header_flags es eh (bool_decide (is_Some pad)) (bool_decide (is_Some prio))) id d
  = Ok (MkHeadersBlock id (fst (split_names names)) (snd (split_names names))
          ('(e, dep, w) ← prio; Some (MkPriorityParam id e dep w)), d') /\ Forall named d'.
Proof.
  intros Hpad Hprio Hfs Hd Hn. destruct (hpack_decode_enc d fs names d' Hfs Hd Hn) as [Hdec Hd']. split; [|done].
  unfold parseHeaders, headers_payload. rewrite stripPadding_enc by done. cbn [mbind outcome_bind].
  rewrite header_flags_prio. destruct prio as [[[e dep] w]|].
  - change (bool_decide (is_Some (Some (e, dep, w)))) with true. cbv iota.
    rewrite len_app, len_enc_prio. pose proof (len_nonneg (enc_fields fs)).
    replace (5 + len (enc_fields fs) <? 5) with false by lia.
    rewrite slice_head by (by rewrite len_enc_prio). cbn [mbind outcome_bind].
    rewrite parsePriority_enc by done. cbn [mbind outcome_bind].
    rewrite slice_from_app by (by rewrite len_enc_prio). cbn [mbind outcome_bind].
    rewrite Hdec. cbn [mbind outcome_bind]. by destruct (split_names names).
  - change (bool_decide (is_Some None)) with false. cbv iota. cbn [app mbind outcome_bind].
    rewrite Hdec. cbn [mbind outcome_bind]. by destruct (split_names names).
Qed.

Lemma parse_payload_enc w d f d' :
  frame_ok w = true -> Forall named d -> frame_of d w = Some (f, d') ->
  let '(typ, flags, id, payload) := frame_parts w in
  parse_payload typ flags id payload d = Ok (f, d') /\ Forall named d'.
Proof.
  intros Hok Hd Hf. unfold frame_ok in Hok. destruct (frame_parts w) as [[[typ flags] id] payload] eqn:Ep.
  rewrite !andb_true_iff in Hok. destruct Hok as [_ Hok].
  destruct w as [fl i l|fl i inc|fl i e dep wt|i es eh pad prio fs|t fl i p]; injection Ep as <- <- <- <-;
    unfold parse_payload; cbn [frame_of] in Hf.
  - injection Hf as <- <-. cbn [Z.eqb Pos.eqb frameTypeSettings]. by rewrite parseSettings_enc.
  - injection Hf as <- <-. cbn [Z.eqb Pos.eqb frameTypeSettings frameTypeWindowUpdate]. split; [|done].
    apply u_ok_iff in Hok. unfold parseWindowUpdate. rewrite len_enc32. cbn [Z.eqb Pos.eqb negb].
    rewrite <- (app_nil_r (enc32 inc)), be_Uint32_enc32 by lia. cbn [mbind outcome_bind].
    replace (Z.land inc 0x7fffffff) with inc by (symmetry; exact (land_31 false inc Hok)). done.
  - injection Hf as <- <-. cbn [Z.eqb Pos.eqb frameTypeSettings frameTypeWindowUpdate frameTypePriority].
    by rewrite parsePriority_enc.
  - apply bind_Some in Hf as ([names d1] & Hn & Hf). rewrite !andb_true_iff in Hok. destruct Hok as [[Hpad Hprio] Hfs].
    cbn [Z.eqb Pos.eqb frameTypeSettings frameTypeWindowUpdate frameTypePriority frameTypeHeaders].
    destruct (parseHeaders_enc i es eh pad prio fs d names d1 Hpad Hprio Hfs Hd Hn) as [-> Hd1].
    cbn [mbind outcome_bind]. destruct (split_names names). injection Hf as <- <-. done.
  - injection Hf as <- <-. apply negb_true_iff, bool_decide_eq_false in Hok. rewrite !elem_of_cons in Hok.
    repeat (rewrite (proj2 (Z.eqb_neq _ _)) by tauto). done.
Qed.

(** A frame's header is read back and its payload cut out exactly. *)
Lemma frames_loop_cons fuel d w rest :
  frame_ok w = true ->
  let '(typ, flags, id, payload) := frame_parts w in
  frames_loop (S fuel) (enc_frame w ++ rest) d
  = ('(f, d) ← parse_payload typ flags id payload d; fs ← frames_loop fuel rest d; Ok (f :: fs)).
Proof.
  unfold frame_ok, enc_frame. destruct (frame_parts w) as [[[typ flags] id] payload].
  rewrite !andb_true_iff, !u_ok_iff. intros [(((Ht & Hfl) & Hi) & Hl) _].
  destruct (be_bytes_3 (len payload)) as (a & b & c & -> & Hv); [lia|].
  set (hd := [a; b; c; byte_of_Z typ; byte_of_Z flags]).
  replace (([a; b; c] ++ [byte_of_Z typ; byte_of_Z flags] ++ enc32 id ++ payload) ++ rest)
    with (hd ++ enc32 id ++ payload ++ rest) by (unfold hd; cbn [app]; by rewrite <- app_assoc).
  assert (Hn : len (hd ++ enc32 id ++ payload ++ rest) = 9 + len payload + len rest)
    by (rewrite !len_app, len_enc32; unfold len, hd; cbn [length]; lia).
  pose proof (len_nonneg payload). pose proof (len_nonneg rest).
  cbn [frames_loop]. rewrite Hn. replace (0 <? 9 + _ + _) with true by lia. replace (9 + _ + _ <? 9) with false by lia.
  set (r := enc32 id ++ payload ++ rest) in *.
  assert (index (hd ++ r) 0 = Ok a) as -> by apply index_head.
  assert (index (hd ++ r) 1 = Ok b) as -> by apply index_1.
  assert (index (hd ++ r) 2 = Ok c) as -> by apply index_2.
  assert (index (hd ++ r) 3 = Ok (byte_of_Z typ)) as -> by apply index_3.
  assert (index (hd ++ r) 4 = Ok (byte_of_Z flags)) as ->
    by (by apply (index_app_mid [a; b; c; byte_of_Z typ] (byte_of_Z flags))).
  cbn [mbind outcome_bind]. rewrite be24_value, Hv. unfold r.
  replace (9 + len payload + _ <? 9 + len payload) with false by lia.
  rewrite (slice_app_mid hd (enc32 id) _ 5 9) by (rewrite ?len_enc32; reflexivity). cbn [mbind outcome_bind].
  rewrite <- (app_nil_r (enc32 id)) at 1. rewrite be_Uint32_enc32 by lia. cbn [mbind outcome_bind].
  assert (Hh : len (hd ++ enc32 id) = 9) by (rewrite len_app, len_enc32; reflexivity).
  rewrite app_assoc, (slice_app_mid (hd ++ enc32 id) payload) by (rewrite ?Hh; reflexivity).
  cbn [mbind outcome_bind]. rewrite !byte_to_of_Z_small by lia.
  replace (Z.land id 0x7fffffff) with id by (symmetry; exact (land_31 false id Hi)).
  destruct (parse_payload typ flags id payload d) as [[f d1]|e|]; [|done..]. cbn [mbind outcome_bind].
  rewrite app_assoc, slice_from_app by (rewrite (len_app (hd ++ enc32 id)), Hh; reflexivity). done.
Qed.

Lemma frames_loop_enc fuel d ws fs :
  (length ws < fuel)%nat -> forallb frame_ok ws = true -> Forall named d -> frames_of d ws = Some fs ->
  frames_loop fuel (enc_frames ws) d = Ok fs.
Proof.
  revert d ws fs. induction fuel as [|fuel IH]; intros d ws fs Hf Hok Hd Hfs; [lia|].
  destruct ws as [|w ws]; [by injection Hfs as <-|]. cbn [length] in Hf.
  apply andb_true_iff in Hok as [Hok Hoks]. cbn [frames_of] in Hfs.
  apply bind_Some in Hfs as ([f d1] & Hf1 & Hfs). apply bind_Some in Hfs as (fs' & Hfs' & [= <-]).
  pose proof (parse_payload_enc w d f d1 Hok Hd Hf1) as Hp.
  pose proof (frames_loop_cons fuel d w (enc_frames ws) Hok) as Hc.
  change (enc_frames (w :: ws)) with (enc_frame w ++ enc_frames ws).
  destruct (frame_parts w) as [[[typ flags] id] payload]. destruct Hp as [Hp Hd1].
  rewrite Hc, Hp. cbn [mbind outcome_bind]. by rewrite (IH d1 ws fs') by (done || lia).
Qed.

Lemma length_enc_frames ws : (length ws <= length (enc_frames ws))%nat.
Proof.
  induction ws as [|w ws IH]; [done|]. change (enc_frames (w :: ws)) with (enc_frame w ++ enc_frames ws).
  rewrite length_app. unfold enc_frame. destruct (frame_parts w) as [[[? ?] ?] ?].
  rewrite !length_app, length_be_bytes. cbn [length]. lia.
Qed.

(** C26: the parser reads back every connection the reference encoder can write: after the client
    preface, well-sized SETTINGS, WINDOW_UPDATE, PRIORITY, HEADERS (padded or not, with or without
    priority) and other frames come back as the frames they encode, and a header name sent by index
    or as a plain literal is the one RFC 7541 assigns, through the static and the dynamic table. *)
Theorem ParseFrames_roundtrip ws fs :
  forallb frame_ok ws = true -> frames_of [] ws = Some fs ->
  ParseFrames (clientPreface ++ enc_frames ws) = Ok fs.
Proof.
  intros Hok Hfs. unfold ParseFrames. rewrite take_app_length, drop_app_length, len_app.
  pose proof (len_nonneg (enc_frames ws)).
  replace (len clientPreface <=? len clientPreface + len (enc_frames ws)) with true by lia.
  rewrite bool_decide_eq_true_2 by done. cbn [andb].
  apply frames_loop_enc; [pose proof (length_enc_frames ws); lia|done..].
Qed.

(** A browser-like opening: settings, a window update, padded headers adding a dynamic name,
    and a second request using it. *)
Definition sample_connection : list wire_frame := [
  WSettings 0 0 [MkSetting 1 65536; MkSetting 4 6291456];
  WWindowUpdate 0 0 15663105;
  WHeaders 1 true true (Some (string_bytes "pad")) (Some (true, 0, 255))
    [FTableSize 4096; FIndexed 2; FIndexed 1; FLiteral WithoutIndexing (NameIdx 4) true (string_bytes "xyz");
     FLiteral Incremental (NameStr "x-client") false (string_bytes "a")];
  WHeaders 3 true true None None [FIndexed 2; FIndexed 62; FLiteral NeverIndexed (NameIdx 32) false (string_bytes "k=v")];
  WOther 6 0 0 (string_bytes "pingpong")].

Lemma ParseFrames_roundtrip_witness :
  exists fs, frames_of [] sample_connection = Some fs
    /\ ParseFrames (clientPreface ++ enc_frames sample_connection) = Ok fs
    /\ map (fun f => option_map hb_RegularHeaderOrder (f_Headers f)) fs
       = [None; None; Some ["x-client"]; Some ["x-client"; "cookie"]; None].
Proof.
  eexists. split; [reflexivity|]. split; [|reflexivity].
  apply ParseFrames_roundtrip; reflexivity.
Defined.

(** A Huffman-coded name stays unidentified and takes no place in the dynamic table, so that a later
    reference to an older entry, here to the first field's name at index 63, finds nothing. *)
Example huffman_name_shifts :
  hpack_decode []
    (enc_field (FLiteral Incremental (NameStr "x-a") false [])
     ++ (enc_int 6 0x40 0 ++ enc_str true (map byte_of_Z [0xf2; 0xb1]) ++ enc_str false [])
     ++ enc_field (FIndexed 63))
  = Ok (["x-a"], ["x-a"]).
Proof. vm_compute. reflexivity. Qed.
