(* ===== verification/Http2.v ===== *)
(** * The HTTP/2 collector ([internal/signal/http2]: akamai.go, ja4h.go, collector.go)

    The Akamai fingerprint of a connection's frames, the JA4H fingerprint of a request and the
    collector that compares both with the known browsers'. *)

From S2P Require Import Prelude GoStrings GoStd Crypto Types ClientHello Http2Frames Http2Wire.
#[local] Open Scope Z_scope.

(** ** akamai.go *)
Record AkamaiFingerprint := MkAkamai {
  ak_Settings : list Setting;
  ak_WindowUpdateIncrement : Z;
  ak_Priorities : list PriorityParam;
  ak_PseudoHeaderOrder : list string
}.

Definition pseudoHeaderCode (name : string) : string :=
  let n := TrimPrefix (ToLower name) ":" in
  if String.eqb n "method" then "m"
  else if String.eqb n "authority" then "a"
  else if String.eqb n "scheme" then "s"
  else if String.eqb n "path" then "p"
  else EmptyString.

Definition setting_text (s : Setting) : string := Itoa (set_ID s) +:+ ":" +:+ Itoa (set_Value s).
Definition priority_text (p : PriorityParam) : string :=
  let exclusive := if pp_Exclusive p then 1 else 0 in
  Itoa (pp_StreamID p) +:+ ":" +:+ Itoa exclusive +:+ ":" +:+ Itoa (pp_DependsOn p) +:+ ":" +:+ Itoa (pp_Weight p).
Definition pseudo_codes (names : list string) : list string :=
  List.filter (fun code => negb (String.eqb code EmptyString)) (map pseudoHeaderCode names).

Definition akamai_empty (f : AkamaiFingerprint) : bool :=
  (len (ak_Settings f) =? 0) && (ak_WindowUpdateIncrement f =? 0) && (len (ak_Priorities f) =? 0)
  && (len (ak_PseudoHeaderOrder f) =? 0).

Definition akamai_String (f : AkamaiFingerprint) : string :=
  if akamai_empty f then EmptyString
  else
    let settings := map setting_text (ak_Settings f) in
    let priorities :=
      if 0 <? len (ak_Priorities f) then Join (map priority_text (ak_Priorities f)) "," else "0" in
    Join settings "," +:+ "|" +:+ Itoa (ak_WindowUpdateIncrement f) +:+ "|" +:+ priorities +:+ "|"
    +:+ Join (pseudo_codes (ak_PseudoHeaderOrder f)) ",".

(** The body of the loop over the frames. *)
Definition akamai_step (f : AkamaiFingerprint) (frame : Frame) : AkamaiFingerprint :=
  let '(MkAkamai settings wu priorities pseudo) := f in
  if f_Type frame =? frameTypeSettings then
    if (len settings =? 0) && (0 <? len (f_Settings frame))
    then MkAkamai (settings ++ f_Settings frame) wu priorities pseudo else f
  else if f_Type frame =? frameTypeWindowUpdate then
    if (wu =? 0) && (f_StreamID frame =? 0)
    then MkAkamai settings (f_WindowUpdateIncrement frame) priorities pseudo else f
  else if f_Type frame =? frameTypePriority then
    match f_Priority frame with
    | Some p => MkAkamai settings wu (priorities ++ [p]) pseudo
    | None => f
    end
  else if f_Type frame =? frameTypeHeaders then
    match f_Headers frame with
    | None => f
    | Some h =>
        let priorities := match hb_Priority h with Some p => priorities ++ [p] | None => priorities end in
        let pseudo :=
          if (len pseudo =? 0) && (0 <? len (hb_PseudoHeaderOrder h))
          then pseudo ++ hb_PseudoHeaderOrder h else pseudo in
        MkAkamai settings wu priorities pseudo
    end
  else f.

Definition akamai_of (frames : list Frame) : AkamaiFingerprint :=
  fold_left akamai_step frames (MkAkamai [] 0 [] []).

Definition ComputeAkamaiFingerprint (frames : list Frame) : string := akamai_String (akamai_of frames).

Definition ComputeAkamaiFingerprintBytes (data : list byte) : outcome string :=
  frames ← ParseFrames data; Ok (ComputeAkamaiFingerprint frames).

(** ** ja4h.go *)
Definition zeroHash : string := "000000000000".

Record JA4HShape := MkJA4HShape {
  jh_Method : string; jh_ProtoMajor : Z; jh_ProtoMinor : Z; jh_Header : Header;
  jh_HeaderOrder : list string; jh_Host : string
}.

Definition normalizeHeaderOrder (shape : JA4HShape) : list string :=
  if 0 <? len (jh_HeaderOrder shape) then
    List.filter (fun name => negb (String.eqb name EmptyString)) (map TrimSpace (jh_HeaderOrder shape))
  else
    sort_Strings ((if String.eqb (jh_Host shape) EmptyString then [] else ["Host"])
                  ++ (map_to_list (jh_Header shape)).*1).

Definition ignoredJA4HHeader (name : string) : bool :=
  let trimmed := TrimSpace name in
  if String.eqb trimmed EmptyString || HasPrefix trimmed ":" then true
  else
    let lower := ToLower trimmed in
    HasPrefix lower "cookie" || String.eqb lower "referer".

Definition hasHeader (headerOrder : list string) (target : string) : bool :=
  existsb (fun name => String.eqb (ToLower (TrimSpace name)) (ToLower target)) headerOrder.

Definition methodCode (method : string) : string :=
  let method := ToLower (TrimSpace method) in
  if 2 <=? slen method then stake 2 method
  else if slen method =? 1 then method +:+ "x"
  else "xx".

Definition versionCode (major minor : Z) : string :=
  if major =? 1 then (if minor =? 0 then "10" else "11")
  else if major =? 2 then "20"
  else if major =? 3 then "30"
  else "00".

(** The loop appending zeros up to four bytes. *)
Fixpoint pad_zeros (n : nat) (value : string) : string :=
  match n with
  | O => value
  | S n => if slen value <? 4 then pad_zeros n (value +:+ "0") else value
  end.

Definition languageCode (value : string) : string :=
  let value := ToLower value in
  let value := ReplaceAll value "-" EmptyString in
  let value := ReplaceAll value ";" "," in
  let value := match IndexByte "," value with Some i => stake i value | None => value end in
  let value := TrimSpace value in
  let value := if 4 <? slen value then stake 4 value else value in
  pad_zeros 4 value.

Record cookiePair := MkCookiePair { ck_name : string; ck_pair : string }.

Definition cookie_part (part : string) : option cookiePair :=
  let part := TrimSpace part in
  if String.eqb part EmptyString then None
  else
    let name := match IndexByte "=" part with Some i => TrimSpace (stake i part) | None => part end in
    if String.eqb name EmptyString then None else Some (MkCookiePair name part).

Definition parse_cookies (values : list string) : list cookiePair :=
  flat_map (fun value => omap cookie_part (Split ";" value)) values.

Definition cookie_le (a b : cookiePair) : Prop :=
  if String.eqb (ck_name a) (ck_name b) then String.le (ck_pair a) (ck_pair b) else String.le (ck_name a) (ck_name b).
#[export] Instance cookie_le_dec : RelDecision cookie_le.
Proof. intros a b. unfold cookie_le. case_match; apply _. Defined.

(** The names and the pairs, sorted by name and then by pair; the comparison only ties identical
    cookies, so [sort.Slice] has one possible result. *)
Definition sortedCookies (header : Header) : list string * list string :=
  let cookies := merge_sort cookie_le (parse_cookies (header_Values header "Cookie")) in
  (map ck_name cookies, map ck_pair cookies).

Definition shortSHA256 (values : list string) : string :=
  stake 12 (hex (sha256 (string_bytes (Join values ",")))).

Definition ComputeJA4HFromShape (shape : JA4HShape) : string :=
  let headerOrder := normalizeHeaderOrder shape in
  let filteredHeaders := List.filter (fun name => negb (ignoredJA4HHeader name)) headerOrder in
  let '(cookieNames, _) := sortedCookies (jh_Header shape) in
  let cookieFlag := if 0 <? len cookieNames then "c" else "n" in
  let refererFlag :=
    if hasHeader headerOrder "referer" || negb (String.eqb (header_Get (jh_Header shape) "Referer") EmptyString)
    then "r" else "n" in
  let headerCount := if 99 <? len filteredHeaders then 99 else len filteredHeaders in
  let sectionA :=
    methodCode (jh_Method shape) +:+ versionCode (jh_ProtoMajor shape) (jh_ProtoMinor shape) +:+ cookieFlag
    +:+ refererFlag +:+ pad2 headerCount +:+ languageCode (header_Get (jh_Header shape) "Accept-Language") in
  let cookieHash := if 0 <? len cookieNames then shortSHA256 cookieNames else zeroHash in
  sectionA +:+ "_" +:+ shortSHA256 filteredHeaders +:+ "_" +:+ cookieHash.

Definition shape_of (req : Request) (headerOrder : list string) : JA4HShape :=
  MkJA4HShape (r_Method req) (r_ProtoMajor req) (r_ProtoMinor req) (r_Header req) headerOrder (r_Host req).

Definition ComputeJA4H (req : option Request) (headerOrder : list string) : string :=
  match req with None => EmptyString | Some req => ComputeJA4HFromShape (shape_of req headerOrder) end.

Definition ComputeJA4HFullFromShape (shape : JA4HShape) : string :=
  let abc := ComputeJA4HFromShape shape in
  let '(_, cookiePairs) := sortedCookies (jh_Header shape) in
  if len cookiePairs =? 0 then abc +:+ "_" +:+ zeroHash else abc +:+ "_" +:+ shortSHA256 cookiePairs.

Definition ComputeJA4HFull (req : option Request) (headerOrder : list string) : string :=
  match req with None => EmptyString | Some req => ComputeJA4HFullFromShape (shape_of req headerOrder) end.

(** ** collector.go *)
Definition h2AkamaiMismatchSignal : string := "h2_akamai_mismatch".
Definition ja4hUnknownSignal : string := "ja4h_unknown".
Definition h2AkamaiMismatchScore : Z := 35.
Definition ja4hUnknownScore : Z := 20.

Definition chrome131Akamai : string := "1:65536,3:1000,4:6291456,6:262144|15663105|0|m,a,s,p".
Definition firefox134Akamai : string := "1:65536,4:131072,5:16384|12517377|0|m,a,s,p".

Definition defaultKnownAkamai : gmap string string :=
  list_to_map [(chrome131Akamai, "chrome131"); (firefox134Akamai, "firefox134")].
Definition defaultKnownJA4H : gmap string string :=
  list_to_map [("ge11cn060000_7c8a3eaa8540_2c6e4f16ff14", "chrome131");
               ("ge11cn060000_b5d4f0c8a3d1_e17a92c3b8f4", "firefox134")].

(** The maps are [None] when nil. *)
Record Http2Collector := MkHttp2Collector {
  hc_KnownAkamai : option (gmap string string);
  hc_KnownJA4H : option (gmap string string)
}.

Definition NewHttp2Collector : Http2Collector := MkHttp2Collector (Some defaultKnownAkamai) (Some defaultKnownJA4H).

(** The defaults a nil collector or nil maps get, the maps being written back. *)
Definition fill_defaults (c : option Http2Collector) : Http2Collector :=
  match c with
  | None => NewHttp2Collector
  | Some c => MkHttp2Collector (Some (default defaultKnownAkamai (hc_KnownAkamai c)))
                               (Some (default defaultKnownJA4H (hc_KnownJA4H c)))
  end.

Definition FrameBytesFromContext (ctx : option (list byte)) : option (list byte) :=
  match ctx with Some bs => if len bs =? 0 then None else Some bs | None => None end.

Definition frameBytesFromRequestContext (ctx : RequestContext) : option (list byte) :=
  match FrameBytesFromContext (rq_Ctx ctx) with
  | Some bs => Some bs
  | None => match rq_Request ctx with Some req => FrameBytesFromContext (Some (r_Frames req)) | None => None end
  end.

Definition requestWithContextHeaders (ctx : RequestContext) : option Request :=
  match rq_Request ctx with
  | None => None
  | Some req =>
      if bool_decide (rq_Headers ctx = ∅) then Some req
      else Some (MkRequest (r_Method req) (r_URL req) (r_ProtoMajor req) (r_ProtoMinor req) (rq_Headers ctx)
                   (r_Host req) (r_RemoteAddr req) (r_Frames req))
  end.

Definition expectedAkamaiForRequest (req : option Request) : string :=
  match req with
  | None => EmptyString
  | Some req =>
      let ua := ToLower (UserAgent req) in
      if Contains ua "firefox/134" then firefox134Akamai
      else if Contains ua "chrome/131" || Contains ua "chromium/131" then chrome131Akamai
      else EmptyString
  end.

Definition akamaiSignal (c : Http2Collector) (req : option Request) (akamai : string) : option Signal :=
  let expected := expectedAkamaiForRequest req in
  if negb (String.eqb expected EmptyString) then
    if String.eqb akamai expected then None
    else Some (MkSignal h2AkamaiMismatchSignal h2AkamaiMismatchScore
                 "HTTP/2 Akamai fingerprint does not match the declared browser family"
                 (list_to_map [("akamai", AString akamai); ("expected", AString expected)]))
  else
    match default ∅ (hc_KnownAkamai c) !! akamai with
    | Some _ => None
    | None => Some (MkSignal h2AkamaiMismatchSignal h2AkamaiMismatchScore
                      "HTTP/2 Akamai fingerprint is not in the known browser baseline" {["akamai" := AString akamai]})
    end.

Definition ja4h_signals (c : Http2Collector) (ctx : RequestContext) : list Signal :=
  let ja4h := ComputeJA4H (requestWithContextHeaders ctx) (rq_HeaderOrder ctx) in
  if String.eqb ja4h EmptyString then []
  else
    match default ∅ (hc_KnownJA4H c) !! ja4h with
    | Some _ => []
    | None => [MkSignal ja4hUnknownSignal ja4hUnknownScore "JA4H fingerprint is not in the known browser baseline"
                 {["ja4h" := AString ja4h]}]
    end.

(** [Collect] with the collector it leaves behind (a nil receiver stays nil). *)
Definition http2_Collect (ctx : RequestContext) (c : option Http2Collector) : collect_out * option Http2Collector :=
  match rq_Request ctx with
  | None => (Ok ([], None), c)
  | Some req =>
      let collector := fill_defaults c in
      let signals := ja4h_signals collector ctx in
      let out :=
        match frameBytesFromRequestContext ctx with
        | None => Ok (signals, None)
        | Some frameBytes =>
            match ComputeAkamaiFingerprintBytes frameBytes with
            | Panic => Panic
            | Err e => Ok (signals, Some e)
            | Ok akamai =>
                if String.eqb akamai EmptyString then Ok (signals, None)
                else
                  match akamaiSignal collector (Some req) akamai with
                  | Some s => Ok (signals ++ [s], None)
                  | None => Ok (signals, None)
                  end
            end
        end in
      (out, match c with None => None | Some _ => Some collector end)
  end.

Definition http2_collector : SignalCollector :=
  MkCollector "http2" (option Http2Collector) http2_Collect.

(** ** JA4H: what it does not depend on *)
#[export] Instance cookie_le_trans : Transitive cookie_le.
Proof.
  intros a b c. unfold cookie_le.
  destruct (String.eqb_spec (ck_name a) (ck_name b)) as [Eab|Eab], (String.eqb_spec (ck_name b) (ck_name c)) as [Ebc|Ebc];
    destruct (String.eqb_spec (ck_name a) (ck_name c)) as [Eac|Eac]; intros H1 H2; try congruence.
  - by transitivity (ck_pair b).
  - exfalso. apply Eab. apply (anti_symm String.le); [done|]. by rewrite Eac.
  - by transitivity (ck_name b).
Qed.

#[export] Instance cookie_le_total : Total cookie_le.
Proof.
  intros a b. unfold cookie_le. destruct (String.eqb_spec (ck_name a) (ck_name b)) as [E|E].
  - rewrite E, String.eqb_refl. apply (total String.le).
  - destruct (String.eqb_spec (ck_name b) (ck_name a)); [congruence|]. apply (total String.le).
Qed.

Lemma cookie_names_sorted l : map ck_name (merge_sort cookie_le l) = sort_Strings (map ck_name l).
Proof.
  apply (StronglySorted_unique String.le).
  - pose proof (StronglySorted_merge_sort cookie_le l) as Hs. induction Hs as [|x l' _ IH Hx]; cbn; constructor; [done|].
    apply Forall_map. eapply Forall_impl; [exact Hx|]. intros y. unfold cookie_le, compose.
    destruct (String.eqb_spec (ck_name x) (ck_name y)) as [->|]; [reflexivity|done].
  - apply (StronglySorted_merge_sort String.le).
  - unfold sort_Strings. by rewrite !merge_sort_Permutation.
Qed.

Lemma map_keys_perm {A} (m m' : gmap string A) : dom m = dom m' -> (map_to_list m).*1 ≡ₚ (map_to_list m').*1.
Proof.
  intros Hd. apply NoDup_Permutation; [apply NoDup_fst_map_to_list..|]. intros k.
  assert (Hk : forall m0 : gmap string A, k ∈ (map_to_list m0).*1 <-> k ∈ dom m0).
  { intros m0. rewrite elem_of_dom, list_elem_of_fmap. split.
    - intros ([k' v] & -> & Hv%elem_of_map_to_list). eauto.
    - intros [v Hv]. exists (k, v). by rewrite elem_of_map_to_list. }
  by rewrite !Hk, Hd.
Qed.

Definition set_Header (shape : JA4HShape) (h : Header) : JA4HShape :=
  MkJA4HShape (jh_Method shape) (jh_ProtoMajor shape) (jh_ProtoMinor shape) h (jh_HeaderOrder shape) (jh_Host shape).

Definition cookie_names (values : list string) : list string := map ck_name (parse_cookies values).

Lemma normalizeHeaderOrder_dom shape h :
  dom h = dom (jh_Header shape) -> normalizeHeaderOrder (set_Header shape h) = normalizeHeaderOrder shape.
Proof.
  intros Hd. unfold normalizeHeaderOrder. cbn. case_match; [done|]. apply sort_Strings_proper.
  by rewrite (map_keys_perm _ _ Hd).
Qed.

(** A request's JA4H says nothing about the user behind the cookies: replacing its Cookie
    headers by any others with the same multiset of cookie names (other values, another order,
    another split into header lines) leaves the fingerprint unchanged. *)
Theorem JA4H_cookie_private shape vs vs' :
  jh_Header shape !! "Cookie" = Some vs -> cookie_names vs ≡ₚ cookie_names vs' ->
  ComputeJA4HFromShape (set_Header shape (<["Cookie" := vs']> (jh_Header shape))) = ComputeJA4HFromShape shape.
Proof.
  intros Hc Hn. unfold ComputeJA4HFromShape, sortedCookies. rewrite normalizeHeaderOrder_dom.
  2: { rewrite dom_insert_L. apply elem_of_dom_2 in Hc. set_solver. }
  cbn [jh_Header set_Header jh_Method jh_ProtoMajor jh_ProtoMinor].
  unfold header_Get, header_Values.
  change (CanonicalHeaderKey "Cookie") with "Cookie". change (CanonicalHeaderKey "Referer") with "Referer".
  change (CanonicalHeaderKey "Accept-Language") with "Accept-Language".
  rewrite (lookup_insert_ne _ "Cookie" "Referer"), (lookup_insert_ne _ "Cookie" "Accept-Language"), lookup_insert_eq, Hc by done. cbn [from_option id].
  rewrite !cookie_names_sorted. apply sort_Strings_proper in Hn. unfold cookie_names in Hn.
  rewrite Hn. cbv iota beta. reflexivity.
Qed.

Definition sample_shape : JA4HShape :=
  MkJA4HShape "GET" 2 0 (list_to_map [("Cookie", ["sid=1; theme=dark"]); ("Accept-Language", ["en-US,en;q=0.9"])])
    ["Host"; "Accept-Language"; "Cookie"] "example.com".

Lemma JA4H_cookie_private_witness :
  ComputeJA4HFromShape (set_Header sample_shape (<["Cookie" := ["theme=light"; "sid=2"]]> (jh_Header sample_shape)))
  = ComputeJA4HFromShape sample_shape.
Proof.
  apply (JA4H_cookie_private sample_shape ["sid=1; theme=dark"]); [reflexivity|].
  apply (Permutation_swap "theme" "sid" []).
Defined.

Lemma length_shortSHA256 l : String.length (shortSHA256 l) = 12%nat.
Proof. unfold shortSHA256. apply length_stake. rewrite length_hex, length_sha256. lia. Qed.

(** ** The Akamai fingerprint: where it comes from *)

(** The first element of a list that is not empty, or not zero. *)
Definition first_nonempty {A} (ls : list (list A)) : list A :=
  default [] (List.find (fun l => negb (len l =? 0)) ls).
Definition first_nonzero (l : list Z) : Z := default 0 (List.find (fun z => negb (z =? 0)) l).

Definition frame_settings (f : Frame) : list (list Setting) :=
  if f_Type f =? frameTypeSettings then [f_Settings f] else [].
Definition frame_increment (f : Frame) : list Z :=
  if (f_Type f =? frameTypeWindowUpdate) && (f_StreamID f =? 0) then [f_WindowUpdateIncrement f] else [].
Definition frame_headers (f : Frame) : option HeadersBlock :=
  if f_Type f =? frameTypeHeaders then f_Headers f else None.
Definition frame_priority (f : Frame) : list PriorityParam :=
  if f_Type f =? frameTypePriority then option_list (f_Priority f)
  else option_list (h ← frame_headers f; hb_Priority h).
Definition frame_pseudo (f : Frame) : list (list string) := option_list (hb_PseudoHeaderOrder <$> frame_headers f).

Lemma first_nonempty_cons {A} (l : list A) ls :
  first_nonempty (l :: ls) = if len l =? 0 then first_nonempty ls else l.
Proof. unfold first_nonempty. cbn. by destruct (len l =? 0). Qed.

Lemma first_nonempty_2 {A} (l k : list A) ls :
  first_nonempty (l :: k :: ls) = first_nonempty ((if (len l =? 0) && (0 <? len k) then l ++ k else l) :: ls).
Proof.
  pose proof (len_nonneg k). rewrite !first_nonempty_cons. destruct (len l =? 0) eqn:El; cbn [andb]; [|by rewrite El].
  apply Z.eqb_eq, len_0_nil in El. subst l. destruct (0 <? len k) eqn:Ek; cbn [app].
  - done.
  - by replace (len k =? 0) with true by lia.
Qed.

Lemma first_nonzero_cons z l : first_nonzero (z :: l) = if z =? 0 then first_nonzero l else z.
Proof. unfold first_nonzero. cbn. by destruct (z =? 0). Qed.

Lemma akamai_fold frames s w p ps :
  fold_left akamai_step frames (MkAkamai s w p ps) =
  MkAkamai (first_nonempty (s :: flat_map frame_settings frames)) (first_nonzero (w :: flat_map frame_increment frames))
    (p ++ flat_map frame_priority frames) (first_nonempty (ps :: flat_map frame_pseudo frames)).
Proof.
  revert s w p ps. induction frames as [|f frames IH]; intros s w p ps.
  - cbn [fold_left flat_map]. rewrite !first_nonempty_cons, first_nonzero_cons, app_nil_r.
    f_equal; repeat case_match; try done; first [by apply len_0_nil, Z.eqb_eq | by apply Z.eqb_eq].
  - cbn [fold_left flat_map]. unfold akamai_step at 2, frame_settings at 1, frame_increment at 1,
      frame_priority at 1, frame_pseudo at 1, frame_headers.
    destruct (Z.eqb_spec (f_Type f) frameTypeSettings) as [E|?];
      [|destruct (Z.eqb_spec (f_Type f) frameTypeWindowUpdate) as [E|?];
        [|destruct (Z.eqb_spec (f_Type f) frameTypePriority) as [E|?];
          [|destruct (Z.eqb_spec (f_Type f) frameTypeHeaders) as [E|?]]]];
      rewrite ?E;
      cbn [Z.eqb Pos.eqb frameTypeSettings frameTypeWindowUpdate frameTypePriority frameTypeHeaders andb mbind option_bind
           fmap option_fmap option_map option_list app].
    + rewrite first_nonempty_2. destruct (_ && _); apply IH.
    + destruct (f_StreamID f =? 0) eqn:E0; cbn [app]; rewrite ?andb_false_r, ?andb_true_r; [|apply IH].
      destruct (w =? 0) eqn:Ew; rewrite IH, !first_nonzero_cons, Ew; done.
    + destruct (f_Priority f) as [p0|]; cbn [option_list app]; rewrite IH; [|done]. by rewrite <- app_assoc.
    + destruct (f_Headers f) as [h|]; cbn [option_list app mbind option_bind fmap option_fmap option_map]; [|apply IH].
      change (option_list (Some (hb_PseudoHeaderOrder h))) with [hb_PseudoHeaderOrder h]. cbn [app].
      rewrite IH, first_nonempty_2. f_equal. destruct (hb_Priority h); cbn [option_list]; [by rewrite <- app_assoc|done].
    + apply IH.
Qed.

(** The fingerprint's four parts are the first non-empty SETTINGS list, the first non-zero
    increment among the connection-level WINDOW_UPDATEs, every priority tuple of the PRIORITY and
    HEADERS frames in order, and the first non-empty pseudo-header order. *)
Theorem akamai_parts frames :
  ComputeAkamaiFingerprint frames = akamai_String
    (MkAkamai (first_nonempty (flat_map frame_settings frames)) (first_nonzero (flat_map frame_increment frames))
       (flat_map frame_priority frames) (first_nonempty (flat_map frame_pseudo frames))).
Proof. unfold ComputeAkamaiFingerprint, akamai_of. by rewrite akamai_fold. Qed.

(** ** The Akamai fingerprint: what it identifies *)
Definition nums_text (l : list Z) : string := Join (map Itoa l) ":".
Definition nums_ok (l : list Z) : Prop := Forall (fun z => 0 <= z) l.

Lemma nums_text_no_byte c l : digit c = false -> c <> ":"%char -> nums_ok l -> no_byte c (nums_text l).
Proof.
  intros Hd Hc Hl. apply no_byte_Join.
  - cbn. by destruct (Ascii.eqb_spec c ":").
  - apply Forall_map. eapply Forall_impl; [exact Hl|]. intros z Hz. by apply Itoa_no_byte.
Qed.

Lemma nums_text_ne z l : nums_text (z :: l) <> EmptyString.
Proof. unfold nums_text. pose proof (Itoa_ne z). cbn [map]. destruct (Itoa z); [done|]. by destruct (map Itoa l). Qed.

Lemma nums_text_inj l k : nums_ok l -> nums_ok k -> nums_text l = nums_text k -> l = k.
Proof.
  intros Hl Hk H. apply Join_inj in H; [by apply (inj (map Itoa)) in H|..];
    (apply Forall_map; eapply Forall_impl; [eassumption|]; intros z Hz; split; [by apply Itoa_no_byte|apply Itoa_ne]).
Qed.

(** A comma-separated list of number tuples can be read back. *)
Section tuples.
  Context {A : Type} (f : A -> list Z).
  Hypothesis f_inj : forall a b, f a = f b -> a = b.
  Hypothesis f_ne : forall a, f a <> [].

Lemma tuple_field c a : digit c = false -> c <> ":"%char -> nums_ok (f a) ->
  no_byte c (nums_text (f a)) /\ nums_text (f a) <> EmptyString.
Proof.
  intros. split; [by apply nums_text_no_byte|]. pose proof (f_ne a). destruct (f a); [done|]. apply nums_text_ne.
Qed.

Lemma tuples_text_inj l k :
  Forall (fun a => nums_ok (f a)) l -> Forall (fun a => nums_ok (f a)) k ->
  Join (map (fun a => nums_text (f a)) l) "," = Join (map (fun a => nums_text (f a)) k) "," -> l = k.
Proof.
  intros Hl Hk H. apply Join_inj in H.
  2, 3: apply Forall_map; eapply Forall_impl; [eassumption|]; intros a Ha; by apply tuple_field.
  revert k Hk H. induction l as [|a l IH]; intros [|b k] Hk H; try done.
  apply Forall_cons in Hl as [Ha Hl], Hk as [Hb Hk]. injection H as H1 H2.
  apply nums_text_inj, f_inj in H1; [|done..]. subst b. f_equal. by apply IH.
Qed.

Lemma tuples_text_no_byte c l :
  digit c = false -> c <> ":"%char -> c <> ","%char -> Forall (fun a => nums_ok (f a)) l ->
  no_byte c (Join (map (fun a => nums_text (f a)) l) ",").
Proof.
  intros Hd H1 H2 Hl. apply no_byte_Join.
  - cbn. by destruct (Ascii.eqb_spec c ",").
  - apply Forall_map. eapply Forall_impl; [exact Hl|]. intros a Ha. by apply tuple_field.
Qed.
End tuples.

Definition setting_nums (s : Setting) : list Z := [set_ID s; set_Value s].
Definition priority_nums (p : PriorityParam) : list Z :=
  [pp_StreamID p; if pp_Exclusive p then 1 else 0; pp_DependsOn p; pp_Weight p].

Lemma setting_nums_inj a b : setting_nums a = setting_nums b -> a = b.
Proof. destruct a, b. cbn. by intros [= -> ->]. Qed.
Lemma priority_nums_inj a b : priority_nums a = priority_nums b -> a = b.
Proof. destruct a as [? [] ? ?], b as [? [] ? ?]; cbn; try done; by intros [= -> -> ->]. Qed.

(** The numbers are unsigned, as the parser leaves them. *)
Definition akamai_ok (f : AkamaiFingerprint) : Prop :=
  Forall (fun s => nums_ok (setting_nums s)) (ak_Settings f) /\ 0 <= ak_WindowUpdateIncrement f
  /\ Forall (fun p => nums_ok (priority_nums p)) (ak_Priorities f).

Definition priorities_text (ps : list PriorityParam) : string :=
  if 0 <? len ps then Join (map priority_text ps) "," else "0".

Definition akamai_fields (f : AkamaiFingerprint) : list string :=
  [Join (map setting_text (ak_Settings f)) ","; Itoa (ak_WindowUpdateIncrement f);
   priorities_text (ak_Priorities f); Join (pseudo_codes (ak_PseudoHeaderOrder f)) ","].

Lemma akamai_String_fields f : akamai_empty f = false -> akamai_String f = Join (akamai_fields f) "|".
Proof. unfold akamai_String. by intros ->. Qed.

Lemma code_ok name : pseudoHeaderCode name ∈ ["m"; "a"; "s"; "p"; EmptyString].
Proof. unfold pseudoHeaderCode. repeat case_match; set_solver. Qed.

Lemma codes_ok names : Forall (fun c => c ∈ ["m"; "a"; "s"; "p"]) (pseudo_codes names).
Proof.
  unfold pseudo_codes. apply List.Forall_forall. intros c [Hin Hne]%filter_In.
  apply in_map_iff in Hin as (name & <- & _). pose proof (code_ok name) as H. apply negb_true_iff, String.eqb_neq in Hne.
  set_solver.
Qed.

Lemma code_field c s : c ∈ [","; "|"]%char -> s ∈ ["m"; "a"; "s"; "p"] -> no_byte c s /\ s <> EmptyString.
Proof. rewrite !elem_of_cons, !elem_of_nil. naive_solver. Qed.

Lemma priorities_text_inj l k :
  Forall (fun p => nums_ok (priority_nums p)) l -> Forall (fun p => nums_ok (priority_nums p)) k ->
  priorities_text l = priorities_text k -> l = k.
Proof.
  assert (H0 : forall p ps, Forall (fun p => nums_ok (priority_nums p)) (p :: ps) ->
    Join (map priority_text (p :: ps)) "," <> "0").
  { intros p ps Hp H. change "0" with (Join ["0"] ",") in H. apply Join_inj in H.
    - injection H as H _. apply (f_equal (no_byte ":")) in H. unfold priority_text in H.
      rewrite !no_byte_append in H. cbn in H. by rewrite andb_false_r in H.
    - apply Forall_map. eapply Forall_impl; [exact Hp|]. intros q Hq. by apply (tuple_field priority_nums).
    - repeat constructor; done. }
  intros Hl Hk. unfold priorities_text. destruct l as [|p l], k as [|q k]; cbn [len length Z.of_nat Z.ltb Z.compare].
  - done.
  - intros H. symmetry in H. by apply H0 in H.
  - intros H. by apply H0 in H.
  - by apply (tuples_text_inj priority_nums priority_nums_inj).
Qed.

Lemma akamai_fields_ok f : akamai_ok f -> Forall (fun s => no_byte "|" s) (akamai_fields f).
Proof.
  intros (Hs & Hw & Hp). repeat (apply Forall_cons; split); [..|constructor].
  - by apply (tuples_text_no_byte setting_nums).
  - by apply Itoa_no_byte.
  - unfold priorities_text. case_match; [|done]. by apply (tuples_text_no_byte priority_nums).
  - apply no_byte_Join; [done|]. eapply Forall_impl; [apply codes_ok|]. intros c Hc.
    apply (code_field "|"); [set_solver|done].
Qed.

Lemma akamai_fields_ne f : Join (akamai_fields f) "|" <> EmptyString.
Proof.
  intros H. apply (f_equal (no_byte "|")) in H. unfold akamai_fields in H. cbn in H.
  rewrite !no_byte_append in H. cbn in H. by rewrite andb_false_r in H.
Qed.

(** C27: equal Akamai fingerprints mean equal content: the same settings with their values and
    order, the same connection window increment, the same priority tuples and the same order of
    the four known pseudo-headers, and only a connection showing none of these has the empty
    fingerprint. *)
Theorem akamai_identifies f g :
  akamai_ok f -> akamai_ok g ->
  akamai_String f = akamai_String g <->
  akamai_empty f = akamai_empty g /\ ak_Settings f = ak_Settings g
  /\ ak_WindowUpdateIncrement f = ak_WindowUpdateIncrement g /\ ak_Priorities f = ak_Priorities g
  /\ pseudo_codes (ak_PseudoHeaderOrder f) = pseudo_codes (ak_PseudoHeaderOrder g).
Proof.
  intros Hf Hg. split.
  - destruct (akamai_empty f) eqn:Ef, (akamai_empty g) eqn:Eg.
    + intros _. unfold akamai_empty in *. rewrite !andb_true_iff in *.
      destruct Ef as [[[?%Z.eqb_eq%len_0_nil ?] ?%Z.eqb_eq%len_0_nil] ?%Z.eqb_eq%len_0_nil],
        Eg as [[[?%Z.eqb_eq%len_0_nil ?] ?%Z.eqb_eq%len_0_nil] ?%Z.eqb_eq%len_0_nil].
      split_and!; [done|congruence|lia|congruence|congruence].
    + rewrite (akamai_String_fields g) by done. unfold akamai_String. rewrite Ef. intros H. symmetry in H.
      by apply akamai_fields_ne in H.
    + rewrite (akamai_String_fields f) by done. unfold akamai_String. rewrite Eg. intros H. by apply akamai_fields_ne in H.
    + rewrite !akamai_String_fields by done. intros H.
      apply Join_inj_len in H; [|by apply akamai_fields_ok..|done]. injection H as Hs Hw Hp Hc.
      destruct Hf as (? & ? & ?), Hg as (? & ? & ?). split_and!; [done| | | |].
      * by apply (tuples_text_inj setting_nums setting_nums_inj) in Hs.
      * by apply (inj Itoa).
      * by apply priorities_text_inj.
      * apply Join_inj in Hc; [done|..];
          (eapply Forall_impl; [apply codes_ok|]; intros c Hc'; apply (code_field ","); [set_solver|done]).
  - intros (He & Hs & Hw & Hp & Hc). unfold akamai_String. by rewrite He, Hs, Hw, Hp, Hc.
Qed.

Definition chrome_akamai : AkamaiFingerprint :=
  MkAkamai [MkSetting 1 65536; MkSetting 3 1000; MkSetting 4 6291456; MkSetting 6 262144] 15663105 []
    ["method"; "authority"; "scheme"; "path"].
Definition reordered_akamai : AkamaiFingerprint :=
  MkAkamai [MkSetting 1 65536; MkSetting 3 1000; MkSetting 4 6291456; MkSetting 6 262144] 15663105 []
    ["method"; "path"; "authority"; "scheme"].

Lemma akamai_identifies_witness :
  akamai_String chrome_akamai = chrome131Akamai /\ akamai_String chrome_akamai <> akamai_String reordered_akamai.
Proof.
  split; [vm_compute; reflexivity|].
  assert (Hok : forall f, ak_Settings f = ak_Settings chrome_akamai -> ak_WindowUpdateIncrement f = 15663105 ->
    ak_Priorities f = [] -> akamai_ok f).
  { intros f Hs Hw Hp. unfold akamai_ok. rewrite Hs, Hw, Hp. split_and!; [repeat constructor; done|done|constructor]. }
  intros H. apply (akamai_identifies chrome_akamai reordered_akamai) in H; [|apply Hok; reflexivity..].
  destruct H as (_ & _ & _ & _ & H). vm_compute in H. discriminate H.
Defined.

(** ** The collector *)

(** What the collector concludes from the frames: the fingerprint to judge, if any. *)
Definition observed_akamai (ctx : RequestContext) : outcome string :=
  match frameBytesFromRequestContext ctx with
  | Some bs => ComputeAkamaiFingerprintBytes bs
  | None => Ok EmptyString
  end.

Definition known_akamai (c : option Http2Collector) (req : Request) (akamai : string) : Prop :=
  let expected := expectedAkamaiForRequest (Some req) in
  if String.eqb expected EmptyString then is_Some (default ∅ (hc_KnownAkamai (fill_defaults c)) !! akamai)
  else akamai = expected.

Lemma akamaiSignal_spec c req akamai :
  match akamaiSignal (fill_defaults c) (Some req) akamai with
  | None => known_akamai c req akamai
  | Some s => ~ known_akamai c req akamai /\ sig_Name s = h2AkamaiMismatchSignal /\ sig_Score s = h2AkamaiMismatchScore
  end.
Proof.
  unfold akamaiSignal, known_akamai.
  destruct (String.eqb_spec (expectedAkamaiForRequest (Some req)) EmptyString) as [E|E]; cbn [negb].
  - destruct (default ∅ _ !! akamai) eqn:El; [by eexists|]. split; [by intros [? [=]]|done].
  - destruct (String.eqb_spec akamai (expectedAkamaiForRequest (Some req))); [done|]. by split.
Qed.

Lemma length_methodCode m : String.length (methodCode m) = 2%nat.
Proof.
  unfold methodCode, slen. case_match eqn:E2; [apply length_stake; lia|]. case_match eqn:E1; [|done].
  rewrite length_append. cbn. lia.
Qed.

Lemma ComputeJA4H_ne req order : ComputeJA4H (Some req) order <> EmptyString.
Proof.
  unfold ComputeJA4H, ComputeJA4HFromShape. destruct (sortedCookies _) as [names pairs].
  pose proof (length_methodCode (jh_Method (shape_of req order))).
  destruct (methodCode _); [done|]. by rewrite !append_cons.
Qed.

Lemma observed_akamai_no_panic ctx : no_panic (observed_akamai ctx).
Proof.
  unfold observed_akamai, ComputeAkamaiFingerprintBytes. case_match; [|done].
  apply no_panic_bind; [apply frames_no_panic|done].
Qed.

Lemma ja4h_signals_spec c ctx :
  ja4h_signals c ctx = [] \/ exists s, ja4h_signals c ctx = [s] /\ sig_Name s = ja4hUnknownSignal
    /\ sig_Score s = ja4hUnknownScore.
Proof. unfold ja4h_signals. repeat case_match; eauto. Qed.

(** On a request, the HTTP/2 collector never panics; it reports [ja4h_unknown] exactly when the
    JA4H of the effective headers is not a known browser's, and [h2_akamai_mismatch] exactly when the
    frames give a non-empty fingerprint that is not the one the User-Agent's browser must have, or,
    when the User-Agent announces no known browser, not a known one; it reports an error exactly when
    the frames do not parse, keeping the JA4H verdict. *)
Theorem http2_Collect_spec ctx c req :
  rq_Request ctx = Some req ->
  exists sigs err, fst (http2_Collect ctx c) = Ok (sigs, err)
  /\ (ja4hUnknownSignal ∈ map sig_Name sigs <->
      default ∅ (hc_KnownJA4H (fill_defaults c)) !! ComputeJA4H (requestWithContextHeaders ctx) (rq_HeaderOrder ctx) = None)
  /\ (h2AkamaiMismatchSignal ∈ map sig_Name sigs <->
      exists akamai, observed_akamai ctx = Ok akamai /\ akamai <> EmptyString /\ ~ known_akamai c req akamai)
  /\ (forall e, err = Some e <-> observed_akamai ctx = Err e)
  /\ Forall (fun s => 0 < sig_Score s <= 35) sigs.
Proof.
  intros Hreq.
  assert (Hj : ja4hUnknownSignal ∈ map sig_Name (ja4h_signals (fill_defaults c) ctx) <->
    default ∅ (hc_KnownJA4H (fill_defaults c)) !! ComputeJA4H (requestWithContextHeaders ctx) (rq_HeaderOrder ctx) = None).
  { unfold ja4h_signals. destruct (String.eqb_spec (ComputeJA4H (requestWithContextHeaders ctx) (rq_HeaderOrder ctx)) EmptyString) as [E|_].
    - exfalso. revert E. unfold requestWithContextHeaders. rewrite Hreq. case_match; apply ComputeJA4H_ne.
    - case_match; [|set_solver]. cbn. rewrite elem_of_nil. naive_solver. }
  pose proof (ja4h_signals_spec (fill_defaults c) ctx) as Hs.
  pose proof (observed_akamai_no_panic ctx) as Hp. unfold http2_Collect, observed_akamai in *. rewrite Hreq.
  set (sigs := ja4h_signals _ _) in *. cbn [fst].
  assert (Hno : h2AkamaiMismatchSignal ∉ map sig_Name sigs /\ Forall (fun s => 0 < sig_Score s <= 35) sigs).
  { destruct Hs as [->|(s & -> & Hn & Hsc)]; [split; [set_solver|constructor]|].
    split; [cbn; rewrite Hn; set_solver|]. constructor; [|constructor]. rewrite Hsc. unfold ja4hUnknownScore. lia. }
  destruct Hno as [Hno Hsc].
  destruct (frameBytesFromRequestContext ctx) as [bs|].
  2: { exists sigs, None. split_and!; [done..|naive_solver|naive_solver|done]. }
  destruct (ComputeAkamaiFingerprintBytes bs) as [akamai|e|]; [| |done].
  2: { exists sigs, (Some e). split_and!; [done..|naive_solver|naive_solver|done]. }
  destruct (String.eqb_spec akamai EmptyString) as [->|Hne].
  { exists sigs, None. split_and!; [done..|naive_solver|naive_solver|done]. }
  pose proof (akamaiSignal_spec c req akamai) as Ha. destruct (akamaiSignal _ _ _) as [s|].
  2: { exists sigs, None. split_and!; [done..|naive_solver|naive_solver|done]. }
  destruct Ha as (Ha & Hn & Hss). exists (sigs ++ [s]), None. rewrite map_app. cbn [map]. rewrite Hn.
  split_and!; [done| | |naive_solver|].
  - rewrite elem_of_app, Hj, list_elem_of_singleton. split; [intros [?|[=]]; done|by left].
  - rewrite elem_of_app, list_elem_of_singleton. naive_solver.
  - apply Forall_app. split; [done|]. repeat constructor; rewrite Hss; unfold h2AkamaiMismatchScore; lia.
Qed.

(** A client that announces Chrome 131 but opens the connection with another window increment. *)
Definition fake_chrome : Request :=
  MkRequest "GET" None 2 0 {["User-Agent" := ["Mozilla/5.0 Chrome/131.0"]]} "example.com" "10.0.0.1:99"
    (clientPreface ++ enc_frames [
       WSettings 0 0 [MkSetting 1 65536; MkSetting 3 1000; MkSetting 4 6291456; MkSetting 6 262144];
       WWindowUpdate 0 0 65535;
       WHeaders 1 true true None None [FIndexed 2; FIndexed 1; FIndexed 7; FIndexed 4]]).
Definition fake_chrome_ctx : RequestContext :=
  MkRequestContext None (Some fake_chrome) "10.0.0.1" [] EmptyString EmptyString ∅ [].

Example fake_chrome_akamai :
  observed_akamai fake_chrome_ctx = Ok "1:65536,3:1000,4:6291456,6:262144|65535|0|m,a,s,p".
Proof. vm_compute. reflexivity. Qed.

Lemma http2_Collect_spec_witness :
  exists sigs err, fst (http2_Collect fake_chrome_ctx None) = Ok (sigs, err)
    /\ h2AkamaiMismatchSignal ∈ map sig_Name sigs /\ err <> Some errNeedMoreData.
Proof.
  destruct (http2_Collect_spec fake_chrome_ctx None fake_chrome eq_refl) as (sigs & err & H & _ & Hm & He & _).
  exists sigs, err. split; [exact H|]. split.
  - apply Hm. exists "1:65536,3:1000,4:6291456,6:262144|65535|0|m,a,s,p". split; [exact fake_chrome_akamai|].
    split; [discriminate|]. vm_compute. discriminate.
  - intros E. apply He in E. rewrite fake_chrome_akamai in E. discriminate E.
Defined.
