(* ===== verification/Api.v ===== *)
(** * The SDK decision endpoint ([internal/api]: decide.go)

    [POST /v1/decide]: an SDK describes a request, the handler rebuilds it and asks the pipeline. *)

From S2P Require Import Prelude GoStrings GoStd GoUrl Types GoHttp Policy Token Cache JsonText Json Codec Bodies Pipeline.
#[local] Open Scope Z_scope.

(** ** [http.NewRequestWithContext] *)

(** [validMethod] *)
Definition validMethod (method : string) : bool := isToken method.

(** [http.NewRequestWithContext(ctx, method, (&url.URL{Path: path}).String(), http.NoBody)], where [parse_error] is
    the text of [url.Parse]'s error. *)
Definition NewRequest (parse_error : string -> string) (frames : list byte) (method path : string) : outcome Request :=
  if negb (validMethod method) then Err ("net/http: invalid method " +:+ Quote method)
  else
    match url_Parse (path_String path) with
    | None => Err (parse_error (path_String path))
    | Some u =>
        Ok (MkRequest method (Some (MkURL (pu_scheme u) (pu_host u) (pu_path u) (pu_query u))) 1 1 ∅ (pu_host u)
              EmptyString frames)
    end.

(** What the handler writes: [http.Error] or the JSON of a decision. *)
Inductive api_reply :=
| ApiError (code : Z) (msg : string)
| ApiDecision (d : Decision).

(** What the handler takes from the clock, the UUID library and the error texts of the standard library. *)
Record ApiIngress := MkApiIngress {
  ai_uuid : string; ai_verify : Z; ai_get : Z; ai_now : Z; ai_set : Z; ai_stamp : Z; ai_parse_error : string -> string;
  ai_json_error : list byte -> string
}.

Section handler.
Context `{CEL} `{CacheIf} `{JWT}.

(** The order in which a range over the headers visits them. *)
Context (iter : gmap string string -> list (string * string)).

Record DecideHandler := MkDecideHandler { dh_Pipeline : Pipeline; dh_Verifier : option Verifier }.

(** The synthetic request and its context. *)
Definition api_request (parse_error : string -> string) (r : Request) (req : DecisionRequest) : outcome Request :=
  let method := if String.eqb (dr_Method req) EmptyString then "GET" else dr_Method req in
  let rawPath := if String.eqb (dr_Path req) EmptyString then "/" else dr_Path req in
  s ← NewRequest parse_error (r_Frames r) method rawPath;
  Ok (MkRequest (r_Method s) (r_URL s) (r_ProtoMajor s) (r_ProtoMinor s)
        (fold_left (fun h p => header_Set h p.1 p.2) (iter (dr_Headers req)) (r_Header s))
        (dr_Host req) (r_RemoteAddr s) (r_Frames s)).

Definition api_context (r : Request) (s : Request) (req : DecisionRequest) : RequestContext :=
  MkRequestContext (Some (r_Frames r)) (Some s) (dr_RemoteIP req) [] (dr_JA3 req) (dr_JA4 req) (r_Header s)
    (dr_HeaderOrder req).

Definition api_has_valid_token (i : ApiIngress) (req : DecisionRequest) (v : option Verifier) : outcome bool :=
  match v with
  | Some v =>
      if String.eqb (dr_Token req) EmptyString then Ok false
      else
        match Verify v (ai_verify i) (dr_Token req)
                (MkVerifyContext (dr_RemoteIP req) (default EmptyString (dr_Headers req !! "User-Agent"))
                   (dr_JA3 req) (dr_JA4 req)) with
        | Ok _ => Ok true
        | Err _ => Ok false
        | Panic => Panic
        end
  | None => Ok false
  end.

Definition stamp (i : ApiIngress) (dec : Decision) : Decision :=
  MkDecision (d_Verdict dec) (d_Score dec) (d_Signals dec) (d_Reasons dec) (d_PolicyName dec)
    (if d_Timestamp dec =? 0 then ai_stamp i else d_Timestamp dec)
    (if String.eqb (d_RequestID dec) EmptyString then ai_uuid i else d_RequestID dec).

(** [body] is what can be read of the request's body, absent when it is nil. *)
Definition decide_ServeHTTP (i : ApiIngress) (r : Request) (body : option (list byte)) (h : DecideHandler)
    : outcome api_reply * DecideHandler :=
  if negb (String.eqb (r_Method r) "POST") then (Ok (ApiError 405 "method not allowed"), h)
  else
    match body with
    | None => (Ok (ApiError 400 "bad request: empty body"), h)
    | Some data =>
        match Decode DecisionRequest_codec data with
        | None => (Ok (ApiError 400 ("bad request: " +:+ ai_json_error i data)), h)
        | Some req =>
            if String.eqb (dr_RemoteIP req) EmptyString then (Ok (ApiError 400 "bad request: remote_ip required"), h)
            else
              match api_request (ai_parse_error i) r req with
              | Err e => (Ok (ApiError 500 ("internal error: " +:+ e)), h)
              | Panic => (Panic, h)
              | Ok s =>
                  match api_has_valid_token i req (dh_Verifier h) with
                  | Ok hasValidToken =>
                      let '(dec, p) := Decide (ai_get i) (ai_now i) (ai_set i) (api_context r s req) hasValidToken (dh_Pipeline h) in
                      let h := MkDecideHandler p (dh_Verifier h) in
                      match dec with
                      | Ok dec => (Ok (ApiDecision (stamp i dec)), h)
                      | Err e => (Err e, h)
                      | Panic => (Panic, h)
                      end
                  | Err e => (Err e, h)
                  | Panic => (Panic, h)
                  end
              end
        end
    end.
End handler.

(** ** The pipeline sees the request the SDK described *)
Lemma NoDup_map_inj {A B} (f : A -> B) (l : list A) : forall a b,
  NoDup (map f l) -> a ∈ l -> b ∈ l -> f a = f b -> a = b.
Proof.
  induction l as [|x l IH]; intros a b Hnd Ha Hb Hab; [by apply elem_of_nil in Ha|].
  cbn [map] in Hnd. apply NoDup_cons in Hnd as [Hx Hnd].
  assert (Hne : forall y, y ∈ l -> f x <> f y).
  { intros y Hy E. apply Hx. rewrite E. apply list_elem_of_In, List.in_map_iff. exists y. by rewrite <- list_elem_of_In. }
  apply elem_of_cons in Ha as [->|Ha], Hb as [->|Hb]; [done|by apply Hne in Hb|symmetry in Hab; by apply Hne in Hab|by apply IH].
Qed.

Section faithful.
Context `{CEL} `{CacheIf} `{JWT}.
Context (iter : gmap string string -> list (string * string)) (Hiter : forall m, iter m ≡ₚ map_to_list m).

Lemma set_headers_lookup l : forall (h : Header) c,
  NoDup (map (fun p => CanonicalHeaderKey p.1) l) ->
  fold_left (fun h p => header_Set h p.1 p.2) l h !! c =
  match List.find (fun p : string * string => String.eqb (CanonicalHeaderKey p.1) c) l with
  | Some p => Some [p.2]
  | None => h !! c
  end.
Proof.
  induction l as [|p l IH]; intros h c Hnd; [done|]. cbn [fold_left List.find map] in *. apply NoDup_cons in Hnd as [Hp Hnd].
  rewrite IH by done. unfold header_Set. destruct (String.eqb_spec (CanonicalHeaderKey p.1) c) as [<-|Hne].
  - rewrite lookup_insert_eq. destruct (List.find _ l) as [q|] eqn:E; [|done]. exfalso.
    apply List.find_some in E as [Hin Heq]. apply String.eqb_eq in Heq. apply Hp. rewrite <- Heq.
    apply list_elem_of_In, List.in_map_iff. by exists q.
  - rewrite lookup_insert_ne by done. done.
Qed.

(** No two header names of the description are spellings of one. *)
Definition distinct_headers (h : gmap string string) : Prop :=
  NoDup (map (fun p => CanonicalHeaderKey p.1) (map_to_list h)).

Lemma set_headers_get h k v :
  distinct_headers h -> h !! k = Some v ->
  fold_left (fun h p => header_Set h p.1 p.2) (iter h) (∅ : Header) !! CanonicalHeaderKey k = Some [v].
Proof.
  intros Hd Hk. rewrite set_headers_lookup by (unfold distinct_headers in Hd; by rewrite Hiter).
  destruct (List.find _ (iter h)) as [q|] eqn:E.
  - apply List.find_some in E as [Hin Heq]. apply String.eqb_eq in Heq. f_equal. f_equal.
    apply list_elem_of_In in Hin. rewrite Hiter in Hin. apply elem_of_map_to_list in Hk.
    destruct q as [k' v']. cbn [fst snd] in *.
    pose proof (NoDup_map_inj (fun p : string * string => CanonicalHeaderKey p.1) _ _ _ Hd Hin Hk Heq) as [= _ ->]. done.
  - apply elem_of_map_to_list in Hk. rewrite <- Hiter in Hk. apply list_elem_of_In in Hk.
    pose proof (List.find_none _ _ E _ Hk) as Hf. cbn in Hf. by rewrite String.eqb_refl in Hf.
Qed.

Lemma api_request_ok parse_error r req :
  validMethod (dr_Method req) = true -> HasPrefix (dr_Path req) "/" = true -> HasPrefix (dr_Path req) "//" = false ->
  exists s, api_request iter parse_error r req = Ok s /\ r_Method s = dr_Method req /\ r_Host s = dr_Host req
  /\ r_URL s = Some (MkURL EmptyString EmptyString (dr_Path req) EmptyString) /\ r_Frames s = r_Frames r
  /\ r_Header s = fold_left (fun h p => header_Set h p.1 p.2) (iter (dr_Headers req)) ∅.
Proof.
  intros Hm Hp Hp2. apply HasPrefix_iff in Hp as [t Hp]. rewrite append_cons, append_nil_l in Hp.
  assert (HasPrefix t "/" = false) as Ht.
  { destruct (HasPrefix t "/") eqn:E; [|done]. apply HasPrefix_iff in E as [u ->]. rewrite append_cons, append_nil_l in Hp.
    rewrite Hp in Hp2. change (HasPrefix ("//" +:+ u) "//" = false) in Hp2. by rewrite HasPrefix_append in Hp2. }
  unfold api_request, NewRequest. replace (String.eqb (dr_Method req) EmptyString) with false by (by destruct (dr_Method req)).
  rewrite Hm, Hp. cbn [negb String.eqb]. rewrite url_Parse_rooted by done. cbn [mbind outcome_bind].
  eexists. split; [reflexivity|]. done.
Qed.

(** The pipeline decides on the request the SDK described: for a body that decodes to a description with a method that is a token, a path with one
    leading slash and header names that differ up to case, the handler calls [Decide] once with exactly that method,
    path (through escaping and parsing), host, address, fingerprints, header order and headers, and answers
    its decision with an identifier and a time filled in. *)
Theorem api_decides_described i r data req h tok :
  Decode DecisionRequest_codec data = Some req -> r_Method r = "POST" -> dr_RemoteIP req <> EmptyString ->
  validMethod (dr_Method req) = true -> HasPrefix (dr_Path req) "/" = true -> HasPrefix (dr_Path req) "//" = false ->
  distinct_headers (dr_Headers req) -> api_has_valid_token i req (dh_Verifier h) = Ok tok ->
  exists s ctx,
    rq_Request ctx = Some s /\ r_Method s = dr_Method req /\ request_path ctx = dr_Path req /\ r_Host s = dr_Host req
    /\ (forall k v, dr_Headers req !! k = Some v -> header_Get (r_Header s) k = v)
    /\ rq_RemoteIP ctx = dr_RemoteIP req /\ rq_JA3 ctx = dr_JA3 req /\ rq_JA4 ctx = dr_JA4 req
    /\ rq_HeaderOrder ctx = dr_HeaderOrder req /\ rq_ClientHello ctx = []
    /\ (decide_ServeHTTP iter i r (Some data) h).1 =
       (d ← (Decide (ai_get i) (ai_now i) (ai_set i) ctx tok (dh_Pipeline h)).1; Ok (ApiDecision (stamp i d))).
Proof.
  intros Hdec Hr Hip Hm Hp Hp2 Hd Ht. destruct (api_request_ok (ai_parse_error i) r req Hm Hp Hp2) as (s & Hs & Es1 & Es2 & Es3 & _ & Es4).
  exists s, (api_context r s req). unfold decide_ServeHTTP. rewrite Hr, Hdec, Hs, Ht. cbn [String.eqb Ascii.eqb Bool.eqb andb negb].
  destruct (String.eqb_spec (dr_RemoteIP req) EmptyString); [done|]. split_and!; try done.
  - unfold request_path, api_context. cbn [rq_Request]. by rewrite Es3.
  - intros k v Hk. unfold header_Get, header_Values. by rewrite Es4, (set_headers_get _ _ _ Hd Hk).
  - destruct (Decide _ _ _ _ _ _) as [[d|e|] p]; done.
Qed.
End faithful.

(** ** Tokens through the SDKs

    Both SDKs send header names in lower case, while the handler looks for the key [User-Agent]. *)
Section tokens.
Context `{JWTLaws}.

Lemma runes_cons b bs : Utf8.runes (b :: bs) <> [].
Proof. cbn [Utf8.runes]. repeat case_match; done. Qed.

Lemma EqualFold_empty ua : EqualFold ua EmptyString = true -> ua = EmptyString.
Proof.
  unfold EqualFold. intros Hb%bool_decide_eq_true. destruct ua as [|c ua]; [done|]. exfalso.
  change (string_bytes EmptyString) with (@nil byte) in Hb. cbn [Utf8.runes map] in Hb. apply map_eq_nil in Hb.
  by apply (runes_cons (byte_of_ascii c) (string_bytes ua)).
Qed.

(** A pass token bound to the user agent of a client that has one is never accepted by the decision endpoint when the
    description does not spell the header's name [User-Agent], as the Node and Python SDKs never do: the
    visitor who solved the challenge is challenged again on every request. *)
Theorem sdk_token_rejected i req key ttl bindTo now ctx s :
  Issue (NewIssuer key ttl bindTo) now ctx = Ok s -> context_utf8 ctx = true ->
  "ua" ∈ bindTo -> ic_UA ctx <> EmptyString -> dr_Token req = s -> dr_Headers req !! "User-Agent" = None ->
  api_has_valid_token i req (Some (NewVerifier key bindTo)) = Ok false.
Proof.
  intros Hs Hu Hb Hne Ht Hh. unfold api_has_valid_token. rewrite Ht, Hh. cbn [default from_option].
  destruct (String.eqb s EmptyString); [done|]. pose proof (Verify_no_panic (NewVerifier key bindTo) (ai_verify i) s
    (MkVerifyContext (dr_RemoteIP req) EmptyString (dr_JA3 req) (dr_JA4 req))) as Hnp.
  destruct (Verify _ _ _ _) as [claims|e|] eqn:Ev; [|done|done]. exfalso.
  apply (Verify_claims key ttl bindTo now ctx) in Ev as (_ & Hc & _); [|done..].
  rewrite Forall_forall in Hc. destruct (Hc "ua" Hb) as (_ & Hua & _). apply Hne, EqualFold_empty. exact (Hua eq_refl).
Qed.
End tokens.

(** ** Examples *)
#[local] Existing Instance toy_jwt.
#[local] Existing Instance toy_jwt_laws.

(** What the Node SDK sends for a browser's request with a pass token. *)
Definition node_example (token : string) : DecisionRequest :=
  MkDecisionRequest "GET" "/shop/a b?q" "shop.example" "203.0.113.7"
    {["user-agent" := "Mozilla/5.0"; "accept" := "text/html"]} ["User-Agent"; "Accept"] "" "" token.

Definition sample_api : ApiIngress := MkApiIngress "id-1" (1001 * Second) 0 1 2 3 (fun _ => "parse error") (fun _ => "json error").

(** Its text on the wire. *)
Definition node_text (token : string) : list byte := default [] (Encode DecisionRequest_codec (node_example token)).

Lemma sdk_token_rejected_witness :
  exists s, Issue (NewIssuer [byte_of_Z 1] (3600 * Second) ["ip"; "ua"]) (1000 * Second) sample_ctx = Ok s
  /\ api_has_valid_token sample_api (node_example s) (Some (NewVerifier [byte_of_Z 1] ["ip"; "ua"])) = Ok false.
Proof.
  eexists. split; [reflexivity|].
  eapply (sdk_token_rejected sample_api _ [byte_of_Z 1] (3600 * Second) ["ip"; "ua"] (1000 * Second) sample_ctx);
    [reflexivity|vm_compute; reflexivity|by apply list_elem_of_further, list_elem_of_here|done|reflexivity|reflexivity].
Defined.

#[local] Instance api_cache : CacheIf := memory_cache (H := list_lru (V := entry)).
#[local] Existing Instance toy_cel.

Lemma api_decides_described_witness :
  exists d, (decide_ServeHTTP map_to_list sample_api (MkRequest "POST" None 1 1 ∅ "" "" []) (Some (node_text ""))
     (MkDecideHandler (sample_pipeline None) None)).1 = Ok (ApiDecision d) /\ d_RequestID d = "id-1".
Proof.
  destruct (api_decides_described map_to_list (fun m => reflexivity _) sample_api (MkRequest "POST" None 1 1 ∅ "" "" [])
    (node_text "") (node_example "") (MkDecideHandler (sample_pipeline None) None) false) as (s & ctx & Hr & Hm & Hp & _ & _ & _ & _ & _ & _ & _ & Hd);
    [vm_compute; reflexivity|reflexivity|done|reflexivity|reflexivity|reflexivity| |reflexivity|].
  - refine (bool_decide_unpack _ _). vm_compute. exact I.
  - rewrite Hd. unfold Decide. cbn [cache_lookup p_cache dh_Pipeline sample_pipeline New pcf_Cache].
    unfold collectParallel. cbn. eexists. split; reflexivity.
Defined.
