(* ===== verification/Wire.v ===== *)
(** * The daemon's wiring ([cmd/antiscrapling]: wire.go, main.go)

    Configuration, construction of the dependencies, the handlers of the main and the admin listener
    and their multiplexers. *)

From S2P Require Import Prelude GoStrings GoStd GoUrl Types GoHttp Policy Token Cache JsonText Json Codec Bodies Ip Pipeline Challenge.
From S2P Require Import Headers Observability Metrics Proxy Server TlsFingerprint Http2 Api.
#[local] Open Scope Z_scope.

(** ** Configuration *)
Record appConfig := MkAppConfig {
  ac_Policy : PolicyConfig; ac_PolicyPath : string; ac_Bind : string; ac_Target : string; ac_KeyFile : string
}.

(** [os.Getenv] of a variable, or the configured value when it is unset or empty. *)
Definition env_or (env : gmap string string) (name configured : string) : string :=
  match env !! name with
  | Some v => if String.eqb v EmptyString then configured else v
  | None => configured
  end.

Definition loadConfig `{CEL} (yaml_Unmarshal : list byte -> outcome PolicyConfig) (env : gmap string string)
    (configPath : string) (file : outcome (list byte)) : outcome appConfig :=
  pol ← wrap_err "config" (Load yaml_Unmarshal configPath file);
  let bind := env_or env "AS_BIND" (lc_Bind (pc_Listener pol)) in
  let target := env_or env "AS_TARGET" (lc_Target (pc_Listener pol)) in
  let keyFile := env_or env "AS_TOKEN_SECRET_FILE" (tc_SecretFile (pc_Token pol)) in
  let keyFile := if String.eqb keyFile EmptyString then "/tmp/anti-scrapling-token.key" else keyFile in
  Ok (MkAppConfig pol configPath bind target keyFile).

(** The TLS settings of the main listener. *)
Definition buildServerTLSConfig {certificate} (tlsCfg : option TLSConfig) : option (server_TLSConfig (certificate := certificate)) :=
  match tlsCfg with
  | None => None
  | Some c => Some (MkServerTLS (tlsc_Cert c) (tlsc_Key c) [] None)
  end.

(** ** The request context *)

(** [capture] is the raw ClientHello of the connection, if one was captured. *)
Definition buildRequestContext (r : Request) (capture : option (list byte)) : RequestContext :=
  MkRequestContext (Some (r_Frames r)) (Some r) (host_of (r_RemoteAddr r)) (default [] capture)
    EmptyString EmptyString (r_Header r) [].

(** [url.QueryEscape] *)
Definition query_unreserved (c : ascii) : bool := is_alnum c || existsb (Ascii.eqb c) ["-"; "_"; "."; "~"]%char.

Fixpoint QueryEscape (s : string) : string :=
  match s with
  | EmptyString => EmptyString
  | String c s =>
      if query_unreserved c then String c (QueryEscape s)
      else if Ascii.eqb c " " then String "+" (QueryEscape s)
      else String "%" (String (upper_hex (acode c / 16)) (String (upper_hex (acode c mod 16)) (QueryEscape s)))
  end.

(** What a handler takes from [net/http], the clock and the UUID library: the request target, the URL's escaped
    path, the URL as text and as a request URI, whether it came over TLS, the identifier, the times it
    reads and the latency it measures. *)
Record Ingress := MkIngress {
  in_target : string; in_escaped : string; in_url : string; in_request_uri : string; in_tls : bool; in_uuid : string;
  in_verify : Z; in_get : Z; in_now : Z; in_set : Z; in_audit : Z; in_latency : Z
}.

Inductive response :=
| Forwarded (cookie : option Cookie) (out : Request)   (** handed to the transport *)
| Failed (code : Z) (msg : string)
| Redirected (code : Z) (target : string).

Section daemon.
Context `{CEL} `{CacheIf} `{JWT} `{LRU Z} `{Prom}.

(** [deps]; the cache and the evaluator are the pipeline's. *)
Record deps := MkDeps {
  dp_cfg : appConfig; dp_metrics : Metrics; dp_ready : bool; dp_audit : Audit; dp_tokenIssuer : Issuer;
  dp_tokenVerifier : Verifier; dp_pl : Pipeline; dp_challengeSvc : Service; dp_rev : option Proxy
}.

Definition set_metrics (m : Metrics) (d : deps) : deps :=
  MkDeps (dp_cfg d) m (dp_ready d) (dp_audit d) (dp_tokenIssuer d) (dp_tokenVerifier d) (dp_pl d) (dp_challengeSvc d) (dp_rev d).
Definition set_audit (a : Audit) (d : deps) : deps :=
  MkDeps (dp_cfg d) (dp_metrics d) (dp_ready d) a (dp_tokenIssuer d) (dp_tokenVerifier d) (dp_pl d) (dp_challengeSvc d) (dp_rev d).
Definition set_pl (p : Pipeline) (d : deps) : deps :=
  MkDeps (dp_cfg d) (dp_metrics d) (dp_ready d) (dp_audit d) (dp_tokenIssuer d) (dp_tokenVerifier d) p (dp_challengeSvc d) (dp_rev d).
Definition set_svc (s : Service) (d : deps) : deps :=
  MkDeps (dp_cfg d) (dp_metrics d) (dp_ready d) (dp_audit d) (dp_tokenIssuer d) (dp_tokenVerifier d) (dp_pl d) s (dp_rev d).
Definition SetReady (ready : bool) (d : deps) : deps :=
  MkDeps (dp_cfg d) (dp_metrics d) ready (dp_audit d) (dp_tokenIssuer d) (dp_tokenVerifier d) (dp_pl d) (dp_challengeSvc d) (dp_rev d).

(** ** A handler's effects: it changes the dependencies and returns a value or panics *)
Definition W (A : Type) : Type := deps -> outcome A * deps.
#[local] Instance W_ret : MRet W := fun A a d => (Ok a, d).
#[local] Instance W_bind : MBind W := fun A B f m d =>
  match m d with
  | (Ok a, d) => f a d
  | (Err e, d) => (Err e, d)
  | (Panic, d) => (Panic, d)
  end.

(** An operation on one field. *)
Definition on {S A} (get : deps -> S) (put : S -> deps -> deps) (f : S -> outcome A * S) : W A := fun d =>
  let '(a, s) := f (get d) in (a, put s d).
Definition update {S} (get : deps -> S) (put : S -> deps -> deps) (f : S -> outcome S) : W unit := fun d =>
  match f (get d) with
  | Ok s => (Ok tt, put s d)
  | Err e => (Err e, d)
  | Panic => (Panic, d)
  end.
Definition ask {A} (f : deps -> outcome A) : W A := fun d => (f d, d).

Lemma W_bind_Ok {A B} (m : W A) (f : A -> W B) d a d' : m d = (Ok a, d') -> (m ≫= f) d = f a d'.
Proof. intros Hm. unfold mbind, W_bind. by rewrite Hm. Qed.

Lemma update_Ok {S} (get : deps -> S) put f d s : f (get d) = Ok s -> update get put f d = (Ok tt, put s d).
Proof. intros Hf. unfold update. by rewrite Hf. Qed.

(** The behaviour collector, the last of the five, reads the store the challenge service writes. *)
Definition shared_collectors (d : deps) : list collector :=
  match s_beacon (dp_challengeSvc d) with
  | Some store => take 4 (p_collectors (dp_pl d)) ++ [MkLive store_collector store]
  | None => p_collectors (dp_pl d)
  end.
Definition shared_pipeline (d : deps) : Pipeline :=
  MkPipeline (shared_collectors d) (p_evaluator (dp_pl d)) (p_cache (dp_pl d)) (p_cacheTTL (dp_pl d)) (p_policy (dp_pl d)).

Definition pl_Decide (t_get t_now t_set : Z) (req : RequestContext) (tok : bool) : W Decision :=
  on shared_pipeline set_pl (Decide t_get t_now t_set req tok).

(** ** The catch-all handler *)
Definition has_valid_token (i : Ingress) (r : Request) (req : RequestContext) : W bool :=
  let cookieVal := GetCookie r DefaultCookieName in
  if String.eqb cookieVal EmptyString then mret false
  else fun d =>
    match Verify (dp_tokenVerifier d) (in_verify i) cookieVal
            (MkVerifyContext (rq_RemoteIP req) (header_Get (r_Header r) "User-Agent") (rq_JA3 req) (rq_JA4 req)) with
    | Ok _ => (_ ← update dp_metrics set_metrics (RecordPassToken "verified"); mret true) d
    | Err _ => (_ ← update dp_metrics set_metrics (RecordPassToken "rejected"); mret false) d
    | Panic => (Panic, d)
    end.

Definition audit_entry (i : Ingress) (r : Request) (req : RequestContext) (dec : Decision) : AuditEntry :=
  let reqID := header_Get (r_Header r) "X-Request-ID" in
  MkAuditEntry (in_audit i) (if String.eqb reqID EmptyString then in_uuid i else reqID) (rq_RemoteIP req) (in_url i)
    (d_Verdict dec) (d_Score dec) (d_Signals dec) (d_Reasons dec).

Definition respond (i : Ingress) (r : Request) (dec : Decision) : W response :=
  match d_Verdict dec with
  | VerdictAllow => ask (fun d =>
      match dp_rev d with
      | Some p => '(cookie, out) ← Forward p (in_tls i) EmptyString r; Ok (Forwarded cookie out)
      | None => Ok (Failed 502 "no upstream configured")
      end)
  | VerdictChallenge =>
      _ ← update dp_metrics set_metrics (RecordChallenge "issued");
      mret (Redirected 302 ("/__as/challenge?origin=" +:+ QueryEscape (in_request_uri i)))
  | VerdictDeny => mret (Failed 403 "forbidden")
  end.

Definition handle (i : Ingress) (r : Request) (capture : option (list byte)) : W response :=
  let req := buildRequestContext r capture in
  tok ← has_valid_token i r req;
  dec ← pl_Decide (in_get i) (in_now i) (in_set i) req tok;
  _ ← update dp_metrics set_metrics (RecordDecision dec (in_latency i));
  _ ← update dp_audit set_audit (Record_ (audit_entry i r req dec));
  respond i r dec.

(** ** The main listener *)
Inductive main_route := RChallenge | RVerify | RBundle | RBeacon | RSW | RProxy.

Definition main_patterns : list (pattern main_route) := [
  MkPattern EmptyString ["__as"; "challenge"] RChallenge;
  MkPattern EmptyString ["__as"; "verify"] RVerify;
  MkPattern EmptyString ["__as"; "bundle.js"] RBundle;
  MkPattern EmptyString ["__as"; "beacon"] RBeacon;
  MkPattern EmptyString ["__as"; "sw.js"] RSW].

(** What can be read of the request's body, the embedded bundle, and the times of a beacon. *)
Record MainBody := MkMainBody {
  mb_body : list byte; mb_bundle : string; mb_t0 : Z; mb_t1 : Z; mb_t2 : Z
}.

Inductive answer :=
| Served (r : response)
| Replied (r : reply)
| Routed (a : route unit).

Definition request_query (r : Request) : string :=
  match r_URL r with Some u => url_RawQuery u | None => EmptyString end.

Definition on_service {A} (f : Service -> outcome A * Service) : W A := on dp_challengeSvc set_svc f.

Definition serve_main (i : Ingress) (r : Request) (capture : option (list byte)) (b : MainBody) : W answer :=
  match ServeMux main_patterns (Some RProxy) (r_Method r) (in_target i) (in_escaped i) (request_query r) with
  | Handled RChallenge => a ← on_service (HandleChallenge (in_now i) (in_uuid i) r); mret (Replied a)
  | Handled RVerify => a ← on_service (HandleVerify (in_now i) r (mb_body b)); mret (Replied a)
  | Handled RBundle => mret (Replied (HandleBundle (mb_bundle b)))
  | Handled RBeacon =>
      a ← on_service (fun s => let '(a, s) := HandleBeacon (mb_t0 b) (mb_t1 b) (mb_t2 b) r (mb_body b) s in (Ok a, s));
      mret (Replied a)
  | Handled RSW => mret (Replied HandleSW)
  | Handled RProxy => a ← handle i r capture; mret (Served a)
  | MovedPermanently t => mret (Routed (MovedPermanently t))
  | MethodNotAllowed ms => mret (Routed (MethodNotAllowed ms))
  | NotFound => mret (Routed NotFound)
  | BadRequest => mret (Routed BadRequest)
  end.

(** ** The admin listener *)
Inductive admin_route := AHealthz | AReadyz | AAudit | ADecide | APolicy.

Definition admin_patterns : list (pattern admin_route) := [
  MkPattern EmptyString ["healthz"] AHealthz;
  MkPattern EmptyString ["readyz"] AReadyz;
  MkPattern EmptyString ["admin"; "audit"] AAudit;
  MkPattern "POST" ["v1"; "decide"] ADecide;
  MkPattern "GET" ["v1"; "policy"] APolicy].

Inductive admin_answer :=
| AdminPage (page : Z * string)
| AdminAudit (entries : list AuditEntry)
| AdminDecide (r : api_reply)
| AdminError (code : Z) (msg : string)
| AdminPolicy (data : list byte)
| AdminRouted (a : route unit).

(** What the admin handlers take from outside: the request target and escaped path, the body, the policy
    file's content, the clock, time parsing and the order of map iteration. *)
Record AdminIngress := MkAdminIngress {
  ad_target : string; ad_escaped : string; ad_now : Z; ad_api : ApiIngress; ad_body : option (list byte);
  ad_policy : outcome (list byte); ad_time_Parse : string -> string -> option Z;
  ad_iter : gmap string string -> list (string * string)
}.

(** [DecideHandler] is built over the daemon's pipeline and verifier. *)
Definition admin_decide (i : AdminIngress) (r : Request) : W api_reply := fun d =>
  let '(a, h) := decide_ServeHTTP (ad_iter i) (ad_api i) r (ad_body i)
                   (MkDecideHandler (shared_pipeline d) (Some (dp_tokenVerifier d))) in
  (a, set_pl (dh_Pipeline h) d).

Definition policy_handler (i : AdminIngress) (d : deps) : outcome admin_answer :=
  if String.eqb (ac_PolicyPath (dp_cfg d)) EmptyString then Ok (AdminError 404 "policy path not configured")
  else
    match ad_policy i with
    | Ok data => Ok (AdminPolicy data)
    | Err e => Ok (AdminError 500 ("failed to read policy: " +:+ e))
    | Panic => Panic
    end.

Definition serve_admin (i : AdminIngress) (r : Request) : W admin_answer :=
  match ServeMux admin_patterns None (r_Method r) (ad_target i) (ad_escaped i) (request_query r) with
  | Handled AHealthz => mret (AdminPage LivezHandler)
  | Handled AReadyz => ask (fun d => Ok (AdminPage (ReadyzHandler (dp_ready d))))
  | Handled AAudit => ask (fun d =>
      entries ← HTTPHandler (ad_time_Parse i) (ad_now i) (request_query r) (dp_audit d); Ok (AdminAudit entries))
  | Handled ADecide => a ← admin_decide i r; mret (AdminDecide a)
  | Handled APolicy => ask (policy_handler i)
  | MovedPermanently t => mret (AdminRouted (MovedPermanently t))
  | MethodNotAllowed ms => mret (AdminRouted (MethodNotAllowed ms))
  | NotFound => mret (AdminRouted NotFound)
  | BadRequest => mret (AdminRouted BadRequest)
  end.

(** ** What the running process does: requests on the two listeners and, on shutdown, readiness and the cache *)
Inductive event :=
| EvMain (i : Ingress) (r : Request) (capture : option (list byte)) (b : MainBody)
| EvAdmin (i : AdminIngress) (r : Request)
| EvStarted
| EvShutdown.

Inductive outcome_of_event :=
| OutMain (a : answer)
| OutAdmin (a : admin_answer)
| OutNone.

Definition close_cache (d : deps) : deps :=
  set_pl (MkPipeline (p_collectors (dp_pl d)) (p_evaluator (dp_pl d)) ((fun c => (cache_Close c).2) <$> p_cache (dp_pl d))
            (p_cacheTTL (dp_pl d)) (p_policy (dp_pl d))) d.

Definition step (e : event) : W outcome_of_event :=
  match e with
  | EvMain i r capture b => a ← serve_main i r capture b; mret (OutMain a)
  | EvAdmin i r => a ← serve_admin i r; mret (OutAdmin a)
  | EvStarted => fun d => (Ok OutNone, SetReady true d)
  | EvShutdown => fun d => (Ok OutNone, close_cache (SetReady false d))
  end.

Fixpoint run (es : list event) (d : deps) : list (outcome outcome_of_event) * deps :=
  match es with
  | [] => ([], d)
  | e :: es =>
      let '(o, d) := step e d in
      let '(os, d) := run es d in (o :: os, d)
  end.
End daemon.

(** ** Building the dependencies *)
Section build.
Context `{CEL} `{RedisClient} `{LRU entry} `{JWT} `{LRU Z} `{LRU Ip.Entry} `{Prom}.
#[local] Existing Instance backend_cache | 0.

(** What construction takes from the system: the files with their failures, 32 random bytes, the ASN reader and the exit
    list, the order of map iteration, and the errors of [url.Parse] and [http2.ConfigureTransport]. *)
Record Host := MkHost {
  ho_files : gmap string (list byte); ho_read_err : option string; ho_random : outcome (list byte);
  ho_write_err : option string; ho_ip : ip_env; ho_iter : gmap string string -> list (string * string);
  ho_parse_error : string -> string; ho_h2_error : option string
}.

Definition Hour : Z := 3600 * Second.

Definition token_ttl (p : PolicyConfig) : Z :=
  if String.eqb (tc_TTL (pc_Token p)) EmptyString then 24 * Hour
  else match GoStd.ParseDuration (tc_TTL (pc_Token p)) with Ok t => t | _ => 24 * Hour end.

Definition deployed_collectors (h : Host) (store : BeaconStore) : list collector := [
  MkLive tls_collector tt;
  MkLive (headers_collector (ho_iter h)) NewHeadersCollector;
  MkLive (ip_Collector (ho_ip h)) (ip_New 65536);
  MkLive http2_collector (Some NewHttp2Collector);
  MkLive store_collector store].

Definition powDifficulty (p : PolicyConfig) : Z :=
  if cc_PowDifficulty (pc_Challenge p) <=? 0 then 4 else cc_PowDifficulty (pc_Challenge p).
Definition denyThreshold (p : PolicyConfig) : Z :=
  if sc_DenyThreshold (pc_Scoring p) <=? 0 then 80 else sc_DenyThreshold (pc_Scoring p).

Definition build_proxy (h : Host) (cfg : appConfig) : outcome (option Proxy) :=
  if String.eqb (ac_Target cfg) EmptyString then Ok None
  else
    p ← wrap_err "proxy" (proxy_New (ho_parse_error h) (ho_h2_error h) (ac_Target cfg));
    Ok (Some p).

Definition build_pipeline (h : Host) (p : PolicyConfig) (c : cache_state) (eval : Evaluator) : Pipeline :=
  let cacheTTL := wrap64 (cac_TTLSeconds (pc_Cache p) * Second) in
  Pipeline.New (MkPipelineConfig (deployed_collectors h NewBeaconStore) (Some eval) (Some c) cacheTTL (Some p)).

Definition buildDeps (h : Host) (cfg : appConfig) : outcome deps :=
  let p := ac_Policy cfg in
  metrics ← NewMetrics;
  tokenKey ← wrap_err "token key" (LoadKey (ho_files h) (ac_KeyFile cfg) (ho_read_err h) (ho_random h) (ho_write_err h)).1;
  let ttl := token_ttl p in
  let issuer := NewIssuer tokenKey ttl (tc_BindTo (pc_Token p)) in
  let verifier := NewVerifier tokenKey (tc_BindTo (pc_Token p)) in
  c ← wrap_err "cache" (Cache.New (Some (pc_Cache p)));
  eval ← wrap_err "policy evaluator" (NewEvaluator p);
  let pl := build_pipeline h p c eval in
  let svc := NewService (NewChallengeIssuer (powDifficulty p)) issuer (denyThreshold p) ttl (Some NewBeaconStore) in
  rev ← build_proxy h cfg;
  Ok (MkDeps cfg metrics NewHealth (NewAudit 0) issuer verifier pl svc rev).

(** ** main.go: start-up; what follows is the events [EvStarted] and [EvShutdown] and the requests in between *)
Inductive start_result := PrintedVersion (v : string) | Exited (code : Z) | Running (d : deps).

Definition main_start (version : string) (yaml_Unmarshal : list byte -> outcome PolicyConfig) (env : gmap string string)
    (showVer : bool) (configPath : string) (file : outcome (list byte)) (h : Host) : outcome start_result :=
  if showVer then Ok (PrintedVersion version)
  else
    match loadConfig yaml_Unmarshal env configPath file with
    | Err _ => Ok (Exited 1)
    | Panic => Panic
    | Ok cfg =>
        match buildDeps h cfg with
        | Err _ => Ok (Exited 1)
        | Panic => Panic
        | Ok d => Ok (Running d)
        end
    end.

Lemma buildDeps_spec h cfg d :
  buildDeps h cfg = Ok d ->
  let p := ac_Policy cfg in
  exists m key c eval rev, NewMetrics = Ok m
  /\ (LoadKey (ho_files h) (ac_KeyFile cfg) (ho_read_err h) (ho_random h) (ho_write_err h)).1 = Ok key
  /\ Cache.New (Some (pc_Cache p)) = Ok c /\ NewEvaluator p = Ok eval /\ build_proxy h cfg = Ok rev
  /\ d = MkDeps cfg m false (NewAudit 0) (NewIssuer key (token_ttl p) (tc_BindTo (pc_Token p)))
           (NewVerifier key (tc_BindTo (pc_Token p))) (build_pipeline h p c eval)
           (NewService (NewChallengeIssuer (powDifficulty p)) (NewIssuer key (token_ttl p) (tc_BindTo (pc_Token p)))
              (denyThreshold p) (token_ttl p) (Some NewBeaconStore)) rev.
Proof.
  unfold buildDeps. intros Hb. cbn zeta in *.
  apply bind_ok in Hb as (m & Hm & Hb). apply bind_ok in Hb as (key & Hk%wrap_err_ok & Hb).
  apply bind_ok in Hb as (c & Hc%wrap_err_ok & Hb). apply bind_ok in Hb as (eval & He%wrap_err_ok & Hb).
  apply bind_ok in Hb as (rev & Hr & Hb). injection Hb as <-. by exists m, key, c, eval, rev.
Qed.
End build.

(** ** Start-up does not crash *)
Section startup.
Context `{CELTotal} `{RedisClient} `{LRU entry} `{JWT} `{LRU Z} `{LRU Ip.Entry} `{PromLaws}.
#[local] Existing Instance backend_cache | 0.

(** What the system and the libraries give fails with errors, not panics. *)
Definition host_ok (h : Host) : Prop := no_panic (ho_random h) /\ forall url, no_panic (redis_ParseURL url).

Lemma buildDeps_no_panic h cfg : host_ok h -> no_panic (buildDeps h cfg).
Proof.
  intros [Hr Hredis]. destruct NewMetrics_shows as (m & Hm & _). unfold buildDeps. rewrite Hm. cbn [mbind outcome_bind].
  apply no_panic_bind; [apply no_panic_wrap; unfold LoadKey; repeat case_match; cbn; try done; by subst|]. intros key _. cbv zeta.
  apply no_panic_bind; [apply no_panic_wrap; unfold Cache.New, redisURL, NewRedis; repeat (case_match; np); auto|]. intros c _.
  apply no_panic_bind; [apply no_panic_wrap, NewEvaluator_no_panic|]. intros eval _.
  apply no_panic_bind; [|by intros]. unfold build_proxy, proxy_New. repeat (case_match; np).
Qed.

(** Start-up ends in one of three ways, whatever the policy file, the key file and the environment hold: the version is
    printed, the process exits with status 1, or it runs with the dependencies built from a policy that was read, parsed
    and validated. *)
Theorem startup_outcomes version yaml_Unmarshal env showVer configPath file h :
  (forall data, no_panic (yaml_Unmarshal data)) -> no_panic file -> host_ok h ->
  main_start version yaml_Unmarshal env showVer configPath file h = Ok (PrintedVersion version)
  \/ main_start version yaml_Unmarshal env showVer configPath file h = Ok (Exited 1)
  \/ exists cfg d, loadConfig yaml_Unmarshal env configPath file = Ok cfg /\ validateConfig (ac_Policy cfg) = Ok tt
     /\ buildDeps h cfg = Ok d /\ main_start version yaml_Unmarshal env showVer configPath file h = Ok (Running d).
Proof.
  intros Hy Hf Hh. unfold main_start. destruct showVer; [by left|right].
  pose proof (Load_no_panic yaml_Unmarshal configPath file Hy Hf) as Hl.
  destruct (loadConfig yaml_Unmarshal env configPath file) as [cfg|e|] eqn:E; [|by left|].
  2:{ exfalso. revert E. unfold loadConfig. apply no_panic_bind; [by apply no_panic_wrap|by intros]. }
  pose proof (buildDeps_no_panic h cfg Hh) as Hb. destruct (buildDeps h cfg) as [d|e|] eqn:Ed; [|by left|done].
  right. exists cfg, d. split_and!; try done. unfold loadConfig in E. inv_ok. unfold Load, parse in *. inv_ok. cbn [ac_Policy].
  match goal with H : validateConfig _ = Ok ?u |- _ => by destruct u end.
Qed.
End startup.

(** ** The challenge remembers where the visitor was going *)
Lemma unreserved_plain c : query_unreserved c = true -> Ascii.eqb c "%" = false /\ Ascii.eqb c "+" = false.
Proof. destruct c as [[] [] [] [] [] [] [] []]; cbn; (done || (by intros)). Qed.

Lemma QueryUnescape_QueryEscape s : QueryUnescape (QueryEscape s) = Some s.
Proof.
  induction s as [|c s IH]; [done|]. cbn [QueryEscape].
  destruct (query_unreserved c) eqn:Eu.
  { apply unreserved_plain in Eu as [Hp Hq]. cbn [QueryUnescape]. by rewrite Hp, Hq, IH. }
  destruct (Ascii.eqb_spec c " ") as [->|Hsp]; [cbn [QueryUnescape]; by rewrite IH|].
  destruct (code_nibbles c) as (Hh & Hl & Hv). cbn [QueryUnescape Ascii.eqb Bool.eqb andb].
  by rewrite !upper_hex_unhex, IH, Hv, acode_byte by done.
Qed.

Lemma upper_hex_no_byte c z : c ∈ ["&"; ";"; "="]%char -> 0 <= z < 16 -> Ascii.eqb c (upper_hex z) = false.
Proof.
  intros Hc Hz. assert (z ∈ seqZ 0 16) as Hin by (apply elem_of_seqZ; lia). vm_compute in Hin.
  rewrite !elem_of_cons, elem_of_nil in Hc.
  repeat (apply elem_of_cons in Hin as [->|Hin]; [destruct Hc as [->|[->|[->|[]]]]; reflexivity|]).
  by apply elem_of_nil in Hin.
Qed.

Lemma unreserved_no_byte c d : c ∈ ["&"; ";"; "="]%char -> query_unreserved d = true -> Ascii.eqb c d = false.
Proof.
  intros Hc Hd. destruct (Ascii.eqb_spec c d) as [<-|]; [|done]. rewrite !elem_of_cons, elem_of_nil in Hc.
  destruct Hc as [->|[->|[->|[]]]]; discriminate Hd.
Qed.

Lemma QueryEscape_no_byte c s : c ∈ ["&"; ";"; "="]%char -> no_byte c (QueryEscape s) = true.
Proof.
  intros Hc. induction s as [|d s IH]; [done|]. cbn [QueryEscape].
  destruct (query_unreserved d) eqn:Eu; [cbn [no_byte]; by rewrite (unreserved_no_byte c d), IH|].
  assert (Hpp : Ascii.eqb c "+" = false /\ Ascii.eqb c "%" = false).
  { rewrite !elem_of_cons, elem_of_nil in Hc. destruct Hc as [->|[->|[->|[]]]]; done. }
  destruct Hpp as [H1 H2]. destruct (Ascii.eqb d " "); cbn [no_byte]; [by rewrite H1, IH|].
  destruct (code_nibbles d) as (Hh & Hl & _). by rewrite H2, !upper_hex_no_byte, IH.
Qed.

Lemma query_Get_escaped uri : query_Get ("origin=" +:+ QueryEscape uri) "origin" = uri.
Proof.
  assert (Hb : forall c, c ∈ ["&"; ";"]%char -> no_byte c ("origin=" +:+ QueryEscape uri) = true).
  { intros c Hc. rewrite no_byte_append, QueryEscape_no_byte by set_solver.
    rewrite !elem_of_cons, elem_of_nil in Hc. destruct Hc as [->|[->|[]]]; done. }
  unfold query_Get, ParseQuery. rewrite Split_no_byte by (apply Is_true_eq_left, Hb; set_solver).
  cbn [omap list_omap]. unfold parse_pair at 1. unfold has_byte. rewrite Hb by set_solver.
  rewrite !append_cons, append_nil_l. cbn [String.eqb orb negb].
  cbn [Cut Ascii.eqb Bool.eqb andb]. change (QueryUnescape "origin") with (Some "origin").
  cbn [mbind option_bind]. by rewrite QueryUnescape_QueryEscape.
Qed.

Section origin.
Context `{CEL} `{CacheIf} `{JWT} `{LRU Z} `{PromLaws}.

(** A challenged visitor is sent to the challenge page with the URI they asked for: the redirect's
    query, read back by [HandleChallenge], yields exactly that URI (the root for an empty one) as the page's
    origin, whatever bytes the URI contains. *)
Theorem challenge_keeps_origin i r dec es d :
  d_Verdict dec = VerdictChallenge -> shows es (dp_metrics d) ->
  let query := "origin=" +:+ QueryEscape (in_request_uri i) in
  (exists d', respond i r dec d = (Ok (Redirected 302 ("/__as/challenge?" +:+ query)), d'))
  /\ forall now uuid r' u s, r_URL r' = Some u -> url_RawQuery u = query ->
       (HandleChallenge now uuid r' s).1 =
       Ok (ReplyPage 200 [("Content-Type", "text/html; charset=utf-8"); ("Cache-Control", "no-store")]
             (bytes_ReplaceAll ChallengeHTML metaPlaceholder
                (challenge_meta uuid (ci_powDifficulty (s_issuer s))
                   (if String.eqb (in_request_uri i) EmptyString then "/" else in_request_uri i)))).
Proof.
  intros Hd Hm. destruct (record_event_shows es (EvChallenge "issued") _ Hm eq_refl) as (m & Hr & _).
  split.
  - exists (set_metrics m d). unfold respond. rewrite Hd. erewrite W_bind_Ok by (apply update_Ok; exact Hr). reflexivity.
  - intros now uuid r' u s Hu Hq. unfold HandleChallenge, NewChallengeID. rewrite Hu, Hq, query_Get_escaped. done.
Qed.
End origin.

(** ** The challenge page's script *)
Definition script_path : string := "/__as/challenge.bundle.js".

(** The challenge page cannot load its script: the page asks for [/__as/challenge.bundle.js], which the main
    multiplexer hands to the catch-all handler, for every method and query; the bundle is served at
    [/__as/bundle.js] only. *)
Theorem challenge_script_unrouted :
  Contains ChallengeHTML (quoted ("src=`" +:+ script_path +:+ "`")) = true
  /\ (forall method query, ServeMux main_patterns (Some RProxy) method script_path script_path query = Handled RProxy)
  /\ (forall method query path, method <> "CONNECT" ->
       ServeMux main_patterns (Some RProxy) method path path query = Handled RBundle -> path_segments path = ["__as"; "bundle.js"]).
Proof.
  split; [vm_compute; reflexivity|]. split.
  - intros method query. unfold ServeMux. destruct (String.eqb method "CONNECT"); vm_compute; reflexivity.
  - intros method query path Hm. unfold ServeMux. destruct (String.eqb path "*"); [done|].
    destruct (String.eqb_spec method "CONNECT"); [done|].
    destruct (String.eqb_spec (cleanPath path) path) as [Hc|]; cbn [negb]; [rewrite Hc|done]. unfold mux_match.
    destruct (String.eqb _ _); [done|]. cbn [main_patterns List.find pat_path pat_method pat_handler].
    repeat (destruct (bool_decide _ && _) eqn:E; [apply andb_true_iff in E as [E%bool_decide_eq_true _]|clear E]; [done..|]); done.
Qed.

(** ** Header order in proxy mode *)

(** The proxy never records the order of a request's headers, so whatever the client sends the
    header collector reports [header_order_anomaly] and adds its 20 points to every proxied request. *)
Theorem proxied_requests_anomalous iter r capture past t :
  tracker_inv 100 headers_threshold past t ->
  exists sigs t', headers_Collect iter (buildRequestContext r capture) t = (Ok (sigs, None), t')
  /\ (exists s rest, sigs = s :: rest /\ sig_Name s = "header_order_anomaly" /\ sig_Score s = 20)
  /\ tracker_inv 100 headers_threshold (past ++ [(host_of (r_RemoteAddr r), header_Get (r_Header r) "Referer")]) t'.
Proof.
  intros Ht. unfold headers_Collect. cbn [rq_HeaderOrder rq_Request rq_RemoteIP buildRequestContext].
  assert (Ha : IsOrderAnomaly [] = Ok (true, "fewer than 8 headers and no browser canonical pattern matched"))
    by (vm_compute; reflexivity).
  rewrite Ha. destruct (Observe_spec _ _ _ _ (host_of (r_RemoteAddr r), header_Get (r_Header r) "Referer") Ht)
    as (t' & Ho & Ht'). cbn [fst snd] in Ho. rewrite Ho. eexists _, t'. split; [reflexivity|]. split; [|exact Ht'].
  eexists _, _. split; [reflexivity|]. split; reflexivity.
Qed.

(** ** Examples *)
Definition browser_request : Request :=
  MkRequest "GET" (Some (MkURL "" "" "/a" "")) 1 1
    (list_to_map [("User-Agent", ["Mozilla/5.0"]); ("Accept", ["text/html"])]) "example.org" "203.0.113.7:4000" [].

Lemma proxied_requests_anomalous_witness :
  exists sigs t', headers_Collect map_to_list (buildRequestContext browser_request None) NewHeadersCollector
    = (Ok (sigs, None), t') /\ "header_order_anomaly" ∈ map sig_Name sigs.
Proof.
  destruct (proxied_requests_anomalous map_to_list browser_request None [] NewHeadersCollector tracker_start)
    as (sigs & t' & H & (s & rest & -> & Hn & _) & _).
  exists (s :: rest), t'. split; [exact H|]. cbn. rewrite Hn. by left.
Defined.

#[local] Existing Instance toy_cel.
#[local] Existing Instance toy_jwt.
#[local] Existing Instance toy_prom.
#[local] Existing Instance toy_prom_laws.
#[local] Existing Instance list_lru.

(** A Redis client that cannot be reached. *)
#[local] Instance no_redis : RedisClient := {
  redis_client := unit;
  redis_ParseURL _ := Err "unreachable";
  redis_GET _ _ c := (RedisNil, c);
  redis_SET _ _ _ _ c := (None, c);
  redis_DEL _ c := (None, c);
  redis_CLOSE c := (None, c)
}.
#[local] Existing Instance backend_cache | 0.

Definition sample_host : Host :=
  MkHost ∅ None (Ok (replicate 32 (byte_of_Z 7))) None (MkIPEnv None ∅) map_to_list (fun _ => "parse error") None.

Definition sample_policy : PolicyConfig := {|
  pc_Version := 1;
  pc_Listener := MkListenerConfig ":8080" "http://localhost:3000" None;
  pc_Token := MkTokenConfig "" "24h" ["ip"; "ua"];
  pc_Policy := MkPolicySection "allow" [];
  pc_Scoring := MkScoringConfig ∅ 50 80;
  pc_Challenge := MkChallengeConfig 8 true;
  pc_Cache := MkCacheConfig "memory" None 60
|}.
Definition sample_app : appConfig := MkAppConfig sample_policy "policy.yaml" ":8080" "http://localhost:3000" "key".

Definition sample_ingress : Ingress := MkIngress "/a?b=1&c" "/a" "/a?b=1&c" "/a?b=1&c" true "u" 0 0 0 0 0 0.

Lemma challenge_keeps_origin_witness :
  exists d d', buildDeps sample_host sample_app = Ok d
    /\ respond sample_ingress browser_request (MkDecision VerdictChallenge 60 [] [] "" 0 "") d
       = (Ok (Redirected 302 "/__as/challenge?origin=%2Fa%3Fb%3D1%26c"), d').
Proof.
  assert (Hok : is_ok (buildDeps sample_host sample_app) = true) by (vm_compute; reflexivity).
  destruct (buildDeps sample_host sample_app) as [d|e|] eqn:Hb; [|discriminate Hok..].
  exists d. destruct (challenge_keeps_origin sample_ingress browser_request (MkDecision VerdictChallenge 60 [] [] "" 0 "") [] d)
    as [(d' & Hr) _]; [reflexivity| |].
  - apply buildDeps_spec in Hb as (m & key & c & eval & rev & Hm & _ & _ & _ & _ & ->).
    destruct NewMetrics_shows as (m' & Hm' & Hs). rewrite Hm in Hm'. injection Hm' as <-. exact Hs.
  - exists d'. split; [reflexivity|]. rewrite Hr. reflexivity.
Defined.

#[local] Existing Instance toy_cel_total.

Lemma startup_outcomes_witness :
  exists d, main_start "dev" (fun _ => Ok sample_policy) ∅ false "policy.yaml" (Ok []) sample_host = Ok (Running d).
Proof.
  destruct (startup_outcomes "dev" (fun _ => Ok sample_policy) ∅ false "policy.yaml" (Ok []) sample_host) as [Hx|[Hx|(cfg & d & _ & _ & _ & Hr)]].
  - intros. apply no_panic_ok.
  - apply no_panic_ok.
  - split; [apply no_panic_ok|intros; apply no_panic_err].
  - exfalso. assert (Hc : match main_start "dev" (fun _ => Ok sample_policy) ∅ false "policy.yaml" (Ok []) sample_host with Ok (Running _) => true | _ => false end = true)
      by (vm_compute; reflexivity). rewrite Hx in Hc. discriminate Hc.
  - exfalso. assert (Hc : match main_start "dev" (fun _ => Ok sample_policy) ∅ false "policy.yaml" (Ok []) sample_host with Ok (Running _) => true | _ => false end = true)
      by (vm_compute; reflexivity). rewrite Hx in Hc. discriminate Hc.
  - exists d. exact Hr.
Defined.
