(* ===== verification/Sdk.v ===== *)
(** * The SDKs ([sdk/node/src], [sdk/python/anti_scrapling])

    Middleware that describes each request to the daemon's decision endpoint and enforces the answer.  Texts of the two
    languages are given by their UTF-8; a header arrives as bytes, which both read as Latin-1.  What a call of the daemon
    comes to is an argument: a failure, or a status with the value its JSON body parses to, if it does. *)

From Stdlib Require Import SpecFloat.
From S2P Require Import Prelude GoStrings GoStd JsonText GoNumber GoUrl Types GoHttp Policy Token Cache Json Codec Bodies Pipeline Api.
#[local] Open Scope Z_scope.

(** ** What both languages do with text *)

(** [decode("latin-1")] *)
Definition latin1 (raw : list byte) : string := bytes_string (flat_map (fun b => Utf8.encode (byte_to_Z b)) raw).

(** [toLowerCase] and [lower] on Latin-1 text: the letters of ASCII and those of the upper half. *)
Definition lower1 (b : byte) : byte :=
  let z := byte_to_Z b in
  if ((65 <=? z) && (z <=? 90)) || ((192 <=? z) && (z <=? 222) && negb (z =? 215)) then byte_of_Z (z + 32) else b.

(** The value of a key; JSON objects keep the last of equal keys. *)
Definition member (k : string) (l : list (string * json)) : option json :=
  snd <$> List.find (fun p => String.eqb p.1 k) (reverse l).

(** A call of the daemon. *)
Inductive fetched := FetchFailed | Response (status : Z) (body : option json).

Definition is_success (status : Z) : bool := (200 <=? status) && (status <=? 299).

(** ** The Node client (client.ts) *)
Definition node_fallback (failOpen : bool) : json :=
  JObj [("verdict", JStr (if failOpen then "ALLOW" else "DENY")); ("score", JNum (if failOpen then "0" else "100"));
        ("signals", JArr []); ("reasons", JArr [JStr "daemon_unavailable"]); ("policy_name", JStr ""); ("timestamp", JNum "0");
        ("request_id", JStr "")].

(** [Client.decide]: a failed or aborted [fetch], a status that is not ok and a body that is not JSON all throw. *)
Definition node_decide (failOpen : bool) (res : fetched) : json :=
  match res with
  | Response status (Some j) => if is_success status then j else node_fallback failOpen
  | _ => node_fallback failOpen
  end.

(** A property of a value: [None] is a [TypeError], [Some None] is [undefined]. *)
Definition js_property (k : string) (j : json) : option (option json) :=
  match j with JNull => None | JObj l => Some (member k l) | _ => Some None end.

(** [Array.prototype.join], where [to_string] is the text of a value that is neither a string nor null. *)
Definition js_join (to_string : json -> string) (l : list json) : string :=
  Join (map (fun j => match j with JStr s => s | JNull => EmptyString | _ => to_string j end) l) ", ".

(** [decision.reasons.join(', ') || 'Denied'] *)
Definition deny_text (to_string : json -> string) (decision : json) : option string :=
  match js_property "reasons" decision with
  | Some (Some (JArr l)) => let s := js_join to_string l in Some (if String.eqb s EmptyString then "Denied" else s)
  | _ => None
  end.

(** ** What the Node middlewares send (express.ts, nestjs.ts) *)

(** [headers[name.toLowerCase()] = value]; assigning a string to [__proto__] does nothing. *)
Definition set_header (name value : list byte) (headers : gmap string string) : gmap string string :=
  let key := latin1 (map lower1 name) in
  if String.eqb key "__proto__" then headers else <[key := latin1 value]> headers.

(** The loop over [rawHeaders], which has names and values in turn. *)
Fixpoint raw_headers (raw : list (list byte)) (headers : gmap string string) (headerOrder : list string)
    : gmap string string * list string :=
  match raw with
  | [] => (headers, headerOrder)
  | [name] => (set_header name [] headers, headerOrder ++ [latin1 name])
  | name :: value :: raw => raw_headers raw (set_header name value headers) (headerOrder ++ [latin1 name])
  end.

(** The cookie's regular expression: at the start of the header, or after a semicolon and white space, [__as_pass=]; its
    group is what follows up to the next semicolon. *)
Definition js_space (b : byte) : bool :=
  let z := byte_to_Z b in ((9 <=? z) && (z <=? 13)) || (z =? 32) || (z =? 160).
Fixpoint skip_space (bs : list byte) : list byte :=
  match bs with b :: r => if js_space b then skip_space r else bs | [] => [] end.
Fixpoint until_semicolon (bs : list byte) : list byte :=
  match bs with b :: r => if bz 59 b then [] else b :: until_semicolon r | [] => [] end.
Definition pass_prefix : list byte := string_bytes "__as_pass=".
Fixpoint pass_after_semicolon (bs : list byte) : option (list byte) :=
  match bs with
  | [] => None
  | b :: r =>
      if bz 59 b then
        match strip_prefix pass_prefix (skip_space r) with
        | Some t => Some (until_semicolon t)
        | None => pass_after_semicolon r
        end
      else pass_after_semicolon r
  end.
Definition tokenMatch (cookieHeader : list byte) : option (list byte) :=
  match strip_prefix pass_prefix cookieHeader with
  | Some t => Some (until_semicolon t)
  | None => pass_after_semicolon cookieHeader
  end.

(** What the middleware reads of a request; [nr_cookie] is the joined cookie header. *)
Record NodeRequest := MkNodeRequest {
  nr_method : string; nr_path : string; nr_hostname : string; nr_remoteAddress : option string; nr_rawHeaders : list (list byte);
  nr_cookie : option (list byte); nr_originalUrl : string
}.

Definition node_description (r : NodeRequest) : DecisionRequest :=
  let '(headers, headerOrder) := raw_headers (nr_rawHeaders r) ∅ [] in
  MkDecisionRequest (nr_method r) (nr_path r) (nr_hostname r) (default EmptyString (nr_remoteAddress r)) headers headerOrder
    EmptyString EmptyString (latin1 (default [] (tokenMatch (default [] (nr_cookie r))))).

Definition text_member (p : string * string) : string * json := (p.1, JStr p.2).

(** The object given to [JSON.stringify], which leaves an undefined token out; [members] are the entries of the headers in
    the order the object has them. *)
Definition node_payload (members : list (string * string)) (d : DecisionRequest) : json :=
  JObj ([("method", JStr (dr_Method d)); ("path", JStr (dr_Path d)); ("host", JStr (dr_Host d)); ("remote_ip", JStr (dr_RemoteIP d));
         ("headers", JObj (map text_member members)); ("header_order", JArr (map JStr (dr_HeaderOrder d)))]
        ++ if String.eqb (dr_Token d) EmptyString then [] else [("token", JStr (dr_Token d))]).

(** [encodeURIComponent] *)
Definition uri_unreserved (c : ascii) : bool := is_alnum c || one_of "-_.!~*'()" c.
Fixpoint encodeURIComponent (s : string) : string :=
  match s with
  | EmptyString => EmptyString
  | String c s =>
      if uri_unreserved c then String c (encodeURIComponent s)
      else String "%" (String (upper_hex (acode c / 16)) (String (upper_hex (acode c mod 16)) (encodeURIComponent s)))
  end.

Definition node_target (challengeUrl : option string) (originalUrl : string) : string :=
  default ("/__as/challenge?origin=" +:+ encodeURIComponent originalUrl) challengeUrl.

(** What happens to a request: the application handles it, an error goes to the framework, or the middleware answers. *)
Inductive sdk_action := ToApp | ToErrorHandler | SdkRedirect (code : Z) (target : string) | SdkSend (code : Z) (body : string).

Definition is_text (s : string) (v : option json) : bool := match v with Some (JStr t) => String.eqb t s | _ => false end.

(** The [switch] of the Express middleware. *)
Definition express_act (to_string : json -> string) (target : string) (decision : json) : sdk_action :=
  match js_property "verdict" decision with
  | None => ToErrorHandler
  | Some v =>
      if is_text "ALLOW" v then ToApp
      else if is_text "CHALLENGE" v then SdkRedirect 302 target
      else if is_text "DENY" v then
        match deny_text to_string decision with Some s => SdkSend 403 s | None => ToErrorHandler end
      else ToApp
  end.

Definition antiScrapling (to_string : json -> string) (failOpen : option bool) (challengeUrl : option string) (r : NodeRequest)
    (res : fetched) : sdk_action :=
  express_act to_string (node_target challengeUrl (nr_originalUrl r)) (node_decide (default true failOpen) res).

(** *** The NestJS guard *)
Record NestRequest := MkNestRequest {
  ns_method : option string; ns_path : option string; ns_hostname : option string; ns_host : option string;
  ns_originalUrl : option string; ns_url : option string; ns_rawHeaders : option (list (list byte)); ns_remoteAddress : option string;
  ns_cookie : option (list byte)
}.

(** The defaults of what is missing. *)
Definition nest_request (r : NestRequest) : NodeRequest :=
  MkNodeRequest (default "GET" (ns_method r)) (default "/" (ns_path r)) (default (default EmptyString (ns_host r)) (ns_hostname r))
    (ns_remoteAddress r) (default [] (ns_rawHeaders r)) (ns_cookie r) (default (default "/" (ns_url r)) (ns_originalUrl r)).

(** [canActivate]: true lets the request through; [res.redirect] has code 302. *)
Definition canActivate (to_string : json -> string) (failOpen : option bool) (challengeUrl : option string) (r : NestRequest)
    (res : fetched) : sdk_action :=
  let decision := node_decide (default true failOpen) res in
  match js_property "verdict" decision with
  | None => ToErrorHandler
  | Some v =>
      if is_text "ALLOW" v then ToApp
      else if is_text "CHALLENGE" v then SdkRedirect 302 (node_target challengeUrl (nr_originalUrl (nest_request r)))
      else if is_text "DENY" v then
        match deny_text to_string decision with Some s => SdkSend 403 s | None => ToErrorHandler end
      else ToApp
  end.

(** ** The Python client (client.py) *)

(** [bool(v)]: a number is false when it is read as zero. *)
Definition py_truthy (j : json) : bool :=
  match j with
  | JNull => false
  | JBool b => b
  | JNum lit => match ParseFloat lit with Some (S754_zero _) => false | _ => true end
  | JStr s => negb (String.eqb s EmptyString)
  | JArr l => match l with [] => false | _ => true end
  | JObj l => match l with [] => false | _ => true end
  end.
Definition py_or (v : option json) (other : json) : json := match v with Some j => if py_truthy j then j else other | None => other end.

Record PySignal := MkPySignal { ps_name : json; ps_score : json; ps_reason : json; ps_detail : json }.
Record PyDecision := MkPyDecision {
  pd_verdict : Verdict; pd_score : json; pd_signals : list PySignal; pd_reasons : json; pd_policy_name : json; pd_timestamp : json;
  pd_request_id : json
}.

(** An exception is [None]. *)
Definition py_signal (j : json) : option PySignal :=
  match j with
  | JObj l => Some (MkPySignal (default (JStr "") (member "name" l)) (default (JNum "0") (member "score" l))
                      (default (JStr "") (member "reason" l)) (py_or (member "detail" l) (JObj [])))
  | _ => None
  end.

(** The loop over [data.get("signals") or []]: a text or an object is a sequence of texts, a number or true is no
    sequence. *)
Definition py_signals (j : json) : option (list PySignal) := match j with JArr l => mapM py_signal l | _ => None end.

(** [Verdict(...)] *)
Definition py_verdict (j : json) : option Verdict := match j with JStr s => verdict_of_text s | _ => None end.

Definition py_parse (data : json) : option PyDecision :=
  match data with
  | JObj l =>
      signals ← py_signals (py_or (member "signals" l) (JArr []));
      verdict ← py_verdict (default (JStr "ALLOW") (member "verdict" l));
      Some (MkPyDecision verdict (default (JNum "0") (member "score" l)) signals (py_or (member "reasons" l) (JArr []))
              (default (JStr "") (member "policy_name" l)) (default (JNum "0") (member "timestamp" l))
              (default (JStr "") (member "request_id" l)))
  | _ => None
  end.

Definition py_fallback (fail_open : bool) : PyDecision :=
  MkPyDecision (if fail_open then VerdictAllow else VerdictDeny) (JNum "0") [] (JArr []) (JStr "") (JNum "0") (JStr "").

(** [decide] and [decide_async]: every exception gives the fallback. *)
Definition py_decide (fail_open : bool) (res : fetched) : PyDecision :=
  match res with
  | Response status body =>
      if is_success status then default (py_fallback fail_open) (j ← body; py_parse j) else py_fallback fail_open
  | FetchFailed => py_fallback fail_open
  end.

Definition py_payload (members : list (string * string)) (d : DecisionRequest) : json :=
  JObj [("method", JStr (dr_Method d)); ("path", JStr (dr_Path d)); ("host", JStr (dr_Host d)); ("remote_ip", JStr (dr_RemoteIP d));
        ("headers", JObj (map text_member members)); ("header_order", JArr (map JStr (dr_HeaderOrder d)));
        ("ja3", JStr (dr_JA3 d)); ("ja4", JStr (dr_JA4 d)); ("token", JStr (dr_Token d))].

(** *** The ASGI middleware (asgi.py) *)
Record Scope := MkScope {
  sc_type : string; sc_method : option string; sc_path : option string; sc_query_string : list byte;
  sc_headers : list (list byte * list byte); sc_client : option string
}.

(** The first of equal names counts. *)
Fixpoint scope_headers (raw : list (list byte * list byte)) (headers : gmap string string) (header_order : list string)
    : gmap string string * list string :=
  match raw with
  | [] => (headers, header_order)
  | (raw_name, raw_value) :: raw =>
      let name := latin1 (map lower1 raw_name) in
      if bool_decide (is_Some (headers !! name)) then scope_headers raw headers header_order
      else scope_headers raw (<[name := latin1 raw_value]> headers) (header_order ++ [name])
  end.

Definition build_request (scope : Scope) : DecisionRequest :=
  let '(headers, header_order) := scope_headers (sc_headers scope) ∅ [] in
  let path := default "/" (sc_path scope) in
  let qs := sc_query_string scope in
  MkDecisionRequest (default "GET" (sc_method scope)) (match qs with [] => path | _ => path +:+ "?" +:+ latin1 qs end)
    (default EmptyString (headers !! "host")) (default EmptyString (sc_client scope)) headers header_order
    EmptyString EmptyString EmptyString.

Definition asgi_call (fail_open : bool) (challenge_url : string) (scope : Scope) (res : fetched) : sdk_action :=
  if negb (String.eqb (sc_type scope) "http") then ToApp
  else
    match pd_verdict (py_decide fail_open res) with
    | VerdictAllow => ToApp
    | VerdictChallenge => SdkRedirect 302 challenge_url
    | VerdictDeny => SdkSend 403 "Forbidden"
    end.

(** *** The Flask decorator (wsgi.py)

    [fr_headers] are Flask's header names and values as text; [abort(403)] answers with the framework's page. *)
Record FlaskRequest := MkFlaskRequest {
  fr_method : string; fr_full_path : string; fr_host : string; fr_remote_addr : option string; fr_headers : list (list byte * list byte)
}.

(** [rstrip("?")] *)
Fixpoint rstrip_query (s : string) : string :=
  match s with
  | EmptyString => EmptyString
  | String c s =>
      match rstrip_query s with
      | EmptyString => if Ascii.eqb c "?" then EmptyString else String c EmptyString
      | t => String c t
      end
  end.

Definition flask_description (r : FlaskRequest) : DecisionRequest :=
  MkDecisionRequest (fr_method r) (rstrip_query (fr_full_path r)) (fr_host r) (default EmptyString (fr_remote_addr r))
    (fold_left (fun h p => <[latin1 (map lower1 p.1) := latin1 p.2]> h) (fr_headers r) ∅)
    (map (fun p => latin1 (map lower1 p.1)) (fr_headers r)) EmptyString EmptyString EmptyString.

Definition flask_wrapper (forbidden_page : string) (fail_open : bool) (challenge_url : string) (res : fetched) : sdk_action :=
  match pd_verdict (py_decide fail_open res) with
  | VerdictAllow => ToApp
  | VerdictChallenge => SdkRedirect 302 challenge_url
  | VerdictDeny => SdkSend 403 forbidden_page
  end.

(** ** When a request reaches the application *)










(** ** What the daemon reads *)
Lemma members_map (members : list (string * string)) h :
  members ≡ₚ map_to_list h -> into_map string_codec ∅ (JObj (map text_member members)) = Some h.
Proof.
  intros Hp. cbn [into_map]. assert (Hm : mapM (into_member string_codec) (map text_member members) = Some members).
  { clear Hp. induction members as [|[k v] l IH]; [done|]. cbn. by rewrite IH. }
  rewrite Hm. cbn [mbind option_bind]. f_equal. rewrite (right_id_L ∅ (∪)).
  rewrite <- (list_to_map_to_list h). apply list_to_map_proper; [|by rewrite reverse_Permutation].
  rewrite reverse_Permutation, Hp. apply NoDup_fst_map_to_list.
Qed.

Lemma order_slice (l : list string) : into_slice string_codec [] (JArr (map JStr l)) = Some l.
Proof. cbn. induction l as [|s l IH]; [done|]. cbn. by rewrite IH. Qed.

Lemma node_payload_decodes members d body :
  json_first body = Some (node_payload members d) -> members ≡ₚ map_to_list (dr_Headers d) ->
  dr_JA3 d = EmptyString -> dr_JA4 d = EmptyString -> Decode DecisionRequest_codec body = Some d.
Proof.
  intros Hb Hm H3 H4. unfold Decode. rewrite Hb. cbn [mbind option_bind]. unfold node_payload.
  pose proof (members_map _ _ Hm) as Hmap. pose proof (order_slice (dr_HeaderOrder d)) as Ho.
  destruct d as [me pa ho ip he or j3 j4 to]. cbn [dr_Method dr_Path dr_Host dr_RemoteIP dr_Headers dr_HeaderOrder dr_Token dr_JA3 dr_JA4] in *. subst.
  destruct (String.eqb_spec to EmptyString) as [->|Hto]; cbn -[into_map into_slice]; rewrite Hmap; cbn -[into_slice]; by rewrite Ho.
Qed.

Lemma py_payload_decodes members d body :
  json_first body = Some (py_payload members d) -> members ≡ₚ map_to_list (dr_Headers d) -> Decode DecisionRequest_codec body = Some d.
Proof.
  intros Hb Hm. unfold Decode. rewrite Hb. cbn [mbind option_bind]. unfold py_payload.
  pose proof (members_map _ _ Hm) as Hmap. pose proof (order_slice (dr_HeaderOrder d)) as Ho.
  destruct d as [me pa ho ip he or j3 j4 to]. cbn [dr_Method dr_Path dr_Host dr_RemoteIP dr_Headers dr_HeaderOrder dr_Token dr_JA3 dr_JA4] in *.
  cbn -[into_map into_slice]. rewrite Hmap. cbn -[into_slice]. by rewrite Ho.
Qed.

(** *** Lower-case names are not spellings of one another *)
Fixpoint lower_string (s : string) : string := match s with EmptyString => EmptyString | String c s => String (lower_ascii c) (lower_string s) end.

Lemma lower_upper c : lower_ascii (upper_ascii c) = lower_ascii c /\ lower_ascii (lower_ascii c) = lower_ascii c.
Proof. destruct c as [[] [] [] [] [] [] [] []]; by vm_compute. Qed.

Lemma lower_canon s : lower_string (CanonicalHeaderKey s) = lower_string s.
Proof.
  unfold CanonicalHeaderKey. destruct (all_token s); [|done]. generalize true as up. induction s as [|c s IH]; intros up; [done|].
  cbn [canon_key lower_string]. rewrite IH. f_equal. destruct up; apply lower_upper.
Qed.

Lemma lower_app a b : lower_string (a +:+ b) = lower_string a +:+ lower_string b.
Proof. induction a as [|c a IH]; [done|]. rewrite append_cons. cbn [lower_string]. by rewrite IH, append_cons. Qed.

Lemma bytes_string_app a b : bytes_string (a ++ b) = bytes_string a +:+ bytes_string b.
Proof. apply string_bytes_inj. by rewrite string_bytes_append, !string_bytes_string. Qed.

Lemma lower_name name : lower_string (latin1 (map lower1 name)) = latin1 (map lower1 name).
Proof.
  unfold latin1. induction name as [|b name IH]; [done|]. cbn [map flat_map]. rewrite bytes_string_app, lower_app, IH. f_equal.
  destruct b; by vm_compute.
Qed.

Definition lower_keys (h : gmap string string) : Prop := map_Forall (fun k _ => lower_string k = k) h.

Lemma lower_keys_distinct h : lower_keys h -> distinct_headers h.
Proof.
  intros Hl. unfold distinct_headers. assert (Hnd := NoDup_fst_map_to_list h).
  assert (Hk : Forall (fun p => lower_string p.1 = p.1) (map_to_list h)).
  { apply Forall_forall. intros [k v] Hkv%elem_of_map_to_list. by apply (Hl k v). }
  clear Hl. induction Hk as [|p l Hp Hall IH]; cbn in *; [constructor|]. apply NoDup_cons in Hnd as [Hnot Hnd]. constructor; [|by apply IH].
  intros (q & Hq & Hin)%list_elem_of_fmap. apply Hnot, list_elem_of_fmap. exists q. split; [|done].
  rewrite <- Hp, <- (proj1 (Forall_forall _ _) Hall q Hin), <- (lower_canon p.1), <- (lower_canon q.1). by rewrite Hq.
Qed.

Lemma raw_headers_lower n : forall raw h o, (length raw <= n)%nat -> lower_keys h -> lower_keys (raw_headers raw h o).1.
Proof.
  assert (Hset : forall name v h, lower_keys h -> lower_keys (set_header name v h)).
  { intros name v h Hh. unfold set_header. case_match; [done|]. apply map_Forall_insert_2; [apply lower_name|done]. }
  induction n as [|n IH]; intros [|name [|v raw]] h o Hn Hh; cbn in *; try done; try lia; [by apply Hset|].
  apply IH; [lia|by apply Hset].
Qed.

Lemma scope_headers_lower raw : forall h o, lower_keys h -> lower_keys (scope_headers raw h o).1.
Proof.
  induction raw as [|[name v] raw IH]; intros h o Hh; [done|]. cbn [scope_headers]. case_bool_decide; apply IH; [done|].
  apply map_Forall_insert_2; [apply lower_name|done].
Qed.

(** ** What the Node middlewares read of a request *)

(** [rawHeaders] of a list of headers. *)
Definition raw_of (headers : list (list byte * list byte)) : list (list byte) := flat_map (fun p => [p.1; p.2]) headers.

Lemma raw_headers_pairs headers : forall h o,
  raw_headers (raw_of headers) h o
  = (fold_left (fun h p => set_header p.1 p.2 h) headers h, o ++ map (fun p => latin1 p.1) headers).
Proof.
  induction headers as [|[n v] l IH]; intros h o; [by rewrite app_nil_r|].
  change (raw_of ((n, v) :: l)) with (n :: v :: raw_of l). cbn [raw_headers fold_left map fst snd]. by rewrite IH, <- app_assoc.
Qed.

Lemma set_header_other name value h k : k <> latin1 (map lower1 name) -> set_header name value h !! k = h !! k.
Proof. intros Hk. unfold set_header. case_match; [done|]. by apply lookup_insert_ne. Qed.

(** The last header of a name counts. *)
Lemma last_header pre name value post h : latin1 (map lower1 name) <> "__proto__" ->
  Forall (fun p => latin1 (map lower1 p.1) <> latin1 (map lower1 name)) post ->
  fold_left (fun h p => set_header p.1 p.2 h) (pre ++ (name, value) :: post) h !! latin1 (map lower1 name) = Some (latin1 value).
Proof.
  intros Hp Hpost. rewrite fold_left_app. cbn [fold_left fst snd]. set (h1 := fold_left _ pre h).
  assert (Hl : set_header name value h1 !! latin1 (map lower1 name) = Some (latin1 value)).
  { unfold set_header. rewrite (proj2 (String.eqb_neq _ _) Hp). apply lookup_insert_eq. }
  revert Hl. generalize (set_header name value h1). clear h1. induction Hpost as [|p post Hne _ IH]; intros h1 Hl; [done|].
  cbn [fold_left]. apply IH. by rewrite set_header_other.
Qed.

(** *** The pass cookie *)
Definition eq_byte : byte := byte_of_Z 61.
Definition no_bz (z : Z) (bs : list byte) : Prop := Forall (fun b => bz z b = false) bs.

Lemma token_bytes n : all_token n = true ->
  no_bz 61 (string_bytes n) /\ no_bz 59 (string_bytes n) /\ Forall (fun b => js_space b = false) (string_bytes n).
Proof.
  induction n as [|c n IH]; [intros; by repeat constructor|]. cbn [all_token]. intros [Hc Hn]%andb_true_iff. destruct (IH Hn) as (H1 & H2 & H3).
  change (string_bytes (String c n)) with (byte_of_ascii c :: string_bytes n). unfold no_bz.
  assert (bz 61 (byte_of_ascii c) = false /\ bz 59 (byte_of_ascii c) = false /\ js_space (byte_of_ascii c) = false) as (Q1 & Q2 & Q3).
  { clear -Hc. destruct c as [[] [] [] [] [] [] [] []]; vm_compute in Hc; try discriminate; by vm_compute. }
  split_and!; by constructor.
Qed.

Lemma octet_bytes v : all_bytes cookie_octet v = true -> no_bz 59 (string_bytes v) /\ latin1 (string_bytes v) = v.
Proof.
  induction v as [|c v IH]; [intros; by repeat constructor|]. cbn [all_bytes]. intros [Hc Hv]%andb_true_iff. destruct (IH Hv) as [H1 H2].
  change (string_bytes (String c v)) with ([byte_of_ascii c] ++ string_bytes v).
  assert (bz 59 (byte_of_ascii c) = false /\ latin1 [byte_of_ascii c] = String c EmptyString) as (Q1 & Q2).
  { clear -Hc. destruct c as [[] [] [] [] [] [] [] []]; vm_compute in Hc; try discriminate; by vm_compute. }
  split; [by constructor|]. unfold latin1 in *. by rewrite flat_map_app, bytes_string_app, Q2, H2.
Qed.

Lemma strip_name a : forall n rest, no_bz 61 a -> no_bz 61 n ->
  strip_prefix (a ++ [eq_byte]) (n ++ eq_byte :: rest) = if bool_decide (n = a) then Some rest else None.
Proof.
  assert (He : bz 61 eq_byte = true) by by vm_compute.
  assert (Hne : forall b, bz 61 b = false -> Byte.eqb eq_byte b = false /\ Byte.eqb b eq_byte = false).
  { intros b Hb. split; (destruct (Byte.eqb _ _) eqn:E; [|done]); apply Byte.byte_dec_bl in E; subst; congruence. }
  induction a as [|b a IH]; intros [|c n] rest Ha Hn.
  - by cbn.
  - apply Forall_cons in Hn as [Hc Hn]. cbn. by rewrite (proj1 (Hne c Hc)).
  - apply Forall_cons in Ha as [Hb Ha]. cbn. by rewrite (proj2 (Hne b Hb)).
  - apply Forall_cons in Ha as [Hb Ha]. apply Forall_cons in Hn as [Hc Hn]. cbn [app strip_prefix].
    destruct (Byte.eqb b c) eqn:E.
    + apply Byte.byte_dec_bl in E as ->. rewrite IH by done. by rewrite (bool_decide_ext (c :: n = c :: a) (n = a)) by (split; [by intros [= ->]|by intros ->]).
    + rewrite bool_decide_eq_false_2; [done|]. intros [= -> _]. by rewrite (Byte.byte_dec_lb eq_refl) in E.
Qed.

Lemma until_plain v rest : no_bz 59 v -> (rest = [] \/ exists r, rest = byte_of_Z 59 :: r) -> until_semicolon (v ++ rest) = v.
Proof.
  intros Hv Hr. induction Hv as [|b v Hb _ IH]; [|cbn; by rewrite Hb, IH]. destruct Hr as [->|[r ->]]; [done|]. by vm_compute.
Qed.

Lemma pass_skip v rest : no_bz 59 v -> pass_after_semicolon (v ++ rest) = pass_after_semicolon rest.
Proof. intros Hv. induction Hv as [|b v Hb _ IH]; [done|]. cbn. by rewrite Hb. Qed.

(** The cookies of a header, and the value of the first pass cookie. *)
Definition cookie_text (cookies : list (string * string)) : option (list byte) :=
  match cookies with [] => None | _ => Some (string_bytes (cookie_line cookies)) end.
Definition pass_cookie (cookies : list (string * string)) : option string :=
  snd <$> List.find (fun p => String.eqb p.1 DefaultCookieName) cookies.

Lemma pair_bytes p : string_bytes (cookie_pair p) = string_bytes p.1 ++ eq_byte :: string_bytes p.2.
Proof. unfold cookie_pair. by rewrite string_bytes_append. Qed.

Lemma tokenMatch_pair p rest : cookie_wf p = true -> (rest = [] \/ exists r, rest = byte_of_Z 59 :: r) ->
  tokenMatch (string_bytes (cookie_pair p) ++ rest)
  = if String.eqb p.1 DefaultCookieName then Some (string_bytes p.2) else pass_after_semicolon rest.
Proof.
  unfold cookie_wf, isToken. rewrite !andb_true_iff. intros [[_ Hn] Hv] Hr.
  destruct (token_bytes _ Hn) as (N1 & N2 & _). destruct (octet_bytes _ Hv) as [V1 _].
  rewrite pair_bytes, <- app_assoc. cbn [app]. unfold tokenMatch.
  change pass_prefix with (string_bytes DefaultCookieName ++ [eq_byte]).
  rewrite strip_name; [|refine (bool_decide_unpack _ _); vm_compute; exact I|done].
  destruct (String.eqb_spec p.1 DefaultCookieName) as [->|Hne].
  - rewrite bool_decide_true by done. by rewrite until_plain.
  - rewrite bool_decide_eq_false_2 by (by intros ?%string_bytes_inj).
    rewrite pass_skip by done. change (eq_byte :: string_bytes p.2 ++ rest) with ((eq_byte :: string_bytes p.2) ++ rest).
    apply pass_skip. by constructor.
Qed.

(** The regular expression finds the first pass cookie of the header. *)
Lemma tokenMatch_cookies p cookies : forallb cookie_wf (p :: cookies) = true ->
  tokenMatch (string_bytes (cookie_line (p :: cookies))) = string_bytes <$> pass_cookie (p :: cookies).
Proof.
  revert p. induction cookies as [|q cookies IH]; intros p; cbn [forallb]; rewrite andb_true_iff; intros [Hp Hq]; unfold pass_cookie; cbn [List.find].
  - change (cookie_line [p]) with (cookie_pair p). rewrite <- (app_nil_r (string_bytes _)), tokenMatch_pair by (done || by left).
    by destruct (String.eqb p.1 DefaultCookieName).
  - rewrite cookie_line_cons, string_bytes_append, tokenMatch_pair; [|done|right; by eexists].
    destruct (String.eqb p.1 DefaultCookieName); [done|]. etrans; [|exact (IH q Hq)].
    change (string_bytes (String ";" (String " " (cookie_line (q :: cookies))))) with (byte_of_Z 59 :: byte_of_Z 32 :: string_bytes (cookie_line (q :: cookies))).
    set (t := string_bytes _). assert (Hs : skip_space t = t).
    { unfold t. apply andb_true_iff in Hq as [Hq _]. unfold cookie_wf, isToken in Hq. rewrite !andb_true_iff in Hq. destruct Hq as [[Hne Hn] _].
      destruct (token_bytes _ Hn) as (_ & _ & Hsp). assert (exists u, cookie_line (q :: cookies) = q.1 +:+ u) as [u ->].
      { destruct cookies as [|q' cs]; [by eexists|]. rewrite cookie_line_cons. unfold cookie_pair. rewrite append_assoc. by eexists. }
      rewrite string_bytes_append. destruct (string_bytes q.1) as [|b bs] eqn:Eb; [destruct q.1; done|].
      apply Forall_cons in Hsp as [Hb _]. cbn [app skip_space]. by rewrite Hb. }
    unfold tokenMatch. change (pass_after_semicolon (byte_of_Z 59 :: byte_of_Z 32 :: t)) with
      (match strip_prefix pass_prefix (skip_space t) with Some u => Some (until_semicolon u) | None => pass_after_semicolon t end).
    rewrite Hs. done.
Qed.

(** ** The daemon's answer *)

(** [json.NewEncoder(w).Encode(dec)], as the SDKs read it ([json_parse_print]); a decision that cannot be encoded leaves the
    body empty. *)
Definition daemon_response (a : outcome api_reply) : fetched :=
  match a with
  | Ok (ApiDecision d) => Response 200 (json_coerce <$> decision_json d)
  | Ok (ApiError code _) => Response code None
  | _ => FetchFailed
  end.

(** The text of a denial. *)
Definition denial (reasons : list string) : string :=
  let s := Join (map utf8_coerce reasons) ", " in if String.eqb s EmptyString then "Denied" else s.

(** What a decision of the daemon means for the request; one without reasons has [null] for them. *)
Definition enforced (target : string) (d : Decision) : sdk_action :=
  match d_Verdict d with
  | VerdictAllow => ToApp
  | VerdictChallenge => SdkRedirect 302 target
  | VerdictDeny => match d_Reasons d with [] => ToErrorHandler | _ => SdkSend 403 (denial (d_Reasons d)) end
  end.

(** The members of a decision that the SDKs read. *)
Lemma decision_members d j : decision_json d = Some j ->
  exists l sigs, json_coerce j = JObj l /\ member "verdict" l = Some (JStr (verdict_text (d_Verdict d)))
  /\ member "reasons" l = Some (json_coerce (reasons_json (d_Reasons d)))
  /\ mapM signal_json (d_Signals d) = Some sigs /\ member "signals" l = Some (JArr (map json_coerce sigs)).
Proof.
  intros Hj. unfold decision_json in Hj. destruct (mapM signal_json (d_Signals d)) as [sigs|]; [|done]. injection Hj as <-.
  rewrite json_coerce_obj. cbn [map fst snd]. eexists _, sigs. split; [reflexivity|].
  assert (Hv : json_coerce (JStr (verdict_text (d_Verdict d))) = JStr (verdict_text (d_Verdict d))) by (by destruct (d_Verdict d)).
  rewrite Hv. split_and!; reflexivity.
Qed.

Lemma express_enforces ts target d j : decision_json d = Some j -> express_act ts target (json_coerce j) = enforced target d.
Proof.
  intros Hj. destruct (decision_members d j Hj) as (l & sigs & -> & Hv & Hrs & _).
  unfold express_act, deny_text, enforced. cbn [js_property]. rewrite Hv, Hrs. destruct (d_Verdict d); [done..|].
  destruct (d_Reasons d) as [|r rs]; [done|]. cbn [reasons_json json_coerce is_text verdict_text String.eqb Ascii.eqb Bool.eqb].
  unfold js_join, denial. by rewrite !map_map.
Qed.

Lemma py_signal_coerced sigs js : mapM signal_json sigs = Some js -> exists ps, mapM py_signal (map json_coerce js) = Some ps.
Proof.
  revert js. induction sigs as [|s sigs IH]; intros js; cbn; [intros [= <-]; by exists []|].
  destruct (signal_json s) as [j|] eqn:E; [|done]. cbn. destruct (mapM signal_json sigs) as [js'|]; [|done]. intros [= <-].
  destruct (IH js' eq_refl) as [ps Hps]. cbn [map mapM]. unfold signal_json in E. destruct (detail_json (sig_Detail s)) as [det|]; [|done].
  injection E as <-. rewrite json_coerce_obj. cbn [py_signal mbind option_bind]. rewrite Hps. by eexists.
Qed.

Lemma py_enforces fo d j :
  decision_json d = Some j -> pd_verdict (py_decide fo (Response 200 (Some (json_coerce j)))) = d_Verdict d.
Proof.
  intros Hj. destruct (decision_members d j Hj) as (l & sigs & Hl & Hv & _ & Hs & Hsig). destruct (py_signal_coerced _ _ Hs) as [ps Hps].
  unfold py_decide. cbn [is_success Z.leb Z.compare Pos.compare Pos.compare_cont andb]. rewrite Hl. cbn [mbind option_bind]. unfold py_parse. rewrite Hv, Hsig.
  assert (Ho : py_signals (py_or (Some (JArr (map json_coerce sigs))) (JArr [])) = Some ps) by (by destruct sigs).
  rewrite Ho. cbn [mbind option_bind default from_option py_verdict]. by destruct (d_Verdict d).
Qed.

(** *** From the visitor's request to its handling *)
Section composition.
Context `{CEL} `{CacheIf} `{JWTLaws}.
Context (iter : gmap string string -> list (string * string)) (Hiter : forall m, iter m ≡ₚ map_to_list m).

(** The request the pipeline is asked about. *)
Definition describes (d : DecisionRequest) (ctx : RequestContext) : Prop :=
  exists s, rq_Request ctx = Some s /\ r_Method s = dr_Method d /\ request_path ctx = dr_Path d /\ r_Host s = dr_Host d
  /\ (forall k v, dr_Headers d !! k = Some v -> header_Get (r_Header s) k = v)
  /\ rq_RemoteIP ctx = dr_RemoteIP d /\ rq_HeaderOrder ctx = dr_HeaderOrder d.

(** A description the endpoint accepts. *)
Definition well_described (d : DecisionRequest) : Prop :=
  dr_RemoteIP d <> EmptyString /\ validMethod (dr_Method d) = true /\ HasPrefix (dr_Path d) "/" = true /\ HasPrefix (dr_Path d) "//" = false.

Lemma described_decision i r body d h tok :
  Decode DecisionRequest_codec body = Some d -> r_Method r = "POST" -> well_described d -> lower_keys (dr_Headers d) ->
  api_has_valid_token i d (dh_Verifier h) = Ok tok ->
  exists ctx, describes d ctx /\ forall dec j,
    (Decide (ai_get i) (ai_now i) (ai_set i) ctx tok (dh_Pipeline h)).1 = Ok dec -> decision_json (stamp i dec) = Some j ->
    daemon_response (decide_ServeHTTP iter i r (Some body) h).1 = Response 200 (Some (json_coerce j)).
Proof.
  intros Hd Hr (Hip & Hm & Hp & Hp2) Hl Ht.
  destruct (api_decides_described iter Hiter i r body d h tok Hd Hr Hip Hm Hp Hp2 (lower_keys_distinct _ Hl) Ht)
    as (s & ctx & E1 & E2 & E3 & E4 & E5 & E6 & _ & _ & E7 & _ & E8).
  exists ctx. split; [by exists s|]. intros dec j Hdec Hj. rewrite E8, Hdec. cbn [mbind outcome_bind daemon_response]. by rewrite Hj.
Qed.

Lemma node_lower q : lower_keys (dr_Headers (node_description q)) /\ dr_JA3 (node_description q) = EmptyString
  /\ dr_JA4 (node_description q) = EmptyString.
Proof.
  unfold node_description. pose proof (raw_headers_lower (length (nr_rawHeaders q)) (nr_rawHeaders q) ∅ [] (le_n _) (map_Forall_empty _)) as Hl.
  destruct (raw_headers _ _ _) as [h o]. done.
Qed.

(** A visitor's request as Express has it: [headers] are its header lines, with the names and values as bytes, [cookies]
    those of its [Cookie] header, in the syntax of RFC 6265.  It has an address, the method is a token, and the path
    has one leading slash. *)
Definition arrives (q : NodeRequest) (addr : string) (headers : list (list byte * list byte)) (cookies : list (string * string)) : Prop :=
  nr_remoteAddress q = Some addr /\ addr <> EmptyString /\ validMethod (nr_method q) = true
  /\ HasPrefix (nr_path q) "/" = true /\ HasPrefix (nr_path q) "//" = false
  /\ nr_rawHeaders q = raw_of headers /\ nr_cookie q = cookie_text cookies /\ forallb cookie_wf cookies = true.

(** The request the pipeline is asked about is the visitor's: every header, the last of those with one name, counts. *)
Definition asks_about (q : NodeRequest) (addr : string) (headers : list (list byte * list byte)) (ctx : RequestContext) : Prop :=
  exists s, rq_Request ctx = Some s /\ r_Method s = nr_method q /\ request_path ctx = nr_path q /\ r_Host s = nr_hostname q
  /\ rq_RemoteIP ctx = addr /\ rq_HeaderOrder ctx = map (fun p => latin1 p.1) headers
  /\ forall pre name value post, headers = pre ++ (name, value) :: post ->
       Forall (fun p => latin1 (map lower1 p.1) <> latin1 (map lower1 name)) post -> latin1 (map lower1 name) <> "__proto__" ->
       header_Get (r_Header s) (latin1 (map lower1 name)) = latin1 value.

(** The visitor's first pass cookie is one the verifier accepts for the address, without user agent and fingerprints. *)
Definition pass_accepted (i : ApiIngress) (v : option Verifier) (addr : string) (cookies : list (string * string)) : bool :=
  match v, pass_cookie cookies with
  | Some v, Some tok =>
      negb (String.eqb tok EmptyString)
      && is_ok (Verify v (ai_verify i) tok (MkVerifyContext addr EmptyString EmptyString EmptyString))
  | _, _ => false
  end.

Lemma pass_cookie_wf cookies tok : forallb cookie_wf cookies = true -> pass_cookie cookies = Some tok -> all_bytes cookie_octet tok = true.
Proof.
  unfold pass_cookie. intros Hw Hf. destruct (List.find _ cookies) as [p|] eqn:E; [|done]. injection Hf as <-.
  apply List.find_some in E as [Hin _]. apply (proj1 (List.forallb_forall _ _) Hw) in Hin. by apply andb_true_iff in Hin as [_ ?].
Qed.

(** The description the SDK posts is the visitor's request. *)
Lemma arrives_described q addr headers cookies : arrives q addr headers cookies ->
  let d := node_description q in
  well_described d /\ dr_Method d = nr_method q /\ dr_Path d = nr_path q /\ dr_Host d = nr_hostname q /\ dr_RemoteIP d = addr
  /\ dr_HeaderOrder d = map (fun p => latin1 p.1) headers
  /\ dr_Headers d = fold_left (fun h p => set_header p.1 p.2 h) headers ∅ /\ dr_Token d = default EmptyString (pass_cookie cookies).
Proof.
  intros (Ha & Hne & Hm & Hp & Hp2 & Hraw & Hck & Hw). unfold node_description. rewrite Hraw, Ha, raw_headers_pairs. cbn.
  split_and!; try done. rewrite Hck. destruct cookies as [|c cs]; [done|]. cbn [cookie_text default from_option id].
  rewrite (tokenMatch_cookies c cs Hw). destruct (pass_cookie (c :: cs)) as [tok|] eqn:E; [|done]. cbn.
  by apply octet_bytes, (pass_cookie_wf (c :: cs)).
Qed.

Lemma arrives_token i q addr headers cookies v : arrives q addr headers cookies ->
  api_has_valid_token i (node_description q) v = Ok (pass_accepted i v addr cookies).
Proof.
  intros Hq. destruct (arrives_described q addr headers cookies Hq) as (_ & _ & _ & _ & Hip & _ & _ & Htok).
  destruct (node_lower q) as (Hl & H3 & H4). unfold api_has_valid_token, pass_accepted. destruct v as [v|]; [|done].
  assert (Hua : dr_Headers (node_description q) !! "User-Agent" = None).
  { destruct (_ !! "User-Agent") as [x|] eqn:E; [|done]. by specialize (Hl _ _ E). }
  rewrite Htok, Hua, Hip, H3, H4. destruct (pass_cookie cookies) as [tok|]; [|done]. cbn [default from_option id].
  destruct (String.eqb tok EmptyString); [done|]. cbn [negb andb].
  match goal with |- context [Verify ?v ?n ?s ?c] => pose proof (Verify_no_panic v n s c) as Hn; by destruct (Verify v n s c) end.
Qed.

(** C39: the Express middleware does with a visitor's request what the pipeline decides about that request: given a
    request that arrives with an address, a method that is a token, a path with one leading slash and well-formed
    cookies, the body it posts makes the endpoint ask the pipeline about a request with exactly this method, path, host,
    address and header order and with every header of the visitor, the last of those with one name, under its
    lower-case name; the pass state is whether the value of the first pass cookie is accepted for the address without
    a user agent and fingerprints.  If the pipeline decides, the visitor's request reaches the application on [ALLOW],
    is redirected to the challenge with its URL on [CHALLENGE] and refused with 403 and the reasons on [DENY]. *)
Theorem express_follows_daemon to_string failOpen challengeUrl i r q addr headers cookies body members h :
  arrives q addr headers cookies ->
  json_first body = Some (node_payload members (node_description q)) -> members ≡ₚ map_to_list (dr_Headers (node_description q)) ->
  r_Method r = "POST" ->
  exists ctx, asks_about q addr headers ctx /\ forall dec j,
    (Decide (ai_get i) (ai_now i) (ai_set i) ctx (pass_accepted i (dh_Verifier h) addr cookies) (dh_Pipeline h)).1 = Ok dec ->
    decision_json (stamp i dec) = Some j ->
    antiScrapling to_string failOpen challengeUrl q (daemon_response (decide_ServeHTTP iter i r (Some body) h).1)
    = enforced (node_target challengeUrl (nr_originalUrl q)) (stamp i dec).
Proof.
  intros Hq Hb Hm Hr. destruct (node_lower q) as (Hl & H3 & H4).
  destruct (arrives_described q addr headers cookies Hq) as (Hw & D1 & D2 & D3 & D4 & D5 & D6 & _).
  destruct (described_decision i r body (node_description q) h _ (node_payload_decodes _ _ _ Hb Hm H3 H4) Hr Hw Hl
    (arrives_token i q addr headers cookies (dh_Verifier h) Hq)) as (ctx & (s & S1 & S2 & S3 & S4 & S5 & S6 & S7) & Hres).
  exists ctx. split.
  - exists s. split_and!; try congruence. intros pre name value post -> Hpost Hproto. apply S5. rewrite D6. by apply last_header.
  - intros dec j Hdec Hj. rewrite (Hres dec j Hdec Hj). unfold antiScrapling, node_decide.
    cbn [is_success Z.leb Z.compare Pos.compare Pos.compare_cont andb]. by apply express_enforces.
Qed.

(** The Python middleware never sends the pass token, so the daemon never finds one, whatever the visitor's cookies:
    a visitor who solved the challenge is judged as if he had not. *)
Theorem python_token_unsent i v scope q :
  api_has_valid_token i (build_request scope) v = Ok false /\ api_has_valid_token i (flask_description q) v = Ok false.
Proof. unfold build_request. destruct (scope_headers _ _ _). by destruct v. Qed.

(** The Python middleware enforces the decision about the request it describes, whose path has the query in it. *)
Theorem asgi_follows_daemon failOpen url i r scope body members h :
  let d := build_request scope in
  sc_type scope = "http" -> json_first body = Some (py_payload members d) -> members ≡ₚ map_to_list (dr_Headers d) ->
  r_Method r = "POST" -> well_described d ->
  exists ctx, describes d ctx /\ forall dec j,
    (Decide (ai_get i) (ai_now i) (ai_set i) ctx false (dh_Pipeline h)).1 = Ok dec -> decision_json (stamp i dec) = Some j ->
    asgi_call failOpen url scope (daemon_response (decide_ServeHTTP iter i r (Some body) h).1)
    = match d_Verdict dec with VerdictAllow => ToApp | VerdictChallenge => SdkRedirect 302 url | VerdictDeny => SdkSend 403 "Forbidden" end.
Proof.
  intros d Hty Hb Hm Hr Hw. assert (Hl : lower_keys (dr_Headers d)).
  { unfold d, build_request. pose proof (scope_headers_lower (sc_headers scope) ∅ [] (map_Forall_empty _)). by destruct (scope_headers _ _ _). }
  destruct (described_decision i r body d h false (py_payload_decodes _ _ _ Hb Hm) Hr Hw Hl) as (ctx & Hc & Hres).
  { unfold d, build_request. destruct (scope_headers _ _ _). by destruct (dh_Verifier h). }
  exists ctx. split; [done|]. intros dec j Hdec Hj. unfold asgi_call. rewrite Hty, (Hres dec j Hdec Hj), (py_enforces failOpen _ _ Hj). done.
Qed.
End composition.

(** The URL of the visitor survives the redirect to the challenge. *)
Lemma uri_unreserved_plain c : uri_unreserved c = true -> Ascii.eqb c "%" = false /\ Ascii.eqb c "+" = false.
Proof. destruct c as [[] [] [] [] [] [] [] []]; cbn; (done || (by intros)). Qed.

Lemma origin_survives s : QueryUnescape (encodeURIComponent s) = Some s.
Proof.
  induction s as [|c s IH]; [done|]. cbn [encodeURIComponent]. destruct (uri_unreserved c) eqn:Eu.
  { apply uri_unreserved_plain in Eu as [Hp Hq]. cbn [QueryUnescape]. by rewrite Hp, Hq, IH. }
  destruct (code_nibbles c) as (Hh & Hl & Hv). cbn [QueryUnescape Ascii.eqb Bool.eqb andb].
  by rewrite !upper_hex_unhex, IH, Hv, acode_byte by done.
Qed.

(** ** Examples *)
Example tokenMatch_ex :
  map (fun s => bytes_string <$> tokenMatch (string_bytes s)) ["__as_pass=abc"; "a=1; __as_pass=x.y; b=2"; "b=__as_pass=1"; "a=1;__as_pass=;__as_pass=2"]
  = [Some "abc"; Some "x.y"; None; Some ""].
Proof. vm_compute. reflexivity. Qed.

(** The request of the SDK documentation names the address [remote_addr], which the endpoint does not read. *)
Definition documented_request : json :=
  JObj [("method", JStr "GET"); ("path", JStr "/api/products"); ("host", JStr "example.com"); ("remote_addr", JStr "1.2.3.4");
        ("headers", JObj [("User-Agent", JStr "Mozilla/5.0..."); ("Accept", JStr "text/html..."); ("Cookie", JStr "__as_pass=eyJ...")])].

Lemma documented_request_rejected `{CEL} `{CacheIf} `{JWT} iter i r body h :
  r_Method r = "POST" -> json_first body = Some documented_request ->
  decide_ServeHTTP iter i r (Some body) h = (Ok (ApiError 400 "bad request: remote_ip required"), h).
Proof.
  intros Hr Hb. unfold decide_ServeHTTP. rewrite Hr. cbn [String.eqb Ascii.eqb Bool.eqb andb negb]. unfold Decode. by rewrite Hb.
Qed.

#[local] Existing Instance toy_jwt.
#[local] Existing Instance toy_jwt_laws.
#[local] Instance sdk_cache : CacheIf := memory_cache (H := list_lru (V := entry)).
#[local] Existing Instance toy_cel.

(** A visitor with two cookies, the second a pass that is bound to nothing. *)
Definition visitor_pass : string :=
  match Issue (NewIssuer [byte_of_Z 1] (3600 * Second) []) 0 (MkIssueContext "id" "203.0.113.7" EmptyString EmptyString EmptyString 0) with
  | Ok tok => tok
  | _ => EmptyString
  end.
Definition pass_handler : DecideHandler := MkDecideHandler (sample_pipeline None) (Some (NewVerifier [byte_of_Z 1] [])).
Definition visitor_headers : list (list byte * list byte) :=
  map (fun p => (string_bytes p.1, string_bytes p.2)) [("Host", "shop.example"); ("X-A", "1"); ("User-Agent", "curl/8"); ("x-a", "2")].
Definition visitor_cookies : list (string * string) := [("theme", "dark"); (DefaultCookieName, visitor_pass)].
Definition visitor : NodeRequest :=
  MkNodeRequest "GET" "/shop/a" "shop.example" (Some "203.0.113.7") (raw_of visitor_headers) (cookie_text visitor_cookies) "/shop/a?q=1&r=2".
Definition visitor_members : list (string * string) := map_to_list (dr_Headers (node_description visitor)).
Definition visitor_body : list byte := json_print (node_payload visitor_members (node_description visitor)).
Definition daemon_post : Request := MkRequest "POST" None 1 1 ∅ "" "" [].

Lemma visitor_accepted : pass_accepted sample_api (dh_Verifier pass_handler) "203.0.113.7" visitor_cookies = true.
Proof. vm_compute. reflexivity. Qed.



Lemma express_follows_daemon_witness :
  antiScrapling (fun _ => "") None None visitor
    (daemon_response (decide_ServeHTTP map_to_list sample_api daemon_post (Some visitor_body) pass_handler).1)
  = ToApp.
Proof.
  destruct (express_follows_daemon map_to_list (fun m => reflexivity _) (fun _ => "") None None sample_api daemon_post visitor "203.0.113.7"
    visitor_headers visitor_cookies visitor_body visitor_members pass_handler) as (ctx & Hc & Hd);
    [repeat split; vm_compute; first [reflexivity|discriminate]|vm_compute; reflexivity|done|reflexivity|]. rewrite visitor_accepted in Hd.
  assert (exists dec, (Decide (ai_get sample_api) (ai_now sample_api) (ai_set sample_api) ctx true (sample_pipeline None)).1 = Ok dec
    /\ exists j, decision_json (stamp sample_api dec) = Some j /\ enforced (node_target None (nr_originalUrl visitor)) (stamp sample_api dec) = ToApp)
    as (dec & Hdec & j & Hj & He).
  { eexists. split; [unfold Decide; cbn [cache_lookup p_cache sample_pipeline New pcf_Cache]; unfold collectParallel; cbn; reflexivity|].
    eexists. split; vm_compute; reflexivity. }
  rewrite (Hd dec j Hdec Hj). exact He.
Defined.
