(* ===== verification/Deploy.v ===== *)
(** * The deployed daemon: theorems about the composition

    The state [buildDeps] creates, under any sequence of requests on the two listeners: which signals can
    occur, that every request is answered, what a decision goes back to, and when a pass cookie is accepted;
    [Concurrent] builds on the invariant kept here. *)

From S2P Require Import Prelude GoStrings GoStd GoUrl Crypto Types GoHttp Decision Policy Token Cache JsonText Json Utf8Valid Ip Pipeline.
From S2P Require Import Codec Bodies Fingerprint Behavior Challenge Headers Observability Metrics Proxy ClientHello Server TlsFingerprint Http2 Api Wire.
#[local] Open Scope Z_scope.

(** ** The signals of the deployed collectors *)
Definition sig_pair (s : Signal) : string * Z := (sig_Name s, sig_Score s).

(** Names and scores, collector by collector. *)
Definition tls_vocabulary : list (string * Z) :=
  [("ja3_mismatch", 40); ("ja3_known_scraper", 100); ("ja4_unknown", 30)].
Definition headers_vocabulary : list (string * Z) :=
  [("header_order_anomaly", 20); ("ua_ch_mismatch", 25); ("secfetch_invalid", 15); ("browserforge_quirk", 40);
   ("google_referer_anomaly", 10)].
Definition ip_vocabulary : list (string * Z) := [("tor_exit", 50); ("datacenter_ip", 30)].
Definition http2_vocabulary : list (string * Z) := [("ja4h_unknown", 20); ("h2_akamai_mismatch", 35)].
Definition vocabulary : list (string * Z) :=
  tls_vocabulary ++ headers_vocabulary ++ ip_vocabulary ++ http2_vocabulary ++ behavior_table.

(** The signals all come from a list of names and scores. *)
Definition speaks (voc : list (string * Z)) (sigs : list Signal) : Prop := Forall (fun s => sig_pair s ∈ voc) sigs.

(** A concrete signal is in a concrete vocabulary. *)
Ltac in_voc := refine (bool_decide_unpack _ _); vm_compute; exact I.

Lemma speaks_app voc a b : speaks voc (a ++ b) <-> speaks voc a /\ speaks voc b.
Proof. apply Forall_app. Qed.

Lemma speaks_mono voc voc' sigs : voc ⊆ voc' -> speaks voc sigs -> speaks voc' sigs.
Proof. intros Hs H. eapply Forall_impl; [exact H|]. intros s Hv. by apply Hs. Qed.

Lemma speaks_if voc (b : bool) s : sig_pair s ∈ voc -> speaks voc (if b then [s] else []).
Proof. destruct b; [|constructor]. intros. by apply Forall_singleton. Qed.

Lemma tls_speaks ctx sigs err : tls_Collect ctx = Ok (sigs, err) -> speaks tls_vocabulary sigs.
Proof.
  assert (Hf : forall pre s h j, speaks tls_vocabulary pre -> speaks tls_vocabulary (fingerprint_signals ctx pre s h j)).
  { intros pre s h j Hpre. unfold fingerprint_signals, speaks.
    repeat match goal with
    | |- Forall _ (_ ++ _) => apply Forall_app; split
    | |- context [match ?x with _ => _ end] => destruct x
    end; try done; repeat constructor; in_voc. }
  unfold tls_Collect. destruct (normalizeJA3 _) as [a b]. destruct (0 <? len _).
  - destruct (ParseClientHello _) as [hello|e|]; [|intros [= <- _]; constructor|done].
    cbn. intros [= <- _]. apply Hf. repeat case_match; repeat constructor; in_voc.
  - intros [= <- _]. apply Hf. constructor.
Qed.

Lemma tls_answers ctx : exists sigs err, tls_Collect ctx = Ok (sigs, err) /\ speaks tls_vocabulary sigs.
Proof.
  assert (no_panic (tls_Collect ctx)) as Hn.
  { unfold tls_Collect. destruct (normalizeJA3 _). destruct (0 <? len _); [|done].
    pose proof (parse_hello_no_panic (rq_ClientHello ctx)). by destruct (ParseClientHello _). }
  destruct (tls_Collect ctx) as [[sigs err]|e|] eqn:E; [|exfalso|done].
  - exists sigs, err. split; [done|]. by apply tls_speaks in E.
  - revert E. unfold tls_Collect. destruct (normalizeJA3 _). destruct (0 <? len _); [|done]. by destruct (ParseClientHello _).
Qed.

Lemma signal_if_speaks voc f name score : (name, score) ∈ voc -> speaks voc (signal_if f name score).
Proof. intros Hv. unfold signal_if. by apply speaks_if. Qed.

Lemma headers_answers iter ctx req past t :
  rq_Request ctx = Some req -> tracker_inv 100 headers_threshold past t ->
  exists sigs t' past', headers_Collect iter ctx t = (Ok (sigs, None), t') /\ speaks headers_vocabulary sigs
  /\ tracker_inv 100 headers_threshold past' t'.
Proof.
  intros Hr Ht. unfold headers_Collect. rewrite Hr.
  destruct (IsOrderAnomaly_ok (rq_HeaderOrder ctx)) as [a ->].
  destruct (Observe_spec _ _ _ _ (rq_RemoteIP ctx, header_Get (r_Header req) "Referer") Ht) as (t' & Ho & Ht').
  cbn [fst snd] in Ho. rewrite Ho. eexists _, t', _. split; [reflexivity|]. split; [|exact Ht'].
  rewrite !speaks_app. split_and!; apply signal_if_speaks; in_voc.
Qed.

Lemma http2_answers ctx req c :
  rq_Request ctx = Some req ->
  exists sigs err c', http2_Collect ctx c = (Ok (sigs, err), c') /\ speaks http2_vocabulary sigs.
Proof.
  intros Hr. pose proof (observed_akamai_no_panic ctx) as Hp. unfold http2_Collect, observed_akamai in *. rewrite Hr.
  assert (Hj : speaks http2_vocabulary (ja4h_signals (fill_defaults c) ctx)).
  { destruct (ja4h_signals_spec (fill_defaults c) ctx) as [->|(s & -> & Hn & Hs)]; [constructor|]. apply Forall_singleton.
    unfold sig_pair. rewrite Hn, Hs. in_voc. }
  destruct (frameBytesFromRequestContext ctx) as [bs|]; [|by eexists _, _, _].
  destruct (ComputeAkamaiFingerprintBytes bs) as [akamai|e|]; [|by eexists _, _, _|done].
  destruct (String.eqb akamai EmptyString); [by eexists _, _, _|].
  pose proof (akamaiSignal_spec c req akamai) as Ha. destruct (akamaiSignal _ _ _) as [s|]; [|by eexists _, _, _].
  destruct Ha as (_ & Hn & Hs). eexists _, _, _. split; [reflexivity|]. apply speaks_app. split; [done|].
  apply Forall_singleton. unfold sig_pair. rewrite Hn, Hs. in_voc.
Qed.

Lemma behavior_speaks b : speaks behavior_table (behavior_Score b).
Proof.
  apply Forall_forall. intros s Hs. eapply elem_of_sublist; [|apply omap_sublist, (checkers_named b)].
  by apply (list_elem_of_fmap_2 sig_pair).
Qed.

Lemma store_answers ctx s : exists sigs, store_Collect ctx s = Ok (sigs, None) /\ speaks behavior_table sigs.
Proof.
  unfold store_Collect. destruct (GetByIP _ s) as [b|]; eexists; (split; [reflexivity|]); [apply behavior_speaks|constructor].
Qed.

(** ** The five collectors *)
Section collectors.
Context `{LRULaws Ip.Entry} (iter : gmap string string -> list (string * string)) (env : ip_env).

Definition collectors_ok (cs : list collector) : Prop :=
  exists past tr n ipc hc store, tracker_inv 100 headers_threshold past tr /\ ip_cache_ok env n ipc
  /\ cs = [MkLive tls_collector tt; MkLive (headers_collector iter) tr; MkLive (ip_Collector env) ipc;
           MkLive http2_collector hc; MkLive store_collector store].

Lemma ip_speaks addr : speaks ip_vocabulary (ip_signals env addr).
Proof.
  unfold ip_signals. destruct (_ || _); [constructor|]. apply speaks_app. split; [apply speaks_if; in_voc|].
  destruct (decide _); [|constructor]. apply Forall_singleton. in_voc.
Qed.

(** On a request the collectors all answer, with signals of the vocabulary, and stay as they should be. *)
Lemma collect_ok req r cs :
  rq_Request req = Some r -> collectors_ok cs ->
  exists sigs cs', collectParallel req cs = (Ok sigs, cs') /\ speaks vocabulary sigs /\ collectors_ok cs'.
Proof.
  intros Hr (past & tr & n & ipc & hc & store & Ht & Hi & ->).
  destruct (tls_answers req) as (s1 & e1 & E1 & V1).
  destruct (headers_answers iter req r past tr Hr Ht) as (s2 & tr' & past' & E2 & V2 & Ht').
  destruct (ip_Collect_spec env n req ipc Hi) as [E3 Hi'].
  destruct (http2_answers req r hc Hr) as (s4 & e4 & hc' & E4 & V4).
  destruct (store_answers req store) as (s5 & E5 & V5).
  destruct (ip_Collect env req ipc) as [o3 ipc'] eqn:E3'. cbn [fst snd] in E3, Hi'. subst o3.
  unfold collectParallel, collect_slots, collect1. cbn [live_col live_state col_Collect tls_collector headers_collector
    ip_Collector http2_collector store_collector]. rewrite E1, E2, E3', E4, E5.
  eexists _, _. split; [reflexivity|]. split; [|by eexists _, _, _, _, _, _].
  cbn [concat]. rewrite app_nil_r, !speaks_app.
  split_and!; [eapply speaks_mono, V1|eapply speaks_mono, V2|eapply speaks_mono, ip_speaks|eapply speaks_mono, V4|eapply speaks_mono, V5];
    unfold vocabulary; intros x Hx; rewrite !elem_of_app; tauto.
Qed.

(** The store of the last collector is the one the challenge service holds. *)
Lemma collectors_ok_share cs store : collectors_ok cs -> collectors_ok (take 4 cs ++ [MkLive store_collector store]).
Proof.
  intros (past & tr & n & ipc & hc & old & Ht & Hi & ->). exists past, tr, n, ipc, hc, store. split_and!; done.
Qed.
End collectors.


(** ** Decisions and where they come from *)

(** The texts the metrics and the cache carry are UTF-8, and the weights fit an [int]. *)
Definition policy_wf (p : PolicyConfig) : Prop :=
  map_Forall (fun _ w => in_int w) (sc_Weights (pc_Scoring p))
  /\ Forall (fun r => valid_utf8 (pr_Name r) = true) (ps_Rules (pc_Policy p)).

Lemma weigh_in_int p sigs :
  policy_wf p -> Forall (fun s => in_int (sig_Score s)) sigs -> Forall (fun s => in_int (sig_Score s)) (weigh (Some p) sigs).
Proof.
  intros [Hw _] Hs. unfold weigh. case_match; [|done]. apply Forall_map. eapply Forall_impl; [exact Hs|].
  intros s Hi. unfold weigh1. cbn. case_match eqn:E; [|done]. exact (Hw _ _ E).
Qed.

Lemma vocabulary_in_int sigs : speaks vocabulary sigs -> Forall (fun s => in_int (sig_Score s)) sigs.
Proof.
  intros Hs. eapply Forall_impl; [exact Hs|]. intros s Hv.
  assert (Hf : Forall (fun e : string * Z => in_int e.2) vocabulary)
    by (unfold in_int, int_min, int_max; repeat constructor; cbn; lia).
  rewrite Forall_forall in Hf. exact (Hf _ Hv).
Qed.

Definition names_utf8 (sigs : list Signal) : Prop := Forall (fun s => valid_utf8 (sig_Name s) = true) sigs.

Lemma vocabulary_utf8 sigs : speaks vocabulary sigs -> names_utf8 sigs.
Proof.
  intros Hs. eapply Forall_impl; [exact Hs|]. intros s Hv.
  assert (Hf : Forall (fun e : string * Z => valid_utf8 e.1 = true) vocabulary) by (repeat constructor).
  rewrite Forall_forall in Hf. exact (Hf _ Hv).
Qed.

Lemma weigh_utf8 p sigs : names_utf8 sigs -> names_utf8 (weigh p sigs).
Proof.
  intros Hs. unfold weigh. destruct p as [p|]; [|done]. case_match; [|done]. apply Forall_map.
  eapply Forall_impl; [exact Hs|]. intros s Hv. unfold weigh1. cbn. by case_match.
Qed.

Section policy.
Context `{CEL}.

Lemma eval_rules_rule rules dflt act action rule :
  eval_rules rules dflt act = Ok (action, Some rule) -> rule ∈ map cr_Rule rules.
Proof.
  induction rules as [|cr rules IH]; cbn [eval_rules map]; [done|]. intros Hb.
  apply bind_ok in Hb as (out & _ & Hb). destruct out as [[]|]; [|right; by apply IH|done]. injection Hb as _ <-. left.
Qed.

Lemma compile_rules_rules rules : forall i crs, compile_rules i rules = Ok crs -> map cr_Rule crs = rules.
Proof.
  induction rules as [|rule rules IH]; intros i crs; cbn [compile_rules]; [by intros [= <-]|]. intros Hb.
  apply bind_ok in Hb as (cr & Hc%wrap_err_ok & Hb). apply bind_ok in Hb as (crs' & Hr & Hb). injection Hb as <-. cbn.
  rewrite (IH _ _ Hr). f_equal. unfold compileRule in Hc. by repeat (apply bind_ok in Hc as (? & _ & Hc)); injection Hc as <-.
Qed.

(** The evaluator's answer as [Combine] sees it. *)
Definition eval_fn (e : Evaluator) (ec : EvalCtx) : EvalResult :=
  match Evaluate e (policy_context ec) with
  | Ok (action, rule) => MkEvalResult action (match rule with Some r => pr_Name r | None => EmptyString end)
  | _ => MkEvalResult ActionNone EmptyString
  end.

Lemma eval_fn_utf8 p e ec : policy_wf p -> NewEvaluator p = Ok e -> valid_utf8 (er_RuleName (eval_fn e ec)) = true.
Proof.
  intros [_ Hr] He. unfold NewEvaluator in He. apply bind_ok in He as (crs & Hc & He). injection He as <-.
  apply compile_rules_rules in Hc. unfold eval_fn. destruct (Evaluate _ _) as [[action [rule|]]|e|] eqn:E; try done.
  apply eval_rules_rule in E. cbn [ev_rules] in E. rewrite Hc in E. rewrite Forall_forall in Hr. exact (Hr _ E).
Qed.

Lemma combine_reason now sigs p info tok e :
  policy_wf p -> NewEvaluator p = Ok e ->
  valid_utf8 (reason_of (Combine now sigs (Some p) info tok (Some (eval_fn e)))) = true.
Proof.
  intros Hp He. unfold Combine. destruct (tok && _); [done|]. case_decide; [|by apply eval_fn_utf8 with p].
  unfold threshold_decision. by repeat case_match.
Qed.
End policy.

(** A decision computed from collected signals: the request, its token state, when it was stamped and stored. *)
Record made := MkMade { md_req : RequestContext; md_tok : bool; md_now : Z; md_set : Z; md_sigs : list Signal }.

Section decisions.
Context `{CEL} `{CacheSpec} `{LRULaws Ip.Entry}.
Context (iter : gmap string string -> list (string * string)) (env : ip_env) (pol : PolicyConfig) (eval : Evaluator) (ttl : Z).
Context (Hpol : policy_wf pol) (Heval : NewEvaluator pol = Ok eval) (Httl : 0 < ttl).

Definition md_dec (m : made) : Decision :=
  Combine (md_now m) (md_sigs m) (Some pol) (buildRequestInfo (md_req m)) (md_tok m) (Some (eval_fn eval)).
Definition md_key (m : made) : string := computeCacheKey (md_req m) (md_tok m).

Definition made_ok (m : made) : Prop := speaks vocabulary (md_sigs m) /\ in_int (md_now m).

(** Every entry of the cache is one of the decisions in [log], under its key and with its expiry time. *)
Definition cache_from (log : list made) (c : cache_state) : Prop :=
  cache_ok c /\ forall k v exp, cache_view c !! k = Some (v, exp) ->
    exists m, m ∈ log /\ k = md_key m /\ Marshal (md_dec m) = Some v /\ exp = Some (md_set m + ttl).

Definition pipeline_ok (log : list made) (p : Pipeline) : Prop :=
  collectors_ok iter env (p_collectors p) /\ p_evaluator p = Some eval /\ p_policy p = Some pol /\ p_cacheTTL p = ttl
  /\ Forall made_ok log /\ exists c, p_cache p = Some c /\ cache_from log c.

Lemma made_in_range m : made_ok m -> decision_in_range (md_dec m).
Proof.
  intros [Hv Hn]. unfold decision_in_range, md_dec. rewrite combine_score_clamp, combine_signals. split_and!.
  - pose proof (clamp_range (sum_scores (weigh (Some pol) (md_sigs m)))). unfold in_int, int_min, int_max. lia.
  - unfold Combine, threshold_decision, evalDecision. by repeat case_match.
  - by apply weigh_in_int, vocabulary_in_int.
Qed.

(** What a decision is to those who get it: itself, or itself by way of the cache. *)
Definition echoes (d d' : Decision) : Prop := d' = d \/ coerce_decision d = Some d'.

Lemma echoes_verdict d d' : echoes d d' -> d_Verdict d' = d_Verdict d.
Proof. intros [->|Hc]; [done|]. by apply coerce_same_decision in Hc as (? & _). Qed.

(** What the metrics need of a decision survives the cache. *)
Lemma made_event_utf8 m d lat : made_ok m -> echoes (md_dec m) d -> event_utf8 (EvDecision d lat).
Proof.
  intros [Hv _] Hd. pose proof (combine_reason (md_now m) (md_sigs m) pol
    (buildRequestInfo (md_req m)) (md_tok m) eval Hpol Heval) as Hu. fold (md_dec m) in Hu.
  apply vocabulary_utf8, (weigh_utf8 (Some pol)) in Hv.
  assert (Hs : d_Signals (md_dec m) = weigh (Some pol) (md_sigs m)) by apply combine_signals.
  destruct Hd as [->|(_ & _ & _ & _ & Hr & Hn & _)%coerce_same_decision]; cbn [event_utf8]; [by rewrite Hs|]. split.
  - unfold reason_of in *. rewrite Hr. destruct (d_Reasons (md_dec m)); [done|]. cbn. by rewrite utf8_coerce_valid.
  - rewrite Hs in Hn. clear Hs. revert Hn. generalize (d_Signals d) as l.
    induction Hv as [|s sigs Hv _ IH]; intros [|s' l]; cbn; intros Hn; try done.
    injection Hn as E Hl. constructor; [|by apply IH]. by rewrite E, utf8_coerce_valid.
Qed.

(** The cache gives out a decision of the log, under its key and before its expiry time. *)
Lemma cache_lookup_from log p t k :
  pipeline_ok log p -> exists hit c, cache_lookup t k p = (hit, Some c) /\ cache_from log c
  /\ forall d, hit = Some d -> exists m, m ∈ log /\ k = md_key m /\ echoes (md_dec m) d /\ t <= md_set m + ttl.
Proof.
  intros (_ & _ & _ & _ & Hlog & c & Hc & Hok & Hfrom). unfold cache_lookup. rewrite Hc.
  pose proof (cache_Get_view t k c Hok) as Hg. destruct (cache_Get t k c) as [[[v hit] e] c']. destruct Hg as (Hok' & Hsub & Hg).
  eexists _, c'. split; [reflexivity|]. split.
  { split; [done|]. intros k' v' exp Hv. eapply Hfrom, lookup_weaken; eauto. }
  intros d Hd. destruct (cache_view c !! k) as [[v' exp]|] eqn:E; [|by injection Hg as -> -> ->].
  destruct (live t exp) eqn:El; [|by injection Hg as -> -> ->]. destruct Hg as [[= -> -> ->] _].
  destruct (Hfrom _ _ _ E) as (m & Hm & -> & Hv & ->). exists m. split_and!; [done..| |cbn in El; lia].
  rewrite Forall_forall in Hlog. destruct (made_in_range m (Hlog _ Hm)) as (R1 & R2 & R3).
  destruct (Unmarshal_sound _ _ d R1 R2 R3 Hv) as (Hl & Hco).
  replace (0 <? len v') with true in Hd by lia. cbn [andb] in Hd. right. by apply Hco.
Qed.

Lemma cache_store_from log c m :
  cache_from log c -> exists c', cache_store (md_set m) (md_key m) (md_dec m) ttl (Some c) = Some c' /\ cache_from (log ++ [m]) c'.
Proof.
  intros [Hok Hfrom]. assert (Hold : forall k v exp, cache_view c !! k = Some (v, exp) ->
    exists m', m' ∈ log ++ [m] /\ k = md_key m' /\ Marshal (md_dec m') = Some v /\ exp = Some (md_set m' + ttl)).
  { intros k v exp (m' & Hm & Hr)%Hfrom. exists m'. rewrite elem_of_app. eauto. }
  unfold cache_store. destruct (Marshal (md_dec m)) as [data|] eqn:Em; [|exists c; split; [done|]; by split].
  pose proof (cache_Set_view (md_set m) (md_key m) data ttl c Hok) as Hs.
  destruct (cache_Set (md_set m) (md_key m) data ttl c) as [e c']. destruct Hs as (_ & Hok' & Hk & Ho). exists c'. split; [done|].
  split; [done|]. intros k v exp Hv. destruct (decide (k = md_key m)) as [->|Hne].
  - rewrite Hk in Hv. injection Hv as <- <-. exists m. split_and!; [apply elem_of_app; right; by left|done..|].
    unfold expiry. by replace (0 <? ttl) with true by lia.
  - destruct (Ho k Hne) as [E|E]; rewrite E in Hv; [done|]. by apply Hold.
Qed.

(** A decision is always made: it is computed now, or is one of the log for the same key, not yet expired. *)
Lemma Decide_inv log p t_get t_now t_set req r tok :
  pipeline_ok log p -> rq_Request req = Some r -> in_int t_now ->
  exists d p' m, (Decide t_get t_now t_set req tok p = (Ok d, p')) /\ echoes (md_dec m) d /\ md_key m = computeCacheKey req tok
  /\ ((m ∈ log /\ t_get <= md_set m + ttl /\ pipeline_ok log p')
      \/ (exists sigs, m = MkMade req tok t_now t_set sigs /\ d = md_dec m /\ pipeline_ok (log ++ [m]) p')).
Proof.
  intros Hp Hr Hn. unfold Decide.
  destruct (cache_lookup_from log p t_get (computeCacheKey req tok) Hp) as (hit & c & -> & Hc & Hhit).
  destruct Hp as (Hcol & He & Hpo & Ht & Hlog & _). destruct hit as [d|].
  - destruct (Hhit d eq_refl) as (m & Hm & Hk & Hd & Hl). eexists d, _, m. split; [reflexivity|]. split_and!; [done..|].
    left. split_and!; [done..|]. unfold pipeline_ok. cbn. split_and!; eauto.
  - destruct (collect_ok iter env req r _ Hr Hcol) as (sigs & cs & -> & Hv & Hcs).
    set (m := MkMade req tok t_now t_set sigs). destruct (cache_store_from log c m Hc) as (c' & Hst & Hc').
    assert (Hdec : Combine t_now sigs (p_policy p) (buildRequestInfo req) tok (buildEvalFn p) = md_dec m).
    { unfold buildEvalFn. by rewrite He, Hpo. }
    rewrite Hdec, Ht. change (cache_store t_set (computeCacheKey req tok) (md_dec m) ttl (Some c))
      with (cache_store (md_set m) (md_key m) (md_dec m) ttl (Some c)). rewrite Hst.
    eexists _, _, m. split; [reflexivity|]. split_and!; [by left|done|]. right. exists sigs. split_and!; [done..|].
    unfold pipeline_ok. cbn. split_and!; eauto. apply Forall_app. split; [done|]. by apply Forall_singleton.
Qed.
End decisions.

(** ** The daemon under traffic *)
Section traffic.
Context `{CEL} `{RedisClient} `{LRULaws entry} `{JWTLaws} `{LRU Z} `{LRULaws Ip.Entry} `{PromLaws}.
#[local] Existing Instance backend_cache | 0.
#[local] Existing Instance backend_spec | 0.

Context (iter : gmap string string -> list (string * string)) (env : ip_env) (pol : PolicyConfig) (eval : Evaluator) (ttl : Z).
Context (ver : Verifier) (iss : Issuer) (rev : option Proxy) (Hpol : policy_wf pol) (Heval : NewEvaluator pol = Ok eval) (Httl : 0 < ttl).

(** The request carries a cookie the verifier accepts. *)
Definition pass_state (i : Ingress) (r : Request) (req : RequestContext) : bool :=
  let cookieVal := GetCookie r DefaultCookieName in
  negb (String.eqb cookieVal EmptyString)
  && is_ok (Verify ver (in_verify i) cookieVal
              (MkVerifyContext (rq_RemoteIP req) (header_Get (r_Header r) "User-Agent") (rq_JA3 req) (rq_JA4 req))).

(** What a request in the trace must be for the decision to have been computed while it was handled. *)
Definition caused (e : event) (m : made) : Prop :=
  match e with
  | EvMain i r capture _ =>
      let req := buildRequestContext r capture in
      md_req m = req /\ md_tok m = pass_state i r req /\ md_now m = in_now i /\ md_set m = in_set i
  | EvAdmin i r =>
      exists data body s, ad_body i = Some data /\ Decode DecisionRequest_codec data = Some body
      /\ api_request (ad_iter i) (ai_parse_error (ad_api i)) r body = Ok s
      /\ md_req m = api_context r s body /\ api_has_valid_token (ad_api i) body (Some ver) = Ok (md_tok m)
      /\ md_now m = ai_now (ad_api i) /\ md_set m = ai_set (ad_api i)
  | _ => False
  end.

(** What [net/http] and the clock guarantee of an event: a request has a URL, times fit an [int], file reading does not
    panic. *)
Definition event_ok (e : event) : Prop :=
  match e with
  | EvMain i r _ _ => is_Some (r_URL r) /\ in_int (in_now i)
  | EvAdmin i _ => in_int (ai_now (ad_api i)) /\ no_panic (ad_policy i)
  | _ => True
  end.

(** An audit entry is of a decision with the vocabulary's signals. *)
Definition entry_ok (a : AuditEntry) : Prop :=
  0 <= ae_Score a <= 100 /\ Forall (fun s => sig_Name s ∈ map fst vocabulary) (ae_Signals a).

Definition audit_slots : nat := Z.to_nat (audit_size 0).

Definition daemon_ok (log : list made) (hist : list AuditEntry) (d : deps) : Prop :=
  pipeline_ok iter env pol eval ttl log (dp_pl d)
  /\ (is_Some (s_beacon (dp_challengeSvc d)) /\ s_tokenIssuer (dp_challengeSvc d) = iss)
  /\ (exists es, shows es (dp_metrics d)) /\ audit_inv audit_slots hist (dp_audit d) /\ Forall entry_ok hist
  /\ dp_tokenVerifier d = ver /\ dp_rev d = rev.

Lemma shared_ok log hist d : daemon_ok log hist d -> pipeline_ok iter env pol eval ttl log (shared_pipeline d).
Proof.
  intros ((Hc & He & Hp & Ht & Hl & Hca) & ([store Hs] & _) & _). unfold pipeline_ok, shared_pipeline, shared_collectors. cbn.
  rewrite Hs. split_and!; [|done..]. by apply collectors_ok_share.
Qed.

Lemma set_pl_ok log log' hist d p :
  daemon_ok log hist d -> pipeline_ok iter env pol eval ttl log' p -> daemon_ok log' hist (set_pl p d).
Proof. intros (_ & Hd) Hp. by split. Qed.

Lemma set_metrics_ok log hist d m es : daemon_ok log hist d -> shows es m -> daemon_ok log hist (set_metrics m d).
Proof. intros (? & ? & _ & ?) Hm. split; [done|]. split; [done|]. split; [by exists es|done]. Qed.

Lemma set_svc_ok log hist d s :
  daemon_ok log hist d -> is_Some (s_beacon s) -> s_tokenIssuer s = iss -> daemon_ok log hist (set_svc s d).
Proof. intros (? & _ & ?) Hs Hi. by split. Qed.

(** Recording an event in the metrics. *)
Lemma metrics_step log hist d e :
  daemon_ok log hist d -> event_utf8 e ->
  exists m, update dp_metrics set_metrics (record_event e) d = (Ok tt, set_metrics m d) /\ daemon_ok log hist (set_metrics m d).
Proof.
  intros Hd He. assert (Hm := Hd). destruct Hm as (_ & _ & (es & Hs) & _).
  destruct (record_event_shows es e _ Hs He) as (m & Hr & Hm'). exists m.
  split; [by apply update_Ok|]. by apply set_metrics_ok with (es ++ [e]).
Qed.

Lemma has_valid_token_step log hist d i r req :
  daemon_ok log hist d -> exists d', has_valid_token i r req d = (Ok (pass_state i r req), d')
  /\ daemon_ok log hist d'.
Proof.
  intros Hd. assert (Hv : dp_tokenVerifier d = ver) by apply Hd. unfold has_valid_token, pass_state.
  destruct (String.eqb _ _); [by exists d|]. cbn [negb andb]. rewrite Hv.
  pose proof (Verify_no_panic ver (in_verify i) (GetCookie r DefaultCookieName)
    (MkVerifyContext (rq_RemoteIP req) (header_Get (r_Header r) "User-Agent") (rq_JA3 req) (rq_JA4 req))) as Hn.
  destruct (Verify _ _ _ _) as [cl|e|]; [| |done]; cbn [is_ok].
  - destruct (metrics_step _ _ d (EvPassToken "verified") Hd eq_refl) as (m & Hu & Hm). exists (set_metrics m d).
    split; [|done]. by erewrite W_bind_Ok by exact Hu.
  - destruct (metrics_step _ _ d (EvPassToken "rejected") Hd eq_refl) as (m & Hu & Hm). exists (set_metrics m d).
    split; [|done]. by erewrite W_bind_Ok by exact Hu.
Qed.

(** What a request's decision goes back to: one made now, or one of the log for the same key that had not expired. *)
Definition decided (log log' : list made) (t_get : Z) (key : string) (dec : Decision) : Prop :=
  exists m, m ∈ log ++ log' /\ made_ok m /\ md_key m = key /\ echoes (md_dec pol eval m) dec
  /\ (log' = [m] \/ (m ∈ log /\ t_get <= md_set m + ttl)).

Lemma decide_step log hist d t_get t_now t_set req r tok :
  daemon_ok log hist d -> rq_Request req = Some r -> in_int t_now ->
  exists dec p log', Decide t_get t_now t_set req tok (shared_pipeline d) = (Ok dec, p) /\ daemon_ok (log ++ log') hist (set_pl p d)
  /\ decided log log' t_get (computeCacheKey req tok) dec
  /\ Forall (fun m => exists sigs, m = MkMade req tok t_now t_set sigs) log'.
Proof.
  intros Hd Hr Hn.
  destruct (Decide_inv iter env pol eval ttl Hpol Httl log _ t_get t_now t_set req r tok (shared_ok _ _ _ Hd) Hr Hn)
    as (dec & p & m & Hdec & He & Hk & [(Hm & Hl & Hp)|(sigs & Hm & Hdm & Hp)]).
  - exists dec, p, []. rewrite app_nil_r. split_and!; [done|by apply set_pl_ok with log| |constructor].
    assert (Hok : made_ok m) by (destruct Hp as (_ & _ & _ & _ & Hf & _); rewrite Forall_forall in Hf; by apply Hf).
    exists m. rewrite app_nil_r. eauto 10.
  - exists dec, p, [m]. split_and!; [done|by apply set_pl_ok with log| |apply Forall_singleton; eauto].
    assert (Hok : made_ok m).
    { destruct Hp as (_ & _ & _ & _ & Hf & _). rewrite Forall_forall in Hf. apply Hf, elem_of_app. right. by left. }
    exists m. split_and!; [apply elem_of_app; right; by left|done..|by left].
Qed.

Lemma decided_entry log log' t k dec i r req : decided log log' t k dec -> entry_ok (audit_entry i r req dec).
Proof.
  intros (m & _ & [Hv _] & _ & He & _). unfold entry_ok, audit_entry. cbn [ae_Score ae_Signals].
  assert (Hs : d_Score dec = d_Score (md_dec pol eval m)
    /\ map sig_Name (d_Signals dec) = map sig_Name (d_Signals (md_dec pol eval m))).
  { destruct He as [->|(_ & Hs & _ & _ & _ & Hn & _)%coerce_same_decision]; [done|]. split; [done|]. rewrite Hn.
    unfold md_dec. rewrite combine_signals. apply vocabulary_utf8, (weigh_utf8 (Some pol)) in Hv.
    clear -Hv. induction Hv as [|s l Hs _ IH]; [done|]. cbn. by rewrite IH, utf8_coerce_valid. }
  destruct Hs as [-> Hn]. unfold md_dec in *. rewrite combine_score_clamp. split; [apply clamp_range|].
  rewrite combine_signals in Hn. pose proof (weigh_names (Some pol) (md_sigs m)) as Hw. unfold fmap in Hw.
  change (list_fmap _ _ sig_Name) with (map sig_Name) in Hw. rewrite Hw in Hn.
  apply (Forall_map sig_Name (fun n => n ∈ map fst vocabulary)). rewrite Hn. apply Forall_map. eapply Forall_impl; [exact Hv|].
  intros s Hp. exact (list_elem_of_fmap_2 fst _ _ Hp).
Qed.

Lemma decided_event log log' t k dec lat : decided log log' t k dec -> event_utf8 (EvDecision dec lat).
Proof. intros (m & _ & Hm & _ & He & _). by apply (made_event_utf8 pol eval Hpol Heval m). Qed.

Lemma audit_step log hist d e :
  daemon_ok log hist d -> entry_ok e ->
  exists a, update dp_audit set_audit (Record_ e) d = (Ok tt, set_audit a d) /\ daemon_ok log (hist ++ [e]) (set_audit a d).
Proof.
  intros (? & ? & ? & Ha & Hh & ?) He. destruct (Record_spec _ _ _ e Ha) as (a & Hr & Ha'). exists a.
  split; [by apply update_Ok|]. do 3 (split; [done|]). split; [done|]. split; [|done].
  apply Forall_app. split; [done|]. by apply Forall_singleton.
Qed.

Lemma respond_step log hist d i r dec :
  daemon_ok log hist d -> is_Some (r_URL r) ->
  exists resp d', respond i r dec d = (Ok resp, d') /\ daemon_ok log hist d'
  /\ ((exists c out, resp = Forwarded c out) <-> d_Verdict dec = VerdictAllow /\ is_Some rev).
Proof.
  intros Hd [u Hu]. assert (Hrev : dp_rev d = rev) by apply Hd. unfold respond. destruct (d_Verdict dec).
  - unfold ask, Forward, director. rewrite Hrev. destruct rev as [p|]; [rewrite Hu|]; eexists _, d.
    + split; [reflexivity|]. split; [done|]. split; [done|]. by eexists _, _.
    + split; [reflexivity|]. split; [done|]. split; [by intros (? & ? & ?)|by intros [_ [? ?]]].
  - destruct (metrics_step _ _ d (EvChallenge "issued") Hd eq_refl) as (m & Hup & Hm). eexists _, (set_metrics m d).
    split; [erewrite W_bind_Ok by exact Hup; reflexivity|]. split; [done|]. split; [by intros (? & ? & ?)|by intros [? _]].
  - eexists _, d. split; [reflexivity|]. split; [done|]. split; [by intros (? & ? & ?)|by intros [? _]].
Qed.

Lemma handle_step log hist d i r capture b :
  daemon_ok log hist d -> is_Some (r_URL r) -> in_int (in_now i) ->
  let req := buildRequestContext r capture in
  exists resp d' log' dec, handle i r capture d = (Ok resp, d')
  /\ daemon_ok (log ++ log') (hist ++ [audit_entry i r req dec]) d'
  /\ decided log log' (in_get i) (computeCacheKey req (pass_state i r req)) dec
  /\ Forall (caused (EvMain i r capture b)) log'
  /\ ((exists c out, resp = Forwarded c out) <-> d_Verdict dec = VerdictAllow /\ is_Some rev).
Proof.
  intros Hd Hu Hn req. unfold handle. fold req.
  destruct (has_valid_token_step log hist d i r req Hd) as (d1 & E1 & Hd1). erewrite W_bind_Ok by exact E1.
  destruct (decide_step log hist d1 (in_get i) (in_now i) (in_set i) req r (pass_state i r req) Hd1 eq_refl Hn)
    as (dec & p & log' & E2 & Hd2 & Hdec & Hlog). erewrite W_bind_Ok by (unfold pl_Decide, on; rewrite E2; reflexivity).
  destruct (metrics_step _ _ _ (EvDecision dec (in_latency i)) Hd2 (decided_event _ _ _ _ _ _ Hdec)) as (m & E3 & Hd3).
  erewrite W_bind_Ok by exact E3.
  destruct (audit_step _ _ _ (audit_entry i r req dec) Hd3 (decided_entry _ _ _ _ _ _ _ _ Hdec)) as (a & E4 & Hd4).
  erewrite W_bind_Ok by exact E4.
  destruct (respond_step _ _ _ i r dec Hd4 Hu) as (resp & d' & E5 & Hd5 & Hf).
  exists resp, d', log', dec. split_and!; [exact E5|exact Hd5|exact Hdec| |exact Hf].
  eapply Forall_impl; [exact Hlog|]. intros x (sigs & ->). cbn. done.
Qed.

(** The challenge service answers and keeps its beacon store. *)
Definition service_safe {A} (f : Service -> outcome A * Service) : Prop :=
  forall s, is_Some (s_beacon s) ->
    is_ok (f s).1 = true /\ is_Some (s_beacon (f s).2) /\ s_tokenIssuer (f s).2 = s_tokenIssuer s.

Lemma HandleChallenge_safe now uuid r : is_Some (r_URL r) -> service_safe (HandleChallenge now uuid r).
Proof. intros [u Hu] s Hs. unfold HandleChallenge, NewChallengeID. rewrite Hu. done. Qed.

Lemma HandleVerify_safe now r body : service_safe (HandleVerify now r body).
Proof.
  intros s Hs. unfold HandleVerify. destruct (negb _); [done|]. destruct (Decode _ body) as [req|] eqn:Eb; [|done].
  destruct (ValidateChallengeID _ _ _) as [valid ci].
  destruct (negb valid); [done|]. destruct (negb (verifyPoW _ _ _)); [done|].
  destruct (Score_entries (vr_FingerprintReport req)) as (sigs & -> & _).
  destruct (fold_left total_step sigs (0, [])) as [total reasons]. destruct (s_denyThreshold _ <=? total); [done|].
  match goal with |- context [Issue ?i ?n ?c] => pose proof (Issue_no_panic i n c) as Hn; destruct (Issue i n c) end; done.
Qed.

Lemma HandleBeacon_safe t0 t1 t2 r body :
  service_safe (fun s => let '(a, s) := HandleBeacon t0 t1 t2 r body s in (Ok a, s)).
Proof. intros s [store Hs]. unfold HandleBeacon. destruct (negb _); [cbn; by rewrite Hs|]. destruct (Decode _ body); cbn; by rewrite Hs. Qed.

Lemma service_step {A} log hist d (f : Service -> outcome A * Service) :
  daemon_ok log hist d -> service_safe f ->
  exists a d', on_service f d = (Ok a, d') /\ (f (dp_challengeSvc d)).1 = Ok a /\ daemon_ok log hist d'.
Proof.
  intros Hd Hf. assert (Hs := Hd). destruct Hs as (_ & [Hs Hi] & _). destruct (Hf _ Hs) as (Ho & Hb & Hi').
  unfold on_service, on. destruct (f (dp_challengeSvc d)) as [[a|e|] s]; [|done..]. eexists a, _. split; [reflexivity|].
  split; [done|]. apply set_svc_ok; [done..|]. by rewrite <- Hi.
Qed.

(** A pass cookie holds a token issued for the address and user agent of the request that solved the challenge. *)
Definition redeemed (now : Z) (r : Request) (body : list byte) (cookie : Cookie) : Prop :=
  exists req score, Decode verifyRequest_codec body = Some req
  /\ Issue iss now (MkIssueContext (vr_ChallengeID req) (host_of (r_RemoteAddr r)) (header_Get (r_Header r) "User-Agent")
                      EmptyString EmptyString score) = Ok (ck_Value cookie).

Lemma HandleVerify_redeemed now r body s code cookie target :
  s_tokenIssuer s = iss -> (HandleVerify now r body s).1 = Ok (ReplyRedirect code cookie target) -> redeemed now r body cookie.
Proof.
  intros Hi. unfold HandleVerify. destruct (negb _); [done|]. destruct (Decode _ body) as [req|] eqn:Eb; [|done].
  destruct (ValidateChallengeID _ _ _) as [valid ci]. destruct (negb valid); [done|]. destruct (negb (verifyPoW _ _ _)); [done|].
  destruct (Score _) as [sigs| |]; [|done..]. destruct (fold_left total_step sigs (0, [])) as [total reasons].
  destruct (s_denyThreshold _ <=? total); [done|]. destruct (Issue _ _ _) as [tok| |] eqn:E; [|done..]. intros [= _ <- _].
  exists req, total. split; [done|]. cbn in E. by rewrite Hi in E.
Qed.

Lemma HandleChallenge_page now uuid r s a : (HandleChallenge now uuid r s).1 = Ok a -> exists c h b, a = ReplyPage c h b.
Proof. unfold HandleChallenge, NewChallengeID. destruct (r_URL r); [|done]. intros [= <-]. eauto. Qed.

Lemma HandleBeacon_plain t0 t1 t2 r body s : forall code cookie target, (HandleBeacon t0 t1 t2 r body s).1 <> ReplyRedirect code cookie target.
Proof. intros. unfold HandleBeacon. destruct (negb _); [done|]. by destruct (Decode _ body). Qed.

#[local] Existing Instance W_ret.
#[local] Existing Instance W_bind.

(** What an event's outcome says about the decision log and the audit log. *)
Definition accounted (log log' : list made) (new : list AuditEntry) (e : event) (o : outcome_of_event) : Prop :=
  match e, o with
  | EvMain i r capture _, OutMain (Served resp) =>
      let req := buildRequestContext r capture in
      exists dec, new = [audit_entry i r req dec]
      /\ decided log log' (in_get i) (computeCacheKey req (pass_state i r req)) dec
      /\ ((exists c out, resp = Forwarded c out) <-> d_Verdict dec = VerdictAllow /\ is_Some rev)
  | EvMain i r _ b, OutMain (Replied (ReplyRedirect _ cookie _)) => new = [] /\ redeemed (in_now i) r (mb_body b) cookie
  | _, OutMain (Served _) => False
  | _, _ => new = []
  end.

Definition steps_to (log : list made) (hist : list AuditEntry) (e : event) (d : deps) : Prop :=
  exists o d' log' new, step e d = (Ok o, d') /\ daemon_ok (log ++ log') (hist ++ new) d'
  /\ Forall (caused e) log' /\ accounted log log' new e o.

(** The events that run the pipeline, and the step of the others, which adds nothing to the logs. *)
Definition decides (e : event) : bool :=
  match e with
  | EvMain i r _ _ =>
      match ServeMux main_patterns (Some RProxy) (r_Method r) (in_target i) (in_escaped i) (request_query r) with
      | Handled RProxy => true
      | _ => false
      end
  | EvAdmin i r =>
      match ServeMux admin_patterns None (r_Method r) (ad_target i) (ad_escaped i) (request_query r) with
      | Handled ADecide => true
      | _ => false
      end
  | _ => false
  end.

Definition steps_quietly (log : list made) (hist : list AuditEntry) (e : event) (d : deps) : Prop :=
  exists o d', step e d = (Ok o, d') /\ daemon_ok log hist d' /\ accounted log [] [] e o.

Lemma quiet_step log hist e d : steps_quietly log hist e d -> steps_to log hist e d.
Proof. intros (o & d' & Hs & Hd & Ha). exists o, d', [], []. rewrite !app_nil_r. split_and!; [done..|constructor|done]. Qed.

Lemma service_event log hist d (f : Service -> outcome reply * Service) :
  daemon_ok log hist d -> service_safe f ->
  exists a d', mbind (fun x => mret (OutMain x)) (mbind (fun a => mret (Replied a)) (on_service f)) d
    = (Ok (OutMain (Replied a)), d') /\ (f (dp_challengeSvc d)).1 = Ok a /\ daemon_ok log hist d'.
Proof.
  intros Hd Hf. destruct (service_step log hist d f Hd Hf) as (a & d' & E & Ha & Hd'). exists a, d'. split; [|done].
  unfold mbind, W_bind. by rewrite E.
Qed.

Lemma main_quiet log hist d i r capture b :
  daemon_ok log hist d -> event_ok (EvMain i r capture b) -> decides (EvMain i r capture b) = false ->
  steps_quietly log hist (EvMain i r capture b) d.
Proof.
  intros Hd [Hu Hn] Hq. unfold decides in Hq.
  assert (Hquiet : forall o d', step (EvMain i r capture b) d = (Ok (OutMain o), d') -> daemon_ok log hist d' ->
    match o with
    | Served _ => False
    | Replied (ReplyRedirect _ cookie _) => redeemed (in_now i) r (mb_body b) cookie
    | _ => True
    end -> steps_quietly log hist (EvMain i r capture b) d).
  { intros o d' Hs Hd' Ho. exists (OutMain o), d'. split_and!; [exact Hs|exact Hd'|]. by destruct o as [|[]|]. }
  assert (Hsvc : forall f, service_safe f ->
      (forall code cookie target, (f (dp_challengeSvc d)).1 = Ok (ReplyRedirect code cookie target) ->
         redeemed (in_now i) r (mb_body b) cookie) -> step (EvMain i r capture b) d =
      mbind (fun x => mret (OutMain x)) (mbind (fun a => mret (Replied a)) (on_service f)) d ->
      steps_quietly log hist (EvMain i r capture b) d).
  { intros f Hf Hred Hs. destruct (service_event log hist d f Hd Hf) as (a & d' & E & Ha & Hd'). rewrite E in Hs.
    eapply Hquiet; [done..|]. destruct a; try done. by eapply Hred. }
  destruct (ServeMux main_patterns (Some RProxy) (r_Method r) (in_target i) (in_escaped i) (request_query r))
    as [[]| | | |] eqn:Er; try done; try (eapply Hquiet; [cbn [step]; unfold serve_main; rewrite Er; reflexivity|exact Hd|exact I]).
  - eapply Hsvc; [by apply HandleChallenge_safe|intros code cookie target (? & ? & ? & ?)%HandleChallenge_page; done|cbn [step]; unfold serve_main; rewrite Er; reflexivity].
  - eapply Hsvc; [apply HandleVerify_safe|intros code cookie target; apply HandleVerify_redeemed, Hd|cbn [step]; unfold serve_main; rewrite Er; reflexivity].
  - eapply Hsvc; [apply HandleBeacon_safe| |cbn [step]; unfold serve_main; rewrite Er; reflexivity].
    intros code cookie target Hr.
    pose proof (HandleBeacon_plain (mb_t0 b) (mb_t1 b) (mb_t2 b) r (mb_body b) (dp_challengeSvc d) code cookie target) as Hp.
    cbn beta in Hr. destruct (HandleBeacon _ _ _ _ _ _) as [a s']. cbn in Hr, Hp. congruence.
Qed.

Lemma main_step log hist d i r capture b :
  daemon_ok log hist d -> event_ok (EvMain i r capture b) -> steps_to log hist (EvMain i r capture b) d.
Proof.
  intros Hd He. destruct (decides (EvMain i r capture b)) eqn:Hq; [|by apply quiet_step, main_quiet].
  unfold decides in Hq. destruct (ServeMux _ _ _ _ _ _) as [[]| | | |] eqn:Er; try done. destruct He as [Hu Hn].
  destruct (handle_step log hist d i r capture b Hd Hu Hn) as (resp & d' & log' & dec & E & Hd' & Hdec & Hc & Hf).
  exists (OutMain (Served resp)), d', log', [audit_entry i r (buildRequestContext r capture) dec].
  split_and!; [|done..|by exists dec]. cbn [step]. unfold serve_main. rewrite Er. unfold mbind, W_bind. by rewrite E.
Qed.

Lemma api_token_ok i body : exists tok, api_has_valid_token i body (Some ver) = Ok tok.
Proof.
  unfold api_has_valid_token. destruct (String.eqb _ _); [by eexists|].
  match goal with |- context [Verify ?v ?n ?s ?c] => pose proof (Verify_no_panic v n s c) as Hn; destruct (Verify v n s c) end;
    [by eexists..|done].
Qed.

Lemma admin_decide_step log hist d i r :
  daemon_ok log hist d -> event_ok (EvAdmin i r) ->
  exists a d' log', admin_decide i r d = (Ok a, d') /\ daemon_ok (log ++ log') hist d' /\ Forall (caused (EvAdmin i r)) log'.
Proof.
  intros Hd (Hn & _).
  assert (Hsame : forall a, exists a' d' log', (Ok a : outcome api_reply, set_pl (shared_pipeline d) d) = (Ok a', d')
    /\ daemon_ok (log ++ log') hist d' /\ Forall (caused (EvAdmin i r)) log').
  { intros a. exists a, (set_pl (shared_pipeline d) d), []. rewrite app_nil_r. split_and!; [done| |constructor].
    by eapply set_pl_ok, shared_ok. }
  assert (Hv : dp_tokenVerifier d = ver) by apply Hd.
  unfold admin_decide, decide_ServeHTTP. rewrite Hv. destruct (negb _); [apply Hsame|].
  destruct (ad_body i) as [data|] eqn:Ed; [|apply Hsame]. destruct (Decode _ data) as [body|] eqn:Eb; [|apply Hsame].
  destruct (String.eqb (dr_RemoteIP body) EmptyString); [apply Hsame|].
  destruct (api_request (ad_iter i) (ai_parse_error (ad_api i)) r body) as [s|e|] eqn:Es; [|apply Hsame|].
  2:{ exfalso. unfold api_request, NewRequest in Es. by destruct (negb _); [|destruct (url_Parse _)]. }
  cbn [dh_Verifier dh_Pipeline]. destruct (api_token_ok (ad_api i) body) as [tok Htok]. rewrite Htok.
  destruct (decide_step log hist d (ai_get (ad_api i)) (ai_now (ad_api i)) (ai_set (ad_api i)) (api_context r s body) s tok Hd eq_refl Hn)
    as (dec & p & log' & -> & Hd' & _ & Hl). eexists _, _, log'. split_and!; [reflexivity|done|].
  eapply Forall_impl; [exact Hl|]. intros m (sigs & ->). exists data, body, s. done.
Qed.

Lemma admin_quiet log hist d i r :
  daemon_ok log hist d -> event_ok (EvAdmin i r) -> decides (EvAdmin i r) = false -> steps_quietly log hist (EvAdmin i r) d.
Proof.
  intros Hd He Hq. unfold decides in Hq.
  assert (Hquiet : forall o, step (EvAdmin i r) d = (Ok (OutAdmin o), d) -> steps_quietly log hist (EvAdmin i r) d).
  { intros o Hs. by exists (OutAdmin o), d. }
  destruct (ServeMux admin_patterns None (r_Method r) (ad_target i) (ad_escaped i) (request_query r))
    as [[]| | | |] eqn:Er; try done; try (eapply Hquiet; cbn [step]; unfold serve_admin; rewrite Er; reflexivity).
  - assert (Ha : audit_inv audit_slots hist (dp_audit d)) by apply Hd. eapply Hquiet. cbn [step]. unfold serve_admin. rewrite Er.
    unfold ask, HTTPHandler. unfold mbind at 1, W_bind at 1. rewrite (Since_spec _ _ _ _ Ha). reflexivity.
  - destruct He as (_ & Hp). assert (exists a, policy_handler i d = Ok a) as [a Ha].
    { unfold policy_handler. destruct (String.eqb _ _); [by eexists|]. destruct (ad_policy i); [by eexists..|done]. }
    eapply Hquiet. cbn [step]. unfold serve_admin. rewrite Er. unfold ask. unfold mbind at 1, W_bind at 1. rewrite Ha. reflexivity.
Qed.

Lemma admin_step log hist d i r :
  daemon_ok log hist d -> event_ok (EvAdmin i r) -> steps_to log hist (EvAdmin i r) d.
Proof.
  intros Hd He. destruct (decides (EvAdmin i r)) eqn:Hq; [|by apply quiet_step, admin_quiet].
  unfold decides in Hq. destruct (ServeMux _ _ _ _ _ _) as [[]| | | |] eqn:Er; try done.
  destruct (admin_decide_step log hist d i r Hd He) as (a & d' & log' & E & Hd' & Hl).
  exists (OutAdmin (AdminDecide a)), d', log', []. rewrite app_nil_r. split_and!; [|done..].
  cbn [step]. unfold serve_admin. rewrite Er. unfold mbind, W_bind. by rewrite E.
Qed.

Lemma close_ok log hist d : daemon_ok log hist d -> daemon_ok log hist (close_cache d).
Proof.
  intros Hd. eapply set_pl_ok; [exact Hd|]. destruct Hd as ((Hc & He & Hp & Ht & Hl & c & Hca & Hok & _) & _).
  unfold pipeline_ok. cbn. rewrite Hca. split_and!; [done..|]. eexists. split; [reflexivity|].
  destruct c as [m|c]; [|done]. destruct Hok as (size & Hs & Hwf). destruct (lru_Purge_ok size _ Hwf) as [Hwf' Hm].
  split; [by exists size|]. intros k v exp Hv. cbn in Hv. unfold memory_view in Hv. cbn in Hv. rewrite Hm, fmap_empty in Hv. done.
Qed.

Lemma step_quiet log hist d e : daemon_ok log hist d -> event_ok e -> decides e = false -> steps_quietly log hist e d.
Proof.
  intros Hd He Hq. destruct e as [i r capture b|i r| |]; [by apply main_quiet|by apply admin_quiet| |].
  - eexists _, _. split; [reflexivity|]. by split.
  - eexists _, _. split; [reflexivity|]. split; [by apply close_ok|done].
Qed.

Lemma step_ok log hist d e : daemon_ok log hist d -> event_ok e -> steps_to log hist e d.
Proof.
  intros Hd He. destruct e as [i r capture b|i r| |]; [by apply main_step|by apply admin_step|by apply quiet_step, step_quiet..].
Qed.

(** A trace: every event is answered, and the decision log and the audit log grow as the outcomes say. *)
Inductive trace : list event -> list outcome_of_event -> list made -> list AuditEntry -> Prop :=
| trace_nil : trace [] [] [] []
| trace_snoc es os log hist e o log' new :
    trace es os log hist -> Forall (caused e) log' -> accounted log log' new e o ->
    trace (es ++ [e]) (os ++ [o]) (log ++ log') (hist ++ new).

Lemma run_trace es : forall d past os log hist,
  daemon_ok log hist d -> trace past os log hist -> Forall event_ok es ->
  exists outs log' hist' d', run es d = (map Ok outs, d') /\ daemon_ok log' hist' d' /\ trace (past ++ es) (os ++ outs) log' hist'.
Proof.
  induction es as [|e es IH]; intros d past os log hist Hd Ht He.
  { exists [], log, hist, d. by rewrite !app_nil_r. }
  apply Forall_cons in He as [He Hes]. destruct (step_ok log hist d e Hd He) as (o & d1 & log1 & new & E & Hd1 & Hc & Ha).
  destruct (IH d1 _ _ _ _ Hd1 (trace_snoc _ _ _ _ _ _ _ _ Ht Hc Ha) Hes) as (outs & log' & hist' & d' & Er & Hd' & Ht').
  exists (o :: outs), log', hist', d'. rewrite <- !app_assoc in Ht'. split_and!; [|done..]. cbn [run]. by rewrite E, Er.
Qed.

Lemma trace_length es os log hist : trace es os log hist -> length es = length os.
Proof. induction 1 as [|es os log hist e o log' new _ IH _ _]; [done|]. rewrite !length_app. cbn. lia. Qed.

(** The requests the catch-all handler served, with the time of their audit entry. *)
Definition served (e : event) (o : outcome_of_event) : list (string * string * Z) :=
  match e, o with
  | EvMain i r _ _, OutMain (Served _) => [(host_of (r_RemoteAddr r), in_url i, in_audit i)]
  | _, _ => []
  end.

Lemma accounted_served log log' new e o :
  accounted log log' new e o -> map (fun a => (ae_IP a, ae_URL a, ae_Timestamp a)) new = served e o.
Proof.
  intros Ha. destruct e as [i r capture b|i r| |], o as [[resp|rep|]|a|]; cbn in Ha |- *; try (by rewrite Ha); try done.
  - by destruct Ha as (dec & -> & _).
  - destruct rep; try (by rewrite Ha). by destruct Ha as [-> _].
Qed.

Lemma trace_served es os log hist :
  trace es os log hist ->
  map (fun a => (ae_IP a, ae_URL a, ae_Timestamp a)) hist = concat (zip_with served es os).
Proof.
  induction 1 as [|es os log hist e o log' new Ht IH _ Ha]; [done|]. apply trace_length in Ht.
  rewrite zip_with_app, concat_app, map_app, IH by done. f_equal. cbn. rewrite app_nil_r. by eapply accounted_served.
Qed.
End traffic.

(** ** What holds of the deployed daemon *)
Section deployed.
Context `{CEL} `{RedisClient} `{LRULaws entry} `{JWTLaws} `{LRU Z} `{LRULaws Ip.Entry} `{PromLaws}.
#[local] Existing Instance backend_cache | 0.
#[local] Existing Instance backend_spec | 0.

(** A daemon that came up with the memory cache and a policy whose rule names are UTF-8 and whose weights are [int]s. *)
Definition deployed (h : Host) (cfg : appConfig) (d : deps) : Prop :=
  buildDeps h cfg = Ok d /\ cac_Backend (pc_Cache (ac_Policy cfg)) ∈ [EmptyString; "memory"] /\ policy_wf (ac_Policy cfg).

Lemma deployed_ok h cfg d :
  deployed h cfg d -> exists eval, NewEvaluator (ac_Policy cfg) = Ok eval /\ 0 < p_cacheTTL (dp_pl d)
  /\ daemon_ok (ho_iter h) (ho_ip h) (ac_Policy cfg) eval (p_cacheTTL (dp_pl d)) (dp_tokenVerifier d) (s_tokenIssuer (dp_challengeSvc d)) (dp_rev d) [] [] d.
Proof.
  intros (Hb & Hm & Hw). apply buildDeps_spec in Hb as (m & key & c & eval & rev & E1 & _ & Hc & He & _ & ->).
  exists eval. split; [done|]. cbn [dp_pl build_pipeline Pipeline.New p_cacheTTL dp_tokenVerifier].
  split; [unfold defaultCacheTTL; cbn; case_match; lia|].
  unfold daemon_ok. split; [|cbn -[NewAudit]; split_and!; [done|done| | |constructor|done|done]].
  - unfold pipeline_ok. split_and!; [|done..|constructor|].
    + destruct (NewCache_ok (ho_ip h) 65536) as [n Hn].
      exists [], NewHeadersCollector, n, (ip_New 65536), (Some NewHttp2Collector), NewBeaconStore.
      split_and!; [apply tracker_start|exact Hn|done].
    + exists c. split; [done|]. assert (c = BackendMemory (NewMemory 0)) as ->.
      { unfold Cache.New in Hc. rewrite !elem_of_cons, elem_of_nil in Hm. destruct Hm as [Hm|[Hm|[]]]; rewrite Hm in Hc; by injection Hc as <-. }
      destruct (NewMemory_ok 0) as [Hok Hv]. split; [exact Hok|]. intros k v exp Hk. cbn in Hk. by rewrite Hv in Hk.
  - destruct NewMetrics_shows as (m' & E & Hs). exists []. congruence.
  - by apply NewAudit_inv.
Qed.

(** The runs of a deployed daemon are traces, from an evaluator built for its policy. *)
Lemma deployed_run h cfg d es :
  deployed h cfg d -> Forall event_ok es ->
  exists eval outs log hist, NewEvaluator (ac_Policy cfg) = Ok eval /\ (run es d).1 = map Ok outs
  /\ daemon_ok (ho_iter h) (ho_ip h) (ac_Policy cfg) eval (p_cacheTTL (dp_pl d)) (dp_tokenVerifier d)
       (s_tokenIssuer (dp_challengeSvc d)) (dp_rev d) log hist (run es d).2
  /\ trace (ac_Policy cfg) eval (p_cacheTTL (dp_pl d)) (dp_tokenVerifier d) (s_tokenIssuer (dp_challengeSvc d)) (dp_rev d)
       es outs log hist.
Proof.
  intros Hd He. assert (Hw := Hd). destruct Hw as (_ & _ & Hw). destruct (deployed_ok h cfg d Hd) as (eval & Hev & Httl & Hok).
  destruct (run_trace _ _ _ eval _ _ _ _ Hw Hev Httl es d [] [] [] [] Hok (trace_nil _ _ _ _ _ _) He)
    as (outs & log & hist & d' & Hr & Hd' & Ht). exists eval, outs, log, hist. rewrite Hr. done.
Qed.

(** Every request is answered: from the state the daemon builds, for any sequence of requests on the two listeners
    (and readiness changes and shutdown) each handler returns; none panics, whatever the requests' bytes.  The fuel of the parsers suffices: running
    out of it would be a panic. *)
Theorem daemon_answers h cfg d es :
  deployed h cfg d -> Forall event_ok es -> Forall (fun o => is_ok o = true) (run es d).1 /\ length (run es d).1 = length es.
Proof.
  intros Hd He. destruct (deployed_run h cfg d es Hd He) as (eval & outs & log & hist & _ & -> & _ & Ht).
  apply trace_length in Ht. split; [|by rewrite length_map]. apply Forall_map, Forall_forall. done.
Qed.

(** The audit log is complete and bounded: after any run it holds exactly the requests the catch-all handler served,
    in order, with their address, URL and time, down to the last 10,000. *)
Theorem audit_complete h cfg d es :
  deployed h cfg d -> Forall event_ok es ->
  exists outs hist, (run es d).1 = map Ok outs
  /\ map (fun a => (ae_IP a, ae_URL a, ae_Timestamp a)) hist = concat (zip_with served es outs)
  /\ forall t, Since t (dp_audit (run es d).2) = Ok (List.filter (fun a => t <=? ae_Timestamp a) (lastn audit_slots hist)).
Proof.
  intros Hd He. destruct (deployed_run h cfg d es Hd He) as (eval & outs & log & hist & _ & Hr & Hok & Ht).
  exists outs, hist. split_and!; [done|by apply trace_served in Ht|]. intros t. apply Since_spec, Hok.
Qed.

(** C37: the scores in the audit log are between 0 and 100, and its signals are named by the sixteen names the deployed
    collectors report; among them are neither [no_referer] nor [mobile_ip] nor [residential_ip]. *)
Theorem signal_vocabulary h cfg d es t entries :
  deployed h cfg d -> Forall event_ok es -> Since t (dp_audit (run es d).2) = Ok entries ->
  Forall (fun a => 0 <= ae_Score a <= 100 /\ Forall (fun s => sig_Name s ∈ map fst vocabulary) (ae_Signals a)) entries
  /\ length vocabulary = 16%nat /\ Forall (fun n => n ∉ map fst vocabulary) ["no_referer"; "mobile_ip"; "residential_ip"].
Proof.
  intros Hd He Hs. destruct (deployed_run h cfg d es Hd He) as (eval & outs & log & hist & _ & _ & Hok & _).
  destruct Hok as (_ & _ & _ & Ha & Hh & _). rewrite (Since_spec _ _ _ _ Ha) in Hs. injection Hs as <-. split_and!; [|done|].
  - apply Forall_forall. intros a Hin. apply list_elem_of_In, List.filter_In in Hin as [Hin _].
    rewrite Forall_forall in Hh. apply Hh. unfold lastn in Hin. apply list_elem_of_In in Hin. by eapply elem_of_sublist, sublist_drop.
  - refine (bool_decide_unpack _ _). vm_compute. exact I.
Qed.

(** ** A solved challenge *)
Lemma jwt_byte_octet c : jwt_byte c = true -> cookie_octet c = true.
Proof. destruct c as [[] [] [] [] [] [] [] []]; vm_compute; auto. Qed.

Lemma jwt_octets t : all_bytes jwt_byte t = true -> all_bytes cookie_octet t = true.
Proof.
  induction t as [|c t IH]; [done|]. cbn. rewrite !andb_true_iff. intros [Hc Ht]. split; [by apply jwt_byte_octet|by apply IH].
Qed.

(** The cookies of a browser that holds the pass cookie, no earlier one of that name among them. *)
Definition sends_cookie (r : Request) (tok : string) : Prop :=
  exists pre post, header_Values (r_Header r) "Cookie" = [cookie_line (pre ++ (DefaultCookieName, tok) :: post)]
  /\ forallb cookie_wf pre = true /\ forallb cookie_wf post = true /\ Forall (fun p => p.1 <> DefaultCookieName) pre.

Definition same_visitor (r r' : Request) : Prop :=
  host_of (r_RemoteAddr r') = host_of (r_RemoteAddr r)
  /\ header_Get (r_Header r') "User-Agent" = header_Get (r_Header r) "User-Agent".

(** The texts a token carries of the request that solved the challenge are UTF-8. *)
Definition request_utf8 (r : Request) : Prop :=
  valid_utf8 (host_of (r_RemoteAddr r)) = true /\ valid_utf8 (header_Get (r_Header r) "User-Agent") = true.

(** The challenge identifier is, since the decoder makes it so. *)
Lemma decoded_challenge_id body q : Decode verifyRequest_codec body = Some q -> valid_utf8 (vr_ChallengeID q) = true.
Proof.
  unfold Decode. destruct (json_first body) as [j|] eqn:Ej; [|done]. apply json_first_valid in Ej. cbn [mbind option_bind].
  change (dec verifyRequest_codec) with (into_struct verifyRequest_tags (fun a : verifyRequest =>
    (vr_PowSolution a, (vr_FingerprintReport a, (vr_ChallengeID a, (vr_OriginURL a, tt)))))
    (fun '(v0, (v1, (v2, (v3, tt)))) => MkVerifyRequest v0 v1 v2 v3)).
  destruct j as [|b|lit|s|l|l]; cbn [into_struct]; try done; [by intros [= <-]|].
  destruct (decode_fields _ _ l _) as [(v0 & v1 & v2 & v3 & [])|] eqn:E; [|done]. intros [= <-]. cbn [vr_ChallengeID].
  apply (decode_fields_inv _ _ (fun p => valid_utf8 p.2.2.1 = true)) in E; [done| |exact Ej|done].
  clear. intros n j (w0 & w1 & w2 & w3 & []) a' Hj Hp. cbn [fst snd] in Hp. unfold verifyRequest_tags, tag. cbn [set_field fst snd].
  destruct (String.eqb n "pow_solution"); [destruct (dec string_codec w0 j); [|done]; by intros [= <-]|].
  destruct (String.eqb n "fingerprint_report"); [destruct (dec FingerprintReport_codec w1 j); [|done]; by intros [= <-]|].
  destruct (String.eqb n "challenge_id").
  - destruct j as [| | |s| |]; cbn [string_codec dec into_string]; try done; by intros [= <-].
  - destruct (String.eqb n "origin_url"); [destruct (dec string_codec w3 j); [|done]; by intros [= <-]|]. by intros [= <-].
Qed.

Lemma EqualFold_refl x : EqualFold x x = true.
Proof. unfold EqualFold. by apply bool_decide_true. Qed.

Lemma redeemed_passes key ttl bindTo i r body cookie i' r' capture :
  redeemed (NewIssuer key ttl bindTo) (in_now i) r body cookie -> request_utf8 r -> same_visitor r r' ->
  sends_cookie r' (ck_Value cookie) -> in_verify i' < (in_now i + ttl) / Second * Second ->
  pass_state (NewVerifier key bindTo) i' r' (buildRequestContext r' capture) = true.
Proof.
  intros (q & score & Hq & Hi) (U1 & U2) (Hip & Hua) (pre & post & Hh & Hw1 & Hw2 & Hpre) Ht.
  pose proof (decoded_challenge_id _ _ Hq) as U3.
  assert (Hj : ck_Value cookie <> EmptyString /\ all_bytes jwt_byte (ck_Value cookie) = true).
  { unfold Issue in Hi. apply wrap_err_ok in Hi. by eapply jwt_signed_text. }
  destruct Hj as [Hne Hoct%jwt_octets]. unfold pass_state, GetCookie.
  rewrite (request_Cookie_line r' DefaultCookieName (pre ++ (DefaultCookieName, ck_Value cookie) :: post) pre (ck_Value cookie) post); [|done| |exact Hh|done|done].
  2:{ rewrite forallb_app, Hw1. cbn [forallb]. rewrite Hw2. unfold cookie_wf. cbn [fst snd]. rewrite Hoct. done. }
  destruct (String.eqb_spec (ck_Value cookie) EmptyString); [done|]. cbn [negb andb].
  rewrite (Verify_same_client key ttl bindTo _ _ _ _ _ Hi); [done| |done|].
  - unfold context_utf8. cbn [ic_FingerprintHash ic_IP ic_UA ic_JA3 ic_JA4]. by rewrite U1, U2, U3.
  - apply Forall_forall. intros f _. unfold same_client. cbn [ic_IP ic_UA ic_JA3 ic_JA4 vc_IP vc_UA vc_JA3 vc_JA4
      buildRequestContext rq_RemoteIP rq_JA3 rq_JA4]. rewrite Hip, Hua, EqualFold_refl. done.
Qed.

(** A decision for a request with a pass cookie allows it below the deny threshold. *)
Lemma pass_allows pol eval m req :
  md_key m = computeCacheKey req true -> d_Score (md_dec pol eval m) < deny_threshold (Some pol) ->
  d_Verdict (md_dec pol eval m) = VerdictAllow \/ keys_collide (md_req m) (md_tok m) req true.
Proof.
  intros Hkey Hlt. destruct (key_token _ _ _ _ Hkey) as [Htok|Hcol]; [left|by right].
  unfold md_dec in *. rewrite combine_verdict. cbv zeta. rewrite Htok. by replace (_ <? _) with true by (rewrite Htok in Hlt; lia).
Qed.

End deployed.

(** ** Examples *)
#[local] Existing Instance toy_cel.
#[local] Existing Instance toy_jwt.
#[local] Existing Instance toy_jwt_laws.
#[local] Existing Instance toy_prom.
#[local] Existing Instance toy_prom_laws.
#[local] Existing Instance list_lru.
#[local] Existing Instance list_lru_laws.
#[local] Existing Instance no_redis.
#[local] Existing Instance backend_cache | 0.
#[local] Existing Instance backend_spec | 0.

(** A policy that challenges everyone. *)
Definition strict_app : appConfig := MkAppConfig {|
  pc_Version := 1;
  pc_Listener := MkListenerConfig ":8080" "http://localhost:3000" None;
  pc_Token := MkTokenConfig "" "24h" ["ip"; "ua"];
  pc_Policy := MkPolicySection "challenge" [];
  pc_Scoring := MkScoringConfig {["header_order_anomaly" := 5]} 50 80;
  pc_Challenge := MkChallengeConfig 8 true;
  pc_Cache := MkCacheConfig "memory" None 60
|} "policy.yaml" ":8080" "http://localhost:3000" "key".

Definition strict_outs (es : list event) : list (outcome outcome_of_event) :=
  match buildDeps sample_host strict_app with Ok d => (run es d).1 | _ => [] end.

(** The challenge page, the verification with its solution, and the request that brings the pass cookie. *)
Definition empty_body : MainBody := MkMainBody [] "bundle" 0 0 0.
Definition at_ingress (path : string) (t : Z) : Ingress := MkIngress path path path path true "abc" t t t t t 5.
Definition at_request (path method : string) (h : Header) : Request :=
  MkRequest method (Some (MkURL "" "" path "")) 1 1 h "example.org" "203.0.113.7:4001" [].
Definition at_path (path method : string) (h : Header) (t : Z) (b : MainBody) : event :=
  EvMain (at_ingress path t) (at_request path method h) None b.
Definition ua_header : Header := {["User-Agent" := ["Mozilla/5.0"]]}.
Definition solve_body : MainBody :=
  MkMainBody (default [] (Encode verifyRequest_codec (MkVerifyRequest "252" iphone_report "abc" "/a"))) "bundle" 0 0 0.
Definition solving : list event :=
  [at_path "/__as/challenge" "GET" ua_header 1 empty_body; at_path "/__as/verify" "POST" ua_header 2 solve_body].

Definition issued_cookie : Cookie :=
  match strict_outs solving !! 1%nat with
  | Some (Ok (OutMain (Replied (ReplyRedirect _ cookie _)))) => cookie
  | _ => SetCookie EmptyString EmptyString 0 false
  end.
Definition pass_header : Header :=
  <["Cookie" := [cookie_line [("lang", "en"); (DefaultCookieName, ck_Value issued_cookie)]]]> ua_header.
Definition solved_run : list event := solving ++ [at_path "/a" "GET" pass_header 3 empty_body].

Lemma strict_deployed : exists d, deployed sample_host strict_app d /\ is_Some (dp_rev d) /\ forall es, strict_outs es = (run es d).1.
Proof.
  assert (Hok : is_ok (buildDeps sample_host strict_app) = true) by (vm_compute; reflexivity). unfold strict_outs, deployed.
  assert (Hrev : match buildDeps sample_host strict_app with Ok d => bool_decide (is_Some (dp_rev d)) | _ => false end = true)
    by (vm_compute; reflexivity).
  destruct (buildDeps sample_host strict_app) as [d|e|]; [|discriminate Hok..]. exists d. apply bool_decide_eq_true in Hrev.
  split; [|by split]. split; [done|]. split; [refine (bool_decide_unpack _ _); vm_compute; exact I|].
  split; [|constructor]. apply map_Forall_singleton. unfold in_int, int_min, int_max. lia.
Qed.

Lemma at_path_ok path method h t b : in_int t -> event_ok (at_path path method h t b).
Proof. intros Ht. by split; [eexists|]. Qed.

Lemma solved_run_ok : Forall event_ok solved_run.
Proof.
  assert (Hi : forall t, 0 <= t <= 3 -> in_int t) by (intros t; unfold in_int, int_min, int_max; lia).
  repeat (apply Forall_cons; split; [apply at_path_ok, Hi; lia|]). constructor.
Qed.

Lemma daemon_answers_witness : exists d, Forall (fun o => is_ok o = true) (run solved_run d).1.
Proof.
  destruct strict_deployed as (d & Hd & _). exists d. apply (daemon_answers sample_host strict_app d solved_run Hd solved_run_ok).
Defined.

Lemma audit_complete_witness :
  exists d outs hist, (run solved_run d).1 = map Ok outs
    /\ map (fun a => (ae_IP a, ae_URL a, ae_Timestamp a)) hist = concat (zip_with served solved_run outs).
Proof.
  destruct strict_deployed as (d & Hd & _). exists d.
  destruct (audit_complete sample_host strict_app d solved_run Hd solved_run_ok) as (outs & hist & H1 & H2 & _).
  exact (ex_intro _ outs (ex_intro _ hist (conj H1 H2))).
Defined.

Lemma signal_vocabulary_witness :
  exists d entries, Since 0 (dp_audit (run solved_run d).2) = Ok entries
    /\ Forall (fun a => 0 <= ae_Score a <= 100 /\ Forall (fun s => sig_Name s ∈ map fst vocabulary) (ae_Signals a)) entries.
Proof.
  destruct strict_deployed as (d & Hd & _). exists d.
  destruct (deployed_run _ _ _ _ Hd solved_run_ok) as (eval & outs & log & hist & _ & _ & (_ & _ & _ & Ha & _) & _).
  eexists. split; [exact (Since_spec _ _ _ 0 Ha)|].
  apply (signal_vocabulary sample_host strict_app d solved_run 0 _ Hd solved_run_ok), Since_spec, Ha.
Defined.
