(* ===== verification/Concurrent.v ===== *)
(** * The daemon under concurrent requests ([cmd/antiscrapling/wire.go], [internal/pipeline], [internal/challenge])

    [net/http] runs every request in a goroutine of its own, and the pipeline one more for each collector.  Here a
    handler is a program of atomic actions on the daemon's state, an action being one operation of a component that
    synchronises by itself (the LRU library, the audit log, the metrics, the beacon store, a collector, of which [Headers] and
    [Ip] show that overlapping calls are linearizable), and a
    configuration is a pool of such programs.  Requests arrive at any time, any unfinished program may take the
    next step, and the collectors of a request may run in any order, between the steps of other requests.

    Two operations of the code are more than one action, because the LRU library locks only each of its calls: a
    lookup of the decision cache that finds an expired entry removes it in a second call, and the check of a
    challenge identifier looks it up and removes it in two. *)

From S2P Require Import Prelude UnicodeTables GoStrings GoStd JsonText GoNumber GoUrl GoNet Crypto Types GoHttp Decision Policy Token Cache.
From S2P Require Import Json Utf8Valid Codec Bodies Ip Pipeline Fingerprint Behavior Challenge Headers Observability Metrics Proxy.
From S2P Require Import Server TlsFingerprint Http2 Api Wire Deploy.
#[local] Open Scope Z_scope.

(** ** Programs of atomic actions *)
Section programs.
Context `{CEL} `{CacheIf} `{JWT} `{LRU Z} `{Prom}.

(** An action changes the state and gives a value to what follows; the number is the scheduler's choice. *)
Inductive prog (A : Type) : Type :=
| Ret (a : A)
| Act {X : Type} (m : nat -> W X) (k : X -> prog A).
#[global] Arguments Ret {A}.
#[global] Arguments Act {A X}.

Fixpoint prog_then {A B} (f : A -> prog B) (p : prog A) : prog B :=
  match p with
  | Ret a => f a
  | Act m k => Act m (fun x => prog_then f (k x))
  end.

#[local] Instance prog_ret : MRet prog := @Ret.
#[local] Instance prog_bind : MBind prog := fun A B f p => prog_then f p.

(** One atomic operation. *)
Definition act {A} (m : W A) : prog A := Act (fun _ => m) Ret.

(** The next step; [None] when the program has ended. *)
Definition prog_step {A} (c : nat) (p : prog A) (d : deps) : option (outcome (prog A) * deps) :=
  match p with
  | Ret _ => None
  | Act m k =>
      Some match m c d with
           | (Ok x, d) => (Ok (k x), d)
           | (Err e, d) => (Err e, d)
           | (Panic, d) => (Panic, d)
           end
  end.

(** A program with nobody else running. *)
Fixpoint alone {A} (p : prog A) : W A :=
  match p with
  | Ret a => fun d => (Ok a, d)
  | Act m k => W_bind _ _ (fun x => alone (k x)) (m O)
  end.

Lemma alone_then {A B} (f : A -> prog B) p d : alone (prog_then f p) d = W_bind A B (fun a => alone (f a)) (alone p) d.
Proof.
  revert d. induction p as [a|X m k IH]; intros d; [done|]. cbn. unfold W_bind. destruct (m O d) as [[x|e|] d']; [|done..]. apply IH.
Qed.

(** ** The pipeline *)
Definition set_collector (n : nat) (c : collector) (d : deps) : deps :=
  set_pl (MkPipeline (<[n := c]> (shared_collectors d)) (p_evaluator (dp_pl d)) (p_cache (dp_pl d)) (p_cacheTTL (dp_pl d)) (p_policy (dp_pl d))) d.

(** The goroutine of one collector; the choice says which of those not yet run is next. *)
Definition collect_next (req : RequestContext) (todo : list nat) (c : nat) : W (nat * list Signal) := fun d =>
  let n := default O (todo !! (c mod length todo)%nat) in
  match shared_collectors d !! n with
  | None => (Panic, d)
  | Some col =>
      match collect1 req col with
      | (Some sigs, col) => (Ok ((c mod length todo)%nat, sigs), set_collector n col d)
      | (None, col) => (Panic, set_collector n col d)
      end
  end.

(** [collectParallel]: [todo] are the collectors that have not run, [slots] what the others reported. *)
Fixpoint collect_from (req : RequestContext) (fuel : nat) (todo : list nat) (slots : list (list Signal)) : prog (list Signal) :=
  match fuel with
  | O => Ret (concat slots)
  | S fuel =>
      Act (collect_next req todo) (fun '(k, sigs) =>
        collect_from req fuel (delete k todo) (<[default O (todo !! k) := sigs]> slots))
  end.
Definition collect_prog (req : RequestContext) (n : nat) : prog (list Signal) := collect_from req n (seq 0 n) (replicate n []).
End programs.

(** ** The two calls behind a lookup that finds an expired entry (memory.go) *)
Section handlers.
Context `{CEL} `{RedisClient} `{LRU entry} `{JWT} `{LRU Z} `{Prom}.
#[local] Existing Instance backend_cache | 0.
#[local] Existing Instance W_ret.
#[local] Existing Instance W_bind.
#[local] Existing Instance prog_ret.
#[local] Existing Instance prog_bind.

(** [m.lru.Get] and what is made of it; the flag says that [m.lru.Remove] follows. *)
Definition backend_peek (now : Z) (key : string) (b : backend) : get_result * bool * backend :=
  match b with
  | BackendMemory m =>
      let '(e, l) := lru_Get key (mc_lru m) in
      match e with
      | None => (([], false, None), false, BackendMemory (MkMemoryCache l))
      | Some e =>
          if match e_expiresAt e with Some t => t <? now | None => false end
          then (([], false, None), true, BackendMemory (MkMemoryCache l))
          else ((e_value e, true, None), false, BackendMemory (MkMemoryCache l))
      end
  | BackendRedis c => let '(r, c) := redis_Get now key c in (r, false, BackendRedis c)
  end.
Definition backend_drop (key : string) (b : backend) : backend :=
  match b with BackendMemory m => BackendMemory (MkMemoryCache (lru_Remove key (mc_lru m))) | BackendRedis c => BackendRedis c end.

Definition set_cache (c : option backend) (d : deps) : deps :=
  set_pl (MkPipeline (shared_collectors d) (p_evaluator (dp_pl d)) c (p_cacheTTL (dp_pl d)) (p_policy (dp_pl d))) d.

(** The lookup of [Decide]: what was found, whether a removal follows, and the number of collectors, which never changes. *)
Definition peek (t_get : Z) (key : string) : W (option Decision * bool * nat) := fun d =>
  let n := length (shared_collectors d) in
  match p_cache (dp_pl d) with
  | None => (Ok (None, false, n), set_cache None d)
  | Some c =>
      let '((data, hit, _), expired, c) := backend_peek t_get key c in
      (Ok (if hit && (0 <? len data) then Unmarshal data else None, expired, n), set_cache (Some c) d)
  end.
Definition drop_expired (key : string) : W unit := fun d => (Ok tt, set_cache (backend_drop key <$> p_cache (dp_pl d)) d).

(** [Combine] on the collected signals and [cache.Set]. *)
Definition combine_store (t_now t_set : Z) (req : RequestContext) (tok : bool) (signals : list Signal) : W Decision :=
  on shared_pipeline set_pl (fun p =>
    let d := Combine t_now signals (p_policy p) (buildRequestInfo req) tok (buildEvalFn p) in
    (Ok d, MkPipeline (p_collectors p) (p_evaluator p) (cache_store t_set (computeCacheKey req tok) d (p_cacheTTL p) (p_cache p))
             (p_cacheTTL p) (p_policy p))).

Definition Decide_prog (t_get t_now t_set : Z) (req : RequestContext) (tok : bool) : prog Decision :=
  '(hit, expired, n) ← act (peek t_get (computeCacheKey req tok));
  match hit with
  | Some d => Ret d
  | None =>
      _ ← if expired : bool then act (drop_expired (computeCacheKey req tok)) else Ret tt;
      signals ← collect_prog req n;
      act (combine_store t_now t_set req tok signals)
  end.

(** ** The catch-all handler *)
Definition handle_prog (i : Ingress) (r : Request) (capture : option (list byte)) : prog response :=
  let req := buildRequestContext r capture in
  tok ← act (has_valid_token i r req);
  dec ← Decide_prog (in_get i) (in_now i) (in_set i) req tok;
  _ ← act (update dp_metrics set_metrics (RecordDecision dec (in_latency i)));
  _ ← act (update dp_audit set_audit (Record_ (audit_entry i r req dec)));
  act (respond i r dec).

(** ** [HandleVerify]: the identifier is looked up in one call and removed in another *)
Definition ids_Get (id : string) : W (option Z) := on_service (fun s =>
  let '(issued, ids) := lru_Get id (ci_ids (s_issuer s)) in
  (Ok issued, set_issuer s (MkChallengeIssuer (ci_powDifficulty (s_issuer s)) ids))).
Definition ids_Remove (id : string) (s : Service) : Service :=
  set_issuer s (MkChallengeIssuer (ci_powDifficulty (s_issuer s)) (lru_Remove id (ci_ids (s_issuer s)))).

(** What follows the check of the identifier. *)
Definition verify_rest (now : Z) (r : Request) (req : verifyRequest) (s : Service) : outcome reply :=
  if negb (verifyPoW (vr_ChallengeID req) (vr_PowSolution req) (ci_powDifficulty (s_issuer s)))
  then Ok (ReplyError 400 "invalid proof of work")
  else
    match Score (vr_FingerprintReport req) with
    | Err _ => Ok (ReplyError 500 "fingerprint scoring error")
    | Panic => Panic
    | Ok signals =>
        let '(total, reasons) := fold_left total_step signals (0, []) in
        if s_denyThreshold s <=? total then Ok (ReplyScore 403 "fingerprint score too high" total reasons)
        else
          match Issue (s_tokenIssuer s) now
                  (MkIssueContext (vr_ChallengeID req) (host_of (r_RemoteAddr r))
                     (header_Get (r_Header r) "User-Agent") EmptyString EmptyString total) with
          | Err _ => Ok (ReplyError 500 "token issuance failed")
          | Panic => Panic
          | Ok tok =>
              let target := if String.eqb (vr_OriginURL req) EmptyString then "/" else vr_OriginURL req in
              Ok (ReplyRedirect 302 (SetCookie DefaultCookieName tok (s_cookieTTL s) false) target)
          end
    end.

(** The removal, and the answer, for which nothing else of the shared state is read. *)
Definition verify_found (now : Z) (r : Request) (req : verifyRequest) (issued : Z) : W reply := on_service (fun s =>
  let s := ids_Remove (vr_ChallengeID req) s in
  (if challengeTTL <? now - issued then Ok (ReplyError 400 "invalid or expired challenge_id") else verify_rest now r req s, s)).

Definition HandleVerify_prog (now : Z) (r : Request) (body : list byte) : prog reply :=
  if negb (String.eqb (r_Method r) "POST") then Ret (ReplyError 405 "method not allowed")
  else
    match Decode verifyRequest_codec body with
    | None => Ret (ReplyError 400 "bad request")
    | Some req =>
        issued ← act (ids_Get (vr_ChallengeID req));
        match issued with
        | None => Ret (ReplyError 400 "invalid or expired challenge_id")
        | Some issued => act (verify_found now r req issued)
        end
    end.

(** ** The decision API: everything before [Decide] reads nothing that changes *)
Definition decide_prefix (i : AdminIngress) (r : Request) (v : Verifier) : outcome (api_reply + RequestContext * bool) :=
  if negb (String.eqb (r_Method r) "POST") then Ok (inl (ApiError 405 "method not allowed"))
  else
    match ad_body i with
    | None => Ok (inl (ApiError 400 "bad request: empty body"))
    | Some data =>
        match Decode DecisionRequest_codec data with
        | None => Ok (inl (ApiError 400 ("bad request: " +:+ ai_json_error (ad_api i) data)))
        | Some req =>
            if String.eqb (dr_RemoteIP req) EmptyString then Ok (inl (ApiError 400 "bad request: remote_ip required"))
            else
              match api_request (ad_iter i) (ai_parse_error (ad_api i)) r req with
              | Err e => Ok (inl (ApiError 500 ("internal error: " +:+ e)))
              | Panic => Panic
              | Ok s => tok ← api_has_valid_token (ad_api i) req (Some v); Ok (inr (api_context r s req, tok))
              end
        end
    end.

Definition admin_decide_prog (i : AdminIngress) (r : Request) : prog api_reply :=
  req ← act (fun d => (decide_prefix i r (dp_tokenVerifier d), set_pl (shared_pipeline d) d));
  match req with
  | inl a => Ret a
  | inr (req, tok) =>
      dec ← Decide_prog (ai_get (ad_api i)) (ai_now (ad_api i)) (ai_set (ad_api i)) req tok;
      Ret (ApiDecision (stamp (ad_api i) dec))
  end.

(** ** Every event as a program: those that do a single operation are one action *)
Definition event_prog (e : event) : prog outcome_of_event :=
  match e with
  | EvMain i r capture b =>
      match ServeMux main_patterns (Some RProxy) (r_Method r) (in_target i) (in_escaped i) (request_query r) with
      | Handled RProxy => a ← handle_prog i r capture; Ret (OutMain (Served a))
      | Handled RVerify => a ← HandleVerify_prog (in_now i) r (mb_body b); Ret (OutMain (Replied a))
      | _ => act (step e)
      end
  | EvAdmin i r =>
      match ServeMux admin_patterns None (r_Method r) (ad_target i) (ad_escaped i) (request_query r) with
      | Handled ADecide => a ← admin_decide_prog i r; Ret (OutAdmin (AdminDecide a))
      | _ => act (step e)
      end
  | _ => act (step e)
  end.

(** ** Configurations: the programs of the requests that arrived, in order of arrival

    [th_seen] is a history variable: the states of the daemon in which the request took its steps. *)
Record thread := MkThread { th_event : event; th_prog : prog outcome_of_event; th_seen : list deps }.
Definition th_steps (t : thread) : nat := length (th_seen t).

Definition spawn (e : event) : thread := MkThread e (event_prog e) [].
Definition result (t : thread) : option outcome_of_event := match th_prog t with Ret o => Some o | Act _ _ => None end.

Inductive cstep : list thread * deps -> list thread * deps -> Prop :=
| cstep_arrive e ts d : event_ok e -> cstep (ts, d) (ts ++ [spawn e], d)
| cstep_run n c t p d' ts d :
    ts !! n = Some t -> prog_step c (th_prog t) d = Some (Ok p, d') ->
    cstep (ts, d) (<[n := MkThread (th_event t) p (th_seen t ++ [d])]> ts, d').

(** Schedules, executable: a request arrives, or the [n]th takes a step with the choice [c]. *)
Inductive move := Arrive (e : event) | Run (n c : nat).

Definition do_move (m : move) (c : list thread * deps) : option (list thread * deps) :=
  match m with
  | Arrive e => Some (c.1 ++ [spawn e], c.2)
  | Run n ch =>
      t ← c.1 !! n;
      match prog_step ch (th_prog t) c.2 with
      | Some (Ok p, d) => Some (<[n := MkThread (th_event t) p (th_seen t ++ [c.2])]> c.1, d)
      | _ => None
      end
  end.
Fixpoint exec (ms : list move) (c : list thread * deps) : option (list thread * deps) :=
  match ms with
  | [] => Some c
  | m :: ms => c ← do_move m c; exec ms c
  end.

Definition move_ok (m : move) : Prop := match m with Arrive e => event_ok e | Run _ _ => True end.

Definition arrivals (ms : list move) : list event := omap (fun m => match m with Arrive e => Some e | Run _ _ => None end) ms.

Lemma exec_events ms : forall c c', exec ms c = Some c' -> map th_event c'.1 = map th_event c.1 ++ arrivals ms.
Proof.
  induction ms as [|m ms IH]; intros [ts d] c' He; [injection He as <-; by rewrite app_nil_r|].
  cbn [exec] in He. destruct (do_move m (ts, d)) as [c1|] eqn:E; [|done]. rewrite (IH c1 c' He). destruct m as [e|n ch]; cbn in E.
  - injection E as <-. cbn. by rewrite map_app, <- app_assoc.
  - destruct (ts !! n) as [t|] eqn:Et; [|done]. cbn in E.
    destruct (prog_step ch (th_prog t) d) as [[[p|e|] d1]|] eqn:Es; [|done..]. injection E as <-. cbn. f_equal.
    change (th_event <$> <[n := MkThread (th_event t) p (th_seen t ++ [d])]> ts = th_event <$> ts). rewrite list_fmap_insert. cbn.
    by apply list_insert_id; rewrite list_lookup_fmap, Et.
Qed.

Lemma exec_steps ms : forall c c', Forall move_ok ms -> exec ms c = Some c' -> rtc cstep c c'.
Proof.
  induction ms as [|m ms IH]; intros [ts d] c' Hok He; [injection He as <-; apply rtc_refl|].
  apply Forall_cons in Hok as [Hm Hok]. cbn [exec] in He. destruct (do_move m (ts, d)) as [c1|] eqn:E; [|done].
  eapply rtc_l; [|exact (IH c1 c' Hok He)]. destruct m as [e|n ch]; cbn in E.
  - injection E as <-. by apply cstep_arrive.
  - destruct (ts !! n) as [t|] eqn:Et; [|done]. cbn in E.
    destruct (prog_step ch (th_prog t) d) as [[[p|e|] d1]|] eqn:Es; [|done..]. injection E as <-. by eapply cstep_run.
Qed.
End handlers.

(** ** What every action keeps *)
Section safety.
Context `{CEL} `{RedisClient} `{LRULaws entry} `{JWTLaws} `{LRU Z} `{LRULaws Ip.Entry} `{PromLaws}.
#[local] Existing Instance backend_cache | 0.
#[local] Existing Instance backend_spec | 0.

Context (iter : gmap string string -> list (string * string)) (env : ip_env) (pol : PolicyConfig) (eval : Evaluator) (ttl : Z).
Context (ver : Verifier) (iss : Issuer) (rev : option Proxy) (Hpol : policy_wf pol) (Heval : NewEvaluator pol = Ok eval) (Httl : 0 < ttl).
#[local] Abbreviation ok := (daemon_ok iter env pol eval ttl ver iss rev).

(** The collector at place [idx] ran in the state [d] and reported the signals of its slot. *)
Definition ran (req : RequestContext) (slots : list (list Signal)) (idx : nat) (d : deps) : Prop :=
  exists col sigs col', shared_collectors d !! idx = Some col /\ collect1 req col = (Some sigs, col') /\ slots !! idx = Some sigs.

(** Signals that were collected for a request in five consecutive of the states it saw: each of the five collectors ran
    once, in some order, and the signals are what they reported, in the order of the collectors. *)
Definition collected (seen : list deps) (req : RequestContext) (sigs : list Signal) : Prop :=
  exists pre five post order slots, seen = pre ++ five ++ post /\ order ≡ₚ seq 0 5 /\ length slots = 5%nat /\ sigs = concat slots
  /\ Forall2 (ran req slots) order five.

(** The decision [m] was computed while the event was handled, from the signals collected then. *)
Definition computed (seen : list deps) (e : event) (m : made) : Prop := caused ver e m /\ collected seen (md_req m) (md_sigs m).

Lemma computed_more seen more e m : computed seen e m -> computed (seen ++ more) e m.
Proof.
  intros [Hc (pre & five & post & order & slots & -> & Hr)]. split; [done|]. exists pre, five, (post ++ more), order, slots.
  by rewrite <- !app_assoc.
Qed.

Lemma ran_insert req slots idx s order five :
  idx ∉ order -> Forall2 (ran req slots) order five -> Forall2 (ran req (<[idx := s]> slots)) order five.
Proof.
  intros Hidx Hr. induction Hr as [|i d order five (col & sigs & col' & ? & ? & Hs) _ IH]; [constructor|].
  apply not_elem_of_cons in Hidx as [Hne Hidx]. constructor; [|by apply IH]. exists col, sigs, col'. by rewrite list_lookup_insert_ne.
Qed.

(** What a program has learnt of the decision log and added to it and to the audit log, and the states it has seen. *)
Record ghost := MkGhost { g_known : list made; g_made : list made; g_new : list AuditEntry; g_seen : list deps }.
Definition ghost0 (seen : list deps) : ghost := MkGhost [] [] [] seen.

(** From any state of the daemon the program ends after at most [n] more steps, whatever happens in between and
    whatever the scheduler chooses: every step is possible and keeps the invariant, and the outcome is accounted for
    by decisions the program knew of or made. *)
Fixpoint safe (n : nat) (e : event) (p : prog outcome_of_event) (g : ghost) : Prop :=
  match p with
  | Ret o => accounted pol eval ttl ver iss rev (g_known g) (g_made g) (g_new g) e o
  | Act m k =>
      match n with
      | O => False
      | S n => forall c log hist d, ok log hist d -> g_known g ⊆ log ->
          exists x d' known lg new, m c d = (Ok x, d') /\ ok (log ++ lg) (hist ++ new) d'
          /\ Forall (computed (g_seen g) e) lg /\ known ⊆ log ++ lg
          /\ safe n e (k x) (MkGhost known (g_made g ++ lg) (g_new g ++ new) (g_seen g ++ [d]))
      end
  end.

Lemma safe_mono n n' e p : forall g, safe n e p g -> (n <= n')%nat -> safe n' e p g.
Proof.
  revert n' p. induction n as [|n IH]; intros [|n'] [o|X m k] g Hs Hn; cbn in *; try done; [lia|].
  intros c log hist d Hd Hk. destruct (Hs c log hist d Hd Hk) as (x & d' & known & lg & new & ? & ? & ? & ? & Hr).
  exists x, d', known, lg, new. split_and!; try done. apply IH; [done|lia].
Qed.

Lemma safe_assoc {A B} e (k : B -> prog outcome_of_event) (f : A -> prog B) n : forall p g,
  safe n e (prog_then (fun a => prog_then k (f a)) p) g -> safe n e (prog_then k (prog_then f p)) g.
Proof.
  induction n as [|n IH]; intros [a|X m j] g Hs; try done. intros c log hist d Hd Hk.
  destruct (Hs c log hist d Hd Hk) as (x & d' & known & lg & new & ? & ? & ? & ? & Hr). exists x, d', known, lg, new.
  split_and!; try done. by apply IH.
Qed.

(** A step that adds nothing to the logs. *)
Lemma safe_quiet {X} n e (m : nat -> W X) k g :
  (forall c log hist d, ok log hist d -> g_known g ⊆ log ->
     exists x d' known, m c d = (Ok x, d') /\ ok log hist d' /\ known ⊆ log
     /\ safe n e (k x) (MkGhost known (g_made g) (g_new g) (g_seen g ++ [d]))) ->
  safe (S n) e (Act m k) g.
Proof.
  intros Hs c log hist d Hd Hk. destruct (Hs c log hist d Hd Hk) as (x & d' & known & E & Hd' & Hk' & Hr).
  exists x, d', known, [], []. rewrite !app_nil_r. split_and!; try done.
Qed.

(** *** A collector's turn *)
Lemma collect1_ok req r cs idx :
  rq_Request req = Some r -> collectors_ok iter env cs -> (idx < 5)%nat ->
  exists col sigs col', cs !! idx = Some col /\ collect1 req col = (Some sigs, col') /\ speaks vocabulary sigs
  /\ collectors_ok iter env (<[idx := col']> cs).
Proof.
  intros Hr (past & tr & n & ipc & hc & store & Ht & Hi & ->) Hidx.
  assert (Hvoc : forall voc sigs, speaks voc sigs -> voc ⊆ vocabulary -> speaks vocabulary sigs).
  { intros voc sigs Hs Hv. by eapply speaks_mono. }
  assert (Hall : tls_vocabulary ⊆ vocabulary /\ headers_vocabulary ⊆ vocabulary /\ ip_vocabulary ⊆ vocabulary
    /\ http2_vocabulary ⊆ vocabulary /\ behavior_table ⊆ vocabulary).
  { split_and!; unfold vocabulary; intros x Hx; rewrite !elem_of_app; tauto. }
  destruct Hall as (V1 & V2 & V3 & V4 & V5). unfold collect1.
  destruct idx as [|[|[|[|[|idx]]]]]; [..|lia].
  - destruct (tls_answers req) as (sigs & err & E & V). eexists _, sigs, (MkLive tls_collector tt). split; [reflexivity|]. cbn. rewrite E.
    split_and!; [done|eauto|by exists past, tr, n, ipc, hc, store].
  - destruct (headers_answers iter req r past tr Hr Ht) as (sigs & tr' & past' & E & V & Ht').
    eexists _, sigs, (MkLive (headers_collector iter) tr'). split; [reflexivity|]. cbn. rewrite E.
    split_and!; [done|eauto|by exists past', tr', n, ipc, hc, store].
  - destruct (ip_Collect_spec env n req ipc Hi) as [E Hi']. destruct (ip_Collect env req ipc) as [o ipc'] eqn:E'. cbn [fst snd] in E, Hi'. subst o.
    eexists _, _, (MkLive (ip_Collector env) ipc'). split; [reflexivity|]. cbn. rewrite E'.
    split_and!; [reflexivity|eauto using ip_speaks|by exists past, tr, n, ipc', hc, store].
  - destruct (http2_answers req r hc Hr) as (sigs & err & hc' & E & V). eexists _, sigs, (MkLive http2_collector hc'). split; [reflexivity|]. cbn. rewrite E.
    split_and!; [done|eauto|by exists past, tr, n, ipc, hc', store].
  - destruct (store_answers req store) as (sigs & E & V). eexists _, sigs, (MkLive store_collector store). split; [reflexivity|]. cbn. rewrite E.
    split_and!; [done|eauto|by exists past, tr, n, ipc, hc, store].
Qed.

Lemma collect_next_step log hist d req r todo c :
  ok log hist d -> rq_Request req = Some r -> Forall (fun i => (i < 5)%nat) todo -> todo <> [] ->
  exists k idx col sigs col' d', collect_next req todo c d = (Ok (k, sigs), d') /\ ok log hist d' /\ speaks vocabulary sigs
  /\ todo !! k = Some idx /\ shared_collectors d !! idx = Some col /\ collect1 req col = (Some sigs, col').
Proof.
  intros Hd Hr Ht Hne. assert (Hk : (c mod length todo < length todo)%nat) by (apply Nat.mod_upper_bound; by destruct todo).
  destruct (lookup_lt_is_Some_2 todo _ Hk) as [idx Hidx]. assert (Hlt : (idx < 5)%nat) by exact (Forall_lookup_1 _ _ _ _ Ht Hidx).
  destruct (shared_ok _ _ _ _ _ _ _ _ _ _ _ Hd) as (Hcs & Hrest). cbn in Hcs, Hrest.
  destruct (collect1_ok req r _ idx Hr Hcs Hlt) as (col & sigs & col' & Hcol & Hc1 & Hv & Hcs').
  unfold collect_next. rewrite Hidx. cbn [default from_option id]. rewrite Hcol, Hc1.
  eexists _, idx, col, sigs, col', _. split; [reflexivity|]. split_and!; [|done..]. by eapply set_pl_ok.
Qed.

(** [order] are the collectors that have run, in the states [five], and [todo] the others. *)
Lemma collect_safe req r e k pre n m : rq_Request req = Some r ->
  (forall sigs five, speaks vocabulary sigs -> collected (pre ++ five) req sigs -> safe n e (k sigs) (ghost0 (pre ++ five))) ->
  forall todo slots order five, length todo = m -> order ++ todo ≡ₚ seq 0 5 -> length slots = 5%nat ->
  Forall (speaks vocabulary) slots -> Forall2 (ran req slots) order five ->
  safe (m + n) e (prog_then k (collect_from req m todo slots)) (ghost0 (pre ++ five)).
Proof.
  intros Hr Hk. induction m as [|m IH]; intros todo slots order five Hl Hp Hls Hs Hran.
  - apply nil_length_inv in Hl as ->. rewrite app_nil_r in Hp. apply Hk; [unfold speaks; by apply Forall_concat|].
    exists pre, five, [], order, slots. by rewrite app_nil_r.
  - cbn [collect_from prog_then Nat.add]. apply safe_quiet. intros c log hist d Hd Hkn.
    assert (Hnd : NoDup (order ++ todo)) by (rewrite Hp; apply NoDup_seq).
    assert (Ht : Forall (fun i => (i < 5)%nat) todo).
    { apply Forall_forall. intros i Hi. assert (Hin : i ∈ order ++ todo) by (apply elem_of_app; by right).
      rewrite Hp, elem_of_seq in Hin. lia. }
    destruct (collect_next_step log hist d req r todo c Hd Hr Ht) as (i & idx & col & sigs & col' & d' & E & Hd' & Hv & Hi & Hcol & Hc1); [by destruct todo|].
    exists (i, sigs), d', []. split_and!; [done..|]. cbn [ghost0 g_made g_new g_seen]. rewrite Hi. cbn [default from_option id].
    rewrite <- app_assoc. apply (IH _ _ (order ++ [idx])).
    + rewrite length_delete by done. lia.
    + rewrite <- app_assoc. cbn. by rewrite <- (delete_Permutation todo i idx Hi).
    + by rewrite length_insert.
    + by apply Forall_insert.
    + assert (Hlt : (idx < 5)%nat) by exact (Forall_lookup_1 _ _ _ _ Ht Hi).
      apply Forall2_app; [|constructor; [|constructor]].
      * apply ran_insert; [|done]. intros Hin. apply NoDup_app in Hnd as (_ & Hdis & _). apply (Hdis idx Hin).
        by eapply list_elem_of_lookup_2.
      * exists col, sigs, col'. rewrite list_lookup_insert_eq by lia. done.
Qed.
(** *** The decision *)
Lemma cache_from_mono log c c' : cache_from pol eval ttl log c -> cache_ok c' -> cache_view c' ⊆ cache_view c -> cache_from pol eval ttl log c'.
Proof. intros [_ Hf] Hok Hsub. split; [done|]. intros k v exp Hv. eapply Hf, lookup_weaken; eauto. Qed.

Lemma set_cache_ok log log' hist d c :
  ok log hist d -> cache_from pol eval ttl log' c -> Forall made_ok log' -> ok log' hist (set_cache (Some c) d).
Proof.
  intros Hd Hc Hl. assert (Hp := shared_ok _ _ _ _ _ _ _ _ _ _ _ Hd). eapply set_pl_ok; [exact Hd|].
  destruct Hp as (Hcs & He & Hpo & Ht & _). cbn in *. split_and!; try done. by exists c.
Qed.

(** A lookup that removes nothing is the whole [Get]; one that does has found nothing and changed nothing yet. *)
Lemma backend_peek_spec t key c : cache_ok c ->
  let '(r, expired, c') := backend_peek t key c in
  if expired then r = ([], false, None) /\ cache_ok c' /\ cache_view c' = cache_view c else cache_Get t key c = (r, c').
Proof.
  destruct c as [m|c]; [|done]. intros (size & Hs & Hwf). cbn. unfold memory_Get.
  destruct (lru_Get_ok size key (mc_lru m) Hwf) as (_ & Hwf' & Hm). destruct (lru_Get key (mc_lru m)) as [[e|] l]; [|done].
  match goal with |- context [if ?b then _ else _] => destruct b end; [|done]. split_and!; [done|by exists size|]. cbn [fst snd] in Hm. cbn. unfold memory_view. cbn [mc_lru]. by rewrite Hm.
Qed.

Lemma peek_step log hist d t key :
  ok log hist d -> exists hit expired d', peek t key d = (Ok (hit, expired, 5%nat), d') /\ ok log hist d'
  /\ forall dec, hit = Some dec -> exists m, m ∈ log /\ key = md_key m /\ echoes (md_dec pol eval m) dec /\ t <= md_set m + ttl.
Proof.
  intros Hd. assert (Hp := shared_ok _ _ _ _ _ _ _ _ _ _ _ Hd).
  destruct (cache_lookup_from iter env pol eval ttl Hpol log _ t key Hp) as (hit & c & El & Hc & Hhit).
  destruct Hp as ((past & tr & n & ipc & hc & store & _ & _ & Hcs) & _ & _ & _ & Hlog & c0 & Hc0 & Hfrom). cbn in Hcs, Hc0.
  unfold peek. rewrite Hc0, Hcs. cbn [length]. pose proof (backend_peek_spec t key c0 (proj1 Hfrom)) as Hps.
  destruct (backend_peek t key c0) as [[[[data found] err] expired] c']. destruct expired.
  - destruct Hps as ([= -> -> ->] & Hok & Hv). eexists _, _, _. split; [reflexivity|]. split; [|done].
    eapply set_cache_ok; [done| |done]. eapply cache_from_mono; [exact Hfrom|done|by rewrite Hv].
  - unfold cache_lookup in El. cbn [shared_pipeline p_cache] in El. rewrite Hc0, Hps in El. injection El as <- <-.
    eexists _, _, _. split; [reflexivity|]. split; [by eapply set_cache_ok|done].
Qed.

Lemma drop_step log hist d key : ok log hist d -> exists d', drop_expired key d = (Ok tt, d') /\ ok log hist d'.
Proof.
  intros Hd. assert (Hp := Hd). destruct Hp as ((_ & _ & _ & _ & Hlog & c & Hc & Hfrom) & _). eexists. split; [reflexivity|].
  rewrite Hc. eapply set_cache_ok; [done| |done]. assert (Hok := proj1 Hfrom).
  pose proof (cache_Delete_view key c Hok) as Hdel. destruct c as [m|c]; [|done]. cbn in Hdel.
  destruct Hdel as (_ & Hok' & Hv). eapply cache_from_mono; [exact Hfrom|exact Hok'|]. cbn. cbn in Hv. rewrite Hv. apply delete_subseteq.
Qed.

Lemma combine_step log hist d t_now t_set req tok sigs :
  ok log hist d -> speaks vocabulary sigs -> in_int t_now ->
  let m := MkMade req tok t_now t_set sigs in
  exists d', combine_store t_now t_set req tok sigs d = (Ok (md_dec pol eval m), d') /\ ok (log ++ [m]) hist d' /\ made_ok m.
Proof.
  intros Hd Hv Hn m. destruct (shared_ok _ _ _ _ _ _ _ _ _ _ _ Hd) as (Hcs & He & Hpo & Ht & Hlog & c & Hc & Hfrom).
  destruct (cache_store_from pol eval ttl Httl log c m Hfrom) as (c' & Hst & Hc').
  assert (Hdec : Combine t_now sigs (p_policy (shared_pipeline d)) (buildRequestInfo req) tok (buildEvalFn (shared_pipeline d)) = md_dec pol eval m).
  { unfold buildEvalFn. by rewrite He, Hpo. }
  unfold combine_store, on. rewrite Hdec, Hc, Ht. eexists. split; [reflexivity|]. split; [|done].
  change (cache_store t_set (computeCacheKey req tok) (md_dec pol eval m) ttl (Some c))
    with (cache_store (md_set m) (md_key m) (md_dec pol eval m) ttl (Some c)). rewrite Hst.
  eapply set_pl_ok; [exact Hd|]. split_and!; cbn; try done; [|by exists c']. apply Forall_app. split; [done|]. by apply Forall_singleton.
Qed.

(** The collection and the decision made from it. *)
Lemma combine_safe n e t_get t_now t_set req r tok k seen :
  rq_Request req = Some r -> in_int t_now -> (forall sigs, caused ver e (MkMade req tok t_now t_set sigs)) ->
  (forall known lg seen dec, decided pol eval ttl known lg t_get (computeCacheKey req tok) dec -> safe n e (k dec) (MkGhost known lg [] seen)) ->
  safe (6 + n) e (prog_then k (prog_then (fun sigs => act (combine_store t_now t_set req tok sigs)) (collect_prog req 5))) (ghost0 seen).
Proof.
  intros Hr Hn Hcause Hk. apply safe_assoc. change (6 + n)%nat with (5 + S n)%nat. rewrite <- (app_nil_r seen).
  apply (collect_safe req r e _ seen (S n) 5 Hr) with (order := []); [|done..|by repeat constructor|constructor].
  intros sigs five Hv Hcol c1 log1 hist1 d1 Hd1 _.
  destruct (combine_step log1 hist1 d1 t_now t_set req tok sigs Hd1 Hv Hn) as (d1' & E1 & Hd1' & Hm).
  eexists _, d1', [], [_], []. rewrite app_nil_r. split_and!; [exact E1|exact Hd1'| |apply list_subseteq_nil|].
  - apply Forall_singleton. by split.
  - apply Hk. eexists. split_and!; [by left|exact Hm|done|by left|by left].
Qed.

Lemma Decide_safe n e t_get t_now t_set req r tok k seen :
  rq_Request req = Some r -> in_int t_now -> (forall sigs, caused ver e (MkMade req tok t_now t_set sigs)) ->
  (forall known lg seen dec, decided pol eval ttl known lg t_get (computeCacheKey req tok) dec -> safe n e (k dec) (MkGhost known lg [] seen)) ->
  safe (8 + n) e (prog_then k (Decide_prog t_get t_now t_set req tok)) (ghost0 seen).
Proof.
  intros Hr Hn Hcause Hk. apply safe_quiet. intros c log hist d Hd _.
  destruct (peek_step log hist d t_get (computeCacheKey req tok) Hd) as (hit & expired & d' & E & Hd' & Hhit).
  destruct hit as [dec|].
  - destruct (Hhit dec eq_refl) as (m & Hm & Hkey & He & Hl). exists (Some dec, expired, 5%nat), d', [m].
    split_and!; [done..|by intros x ->%list_elem_of_singleton|]. apply (safe_mono n); [|lia]. apply Hk. exists m.
    split_and!; [by left| |done|done|right; split; [by left|done]].
    destruct Hd as ((_ & _ & _ & _ & Hlog & _) & _). exact (proj1 (Forall_forall _ _) Hlog m Hm).
  - exists (None, expired, 5%nat), d', []. split_and!; [done..|apply list_subseteq_nil|]. cbn [ghost0 g_made g_new g_seen].
    destruct expired; [|apply (safe_mono (6 + n)); [by eapply combine_safe|lia]].
    apply safe_quiet. intros c1 log1 hist1 d1 Hd1 _. destruct (drop_step log1 hist1 d1 (computeCacheKey req tok) Hd1) as (d1' & E1 & Hd1').
    exists tt, d1', []. split_and!; [done..|apply list_subseteq_nil|by eapply combine_safe].
Qed.
(** *** The handlers *)
Lemma handle_safe i r capture b :
  is_Some (r_URL r) -> in_int (in_now i) ->
  safe 12 (EvMain i r capture b) (prog_then (fun a => Ret (OutMain (Served a))) (handle_prog i r capture)) (ghost0 []).
Proof.
  intros Hu Hn. set (req := buildRequestContext r capture). apply safe_quiet. intros c log hist d Hd Hk.
  destruct (has_valid_token_step _ _ _ _ _ _ _ _ log hist d i r req Hd) as (d1 & E1 & Hd1).
  exists (pass_state ver i r req), d1, []. split_and!; [exact E1|done..|]. apply safe_assoc.
  apply (Decide_safe 3 _ _ _ _ _ r); [done..|]. clear c log hist d Hd Hk d1 E1 Hd1. intros known lg seen dec Hdec.
  apply safe_quiet. intros c log hist d Hd Hk.
  destruct (metrics_step _ _ _ _ _ _ _ _ log hist d (EvDecision dec (in_latency i)) Hd (decided_event _ _ _ Hpol Heval _ _ _ _ _ _ Hdec)) as (m & E & Hm).
  exists tt, (set_metrics m d), known. split_and!; [exact E|done..|]. cbn [g_made g_new g_seen]. generalize (seen ++ [d]).
  clear c log hist d Hd Hk m E Hm seen. intros seen c log hist d Hd Hk.
  destruct (audit_step _ _ _ _ _ _ _ _ log hist d (audit_entry i r req dec) Hd (decided_entry _ _ _ _ _ _ _ _ _ _ _ Hdec)) as (a & E & Ha).
  exists tt, (set_audit a d), known, [], [audit_entry i r req dec]. rewrite !app_nil_r.
  split_and!; [exact E|exact Ha|constructor|done|]. cbn [g_made g_new g_seen]. generalize (seen ++ [d]).
  clear c log hist d Hd Hk a E Ha seen. intros seen. apply safe_quiet. intros c log hist d Hd Hk.
  destruct (respond_step _ _ _ _ _ _ _ _ log hist d i r dec Hd Hu) as (resp & d' & E & Hd' & Hf).
  exists resp, d', known. split_and!; [exact E|done..|]. by exists dec.
Qed.

(** A reply of the challenge service is accounted for if its cookie, should it set one, was issued for the request. *)
Lemma replied_safe i r capture b a known seen :
  (forall code cookie target, a = ReplyRedirect code cookie target -> redeemed iss (in_now i) r (mb_body b) cookie) ->
  safe 0 (EvMain i r capture b) (Ret (OutMain (Replied a))) (MkGhost known [] [] seen).
Proof. intros Hr. destruct a; cbn; try done. split; [done|]. by eapply Hr. Qed.

Lemma ids_Get_step log hist d id : ok log hist d -> exists issued d', ids_Get id d = (Ok issued, d') /\ ok log hist d'.
Proof.
  intros Hd. assert (Hs := Hd). destruct Hs as (_ & [Hb Hi] & _). unfold ids_Get, on_service, on.
  destruct (lru_Get id (ci_ids (s_issuer (dp_challengeSvc d)))) as [issued ids]. eexists issued, _. split; [reflexivity|]. by apply set_svc_ok.
Qed.

Lemma verify_rest_ok now r req s body :
  s_tokenIssuer s = iss -> Decode verifyRequest_codec body = Some req ->
  exists a, verify_rest now r req s = Ok a /\ forall code cookie target, a = ReplyRedirect code cookie target -> redeemed iss now r body cookie.
Proof.
  intros Hi Hb. unfold verify_rest. destruct (negb _); [by eexists|].
  destruct (Score_entries (vr_FingerprintReport req)) as (sigs & -> & _). destruct (fold_left total_step sigs (0, [])) as [total reasons].
  destruct (s_denyThreshold s <=? total); [by eexists|]. rewrite Hi.
  match goal with |- context [Issue ?i ?n ?c] => pose proof (Issue_no_panic i n c) as Hn; destruct (Issue i n c) as [tok| |] eqn:E end;
    [|by eexists|done]. eexists. split; [reflexivity|]. intros code cookie target [= _ <- _]. by exists req, total.
Qed.

Lemma verify_safe i r capture b :
  safe 2 (EvMain i r capture b) (prog_then (fun a => Ret (OutMain (Replied a))) (HandleVerify_prog (in_now i) r (mb_body b))) (ghost0 []).
Proof.
  unfold HandleVerify_prog. destruct (negb _); [done|]. destruct (Decode _ (mb_body b)) as [req|] eqn:Eb; [|done].
  apply safe_quiet. intros c log hist d Hd Hk. destruct (ids_Get_step log hist d (vr_ChallengeID req) Hd) as (issued & d' & E & Hd').
  exists issued, d', []. split_and!; [exact E|done..|]. destruct issued as [issued|]; [|done]. cbn [ghost0 g_made g_new g_seen app]. generalize [d].
  clear c log hist d Hd Hk d' E Hd'. intros seen. apply safe_quiet. intros c log hist d Hd Hk. assert (Hs := Hd). destruct Hs as (_ & [Hbe Hi] & _).
  set (s := ids_Remove (vr_ChallengeID req) (dp_challengeSvc d)).
  destruct (verify_rest_ok (in_now i) r req s (mb_body b) Hi Eb) as (a & Ea & Hr).
  exists (if challengeTTL <? in_now i - issued then ReplyError 400 "invalid or expired challenge_id" else a), (set_svc s d), [].
  split_and!; [|by apply set_svc_ok|done|].
  - unfold verify_found, on_service, on. fold s. rewrite Ea. by destruct (challengeTTL <? _).
  - apply (safe_mono 0); [|lia]. apply replied_safe. by destruct (challengeTTL <? _).
Qed.

Lemma step_safe e : event_ok e -> decides e = false -> safe 1 e (act (step e)) (ghost0 []).
Proof.
  intros He Hq. apply safe_quiet. intros c log hist d Hd _.
  destruct (step_quiet iter env pol eval ttl ver iss rev log hist d e Hd He Hq) as (o & d' & E & Hd' & Ha).
  by exists o, d', log.
Qed.
Lemma decide_prefix_ok i r :
  exists req, decide_prefix i r ver = Ok req /\ forall ctx tok, req = inr (ctx, tok) -> is_Some (rq_Request ctx)
  /\ forall sigs, caused ver (EvAdmin i r) (MkMade ctx tok (ai_now (ad_api i)) (ai_set (ad_api i)) sigs).
Proof.
  unfold decide_prefix. destruct (negb _); [by eexists|]. destruct (ad_body i) as [data|] eqn:Ed; [|by eexists].
  destruct (Decode _ data) as [body|] eqn:Eb; [|by eexists]. destruct (String.eqb (dr_RemoteIP body) EmptyString); [by eexists|].
  destruct (api_request (ad_iter i) (ai_parse_error (ad_api i)) r body) as [s|e|] eqn:Es; [|by eexists|].
  2:{ exfalso. unfold api_request, NewRequest in Es. by destruct (negb _); [|destruct (url_Parse _)]. }
  destruct (api_token_ok ver (ad_api i) body) as [tok Htok]. rewrite Htok. eexists. split; [reflexivity|].
  intros ctx tok' [= <- <-]. split; [by eexists|]. intros sigs. by exists data, body, s.
Qed.

Lemma admin_decide_safe i r :
  in_int (ai_now (ad_api i)) ->
  safe 9 (EvAdmin i r) (prog_then (fun a => Ret (OutAdmin (AdminDecide a))) (admin_decide_prog i r)) (ghost0 []).
Proof.
  intros Hn. apply safe_quiet. intros c log hist d Hd Hk. assert (Hv : dp_tokenVerifier d = ver) by apply Hd.
  destruct (decide_prefix_ok i r) as (req & E & Hreq). exists req, (set_pl (shared_pipeline d) d), []. rewrite Hv.
  split_and!; [by rewrite E|by eapply set_pl_ok, shared_ok|done|].
  destruct req as [a|[ctx tok]]; [done|]. destruct (Hreq ctx tok eq_refl) as [[q Hq] Hc]. apply safe_assoc.
  by apply (Decide_safe 0 _ _ _ _ ctx q tok).
Qed.

(** The steps of the longest handler, the catch-all one: the token, the lookup and the removal of an expired entry, five
    collectors, the decision, the metrics, the audit log and the answer. *)
Definition max_steps : nat := 12.

Lemma event_safe e : event_ok e -> safe max_steps e (event_prog e) (ghost0 []).
Proof.
  intros He. assert (Hone : decides e = false -> safe max_steps e (act (step e)) (ghost0 []))
    by (intros Hq; apply (safe_mono 1); [by apply step_safe|unfold max_steps; lia]).
  destruct e as [i r capture b|i r| |]; [| |exact (Hone eq_refl)..]; cbn [event_prog decides] in *; case_match; try exact (Hone eq_refl);
    case_match; try exact (Hone eq_refl).
  - apply (safe_mono 2); [apply verify_safe|unfold max_steps; lia].
  - destruct He as [Hu Hn]. by apply handle_safe.
  - destruct He as [Hn _]. apply (safe_mono 9); [by apply admin_decide_safe|unfold max_steps; lia].
Qed.

(** ** The invariant of the configurations *)
Definition thread_ok (log : list made) (t : thread) (g : ghost) : Prop :=
  (th_steps t <= max_steps)%nat /\ safe (max_steps - th_steps t) (th_event t) (th_prog t) g /\ g_known g ⊆ log
  /\ g_made g ⊆ log /\ Forall (computed (th_seen t) (th_event t)) (g_made g) /\ event_ok (th_event t) /\ g_seen g = th_seen t.

(** Every decision in the log was made for a request that arrived, and the audit log holds what the programs added. *)
Definition config_ok (c : list thread * deps) : Prop :=
  exists log hist gs, ok log hist c.2 /\ Forall2 (thread_ok log) c.1 gs
  /\ (forall m, m ∈ log -> exists n t, c.1 !! n = Some t /\ computed (th_seen t) (th_event t) m) /\ hist ≡ₚ concat (g_new <$> gs).

Lemma thread_ok_mono log lg t g : thread_ok log t g -> thread_ok (log ++ lg) t g.
Proof.
  intros (? & ? & Hk & Hm & ? & ? & ?). split_and!; try done; intros m Hin; apply elem_of_app; left; [by apply Hk|by apply Hm].
Qed.

Lemma concat_insert {A} (ls : list (list A)) n l new :
  ls !! n = Some l -> concat (<[n := l ++ new]> ls) ≡ₚ concat ls ++ new.
Proof.
  revert n. induction ls as [|x ls IH]; intros [|n] Hn; [done..| |]; cbn in *.
  - injection Hn as ->. rewrite <- !app_assoc. by rewrite (Permutation_app_comm new).
  - rewrite (IH n Hn). by rewrite app_assoc.
Qed.

Lemma config_step c c' : config_ok c -> cstep c c' -> config_ok c'.
Proof.
  intros (log & hist & gs & Hd & Hts & Hlog & Hh) Hs. destruct Hs as [e ts d He|n ch t p d' ts d Ht Hp]; cbn [fst snd] in *.
  - exists log, hist, (gs ++ [ghost0 []]). split_and!; cbn [fst snd]; [done| | |].
    + apply Forall2_app; [done|]. constructor; [|constructor]. split_and!; cbn; try done; [lia|by apply event_safe|apply list_subseteq_nil..].
    + intros m Hm. destruct (Hlog m Hm) as (n & t & Hn & Hc). exists n, t. split; [|done]. by apply lookup_app_l_Some.
    + by rewrite fmap_app, concat_app, Hh, !app_nil_r.
  - destruct (Forall2_lookup_l _ _ _ _ _ Hts Ht) as (g & Hg & Hle & Hsafe & Hk & Hm & Hc & He & Hsn).
    destruct (th_prog t) as [o|X m k] eqn:Ep; [done|]. cbn [prog_step] in Hp.
    destruct (max_steps - th_steps t)%nat as [|left] eqn:El; [done|].
    destruct (Hsafe ch log hist d Hd Hk) as (x & d1 & known & lg & new & E & Hd1 & Hlg & Hkn & Hr). rewrite E in Hp. injection Hp as <- <-.
    exists (log ++ lg), (hist ++ new), (<[n := MkGhost known (g_made g ++ lg) (g_new g ++ new) (g_seen g ++ [d])]> gs).
    cbn [fst snd]. rewrite Hsn in Hlg, Hr |- *. assert (Hmore : forall m, computed (th_seen t) (th_event t) m -> computed (th_seen t ++ [d]) (th_event t) m)
      by (intros; by apply computed_more). split_and!; [done| | |].
    + apply Forall2_insert; [eapply Forall2_impl; [exact Hts|intros; by apply thread_ok_mono]|].
      unfold thread_ok, th_steps in *. split_and!; cbn [th_seen th_event th_prog g_known g_made g_seen]; rewrite ?length_app; cbn [length]; [lia| |done| | |done|done].
      * by replace (max_steps - (length (th_seen t) + 1))%nat with left by lia.
      * intros y. rewrite !elem_of_app. intros [Hy|Hy]; [left; by apply Hm|by right].
      * apply Forall_app. split; by eapply Forall_impl.
    + intros y [Hy|Hy]%elem_of_app.
      * destruct (Hlog y Hy) as (n' & t' & Hn' & Hc'). destruct (decide (n' = n)) as [->|Hne].
        -- exists n. eexists. rewrite list_lookup_insert_eq by (by eapply lookup_lt_Some). split; [done|]. cbn. assert (t' = t) as -> by congruence. by apply Hmore.
        -- exists n', t'. by rewrite list_lookup_insert_ne.
      * exists n. eexists. rewrite list_lookup_insert_eq by (by eapply lookup_lt_Some). split; [done|]. cbn.
        exact (Hmore y (proj1 (Forall_forall _ _) Hlg y Hy)).
    + rewrite list_fmap_insert. cbn. rewrite concat_insert by (by rewrite list_lookup_fmap, Hg). by rewrite Hh.
Qed.

Lemma config_reachable c c' : config_ok c -> rtc cstep c c' -> config_ok c'.
Proof. intros Hc Hr. induction Hr as [|a b c' Hs _ IH]; [done|]. by apply IH, (config_step a). Qed.

Lemma config_start d : ok [] [] d -> config_ok ([], d).
Proof. intros Hd. exists [], [], []. split_and!; try done. by intros m ?%elem_of_nil. Qed.
(** ** Without interleaving, the programs are the handlers of [Wire] *)
#[local] Existing Instance W_ret.
#[local] Existing Instance W_bind.

Lemma alone_act {A} (m : W A) d : alone (act m) d = m d.
Proof. cbn. unfold W_bind. by destruct (m d) as [[]]. Qed.

Lemma alone_Act {A X} (m : nat -> W X) (k : X -> prog A) d x d' : m O d = (Ok x, d') -> alone (Act m k) d = alone (k x) d'.
Proof. intros E. cbn. unfold W_bind. by rewrite E. Qed.

Definition set_collectors (cs : list collector) (d : deps) : deps :=
  set_pl (MkPipeline cs (p_evaluator (dp_pl d)) (p_cache (dp_pl d)) (p_cacheTTL (dp_pl d)) (p_policy (dp_pl d))) d.

Lemma set_collectors_twice cs cs' d : set_collectors cs (set_collectors cs' d) = set_collectors cs d.
Proof. done. Qed.

Lemma collect_next_first req n todo d col sigs col' :
  shared_collectors d !! n = Some col -> collect1 req col = (Some sigs, col') ->
  collect_next req (n :: todo) O d = (Ok (O, sigs), set_collectors (<[n := col']> (shared_collectors d)) d).
Proof. intros Hn Hc. unfold collect_next. rewrite Nat.Div0.mod_0_l. cbn [lookup list_lookup default from_option id]. by rewrite Hn, Hc. Qed.

(** One collector's turn, the first of those left. *)
#[local] Ltac next Hcs E :=
  erewrite alone_Act by (eapply collect_next_first; [by rewrite Hcs|unfold collect1; cbn; by rewrite E]);
  rewrite Hcs, ?set_collectors_twice; cbn [delete list_delete lookup list_lookup default from_option id insert list_insert].

Lemma collect_alone log hist d req r : ok log hist d -> rq_Request req = Some r ->
  exists sigs cs, collectParallel req (shared_collectors d) = (Ok sigs, cs) /\ alone (collect_prog req 5) d = (Ok sigs, set_collectors cs d)
  /\ shared_collectors (set_collectors cs d) = cs.
Proof.
  intros Hd Hr. destruct Hd as (((past & tr & n & ipc & hc & old & Ht & Hi & Hp) & _) & ([store Hs] & _) & _).
  set (five := fun tr ipc hc => [MkLive tls_collector tt; MkLive (headers_collector iter) tr; MkLive (ip_Collector env) ipc; MkLive http2_collector hc; MkLive store_collector store]).
  assert (Hcs : shared_collectors d = five tr ipc hc) by (unfold shared_collectors; by rewrite Hs, Hp).
  assert (Hf : forall tr ipc hc, shared_collectors (set_collectors (five tr ipc hc) d) = five tr ipc hc)
    by (intros; unfold shared_collectors, set_collectors; cbn; by rewrite Hs).
  destruct (tls_answers req) as (s1 & e1 & E1 & _). destruct (headers_answers iter req r past tr Hr Ht) as (s2 & tr' & past' & E2 & _).
  destruct (ip_Collect_spec env n req ipc Hi) as [E3 _]. destruct (ip_Collect env req ipc) as [o3 ipc'] eqn:E3'. cbn [fst] in E3. subst o3.
  destruct (http2_answers req r hc Hr) as (s4 & e4 & hc' & E4 & _). destruct (store_answers req store) as (s5 & E5 & _).
  unfold collect_prog. cbn [seq replicate]. rewrite Hcs.
  eexists _, (five tr' ipc' hc'). split; [|split; [|apply Hf]].
  - unfold five, collectParallel, collect_slots, collect1. cbn [live_col live_state col_Collect tls_collector headers_collector
      ip_Collector http2_collector store_collector]. rewrite E1, E2, E3', E4, E5. reflexivity.
  - cbn [collect_from].
    next Hcs E1. change (<[O := _]> (five tr ipc hc)) with (five tr ipc hc).
    next Hf E2. change (<[1%nat := _]> (five tr ipc hc)) with (five tr' ipc hc).
    next Hf E3'. change (<[2%nat := _]> (five tr' ipc hc)) with (five tr' ipc' hc).
    next Hf E4. change (<[3%nat := _]> (five tr' ipc' hc)) with (five tr' ipc' hc').
    next Hf E5. reflexivity.
Qed.
Lemma shared_set_cache log hist d c : ok log hist d -> shared_collectors (set_cache c d) = shared_collectors d.
Proof.
  intros (((past & tr & n & ipc & hc & old & _ & _ & Hp) & _) & ([store Hs] & _) & _).
  unfold set_cache, shared_collectors. cbn. rewrite Hs, Hp. reflexivity.
Qed.

Lemma backend_Get_split t key b :
  cache_Get t key b = let '(r, expired, b) := backend_peek t key b in (r, if expired : bool then backend_drop key b else b).
Proof.
  destruct b as [m|c]; cbn; unfold memory_Get; [|by destruct (redis_Get t key c)].
  destruct (lru_Get key (mc_lru m)) as [[e|] l]; [|done]. by match goal with |- context [if ?b then _ else _] => destruct b end.
Qed.

Lemma Decide_alone log hist d t_get t_now t_set req r tok : ok log hist d -> rq_Request req = Some r ->
  alone (Decide_prog t_get t_now t_set req tok) d = pl_Decide t_get t_now t_set req tok d.
Proof.
  intros Hd Hr. set (key := computeCacheKey req tok). destruct (peek_step log hist d t_get key Hd) as (hit & expired & d1 & E & Hd1 & _).
  unfold Decide_prog. fold key. unfold mbind, prog_bind. rewrite alone_then. unfold W_bind at 1. rewrite alone_act, E.
  assert (Hp := shared_ok _ _ _ _ _ _ _ _ _ _ _ Hd). destruct Hp as (_ & _ & _ & _ & _ & c0 & Hc0 & Hok & _). cbn in Hc0.
  unfold pl_Decide, on, Decide, cache_lookup. cbn [shared_pipeline p_cache p_collectors]. fold key. rewrite Hc0, backend_Get_split.
  unfold peek in E. rewrite Hc0 in E. pose proof (backend_peek_spec t_get key c0 Hok) as Hps.
  destruct (backend_peek t_get key c0) as [[[[data found] err] ex] c']. injection E as Eh -> _ <-.
  rewrite Eh. destruct hit as [dec|].
  { destruct expired; [|done]. by destruct Hps as ([= -> -> ->] & _). }
  set (c2 := if expired then backend_drop key c' else c').
  assert (alone (if expired then act (drop_expired key) else Ret ()) (set_cache (Some c') d) = (Ok (), set_cache (Some c2) d)
    /\ ok log hist (set_cache (Some c2) d)) as [Hdrop Hd2].
  { unfold c2. destruct expired; [|done]. destruct (drop_step log hist _ key Hd1) as (d2 & E2 & Hd2). rewrite alone_act.
    assert (E3 : drop_expired key (set_cache (Some c') d) = (Ok (), set_cache (Some (backend_drop key c')) d)).
    { unfold drop_expired, set_cache at 1. by rewrite (shared_set_cache log hist d _ Hd). }
    split; [done|]. rewrite E3 in E2. by injection E2 as <-. }
  rewrite alone_then. unfold W_bind. rewrite Hdrop, alone_then. unfold W_bind.
  destruct (collect_alone log hist _ req r Hd2 Hr) as (sigs & cs & Hcol & Hrun & Hsh).
  rewrite (shared_set_cache log hist d _ Hd) in Hcol. rewrite Hcol, Hrun, alone_act.
  assert (Hpl : shared_pipeline (set_collectors cs (set_cache (Some c2) d))
    = MkPipeline cs (p_evaluator (dp_pl d)) (Some c2) (p_cacheTTL (dp_pl d)) (p_policy (dp_pl d))) by (unfold shared_pipeline; by rewrite Hsh).
  unfold combine_store, on. rewrite Hpl. reflexivity.
Qed.

Lemma handle_alone log hist d i r capture : ok log hist d -> alone (handle_prog i r capture) d = handle i r capture d.
Proof.
  intros Hd. unfold handle_prog, handle, mbind, prog_bind. set (req := buildRequestContext r capture). rewrite alone_then.
  unfold W_bind at 1 2. rewrite alone_act. destruct (has_valid_token_step _ _ _ _ _ _ _ _ log hist d i r req Hd) as (d1 & -> & Hd1).
  rewrite alone_then. unfold W_bind at 1 2. rewrite (Decide_alone log hist d1 _ _ _ req r _ Hd1 eq_refl).
  destruct (pl_Decide _ _ _ _ _ d1) as [[dec|e|] d2]; [|done..]. rewrite alone_then. unfold W_bind at 1 2. rewrite alone_act.
  destruct (update dp_metrics _ _ d2) as [[[]|e|] d3]; [|done..]. rewrite alone_then. unfold W_bind at 1 2. rewrite alone_act.
  destruct (update dp_audit _ _ d3) as [[[]|e|] d4]; [|done..]. apply alone_act.
Qed.

Lemma set_svc_same d : set_svc (dp_challengeSvc d) d = d.
Proof. by destruct d. Qed.

Lemma verify_alone d now r body : alone (HandleVerify_prog now r body) d = on_service (HandleVerify now r body) d.
Proof.
  unfold HandleVerify_prog, on_service, on, HandleVerify. destruct (negb _); [by rewrite set_svc_same|].
  destruct (Decode _ body) as [req|]; [|by rewrite set_svc_same].
  unfold mbind, prog_bind. rewrite alone_then. unfold W_bind. rewrite alone_act. unfold ids_Get, on_service, on, ValidateChallengeID.
  destruct (lru_Get _ _) as [[issued|] ids]; [|done]. cbn [alone]. rewrite alone_act. unfold verify_found, on_service, on, verify_rest, ids_Remove.
  cbn [dp_challengeSvc set_svc s_issuer set_issuer ci_powDifficulty ci_ids s_denyThreshold s_tokenIssuer s_cookieTTL].
  destruct (challengeTTL <? now - issued); [done|]. cbn [negb]. destruct (negb _); [done|].
  destruct (Score _) as [sigs| |]; [|done..]. destruct (fold_left _ _ _) as [total reasons]. destruct (s_denyThreshold _ <=? total); [done|].
  by destruct (Issue _ _ _).
Qed.

Lemma shared_shared log hist d : ok log hist d -> shared_pipeline (set_pl (shared_pipeline d) d) = shared_pipeline d.
Proof.
  intros Hd. pose proof (shared_set_cache log hist d (p_cache (dp_pl d)) Hd) as Hs.
  change (set_cache _ d) with (set_pl (shared_pipeline d) d) in Hs. unfold shared_pipeline at 1. by rewrite Hs.
Qed.

Lemma admin_decide_alone log hist d i r : ok log hist d -> alone (admin_decide_prog i r) d = admin_decide i r d.
Proof.
  intros Hd. assert (Hd1 : ok log hist (set_pl (shared_pipeline d) d)) by (by eapply set_pl_ok, shared_ok).
  unfold admin_decide_prog, admin_decide, decide_ServeHTTP, mbind, prog_bind. rewrite alone_then. unfold W_bind. rewrite alone_act.
  unfold decide_prefix. destruct (negb _); [done|]. destruct (ad_body i) as [data|]; [|done].
  destruct (Decode _ data) as [body|]; [|done]. destruct (String.eqb (dr_RemoteIP body) EmptyString); [done|].
  destruct (api_request _ _ r body) as [s|e|]; [|done..]. cbn [dh_Verifier dh_Pipeline].
  destruct (api_has_valid_token _ _ _) as [tok|e|]; [|done..]. cbn [mbind outcome_bind]. rewrite alone_then. unfold W_bind.
  rewrite (Decide_alone log hist _ _ _ _ (api_context r s body) s _ Hd1 eq_refl). unfold pl_Decide, on. rewrite (shared_shared log hist d Hd).
  by destruct (Decide _ _ _ _ _ _) as [[dec|e|] p].
Qed.

(** Run by itself, the program of an event does what the event does. *)
Lemma event_alone log hist d e : ok log hist d -> alone (event_prog e) d = step e d.
Proof.
  intros Hd. destruct e as [i r capture b|i r| |]; [| |apply alone_act..]; cbn [event_prog];
    (case_match eqn:E; [|apply alone_act..]); case_match; try apply alone_act; subst.
  - unfold mbind, prog_bind. rewrite alone_then. unfold W_bind. rewrite verify_alone. cbn [step]. unfold serve_main. rewrite E.
    unfold mbind, W_bind. by destruct (on_service _ d) as [[]].
  - unfold mbind, prog_bind. rewrite alone_then. unfold W_bind. rewrite (handle_alone log hist) by done. cbn [step]. unfold serve_main. rewrite E.
    unfold mbind, W_bind. by destruct (handle _ _ _ d) as [[]].
  - unfold mbind, prog_bind. rewrite alone_then. unfold W_bind. rewrite (admin_decide_alone log hist) by done. cbn [step]. unfold serve_admin.
    rewrite E. unfold mbind, W_bind. by destruct (admin_decide _ _ d) as [[]].
Qed.

(** A program that ends by itself ends in the pool when nobody else runs. *)
Lemma alone_steps (p : prog outcome_of_event) : forall ts n t d o d',
  ts !! n = Some t -> th_prog t = p -> alone p d = (Ok o, d') ->
  exists t', rtc cstep (ts, d) (<[n := t']> ts, d') /\ th_event t' = th_event t /\ th_prog t' = Ret o.
Proof.
  induction p as [a|X m k IH]; intros ts n t d o d' Hn Ht Ha.
  - cbn in Ha. injection Ha as <- <-. exists t. rewrite list_insert_id by done. split_and!; [apply rtc_refl|done..].
  - cbn in Ha. unfold W_bind in Ha. destruct (m O d) as [[x|e|] d1] eqn:E; [|done..].
    assert (Hs : cstep (ts, d) (<[n := MkThread (th_event t) (k x) (th_seen t ++ [d])]> ts, d1)).
    { eapply (cstep_run n O); [exact Hn|]. rewrite Ht. cbn. by rewrite E. }
    destruct (IH x (<[n := MkThread (th_event t) (k x) (th_seen t ++ [d])]> ts) n (MkThread (th_event t) (k x) (th_seen t ++ [d])) d1 o d')
      as (t' & Hr & He & Hp); [rewrite list_lookup_insert_eq; [done|by eapply lookup_lt_Some]|done|done|].
    exists t'. split_and!; [|by rewrite He|done]. eapply rtc_l; [exact Hs|]. by rewrite list_insert_insert_eq in Hr.
Qed.
End safety.

(** ** What holds of the deployed daemon, however its requests overlap *)
Section deployed_concurrent.
Context `{CEL} `{RedisClient} `{LRULaws entry} `{JWTLaws} `{LRU Z} `{LRULaws Ip.Entry} `{PromLaws}.
#[local] Existing Instance backend_cache | 0.
#[local] Existing Instance backend_spec | 0.

Lemma deployed_config h cfg d c :
  deployed h cfg d -> rtc cstep ([], d) c ->
  exists eval, NewEvaluator (ac_Policy cfg) = Ok eval
  /\ config_ok (ho_iter h) (ho_ip h) (ac_Policy cfg) eval (p_cacheTTL (dp_pl d)) (dp_tokenVerifier d) (s_tokenIssuer (dp_challengeSvc d)) (dp_rev d) c.
Proof.
  intros Hd Hr. assert (Hw := Hd). destruct Hw as (_ & _ & Hw). destruct (deployed_ok h cfg d Hd) as (eval & Hev & Httl & Hok).
  exists eval. split; [done|]. eapply config_reachable; [done..| |exact Hr]. by apply config_start.
Qed.

(** What the outcome of a request says in a reachable configuration. *)
Lemma config_outcome iter env pol eval ttl ver iss rev log ts gs n t o :
  Forall2 (thread_ok iter env pol eval ttl ver iss rev log) ts gs -> ts !! n = Some t -> result t = Some o ->
  exists known lg new, accounted pol eval ttl ver iss rev known lg new (th_event t) o /\ known ⊆ log
  /\ Forall (computed ver (th_seen t) (th_event t)) lg.
Proof.
  intros Hts Ht Ho. destruct (Forall2_lookup_l _ _ _ _ _ Hts Ht) as (g & _ & _ & Hsafe & Hk & _ & Hc & _).
  exists (g_known g), (g_made g), (g_new g). split_and!; [|done..]. unfold result in Ho. destruct (th_prog t) as [o'|]; [|done].
  injection Ho as ->. destruct (max_steps - th_steps t)%nat; exact Hsafe.
Qed.

(** The decision behind a served request, and the request it was made for. *)
Lemma config_decided h cfg d ts d' n t i r capture b resp :
  deployed h cfg d -> rtc cstep ([], d) (ts, d') -> ts !! n = Some t -> th_event t = EvMain i r capture b ->
  result t = Some (OutMain (Served resp)) ->
  let req := buildRequestContext r capture in
  exists eval m k t', NewEvaluator (ac_Policy cfg) = Ok eval
  /\ ts !! k = Some t' /\ computed (dp_tokenVerifier d) (th_seen t') (th_event t') m
  /\ (k = n \/ in_get i <= md_set m + p_cacheTTL (dp_pl d))
  /\ md_key m = computeCacheKey req (pass_state (dp_tokenVerifier d) i r req) /\ speaks vocabulary (md_sigs m)
  /\ ((exists c out, resp = Forwarded c out) <-> d_Verdict (md_dec (ac_Policy cfg) eval m) = VerdictAllow /\ is_Some (dp_rev d)).
Proof.
  intros Hd Hr Ht He Ho req. destruct (deployed_config h cfg d _ Hd Hr) as (eval & Hev & log & hist & gs & _ & Hts & Hlog & _).
  destruct (config_outcome _ _ _ _ _ _ _ _ _ _ _ _ _ _ Hts Ht Ho) as (known & lg & new & Ha & Hk & Hc). rewrite He in Ha.
  destruct Ha as (dec & _ & (m & _ & [Hv _] & Hkey & Hech & Hnew) & Hf). apply echoes_verdict in Hech. rewrite Hech in Hf.
  destruct Hnew as [->|[Hin Hexp]].
  - exists eval, m, n, t. rewrite Forall_singleton in Hc. split_and!; try done. by left.
  - destruct (Hlog m (Hk m Hin)) as (k & t' & Hk' & Hc'). exists eval, m, k, t'. split_and!; try done. by right.
Qed.

(** C1: the gate is complete under concurrency: in every configuration the daemon can reach, however the requests and
    their collectors interleave, a request was sent upstream only on a decision to allow that was made for a request
    that arrived: this one, or another with the same cache key, not longer ago than the cache lifetime.  The signals of
    the decision are the ones that request collected: each of the five collectors ran for it once, in five consecutive
    states the request saw, and every signal it reported counts.  The decision counted a pass cookie only if the
    verifier had accepted one, and allowed because of it with the score of these signals below the deny threshold,
    because the policy answered allow on them, or because the policy had no answer and the score was below both
    thresholds. *)
Theorem gate_sound_concurrent h cfg d ts d' n t i r capture b c out :
  deployed h cfg d -> rtc cstep ([], d) (ts, d') -> ts !! n = Some t -> th_event t = EvMain i r capture b ->
  result t = Some (OutMain (Served (Forwarded c out))) ->
  let req := buildRequestContext r capture in
  let pol := Some (ac_Policy cfg) in
  exists eval m k t', NewEvaluator (ac_Policy cfg) = Ok eval
  /\ ts !! k = Some t' /\ caused (dp_tokenVerifier d) (th_event t') m /\ collected (th_seen t') (md_req m) (md_sigs m)
  /\ (k = n \/ in_get i <= md_set m + p_cacheTTL (dp_pl d))
  /\ md_key m = computeCacheKey req (pass_state (dp_tokenVerifier d) i r req) /\ speaks vocabulary (md_sigs m)
  /\ let score := clamp (sum_scores (weigh pol (md_sigs m))) in
     let rule := rule_action (md_sigs m) pol (buildRequestInfo (md_req m)) (md_tok m) (Some (eval_fn eval)) in
     (md_tok m = true /\ score < deny_threshold pol) \/ rule = ActionAllow
     \/ (rule = ActionNone /\ score < deny_threshold pol /\ score < challenge_threshold pol).
Proof.
  intros Hd Hr Ht He Ho req pol.
  destruct (config_decided h cfg d ts d' n t i r capture b _ Hd Hr Ht He Ho) as (eval & m & k & t' & Q1 & Q2 & [Q3 Q7] & Q4 & Q5 & Q6 & [Hf _]).
  exists eval, m, k, t'. split_and!; try done. destruct Hf as [Hf _]; [eauto|]. exact (combine_allowed _ _ _ _ _ _ Hf).
Qed.

(** C3: solving the challenge lets the visitor through, however the requests overlap: when a verification was answered
    with a pass cookie, a request of the same visitor (address and user agent) that sends the cookie back before the
    token expires is forwarded to the upstream, unless there is a decision with its cache key, made for it or for
    another request of this run not longer ago than the cache lifetime from the signals collected then, whose score
    reaches the deny threshold, or whose key text is another with the same SHA-256. *)
Theorem solved_challenge_admits_concurrent h cfg d ts d' n n' t t' i r capture b code cookie target i' r' capture' b' resp :
  deployed h cfg d -> is_Some (dp_rev d) -> rtc cstep ([], d) (ts, d') ->
  ts !! n = Some t -> th_event t = EvMain i r capture b -> result t = Some (OutMain (Replied (ReplyRedirect code cookie target))) ->
  ts !! n' = Some t' -> th_event t' = EvMain i' r' capture' b' -> result t' = Some (OutMain (Served resp)) ->
  request_utf8 r -> same_visitor r r' -> sends_cookie r' (ck_Value cookie) ->
  in_verify i' < (in_now i + token_ttl (ac_Policy cfg)) / Second * Second ->
  let req := buildRequestContext r' capture' in
  (exists c out, resp = Forwarded c out)
  \/ (exists eval m k t, NewEvaluator (ac_Policy cfg) = Ok eval /\ ts !! k = Some t
      /\ caused (dp_tokenVerifier d) (th_event t) m /\ collected (th_seen t) (md_req m) (md_sigs m)
      /\ (k = n' \/ in_get i' <= md_set m + p_cacheTTL (dp_pl d)) /\ md_key m = computeCacheKey req true
      /\ (deny_threshold (Some (ac_Policy cfg)) <= d_Score (md_dec (ac_Policy cfg) eval m)
          \/ keys_collide (md_req m) (md_tok m) req true)).
Proof.
  intros Hd Hrev Hr Hn He Ho Hn' He' Ho' Hu Hsame Hck Ht req.
  assert (Hpass : pass_state (dp_tokenVerifier d) i' r' req = true).
  { destruct (deployed_config h cfg d _ Hd Hr) as (eval & _ & log & hist & gs & _ & Hts & _ & _).
    destruct (config_outcome _ _ _ _ _ _ _ _ _ _ _ _ _ _ Hts Hn Ho) as (known & lg & new & Ha & _). rewrite He in Ha. destruct Ha as [_ Hred].
    destruct Hd as [Hb _]. apply buildDeps_spec in Hb as (m0 & key & c0 & ev0 & rev0 & _ & _ & _ & _ & _ & ->).
    eapply redeemed_passes; [exact Hred|exact Hu|exact Hsame|exact Hck|exact Ht]. }
  destruct (config_decided h cfg d ts d' n' t' i' r' capture' b' _ Hd Hr Hn' He' Ho') as (eval & m & k & t2 & Q1 & Q2 & [Q3 Q4] & Q5 & Hkey & _ & Hf).
  fold req in Hkey. rewrite Hpass in Hkey.
  destruct (decide (deny_threshold (Some (ac_Policy cfg)) <= d_Score (md_dec (ac_Policy cfg) eval m))) as [Hge|Hlt].
  - right. exists eval, m, k, t2. split_and!; try done. by left.
  - destruct (pass_allows (ac_Policy cfg) eval m req Hkey ltac:(lia)) as [Ha|Hcol]; [left; by apply Hf|].
    right. exists eval, m, k, t2. split_and!; try done. by right.
Qed.

(** C4: requests never block each other and never fail: in every reachable configuration a request has been answered,
    or it has taken fewer than 12 steps and its next step is possible whatever the scheduler chooses; no step panics,
    whatever the requests' bytes.  So each is answered after at most 12 steps of its own, whatever the others do. *)
Theorem requests_wait_free h cfg d ts d' n t :
  deployed h cfg d -> rtc cstep ([], d) (ts, d') -> ts !! n = Some t ->
  is_Some (result t)
  \/ (th_steps t < max_steps)%nat /\ forall c, exists p d'', prog_step c (th_prog t) d' = Some (Ok p, d'').
Proof.
  intros Hd Hr Ht. destruct (deployed_config h cfg d _ Hd Hr) as (eval & _ & log & hist & gs & Hok & Hts & _ & _).
  destruct (Forall2_lookup_l _ _ _ _ _ Hts Ht) as (g & _ & Hle & Hsafe & Hk & _). unfold result.
  destruct (th_prog t) as [o|X m k]; [by left; eexists|right]. destruct (max_steps - th_steps t)%nat as [|left] eqn:El; [done|].
  split; [lia|]. intros c. destruct (Hsafe c log hist d' Hok Hk) as (x & d'' & _ & _ & _ & E & _).
  exists (k x), d''. cbn. by rewrite E.
Qed.

(** The requests the catch-all handler served, as the audit log has them. *)
Definition served_by (t : thread) : list (string * string * Z) :=
  match result t with Some o => served (th_event t) o | None => [] end.

Lemma served_ghosts iter env pol eval ttl ver iss rev log ts gs :
  Forall2 (thread_ok iter env pol eval ttl ver iss rev log) ts gs -> Forall (fun t => is_Some (result t)) ts ->
  map (fun a => (ae_IP a, ae_URL a, ae_Timestamp a)) (concat (g_new <$> gs)) = concat (map served_by ts).
Proof.
  induction 1 as [|t g ts gs (_ & Hsafe & _) _ IH]; intros Hf; [done|]. apply Forall_cons in Hf as [[o Ho] Hf].
  cbn. rewrite map_app, (IH Hf). f_equal. unfold served_by. rewrite Ho. unfold result in Ho.
  destruct (th_prog t) as [o'|]; [|done]. injection Ho as ->.
  eapply (accounted_served pol eval ttl ver iss rev). destruct (max_steps - th_steps t)%nat; exact Hsafe.
Qed.

(** C11: the audit log is complete under concurrency: once all requests have been answered it holds exactly the requests
    the catch-all handler served, one entry each, in some order, down to the last 10,000. *)
Theorem audit_complete_concurrent h cfg d ts d' :
  deployed h cfg d -> rtc cstep ([], d) (ts, d') -> Forall (fun t => is_Some (result t)) ts ->
  exists hist, map (fun a => (ae_IP a, ae_URL a, ae_Timestamp a)) hist ≡ₚ concat (map served_by ts)
  /\ forall t, Since t (dp_audit d') = Ok (List.filter (fun a => t <=? ae_Timestamp a) (lastn audit_slots hist)).
Proof.
  intros Hd Hr Hf. destruct (deployed_config h cfg d _ Hd Hr) as (eval & _ & log & hist & gs & Hok & Hts & _ & Hh).
  cbn [fst] in Hts. exists hist. split; [|intros t; apply Since_spec, Hok]. rewrite <- (served_ghosts _ _ _ _ _ _ _ _ _ _ _ Hts Hf). by rewrite Hh.
Qed.

Lemma run_scheduled h cfg d0 : deployed h cfg d0 -> forall es log hist d eval ts,
  NewEvaluator (ac_Policy cfg) = Ok eval -> 0 < p_cacheTTL (dp_pl d0) ->
  daemon_ok (ho_iter h) (ho_ip h) (ac_Policy cfg) eval (p_cacheTTL (dp_pl d0)) (dp_tokenVerifier d0) (s_tokenIssuer (dp_challengeSvc d0)) (dp_rev d0) log hist d ->
  Forall event_ok es ->
  exists ts' outs, rtc cstep (ts, d) (ts ++ ts', (run es d).2) /\ map th_event ts' = es
  /\ (run es d).1 = map Ok outs /\ map result ts' = map Some outs.
Proof.
  intros (_ & _ & Hw). induction es as [|e es IH]; intros log hist d eval ts Hev Httl Hd Hes.
  { exists [], []. rewrite app_nil_r. split_and!; [apply rtc_refl|done..]. }
  apply Forall_cons in Hes as [He Hes].
  destruct (step_ok _ _ _ _ _ _ _ _ Hw Hev Httl log hist d e Hd He) as (o & d1 & lg & new & E & Hd1 & _).
  assert (Ha : alone (event_prog e) d = (Ok o, d1)) by (by erewrite event_alone).
  destruct (alone_steps (event_prog e) (ts ++ [spawn e]) (length ts) (spawn e) d o d1) as (t' & Hr & Het & Hpt);
    [by rewrite list_lookup_middle|done|exact Ha|].
  rewrite insert_app_r_alt, Nat.sub_diag in Hr by lia. cbn in Hr.
  destruct (IH _ _ d1 eval (ts ++ [t']) Hev Httl Hd1 Hes) as (ts' & outs & Hr' & Hev' & Hrun & Hres).
  exists (t' :: ts'), (o :: outs). cbn [run]. rewrite E. destruct (run es d1) as [os d2]. cbn in *. split_and!.
  - eapply rtc_l; [by apply cstep_arrive|]. etrans; [exact Hr|]. by rewrite <- app_assoc in Hr'.
  - by rewrite Het, Hev'.
  - by rewrite Hrun.
  - unfold result at 1. by rewrite Hpt, Hres.
Qed.

(** The two models of the daemon agree: the sequential one is one of the interleavings; for every sequence of events, running the handlers of [Wire] one
    after the other gives the answers and the state of a schedule of the concurrent daemon. *)
Theorem sequential_schedule h cfg d es :
  deployed h cfg d -> Forall event_ok es ->
  exists ts outs, rtc cstep ([], d) (ts, (run es d).2) /\ map th_event ts = es
  /\ (run es d).1 = map Ok outs /\ map result ts = map Some outs.
Proof.
  intros Hd Hes. destruct (deployed_ok h cfg d Hd) as (eval & Hev & Httl & Hok).
  exact (run_scheduled h cfg d Hd es [] [] d eval [] Hev Httl Hok Hes).
Qed.
End deployed_concurrent.

(** ** Examples *)
#[local] Existing Instance toy_cel.
#[local] Existing Instance toy_jwt.
#[local] Existing Instance toy_jwt_laws.
#[local] Existing Instance toy_prom.
#[local] Existing Instance toy_prom_laws.
#[local] Existing Instance list_lru.
#[local] Existing Instance list_lru_laws.
#[local] Existing Instance no_redis.
#[local] Existing Instance backend_cache | 0.
#[local] Existing Instance backend_spec | 0.

(** A visitor gets a challenge and solves it; two requests with its solution overlap, and so do two page requests with
    the cookie, whose collectors run in different orders. *)
Definition overlapping : list move :=
  [Arrive (at_path "/__as/challenge" "GET" ua_header 1 empty_body); Run 0 0;
   Arrive (at_path "/__as/verify" "POST" ua_header 2 solve_body); Arrive (at_path "/__as/verify" "POST" ua_header 2 solve_body);
   Run 1 0; Run 2 0; Run 1 0; Run 2 0;
   Arrive (at_path "/a" "GET" pass_header 3 empty_body); Arrive (at_path "/a" "GET" pass_header 3 empty_body)]
  ++ concat (zip_with (fun a b => [Run 3 a; Run 4 b]) [0; 0; 0; 0; 0; 0; 0; 0; 0; 0; 0]%nat [0; 0; 4; 3; 2; 1; 0; 0; 0; 0; 0]%nat).

Definition overlapping_results : option (list (option outcome_of_event)) :=
  match buildDeps sample_host strict_app with Ok d => (fun c => map result c.1) <$> exec overlapping ([], d) | _ => None end.

Lemma overlapping_ok : Forall move_ok overlapping.
Proof.
  assert (Hi : forall path method h b t, 0 <= t <= 3 -> event_ok (at_path path method h t b))
    by (intros; apply at_path_ok; unfold in_int, int_min, int_max; lia).
  repeat (apply Forall_cons; split; [first [exact I|apply Hi; lia]|]). constructor.
Qed.

Lemma overlapping_reached :
  exists d ts d', deployed sample_host strict_app d /\ is_Some (dp_rev d) /\ rtc cstep ([], d) (ts, d')
  /\ map th_event ts = arrivals overlapping /\ overlapping_results = Some (map result ts).
Proof.
  destruct strict_deployed as (d & Hd & Hrev & _).
  assert (Hsome : match overlapping_results with Some _ => true | None => false end = true) by (vm_compute; reflexivity).
  unfold overlapping_results in *. rewrite (proj1 Hd) in *.
  destruct (exec overlapping ([], d)) as [[ts d']|] eqn:E; [|discriminate Hsome].
  exists d, ts, d'. split; [exact Hd|]. split; [exact Hrev|]. split; [exact (exec_steps _ _ _ overlapping_ok E)|].
  split; [exact (exec_events _ _ _ E)|reflexivity].
Qed.

(** The [n]th request of the example and its answer. *)
Lemma overlapping_at ts n e o :
  map th_event ts = arrivals overlapping -> overlapping_results = Some (map result ts) ->
  arrivals overlapping !! n = Some e -> (l ← overlapping_results; l !! n) = Some (Some o) ->
  exists t, ts !! n = Some t /\ th_event t = e /\ result t = Some o.
Proof.
  intros He Hr Hn Ho. rewrite Hr in Ho. cbn [mbind option_bind] in Ho. rewrite <- He in Hn.
  change (map th_event ts) with (th_event <$> ts) in Hn. change (map result ts) with (result <$> ts) in Ho.
  rewrite list_lookup_fmap in Hn. rewrite (list_lookup_fmap result) in Ho. destruct (ts !! n) as [t|]; [|done]. exists t. cbn in Hn, Ho. split; [done|]. split; congruence.
Qed.

Definition overlapping_cookie (n : nat) : Cookie :=
  match l ← overlapping_results; l !! n with
  | Some (Some (OutMain (Replied (ReplyRedirect _ cookie _)))) => cookie
  | _ => SetCookie EmptyString EmptyString 0 false
  end.
Definition overlapping_request (n : nat) : Request :=
  match l ← overlapping_results; l !! n with
  | Some (Some (OutMain (Served (Forwarded _ out)))) => out
  | _ => browser_request
  end.

Lemma overlapping_redirects n : n ∈ [1%nat; 2%nat] ->
  (l ← overlapping_results; l !! n) = Some (Some (OutMain (Replied (ReplyRedirect 302 (overlapping_cookie n) "/a")))).
Proof. intros Hn. rewrite !elem_of_cons, elem_of_nil in Hn. destruct Hn as [->|[->|[]]]; vm_compute; reflexivity. Qed.

Lemma overlapping_forwards :
  (l ← overlapping_results; l !! 4%nat) = Some (Some (OutMain (Served (Forwarded None (overlapping_request 4))))).
Proof. vm_compute. reflexivity. Qed.

(** C21: a challenge identifier is not used up once when requests overlap: the daemon reaches a configuration in which two
    verifications with one identifier and one solution were both answered with a pass cookie, because the identifier is
    looked up by both before either removes it. *)
Theorem challenge_redeemed_twice :
  exists d ts d' t1 t2 c1 c2, deployed sample_host strict_app d /\ rtc cstep ([], d) (ts, d')
  /\ ts !! 1%nat = Some t1 /\ ts !! 2%nat = Some t2
  /\ th_event t1 = at_path "/__as/verify" "POST" ua_header 2 solve_body
  /\ th_event t2 = at_path "/__as/verify" "POST" ua_header 2 solve_body
  /\ (vr_ChallengeID <$> Decode verifyRequest_codec (mb_body solve_body)) = Some "abc"
  /\ result t1 = Some (OutMain (Replied (ReplyRedirect 302 c1 "/a"))) /\ result t2 = Some (OutMain (Replied (ReplyRedirect 302 c2 "/a"))).
Proof.
  destruct overlapping_reached as (d & ts & d' & Hd & _ & Hs & He & Hr).
  destruct (overlapping_at ts 1 _ _ He Hr eq_refl (overlapping_redirects 1 ltac:(by left))) as (t1 & H1 & E1 & R1).
  destruct (overlapping_at ts 2 _ _ He Hr eq_refl (overlapping_redirects 2 ltac:(right; by left))) as (t2 & H2 & E2 & R2).
  assert (Hid : (vr_ChallengeID <$> Decode verifyRequest_codec (mb_body solve_body)) = Some "abc") by (vm_compute; reflexivity).
  exact (ex_intro _ d (ex_intro _ ts (ex_intro _ d' (ex_intro _ t1 (ex_intro _ t2 (ex_intro _ (overlapping_cookie 1) (ex_intro _ (overlapping_cookie 2)
    (conj Hd (conj Hs (conj H1 (conj H2 (conj E1 (conj E2 (conj Hid (conj R1 R2))))))))))))))).
Qed.

Lemma gate_sound_concurrent_witness :
  exists d ts d' eval m k t', rtc cstep ([], d) (ts, d') /\ NewEvaluator (ac_Policy strict_app) = Ok eval /\ ts !! k = Some t'
    /\ caused (dp_tokenVerifier d) (th_event t') m /\ collected (th_seen t') (md_req m) (md_sigs m).
Proof.
  destruct overlapping_reached as (d & ts & d' & Hd & _ & Hs & He & Hr). exists d, ts, d'.
  destruct (overlapping_at ts 4 _ _ He Hr eq_refl overlapping_forwards) as (t & Ht & E & R).
  destruct (gate_sound_concurrent sample_host strict_app d ts d' 4 t (at_ingress "/a" 3) (at_request "/a" "GET" pass_header) None empty_body
    None (overlapping_request 4) Hd Hs Ht E R) as (eval & m & k & t' & H1 & H2 & H3 & H4 & _).
  exact (ex_intro _ eval (ex_intro _ m (ex_intro _ k (ex_intro _ t' (conj Hs (conj H1 (conj H2 (conj H3 H4)))))))).
Defined.

Lemma requests_wait_free_witness :
  exists d ts d' t, rtc cstep ([], d) (ts, d') /\ ts !! 4%nat = Some t
    /\ (is_Some (result t) \/ (th_steps t < max_steps)%nat /\ forall c, exists p d'', prog_step c (th_prog t) d' = Some (Ok p, d'')).
Proof.
  destruct overlapping_reached as (d & ts & d' & Hd & _ & Hs & He & Hr). exists d, ts, d'.
  destruct (overlapping_at ts 4 _ _ He Hr eq_refl overlapping_forwards) as (t & Ht & _).
  exact (ex_intro _ t (conj Hs (conj Ht (requests_wait_free sample_host strict_app d ts d' 4 t Hd Hs Ht)))).
Defined.

Lemma overlapping_answered ts : overlapping_results = Some (map result ts) -> Forall (fun t => is_Some (result t)) ts.
Proof.
  intros Hr. assert (Hall : match overlapping_results with Some l => forallb (fun o => match o with Some _ => true | None => false end) l | None => false end = true)
    by (vm_compute; reflexivity).
  rewrite Hr in Hall. clear Hr. induction ts as [|t ts IH]; constructor; cbn in Hall; apply andb_prop in Hall as [Ho Hall].
  - destruct (result t); [eexists; reflexivity|discriminate Ho].
  - exact (IH Hall).
Qed.

Lemma audit_complete_concurrent_witness :
  exists d ts d' hist, rtc cstep ([], d) (ts, d')
    /\ map (fun a => (ae_IP a, ae_URL a, ae_Timestamp a)) hist ≡ₚ concat (map served_by ts).
Proof.
  destruct overlapping_reached as (d & ts & d' & Hd & _ & Hs & _ & Hr). exists d, ts, d'.
  destruct (audit_complete_concurrent sample_host strict_app d ts d' Hd Hs (overlapping_answered ts Hr)) as (hist & H1 & _).
  exact (ex_intro _ hist (conj Hs H1)).
Defined.

Lemma sequential_schedule_witness :
  exists d ts, rtc cstep ([], d) (ts, (run solved_run d).2) /\ map th_event ts = solved_run.
Proof.
  destruct strict_deployed as (d & Hd & _). exists d.
  destruct (sequential_schedule sample_host strict_app d solved_run Hd solved_run_ok) as (ts & outs & H1 & H2 & _).
  exact (ex_intro _ ts (conj H1 H2)).
Defined.

Lemma solved_challenge_admits_concurrent_witness :
  exists d ts d' t resp, rtc cstep ([], d) (ts, d') /\ ts !! 4%nat = Some t /\ result t = Some (OutMain (Served resp))
    /\ ((exists c out, resp = Forwarded c out)
        \/ (exists eval m k t, NewEvaluator (ac_Policy strict_app) = Ok eval /\ ts !! k = Some t
            /\ caused (dp_tokenVerifier d) (th_event t) m /\ collected (th_seen t) (md_req m) (md_sigs m)
            /\ (deny_threshold (Some (ac_Policy strict_app)) <= d_Score (md_dec (ac_Policy strict_app) eval m)
                \/ keys_collide (md_req m) (md_tok m) (buildRequestContext (at_request "/a" "GET" pass_header) None) true))).
Proof.
  destruct overlapping_reached as (d & ts & d' & Hd & Hrev & Hs & He & Hr).
  destruct (overlapping_at ts 1 _ _ He Hr eq_refl (overlapping_redirects 1 ltac:(by left))) as (t1 & H1 & E1 & R1).
  destruct (overlapping_at ts 4 _ _ He Hr eq_refl overlapping_forwards) as (t4 & H4 & E4 & R4).
  exists d, ts, d', t4, (Forwarded None (overlapping_request 4)). refine (conj Hs (conj H4 (conj R4 _))).
  destruct (solved_challenge_admits_concurrent sample_host strict_app d ts d' 1 4 t1 t4 (at_ingress "/__as/verify" 2)
    (at_request "/__as/verify" "POST" ua_header) None solve_body 302 (overlapping_cookie 1) "/a" (at_ingress "/a" 3)
    (at_request "/a" "GET" pass_header) None empty_body _ Hd Hrev Hs H1 E1 R1 H4 E4 R4) as [Hf|(eval & m & k & t & A & B & C & D & _ & _ & E)].
  - split; vm_compute; reflexivity.
  - split; vm_compute; reflexivity.
  - exists [("lang", "en")], []. split_and!; [vm_compute; reflexivity..|]. apply Forall_singleton. vm_compute. discriminate.
  - vm_compute. reflexivity.
  - exact (or_introl Hf).
  - exact (or_intror (ex_intro _ eval (ex_intro _ m (ex_intro _ k (ex_intro _ t (conj A (conj B (conj C (conj D E))))))))).
Defined.
